(* ===== verification/_CoqProject ===== *)
-Q . S2P
Prelude.v
GoLib.v
FreeList.v
BytesQueue.v
Encoding.v
Hash.v
Config.v
GoTime.v
Ttl.v
Shard.v
ShardRace.v
BigCache.v
Refinement.v
Iterator.v
Message.v
SliceList.v
Utf8.v
Json.v
JsonMessage.v
NodeId.v
Chan.v
Connection.v
Node.v
MapCache.v
RemoteNode.v
Cluster.v
ClusterRun.v
Replication.v
ReplicationOrder.v
RemoteGet.v
Detector.v
GroupEnd.v
Faults.v
RegistryRace.v
Sync.v
TestServer.v
Logging.v
