(* ===== verification/Prelude.v ===== *)
(** * clusteredBigCache: a verification development

    The program is a cache for Go programs that keeps its entries in large byte
    arrays, and a layer that shares them between nodes.  This development models
    the cache (package [bigcache] and its [queue]), the messages the nodes exchange (package
    [message]), their connections (package [comms]), the nodes (package [Cluster]) and their
    utilities (package [utils]) as Rocq functions, and proves what makes them correct.

    ** The program and the files

    A client calls [Get], [Set], [Delete], [Reset], [Len] and an iterator on a
    [BigCache].  The cache hashes the key and hands it to one of a power of two of
    shards.  A shard maps hashes to indices in its byte queue, in which each entry is
    stored as a blob (timestamp, hash, key, value); entries that expire are scheduled
    in the shard's expiry table, whose timer wakes a goroutine that evicts them.  The byte
    queue gives the bytes of deleted entries to a free list and reuses them.

    A node holds such a cache, or none if it is passive.  It listens for peers, and joins those it
    is told of; each connection is a remote node with goroutines that read, handle and
    send messages, ping the peer and watch for its answers.  A peer is registered once it has
    named itself.  [Put] and [Delete] change the local cache and queue a message for every
    active peer; [Get] asks the peers when the local cache has nothing.

    - [Prelude.v] (this file): outcomes of Go code (a value, a panic, a goroutine
      blocked for ever) with the notation [let!], machine integers, bytes and
      little-endian integers, slices of a backing array, the shared tactics and
      hint databases.
    - [GoLib.v]: the AVL tree and the hash set of the gods library, which the program
      only calls, as classes with laws; finite maps and sets as instances.
    - [FreeList.v]: [bigcache/queue/freeList.go].  Items are pointers into a heap,
      because the code compares and updates them through pointers.
    - [BytesQueue.v]: [bigcache/queue/bytes_queue.go].  One array, slices that alias it.
    - [Encoding.v]: [bigcache/encoding.go].
    - [Hash.v]: [bigcache/hash.go], [fnv.go].  [Config.v]: [config.go], [utils.go].
    - [GoTime.v]: durations (through [float64], by the Standard Library's SpecFloat),
      timers, mutexes, and [clock.go].
    - [Ttl.v]: [bigcache/ttl.go], the table; its goroutine is at the end of the
      operations of [Shard.v], because it calls the shard.
    - [Shard.v]: [bigcache/shard.go], [stats.go], [entry_not_found_error.go].
    - [ShardRace.v]: the methods of a shard cut where they take and release the lock, lemmas that the pieces
      make up the methods, and the runs in which calls of several goroutines and the eviction goroutine overlap.
    - [BigCache.v]: [bigcache/bigcache.go].
    - [Refinement.v]: the contract of the cache and its runs.
    - [Iterator.v]: [bigcache/iterator.go].
    - [Message.v]: [message/defs.go], [putMessage.go], [getRspMessage.go],
      [pingMessage.go], [pongMessage.go], [verifyOK.go]; the framing of
      [networkSender] and [networkConsumer] in [Cluster/remoteNode.go].
    - [SliceList.v]: [utils/sliceList.go].  [NodeId.v]: [utils/utils.go].
    - [Utf8.v], [Json.v]: what Go's [unicode/utf8] and [encoding/json] do with the messages: the
      texts that are written, a parser of all of JSON, the assignment of fields by name.
    - [JsonMessage.v]: [message/verifyMessge.go], [getReqMessage.go], [deleteMessage.go],
      [syncReqMessage.go], [syncRspMessage.go], and the sum of all messages.
    - [Chan.v]: Go's channels.  [Connection.v]: [comms/connection.go].
    - [Node.v]: the structs and constants of package [Cluster] ([config.go] included) and the interface of
      the local cache, a class with laws that the cache of package [bigcache] keeps;
      [MapCache.v]: the smallest cache that keeps it.
    - [RemoteNode.v]: [Cluster/remoteNode.go].  [Cluster.v]: [Cluster/clusteredBigCache.go].
    - [ClusterRun.v]: the steps of a node, the states it can reach and their invariant.
    - [ReplicationOrder.v]: the five goroutines that [Start] launches on the replication queue, and what a
      peer holds after a series of operations.
    - [GroupEnd.v]: the actors of a remote node, round by round, and the end of their group.
    - [RegistryRace.v]: overlapping calls on the list of nodes.
    - [Replication.v], [RemoteGet.v], [Sync.v], [Detector.v], [Faults.v]: theorems on what the
      parts do together: replication, remote reads, proposing peers, failure detection and
      ending, and what goes wrong.
    - [TestServer.v]: [utils/testUtils.go], the peer of the repository's tests.
    - [Logging.v]: [bigcache/logger.go], [utils/loggerWrapper.go], [utils/defs.go].

    A Go method is a definition on the state record of its type: a method [get] of
    [cacheShard] is [shardGet], fields keep their names with a prefix.  A state that is
    changed is returned; a method that can panic or block returns an [outcome], and an
    error is a value of a sum or option type.  Every lock operation of the code is in the
    definitions, so that a lock that is not released shows.  A definition that reads a
    clock takes the reading as an argument: [epoch] for the cache's clock, [now] for
    [time.Now()] in nanoseconds.  A goroutine with a loop is a definition of one round; [node_step]
    lets rounds and calls interleave in any order.  Remote nodes and requests, which the code
    shares through pointers, are in heaps of the node.  What the network does is an argument: the
    outcome of [Accept] and [Dial], the segments that arrive, how much a write takes.  A [select] with two ready cases
    is decided by an argument.

    ** What the theorems show

    - Free list: in every run, [find] hands out only bytes that were freed and not
      handed out since, and it succeeds whenever a tracked range is large enough;
      [add] tracks exactly the freed bytes and those tracked before, less the left
      neighbour when both neighbours are free.
    - Byte queue: in every run of pushes of entries that are not empty, live entries read back as written, [Push] and [Delete]
      neither panic nor touch other entries, the capacity keeps its limit.
    - Encoding and messages: round trips through the layouts, through frames and through
      a stream of frames, for every key length the 16 bit arithmetic can handle; what
      happens beyond it.
    - Expiry table: the timer is set for the smallest timestamp or a tick is waiting;
      a tick removes only items whose time has come, ends and sets the timer again.
    - Shard and cache: the operations refine those of a map from hashes to items
      ([shard_rep], [cache_rep]); [Refinement.v] lifts this to runs of any length, up to the first [Set] that finds
      its shard full, which keeps the lock ([full_set_deadlocks]).
      The iterator visits every item of a quiet cache once.
    - Overlapping calls on a shard: in every interleaving, the store is the map that the sections under the
      lock make in their order, with answers that are true of it ([overlapping_calls_refine_map]), and every
      item that expires stays scheduled as long as no deletion is overtaken.  What
      the methods do after they release the lock is not covered by it: a [get] can return the value of another
      key, it panics exactly when the bytes it finds give too long a key, and a [del] can unschedule the next item of its key.
    - Messages and connections: each of the ten messages arrives as it was sent if its JSON texts are
      valid UTF-8; reading a connection is reading the stream however it is cut; sending writes
      a prefix, all of it without an error; node identifiers are those of a reference
      definition, and the generator ends with every source that keeps naming letters.
    - Nodes: every reachable state is well formed; an unverified peer cannot act; a put is stored and
      queued for every active peer, and stored by the peer that reads it, unless a full shard keeps it out; deletions likewise; a read is
      answered locally or asks every active peer and returns what one holds; the failure detector gives up exactly the peers that are silent
      for long enough; a remote node ends in the same state in whatever order its actors are
      interrupted; after that no actor panics and all return once the ping actors stop taking ticks, and it is torn down ([group_ends]); joining ends;
      a joining node is told of all other peers.
    - Replicas: a peer that handles the messages of a series of operations in their order, with keys that travel and no
      full shard on either side, ends with the same keys and values; the replication goroutines lose and double no message
      but can change their order, and then the peer keeps what was replaced or deleted.
    - The list of nodes: the exact value of its counter in every interleaving; overlapping removals of one key can make it negative, when [Values]
      panics; two connections of a peer can both be accepted.
    - The test server answers every message that arrives in a piece of its own, in order, and misreads a
      header that arrives in two.
    - Defects of the nodes: a second connection unregisters the first, messages behind the greeting
      are lost, early replies are lost, failed handshakes are never tried again, a replica
      outlives its expiry, [ShutDown] leaves connections that panic, keys that are not UTF-8
      are altered.
    - Defects of the cache, as theorems on runs or inputs: the lock that a [set] on a full
      queue keeps, the bytes the free list loses, [Reset] that keeps stale free
      ranges, 16 bit sums that wrap, length fields that are not checked.

    ** Bounds and fuel

    Go's [int] is [Z]; it is kept at 64 bits where the code's arithmetic can reach the limit
    (configuration sizes, [Len], counters, indices of the iterator) and unbounded in the
    queue, whose array exhausts memory first.  Indices are truncated to 32 bits in the hash map
    as in the code; the hypothesis [fits32] says when this loses nothing.  Key lengths are
    kept at 16 bits; [key_ok] is the bound below which they do not wrap.
    [timer_range] bounds how far a timestamp may be from the clock so that the nanoseconds of
    a timer fit an [int64] (292 years).
    Fuel: [evictionLoop] gets the size of the tree, which every round shrinks; the JSON parser gets twice the
    length of the text, and [parse_fuel] shows that more changes nothing; [readFull] and [writeLoop] (and with them
    [consumerStep] and [senderStep]) need one more than the bytes to read or write, since every
    round moves at least one; [idLoop] needs as many rounds as the source takes to name the letters;
    [networkConsumer] and [collect] take fuel, and theorems state how much is enough; all other
    loops recurse on their data.

    ** What is not modelled

    The output of loggers, and the texts of [Statistics] and of the not-found error, which package [fmt] quotes; the effect of read deadlines and of [SetKeepAlive];
    the order in which the third-party [run.Group] runs interrupt functions (every order is
    considered).  In [ClusterRun.v] the rounds of a node are atomic, except where [Get] waits; rounds cut in two are in
    [ReplicationOrder.v] and [RegistryRace.v].  In [ShardRace.v] a step is a section under a lock or what follows it; a
    store is a step only while the queue is below 4 GiB, where indices fit 32 bits, and [Reset], [Len] and the
    iterator, which reads without the lock, are not among the calls.  In [GroupEnd.v] an actor is at the head of its loop or waits for
    the socket when the interrupt functions run; a consumer between its state check and its read panics then
    ([read_after_shutdown_panics] in [Connection.v]), and a handler that is interrupted within a message is not considered.  The absence of panics over whole runs of nodes, and several nodes
    in one system, are the next steps. *)

From stdpp Require Import base decidable countable list gmap.
From Stdlib Require Import ZArith Lia Strings.Byte.

Open Scope Z_scope.

(** ** Outcomes of Go code *)

(** What running a piece of Go code produces: a value, a run-time panic
    (slice bounds, nil map, negative [make], division by zero), or a
    goroutine that waits for ever on a mutex it can never acquire. *)
Inductive outcome (A : Type) : Type :=
| Ret (a : A)
| Panic
| Stuck.

Arguments Ret {A} _.
Arguments Panic {A}.
Arguments Stuck {A}.

Definition obind {A B : Type} (m : outcome A) (k : A -> outcome B) : outcome B :=
  match m with
  | Ret a => k a
  | Panic => Panic
  | Stuck => Stuck
  end.

Declare Scope go_scope.
Delimit Scope go_scope with go.
Notation "'let!' x ':=' m 'in' k" :=
  (obind m (fun x => k))
  (at level 10, x pattern, m at level 100, k at level 200) : go_scope.
Open Scope go_scope.

Definition is_Ret {A : Type} (m : outcome A) : Prop := exists a, m = Ret a.

(** ** Machine integers *)

Definition u16 (z : Z) : Z := z mod 2 ^ 16.

Definition u32 (z : Z) : Z := z mod 2 ^ 32.

Definition u64 (z : Z) : Z := z mod 2 ^ 64.

(** Conversion to (and wrap-around of) Go's [int64] and [int]. *)
Definition i64 (z : Z) : Z := (z + 2 ^ 63) mod 2 ^ 64 - 2 ^ 63.

Definition i32 (z : Z) : Z := (z + 2 ^ 31) mod 2 ^ 32 - 2 ^ 31.

(** ** Bytes, strings and little-endian integers *)

#[export] Instance byte_EqDecision : EqDecision byte := Byte.byte_eq_dec.

#[export] Instance byte_countable : Countable byte :=
  inj_countable Byte.to_N Byte.of_N Byte.of_to_N.

(** A Go string is an immutable sequence of bytes. *)
Abbreviation gostring := (list byte).

Definition byte_Z (b : byte) : Z := Z.of_N (Byte.to_N b).

(** Go's conversion [byte(v)]. *)
Definition Z_byte (z : Z) : byte :=
  match Byte.of_N (Z.to_N (z mod 256)) with
  | Some b => b
  | None => Byte.x00
  end.

(** [binary.LittleEndian.PutUintN]: the [n] bytes it stores. *)
Fixpoint le_bytes (n : nat) (z : Z) : list byte :=
  match n with
  | O => []
  | S n' => Z_byte z :: le_bytes n' (Z.shiftr z 8)
  end.

(** [binary.LittleEndian.UintN]: the integer it reads. *)
Fixpoint le_Z (bs : list byte) : Z :=
  match bs with
  | [] => 0
  | b :: bs' => Z.lor (byte_Z b) (Z.shiftl (le_Z bs') 8)
  end.

(** [len] *)
Definition zlen {A : Type} (l : list A) : Z := Z.of_nat (length l).

(** [make([]byte, n)] for a non-negative [n]. *)
Definition zeros (n : Z) : list byte := replicate (Z.to_nat n) Byte.x00.

(** The [n] bytes of [arr] from offset [o]. *)
Definition region (arr : list byte) (o n : Z) : list byte :=
  take (Z.to_nat n) (drop (Z.to_nat o) arr).

(** The effect of [copy(arr[off:], src)] on [arr]: it stores as many bytes of
    [src] as fit. *)
Definition blit (arr : list byte) (off : Z) (src : list byte) : list byte :=
  take (Z.to_nat off) arr
    ++ take (length arr - Z.to_nat off) src
    ++ drop (Z.to_nat off + length src) arr.

(** ** Slices of a backing array *)

(** A Go slice that points into a backing array: its offset and length; its
    capacity reaches to the end of the array. *)
Record slice : Type := Slice { sl_off : Z; sl_len : Z }.

Definition sl_cap (arr : list byte) (s : slice) : Z := zlen arr - sl_off s.

(** The bytes the slice shows when the array holds [arr]. *)
Definition sl_bytes (arr : list byte) (s : slice) : list byte :=
  region arr (sl_off s) (sl_len s).

(** [s[lo:hi]]: bounded by the capacity, not by the length. *)
Definition sl_slice (arr : list byte) (s : slice) (lo hi : Z) : outcome slice :=
  if (0 <=? lo) && (lo <=? hi) && (hi <=? sl_cap arr s)
  then Ret (Slice (sl_off s + lo) (hi - lo))
  else Panic.

(** [s[lo:]] *)
Definition sl_from (arr : list byte) (s : slice) (lo : Z) : outcome slice :=
  if (0 <=? lo) && (lo <=? sl_len s)
  then Ret (Slice (sl_off s + lo) (sl_len s - lo))
  else Panic.

(** [binary.LittleEndian.UintN(s)] with [n] bytes; it panics on a short slice. *)
Definition sl_getUint (n : Z) (arr : list byte) (s : slice) : outcome Z :=
  if n <=? sl_len s then Ret (le_Z (region arr (sl_off s) n)) else Panic.

(** [binary.LittleEndian.PutUintN(s, v)] with [n] bytes. *)
Definition sl_putUint (n : Z) (arr : list byte) (s : slice) (v : Z) : outcome (list byte) :=
  if n <=? sl_len s
  then Ret (blit arr (sl_off s) (le_bytes (Z.to_nat n) v))
  else Panic.

(** The whole of an array as a slice. *)
Definition sl_all (arr : list byte) : slice := Slice 0 (zlen arr).

#[global] Arguments zlen {A} l : simpl never.
#[global] Arguments zeros n : simpl never.
#[global] Arguments region arr o n : simpl never.
#[global] Arguments blit arr off src : simpl never.

(** ** Tactics and hint databases *)

(** Turns boolean comparisons in the context and the goal into propositions. *)
Ltac zbool :=
  repeat match goal with
  | H : (_ && _) = true |- _ => apply andb_true_iff in H; destruct H
  | H : (_ && _) = false |- _ => apply andb_false_iff in H
  | H : (_ || _) = true |- _ => apply orb_true_iff in H
  | H : (_ || _) = false |- _ => apply orb_false_iff in H; destruct H
  | H : negb _ = true |- _ => apply negb_true_iff in H
  | H : negb _ = false |- _ => apply negb_false_iff in H
  | H : (_ <=? _) = true |- _ => apply Z.leb_le in H
  | H : (_ <=? _) = false |- _ => apply Z.leb_gt in H
  | H : (_ <? _) = true |- _ => apply Z.ltb_lt in H
  | H : (_ <? _) = false |- _ => apply Z.ltb_ge in H
  | H : (_ >=? _) = true |- _ => rewrite Z.geb_leb in H; apply Z.leb_le in H
  | H : (_ >=? _) = false |- _ => rewrite Z.geb_leb in H; apply Z.leb_gt in H
  | H : (_ >? _) = true |- _ => rewrite Z.gtb_ltb in H; apply Z.ltb_lt in H
  | H : (_ >? _) = false |- _ => rewrite Z.gtb_ltb in H; apply Z.ltb_ge in H
  | H : (_ =? _) = true |- _ => apply Z.eqb_eq in H
  | H : (_ =? _) = false |- _ => apply Z.eqb_neq in H
  end.

(** Splits on the first conditional of the goal. *)
Ltac case_if :=
  match goal with
  | |- context [if ?b then _ else _] => destruct b eqn:?
  end; zbool.

(** Inverts a successful run of a sequence of Go statements. *)
Ltac inv_outcome :=
  repeat match goal with
  | H : obind ?m _ = Ret _ |- _ =>
      let E := fresh "E" in destruct m eqn:E; simpl in H; [ | discriminate H | discriminate H ]
  | H : Ret _ = Ret _ |- _ => injection H as H; subst
  | H : Panic = Ret _ |- _ => discriminate H
  | H : Stuck = Ret _ |- _ => discriminate H
  end.

(** Propositional reasoning about byte ranges: splits on every interval the
    goal and the context mention, then closes each case by arithmetic. *)
Ltac decide_ranges :=
  let split_range a x b :=
    lazymatch goal with
    | _ : a <= x < b |- _ => fail
    | _ : ~ (a <= x < b) |- _ => fail
    | _ => destruct (decide (a <= x < b))
    end in
  repeat match goal with
  | |- context [?a <= ?x < ?b] => split_range a x b
  | _ : context [?a <= ?x < ?b] |- _ => split_range a x b
  end; intuition lia.

Create HintDb golen.
Create Rewrite HintDb golen.
Create Rewrite HintDb goregion.

(** ** Little-endian integers *)

Lemma byte_Z_range (b : byte) : 0 <= byte_Z b < 256.
Proof.
  unfold byte_Z. pose proof (Byte.to_N_bounded b). lia.
Qed.

Lemma byte_Z_inj (a b : byte) : byte_Z a = byte_Z b -> a = b.
Proof.
  unfold byte_Z. intros H. apply N2Z.inj in H.
  apply (f_equal Byte.of_N) in H. rewrite !Byte.of_to_N in H. congruence.
Qed.

Lemma byte_Z_Z_byte (z : Z) : byte_Z (Z_byte z) = z mod 256.
Proof.
  pose proof (Z.mod_pos_bound z 256 ltac:(lia)) as Hr.
  unfold Z_byte. destruct (Byte.of_N (Z.to_N (z mod 256))) as [b|] eqn:E.
  - apply Byte.to_of_N in E. unfold byte_Z. rewrite E. lia.
  - apply Byte.of_N_None_iff in E. lia.
Qed.

Lemma length_le_bytes (n : nat) (z : Z) : length (le_bytes n z) = n.
Proof. revert z; induction n; intros z; simpl; [reflexivity|]. by rewrite IHn. Qed.

Lemma lor_shiftl_add (a b : Z) :
  0 <= a < 256 -> Z.lor a (Z.shiftl b 8) = a + 256 * b.
Proof.
  intros Ha.
  rewrite <- Z.add_nocarry_lor.
  - rewrite Z.shiftl_mul_pow2 by lia. lia.
  - apply Z.bits_inj'. intros i Hi. rewrite Z.land_spec, Z.bits_0.
    rewrite Z.shiftl_spec by lia.
    destruct (Z.ltb_spec i 8).
    + rewrite (Z.testbit_neg_r b) by lia. by rewrite andb_false_r.
    + replace a with (a mod 2 ^ 8) by (apply Z.mod_small; lia).
      by rewrite Z.mod_pow2_bits_high by lia.
Qed.

Lemma le_Z_cons (b : byte) (bs : list byte) :
  le_Z (b :: bs) = byte_Z b + 256 * le_Z bs.
Proof. simpl. apply lor_shiftl_add, byte_Z_range. Qed.

Lemma le_Z_range (bs : list byte) : 0 <= le_Z bs < 256 ^ zlen bs.
Proof.
  unfold zlen. induction bs as [|b bs IH]; [simpl; lia|].
  rewrite le_Z_cons. cbn [length]. rewrite Nat2Z.inj_succ, Z.pow_succ_r by lia.
  pose proof (byte_Z_range b). nia.
Qed.

(** Reading back what a [PutUintN] stored gives the value modulo [2^N]. *)
Lemma le_Z_le_bytes (n : nat) (z : Z) :
  le_Z (le_bytes n z) = z mod 256 ^ Z.of_nat n.
Proof.
  revert z; induction n as [|n IH]; intros z.
  { cbn. by rewrite Z.mod_1_r. }
  cbn [le_bytes]. rewrite le_Z_cons, byte_Z_Z_byte, IH.
  rewrite Z.shiftr_div_pow2 by lia. change (2 ^ 8) with 256.
  rewrite Nat2Z.inj_succ, Z.pow_succ_r by lia.
  rewrite (Z.rem_mul_r z 256 (256 ^ Z.of_nat n)) by lia. lia.
Qed.

Lemma le_Z_le_bytes_small (n : nat) (z : Z) :
  0 <= z < 256 ^ Z.of_nat n -> le_Z (le_bytes n z) = z.
Proof. intros H. rewrite le_Z_le_bytes. by apply Z.mod_small. Qed.

(** ** Regions of an array *)

Lemma zlen_nonneg {A : Type} (l : list A) : 0 <= zlen l.
Proof. unfold zlen. lia. Qed.

Lemma zlen_app {A : Type} (l k : list A) : zlen (l ++ k) = zlen l + zlen k.
Proof. unfold zlen. rewrite length_app. lia. Qed.

Lemma zlen_nil {A : Type} : zlen (@nil A) = 0.
Proof. reflexivity. Qed.

Lemma zlen_cons {A : Type} (x : A) (l : list A) : zlen (x :: l) = 1 + zlen l.
Proof. unfold zlen. simpl. lia. Qed.

Lemma zlen_zeros (n : Z) : 0 <= n -> zlen (zeros n) = n.
Proof. unfold zlen, zeros. rewrite length_replicate. lia. Qed.

Lemma zlen_le_bytes (n : nat) (z : Z) : zlen (le_bytes n z) = Z.of_nat n.
Proof. unfold zlen. by rewrite length_le_bytes. Qed.

Lemma zlen_region (arr : list byte) (o n : Z) :
  0 <= o -> 0 <= n -> o + n <= zlen arr -> zlen (region arr o n) = n.
Proof.
  unfold zlen, region. intros. rewrite length_take, length_drop. lia.
Qed.

Lemma zlen_blit (arr : list byte) (off : Z) (src : list byte) :
  0 <= off <= zlen arr -> zlen (blit arr off src) = zlen arr.
Proof.
  unfold zlen, blit. intros. rewrite !length_app, !length_take, length_drop. lia.
Qed.

#[export] Hint Rewrite @zlen_app @zlen_nil @zlen_cons zlen_le_bytes : golen.
#[export] Hint Rewrite zlen_zeros zlen_region zlen_blit using lia : golen.
#[export] Hint Resolve zlen_nonneg : golen.

Lemma lookup_region (arr : list byte) (o n : Z) (i : nat) :
  region arr o n !! i =
  if decide (i < Z.to_nat n)%nat then arr !! (Z.to_nat o + i)%nat else None.
Proof.
  unfold region. case_decide as H.
  - rewrite lookup_take_lt by lia. apply lookup_drop.
  - apply lookup_take_ge. lia.
Qed.

Lemma lookup_blit (arr : list byte) (off : Z) (src : list byte) (i : nat) :
  0 <= off -> off + zlen src <= zlen arr ->
  blit arr off src !! i =
  if decide (Z.to_nat off <= i < Z.to_nat off + length src)%nat
  then src !! (i - Z.to_nat off)%nat else arr !! i.
Proof.
  unfold zlen, blit. intros Ho Hl.
  rewrite (take_ge src) by lia.
  destruct (decide (i < Z.to_nat off)%nat) as [H1|H1].
  { rewrite lookup_app_l by (rewrite length_take; lia).
    rewrite lookup_take_lt by lia. by rewrite decide_False by lia. }
  rewrite lookup_app_r by (rewrite length_take; lia).
  rewrite length_take, Nat.min_l by lia.
  destruct (decide (i < Z.to_nat off + length src)%nat) as [H2|H2].
  { rewrite lookup_app_l by lia. by rewrite decide_True by lia. }
  rewrite lookup_app_r by lia. rewrite lookup_drop.
  rewrite decide_False by lia. f_equal. lia.
Qed.

(** Two arrays that agree position by position on a window show the same
    region there. *)
Lemma region_ext (a b : list byte) (o o' n : Z) :
  (forall i : nat, (i < Z.to_nat n)%nat ->
     a !! (Z.to_nat o + i)%nat = b !! (Z.to_nat o' + i)%nat) ->
  region a o n = region b o' n.
Proof.
  intros H. apply list_eq. intros i. rewrite !lookup_region.
  case_decide; [by apply H | reflexivity].
Qed.

Lemma region_blit_same (arr src : list byte) (off : Z) :
  0 <= off -> off + zlen src <= zlen arr ->
  region (blit arr off src) off (zlen src) = src.
Proof.
  intros. apply list_eq. intros i. rewrite lookup_region.
  unfold zlen. rewrite Nat2Z.id. case_decide as Hi.
  - rewrite lookup_blit by done. rewrite decide_True by lia. f_equal. lia.
  - symmetry. apply lookup_ge_None. lia.
Qed.

Lemma region_blit_disjoint (arr src : list byte) (off o n : Z) :
  0 <= off -> off + zlen src <= zlen arr -> 0 <= o ->
  o + n <= off \/ off + zlen src <= o ->
  region (blit arr off src) o n = region arr o n.
Proof.
  intros Hoff Hl Ho Hd. apply region_ext. intros i Hi.
  rewrite lookup_blit by done.
  rewrite decide_False; [reflexivity|]. unfold zlen in *. lia.
Qed.

(** A write inside a window rewrites the window at the relative offset. *)
Lemma region_blit_inside (arr src : list byte) (off o n : Z) :
  0 <= o -> o <= off -> off + zlen src <= o + n -> o + n <= zlen arr ->
  region (blit arr off src) o n = blit (region arr o n) (off - o) src.
Proof.
  intros Ho Hoff Hin Hlen. pose proof (zlen_nonneg src).
  apply list_eq. intros i. rewrite lookup_region.
  rewrite (lookup_blit (region arr o n)) by (rewrite ?zlen_region; lia).
  rewrite (lookup_blit arr) by lia. rewrite lookup_region.
  unfold zlen in *.
  repeat case_decide; try lia; try reflexivity. f_equal. lia.
Qed.

Lemma region_app_l (a b : list byte) (o n : Z) :
  0 <= o -> 0 <= n -> o + n <= zlen a -> region (a ++ b) o n = region a o n.
Proof.
  unfold zlen. intros. apply region_ext. intros i Hi.
  rewrite lookup_app_l by lia. reflexivity.
Qed.

Lemma region_app_r (a b : list byte) (n : Z) :
  n = zlen b -> region (a ++ b) (zlen a) n = b.
Proof.
  intros ->. unfold region, zlen. rewrite !Nat2Z.id, drop_app_length, take_ge; done.
Qed.

Lemma region_region (arr : list byte) (o n o' n' : Z) :
  0 <= o -> 0 <= o' -> o' + n' <= n ->
  region (region arr o n) o' n' = region arr (o + o') n'.
Proof.
  intros. apply list_eq. intros i. rewrite !lookup_region.
  repeat case_decide; try lia; try reflexivity. f_equal. lia.
Qed.

Lemma region_full (arr : list byte) (n : Z) : n = zlen arr -> region arr 0 n = arr.
Proof. intros ->. unfold region, zlen. rewrite Nat2Z.id, drop_0. by apply take_ge. Qed.

Lemma region_cat (arr : list byte) (o n m : Z) :
  0 <= o -> 0 <= n -> 0 <= m -> o + n + m <= zlen arr ->
  region arr o n ++ region arr (o + n) m = region arr o (n + m).
Proof.
  intros. apply list_eq. intros i. rewrite lookup_region.
  pose proof (zlen_region arr o n ltac:(lia) ltac:(lia) ltac:(lia)) as HL.
  unfold zlen in HL.
  destruct (decide (i < Z.to_nat n)%nat).
  - rewrite lookup_app_l by lia. rewrite lookup_region, !decide_True by lia. done.
  - rewrite lookup_app_r by lia. rewrite lookup_region.
    repeat case_decide; try lia; try reflexivity. f_equal. lia.
Qed.

(** [copy] of a prefix of an array into a larger fresh array keeps every window
    of the prefix. *)
Lemma region_blit_prefix (dst arr : list byte) (n o len : Z) :
  0 <= n <= zlen arr -> n <= zlen dst -> 0 <= o -> o + len <= n ->
  region (blit dst 0 (region arr 0 n)) o len = region arr o len.
Proof.
  intros Hn Hd Ho Hlen.
  assert (zlen (region arr 0 n) = n) as HL by (rewrite zlen_region; lia).
  apply region_ext. intros i Hi. rewrite lookup_blit by lia.
  unfold zlen in HL. rewrite decide_True by lia.
  rewrite lookup_region, decide_True by lia. f_equal. lia.
Qed.

#[export] Hint Rewrite region_blit_same region_blit_disjoint using (autorewrite with golen; lia) : goregion.

(** ** Slices *)

Lemma sl_getUint_Ret (n : Z) (arr : list byte) (s : slice) :
  n <= sl_len s -> sl_getUint n arr s = Ret (le_Z (region arr (sl_off s) n)).
Proof. intros H. unfold sl_getUint. by rewrite (proj2 (Z.leb_le _ _) H). Qed.

Lemma sl_from_Ret (arr : list byte) (s : slice) (lo : Z) :
  0 <= lo <= sl_len s -> sl_from arr s lo = Ret (Slice (sl_off s + lo) (sl_len s - lo)).
Proof.
  intros H. unfold sl_from.
  by rewrite (proj2 (Z.leb_le 0 lo)), (proj2 (Z.leb_le lo (sl_len s))) by lia.
Qed.

Lemma sl_slice_Ret (arr : list byte) (s : slice) (lo hi : Z) :
  0 <= lo <= hi -> hi <= sl_cap arr s ->
  sl_slice arr s lo hi = Ret (Slice (sl_off s + lo) (hi - lo)).
Proof.
  intros H1 H2. unfold sl_slice.
  by rewrite (proj2 (Z.leb_le 0 lo)), (proj2 (Z.leb_le lo hi)),
     (proj2 (Z.leb_le hi (sl_cap arr s))) by lia.
Qed.

Lemma sl_putUint_Ret (n : Z) (arr : list byte) (s : slice) (v : Z) :
  n <= sl_len s ->
  sl_putUint n arr s v = Ret (blit arr (sl_off s) (le_bytes (Z.to_nat n) v)).
Proof. intros H. unfold sl_putUint. by rewrite (proj2 (Z.leb_le _ _) H). Qed.

(** The middle of three parts. *)
Lemma region_mid (a b c : list byte) (o n : Z) :
  o = zlen a -> n = zlen b -> region (a ++ b ++ c) o n = b.
Proof.
  intros -> ->. unfold region, zlen. rewrite !Nat2Z.id.
  by rewrite drop_app_length, take_app_length.
Qed.

Lemma region_end (a b : list byte) (o n : Z) :
  o = zlen a -> n = zlen b -> region (a ++ b) o n = b.
Proof. intros Ho Hn. pose proof (region_mid a b [] o n Ho Hn) as H. by rewrite app_nil_r in H. Qed.

(** ** Filling a buffer *)

(** [copy(s, src)] for a slice [s] of [arr]. *)
Definition sl_copy (arr : list byte) (s : slice) (src : list byte) : list byte :=
  blit arr (sl_off s) (take (Z.to_nat (sl_len s)) src).

(** A slice that lies inside its array. *)
Definition sl_ok (arr : list byte) (s : slice) : Prop :=
  0 <= sl_off s /\ 0 <= sl_len s /\ sl_off s + sl_len s <= zlen arr.

(** Writing next to what was already written extends the prefix. *)
Lemma prefix_blit (arr pre src : list byte) (n : Z) :
  n = zlen pre -> n + zlen src <= zlen arr ->
  region arr 0 n = pre ->
  region (blit arr n src) 0 (n + zlen src) = pre ++ src.
Proof.
  intros -> Hl Hp. pose proof (zlen_nonneg pre). pose proof (zlen_nonneg src).
  rewrite <- region_cat by (rewrite ?zlen_blit; lia).
  rewrite region_blit_disjoint by lia. rewrite Hp. f_equal.
  rewrite Z.add_0_l. apply region_blit_same; lia.
Qed.

Lemma take_zlen {A : Type} (l : list A) (n : Z) : zlen l <= n -> take (Z.to_nat n) l = l.
Proof. unfold zlen. intros. apply take_ge. lia. Qed.

(** A buffer whose first bytes are written, and the writes that extend them, in
    the form in which the code has them. *)
Definition filled (arr pre : list byte) : Prop :=
  zlen pre <= zlen arr /\ region arr 0 (zlen pre) = pre.

Lemma filled_nil (arr : list byte) : filled arr [].
Proof. split; [rewrite zlen_nil; apply zlen_nonneg|done]. Qed.

Lemma filled_blit (arr pre src : list byte) :
  filled arr pre -> zlen pre + zlen src <= zlen arr ->
  filled (blit arr (zlen pre) src) (pre ++ src) /\ zlen (blit arr (zlen pre) src) = zlen arr.
Proof.
  intros [Hl Hr] Hs. pose proof (zlen_nonneg pre). pose proof (zlen_nonneg src).
  assert (zlen (blit arr (zlen pre) src) = zlen arr) as Hz by (apply zlen_blit; lia).
  split; [|done]. split; rewrite zlen_app; [lia|]. by apply prefix_blit.
Qed.

Lemma filled_full (arr pre : list byte) : filled arr pre -> zlen arr = zlen pre -> arr = pre.
Proof. intros [_ Hr] Hl. by rewrite region_full in Hr. Qed.

Lemma filled_first {A : Type} (arr : list byte) (n v : Z) (k : list byte -> outcome A) :
  0 <= n <= zlen arr ->
  exists arr', (let! a := sl_putUint n arr (sl_all arr) v in k a) = k arr' /\
    filled arr' (le_bytes (Z.to_nat n) v) /\ zlen arr' = zlen arr.
Proof.
  intros Hn. rewrite sl_putUint_Ret by (simpl; lia). cbn [obind sl_all sl_off].
  eexists. split; [done|].
  apply (filled_blit arr [] (le_bytes (Z.to_nat n) v) (filled_nil arr)).
  rewrite zlen_nil, zlen_le_bytes. lia.
Qed.

Lemma filled_put {A : Type} {arr pre : list byte} (Hf : filled arr pre) (off n v : Z)
    (k : list byte -> outcome A) :
  off = zlen pre -> 0 <= n -> off + n <= zlen arr ->
  exists arr',
    (let! s := sl_from arr (sl_all arr) off in let! a := sl_putUint n arr s v in k a) = k arr' /\
    filled arr' (pre ++ le_bytes (Z.to_nat n) v) /\ zlen arr' = zlen arr.
Proof.
  intros -> Hn Hl. pose proof (zlen_nonneg pre).
  rewrite sl_from_Ret by (simpl; lia). cbn [obind sl_all sl_off sl_len].
  rewrite sl_putUint_Ret by (simpl; lia). cbn [obind sl_off]. rewrite Z.add_0_l.
  eexists. split; [done|]. apply filled_blit; [done|]. rewrite zlen_le_bytes. lia.
Qed.

Lemma filled_copy {A : Type} {arr pre : list byte} (Hf : filled arr pre) (src : list byte) (off : Z)
    (k : list byte -> outcome A) :
  off = zlen pre -> off + zlen src <= zlen arr ->
  exists arr',
    (let! s := sl_from arr (sl_all arr) off in let! a := Ret (sl_copy arr s src) in k a) = k arr' /\
    filled arr' (pre ++ src) /\ zlen arr' = zlen arr.
Proof.
  intros -> Hl. pose proof (zlen_nonneg pre). pose proof (zlen_nonneg src).
  rewrite sl_from_Ret by (simpl; lia). cbn [obind sl_all sl_off sl_len].
  unfold sl_copy. cbn [sl_off sl_len]. rewrite take_zlen by lia. rewrite Z.add_0_l.
  eexists. split; [done|]. by apply filled_blit.
Qed.

Lemma sl_copy_zeros (n : Z) (src : list byte) :
  n = zlen src -> sl_copy (zeros n) (sl_all (zeros n)) src = src.
Proof.
  intros ->. pose proof (zlen_nonneg src). unfold sl_copy, sl_all. cbn [sl_off sl_len].
  assert (zlen (zeros (zlen src)) = zlen src) as Hz by (apply zlen_zeros; lia).
  rewrite Hz, take_zlen by lia.
  pose proof (region_blit_same (zeros (zlen src)) src 0 ltac:(lia) ltac:(lia)) as Hr.
  by rewrite region_full in Hr by (rewrite zlen_blit; lia).
Qed.

Lemma sl_all_ok (arr : list byte) : sl_ok arr (sl_all arr).
Proof. unfold sl_ok, sl_all. simpl. pose proof (zlen_nonneg arr). lia. Qed.

Lemma sl_all_bytes (arr : list byte) : sl_bytes arr (sl_all arr) = arr.
Proof. unfold sl_bytes, sl_all. simpl. by apply region_full. Qed.
