(* ===== verification/GoLib.v ===== *)
(** * The third-party containers the cache is built on

    [bigcache/queue/freeList.go] and [bigcache/ttl.go] keep their state in
    [github.com/emirpasic/gods]: an AVL tree with integer keys, and a hash set
    of strings.  That library is not part of the repository, so it is an
    interface here: a class of operations and a class of the laws its
    documentation promises, through the finite map (or set) it holds.  The
    components are defined and proved against the interface; the instances at
    the end of the file are the reference containers the examples run on. *)

From stdpp Require Import base decidable countable list gmap.
From Stdlib Require Import ZArith Lia.
From S2P Require Import Prelude.

(** ** [gods/trees/avltree] with an integer comparator *)

Class AvlTree (V T : Type) : Type := {
  avl_new : T;
  (** [tree.Get(key)] *)
  avl_get : T -> Z -> option V;
  (** [tree.Put(key, value)] *)
  avl_put : T -> Z -> V -> T;
  (** [tree.Remove(key)] *)
  avl_remove : T -> Z -> T;
  (** [tree.Size()] *)
  avl_size : T -> Z;
  (** [it := tree.Iterator(); it.Next(); it.Key(), it.Value()]: the entry of
      the smallest key, nothing on an empty tree. *)
  avl_first : T -> option (Z * V);
  (** The finite map the tree holds (specification only). *)
  avl_view : T -> gmap Z V
}.

Class AvlTreeLaws (V T : Type) `{!AvlTree V T} : Prop := {
  avl_view_new : avl_view avl_new = ∅;
  avl_get_view : forall t k, avl_get t k = avl_view t !! k;
  avl_view_put : forall t k v, avl_view (avl_put t k v) = <[k:=v]> (avl_view t);
  avl_view_remove : forall t k, avl_view (avl_remove t k) = delete k (avl_view t);
  avl_size_view : forall t, avl_size t = Z.of_nat (size (avl_view t));
  avl_first_None : forall t, avl_first t = None -> avl_view t = ∅;
  avl_first_Some : forall t k v, avl_first t = Some (k, v) ->
    avl_view t !! k = Some v /\
    (forall k', is_Some (avl_view t !! k') -> k <= k')
}.

(** ** [gods/sets/hashset] of strings *)

Class HashSet (T : Type) : Type := {
  hs_new : T;
  (** [set.Add(key)] *)
  hs_add : T -> gostring -> T;
  (** [set.Remove(key)] *)
  hs_remove : T -> gostring -> T;
  (** [set.Empty()] *)
  hs_empty : T -> bool;
  (** [set.Values()], in whatever order the hash map yields them *)
  hs_values : T -> list gostring;
  (** The finite set it holds (specification only). *)
  hs_view : T -> gset gostring
}.

Class HashSetLaws (T : Type) `{!HashSet T} : Prop := {
  hs_view_new : hs_view hs_new = ∅;
  hs_view_add : forall s k, hs_view (hs_add s k) = {[k]} ∪ hs_view s;
  hs_view_remove : forall s k, hs_view (hs_remove s k) = hs_view s ∖ {[k]};
  hs_empty_view : forall s, hs_empty s = true <-> hs_view s = ∅;
  hs_values_view : forall s k, k ∈ hs_values s <-> k ∈ hs_view s;
  hs_values_NoDup : forall s, NoDup (hs_values s)
}.

(** ** Reference containers *)

(** The entry with the smallest key of an association list. *)
Fixpoint min_entry {V : Type} (l : list (Z * V)) : option (Z * V) :=
  match l with
  | [] => None
  | (k, v) :: l' =>
      match min_entry l' with
      | Some (k', v') => if k' <? k then Some (k', v') else Some (k, v)
      | None => Some (k, v)
      end
  end.

#[export] Instance gmap_avl (V : Type) : AvlTree V (gmap Z V) := {
  avl_new := ∅;
  avl_get t k := t !! k;
  avl_put t k v := <[k:=v]> t;
  avl_remove t k := delete k t;
  avl_size t := Z.of_nat (size t);
  avl_first t := min_entry (map_to_list t);
  avl_view t := t
}.

#[export] Instance gset_hashset : HashSet (gset gostring) := {
  hs_new := ∅;
  hs_add s k := {[k]} ∪ s;
  hs_remove s k := s ∖ {[k]};
  hs_empty s := bool_decide (s = ∅);
  hs_values s := elements s;
  hs_view s := s
}.

Lemma min_entry_None {V : Type} (l : list (Z * V)) : min_entry l = None -> l = [].
Proof.
  destruct l as [|[k v] l]; [done|]. simpl.
  destruct (min_entry l) as [[k' v']|]; [destruct (k' <? k)|]; discriminate.
Qed.

Lemma min_entry_Some {V : Type} (l : list (Z * V)) (k : Z) (v : V) :
  min_entry l = Some (k, v) ->
  (k, v) ∈ l /\ (forall k' v', (k', v') ∈ l -> k <= k').
Proof.
  revert k v. induction l as [|[k0 v0] l IH]; intros k v H; [discriminate|].
  simpl in H. destruct (min_entry l) as [[k1 v1]|] eqn:E.
  - destruct (IH _ _ eq_refl) as [Hin Hmin].
    destruct (k1 <? k0) eqn:C; injection H as <- <-; zbool; split.
    + by right.
    + intros k' v' [[= -> ->]|Hl]%elem_of_cons; [lia|]. by eapply Hmin.
    + by left.
    + intros k' v' [[= -> ->]|Hl]%elem_of_cons; [lia|].
      apply Hmin in Hl. lia.
  - injection H as <- <-. apply min_entry_None in E as ->. split; [by left|].
    intros k' v' [[= -> ->]|Hl]%elem_of_cons; [lia|]. by apply not_elem_of_nil in Hl.
Qed.

#[export] Instance gmap_avl_laws (V : Type) : AvlTreeLaws V (gmap Z V).
Proof.
  split; try done; simpl.
  - intros t H. apply min_entry_None in H. by apply map_to_list_empty_iff.
  - intros t k v H. apply min_entry_Some in H as [Hin Hmin].
    apply elem_of_map_to_list in Hin. split; [done|].
    intros k' [v' Hk']. apply (Hmin k' v'). by apply elem_of_map_to_list.
Qed.

#[export] Instance gset_hashset_laws : HashSetLaws (gset gostring).
Proof.
  split; try done; simpl.
  - intros s. apply bool_decide_eq_true.
  - intros s k. apply elem_of_elements.
  - intros s. apply NoDup_elements.
Qed.
