(* ===== verification/FreeList.v ===== *)
(** * The free list of a byte queue ([bigcache/queue/freeList.go])

    Freed byte ranges of the queue's array are kept as [*itemPos] objects that
    are shared between an AVL tree (indexed by the first and by the last byte
    of the range) and eight arrays that group them by size.  The model keeps
    the objects in a heap and shares them by address, as the code does:
    [findInSizeList] shrinks an item in place and both structures see it.

    [fl_rep] says which ranges a free list holds, with the tree, the size
    arrays and the heap consistent.  [add] and [find] preserve it, and what they
    do to the set of free bytes is exact. *)

From stdpp Require Import base decidable countable list gmap.
From Stdlib Require Import ZArith Lia.
From S2P Require Import Prelude.
From S2P Require Import GoLib.

(** ** Data *)

(** Addresses of [itemPos] objects. *)
Abbreviation loc := positive.

Record itemPos : Type := ItemPos { actualSize : Z; parentIndex : Z }.

(** The ranges a free list tracks, by the address of their item. *)
Abbreviation blocks := (gmap loc itemPos).

(** The last byte of a free range. *)
Definition lastIndex (it : itemPos) : Z := parentIndex it + actualSize it - 1.

Record freeList (T : Type) : Type := FreeList {
  fl_sizeList : list (list loc);
  fl_indexTree : T;
  fl_heap : gmap loc itemPos;
  fl_next : loc
}.

Arguments FreeList {T} _ _ _ _.
Arguments fl_sizeList {T} _.
Arguments fl_indexTree {T} _.
Arguments fl_heap {T} _.
Arguments fl_next {T} _.

Section FreeListOps.
Context {T : Type} `{!AvlTree loc T}.

(** ** Operations *)

Definition newFreeList : freeList T :=
  FreeList (replicate 8 []) avl_new ∅ 1%positive.

(** Reading through a pointer; every pointer the code holds is allocated. *)
Definition deref (l : freeList T) (p : loc) : itemPos :=
  default (ItemPos 0 0) (fl_heap l !! p).

Definition fl_store (l : freeList T) (p : loc) (it : itemPos) : freeList T :=
  FreeList (fl_sizeList l) (fl_indexTree l) (<[p:=it]> (fl_heap l)) (fl_next l).

(** [&itemPos{...}] *)
Definition fl_alloc (l : freeList T) (it : itemPos) : freeList T * loc :=
  (FreeList (fl_sizeList l) (fl_indexTree l) (<[fl_next l:=it]> (fl_heap l))
     (Pos.succ (fl_next l)),
   fl_next l).

Definition treePut (l : freeList T) (k : Z) (p : loc) : freeList T :=
  FreeList (fl_sizeList l) (avl_put (fl_indexTree l) k p) (fl_heap l) (fl_next l).

Definition treeRemove (l : freeList T) (k : Z) : freeList T :=
  FreeList (fl_sizeList l) (avl_remove (fl_indexTree l) k) (fl_heap l) (fl_next l).

Definition bucket (l : freeList T) (i : nat) : list loc :=
  default [] (fl_sizeList l !! i).

Definition setBucket (l : freeList T) (i : nat) (b : list loc) : freeList T :=
  FreeList (<[i:=b]> (fl_sizeList l)) (fl_indexTree l) (fl_heap l) (fl_next l).

(** The switch on the size that [putIntoSizeList] and [removeFromSizeList]
    share: which array a range of [n] bytes belongs to.  A range of exactly 4096
    bytes matches no case. *)
Definition sizeClass (n : Z) : option nat :=
  if n <? 64 then Some 0%nat
  else if n <? 128 then Some 1%nat
  else if n <? 256 then Some 2%nat
  else if n <? 512 then Some 3%nat
  else if n <? 1024 then Some 4%nat
  else if n <? 2048 then Some 5%nat
  else if n <? 4096 then Some 6%nat
  else if n >? 4096 then Some 7%nat
  else None.

(** The loop of [listPos], from position [x] on. *)
Fixpoint listPosFrom (v : loc) (arr : list loc) (x : Z) : Z :=
  match arr with
  | [] => -1
  | a :: arr' => if decide (v = a) then x else listPosFrom v arr' (x + 1)
  end.

Definition listPos (v : loc) (arr : list loc) : Z := listPosFrom v arr 0.

(** [copy(a[pos:], a[(pos+1):]); a = a[:len(a)-1]] *)
Definition cutAt (pos : nat) (arr : list loc) : list loc :=
  take pos arr ++ drop (S pos) arr.

Definition removeFromSizeList (l : freeList T) (v : loc) : freeList T :=
  match sizeClass (actualSize (deref l v)) with
  | Some i =>
      let pos := listPos v (bucket l i) in
      if pos =? -1 then l else setBucket l i (cutAt (Z.to_nat pos) (bucket l i))
  | None => l
  end.

Definition putIntoSizeList (l : freeList T) (item : loc) : freeList T :=
  match sizeClass (actualSize (deref l item)) with
  | Some i => setBucket l i (bucket l i ++ [item])
  | None => l
  end.

(** The left neighbour: forget it and start the item where it started. *)
Definition mergeLeft (l : freeList T) (item : itemPos) (index size : Z) : freeList T * itemPos :=
  match avl_get (fl_indexTree l) (index - 1) with
  | Some v =>
      let vi := deref l v in
      let l1 := treeRemove l (index - 1) in
      let l2 := treeRemove l1 (parentIndex vi) in
      let l3 := removeFromSizeList l2 v in
      (l3, ItemPos (actualSize vi + size) (parentIndex vi))
  | None => (l, item)
  end.

(** The right neighbour: forget it and extend the item over it. *)
Definition mergeRight (l : freeList T) (item : itemPos) (index size : Z) : freeList T * itemPos :=
  match avl_get (fl_indexTree l) (index + size) with
  | Some v =>
      let vi := deref l v in
      let l1 := treeRemove l (index + size) in
      let l2 := treeRemove l1 (parentIndex vi + actualSize vi - 1) in
      let l3 := removeFromSizeList l2 v in
      (l3, ItemPos (size + actualSize vi) index)
  | None => (l, item)
  end.

Definition add (l : freeList T) (index size : Z) : freeList T :=
  let item := ItemPos size index in
  let '(l1, item1) := mergeLeft l item index size in
  let '(l2, item2) := mergeRight l1 item1 index size in
  let '(l3, p) := fl_alloc l2 item2 in
  let l4 := treePut l3 (parentIndex item2) p in
  let l5 := treePut l4 (parentIndex item2 + actualSize item2 - 1) p in
  putIntoSizeList l5 p.

(** The loop of [findInSizeList] up to the first item that is large enough. *)
Fixpoint scanSize (h : gmap loc itemPos) (arr : list loc) (size : Z) (x : nat) : option (nat * loc) :=
  match arr with
  | [] => None
  | p :: arr' =>
      if size <=? actualSize (default (ItemPos 0 0) (h !! p))
      then Some (x, p)
      else scanSize h arr' size (S x)
  end.

Definition findInSizeList (l : freeList T) (idx : nat) (size buckSize : Z) : freeList T * (Z * bool) :=
  match scanSize (fl_heap l) (bucket l idx) size 0 with
  | None => (l, (-1, false))
  | Some (x, p) =>
      let tmp := deref l p in
      let l1 := treeRemove l (parentIndex tmp) in
      if size =? actualSize tmp then
        let l2 := setBucket l1 idx (cutAt x (bucket l idx)) in
        (treeRemove l2 (actualSize tmp + parentIndex tmp - 1), (parentIndex tmp, true))
      else if actualSize tmp - size >=? buckSize then
        let tmp' := ItemPos (actualSize tmp - size) (parentIndex tmp + size) in
        let l2 := fl_store l1 p tmp' in
        (treePut l2 (parentIndex tmp') p, (parentIndex tmp, true))
      else
        let l2 := treeRemove l1 (parentIndex tmp + actualSize tmp - 1) in
        let l3 := setBucket l2 idx (cutAt x (bucket l idx)) in
        (add l3 (parentIndex tmp + size) (actualSize tmp - size), (parentIndex tmp, true))
  end.

(** The switch of [find]: the first array to search and its upper bound. *)
Definition findStart (size : Z) : nat * Z :=
  if size <? 64 then (0%nat, 64)
  else if size <? 128 then (1%nat, 128)
  else if size <? 256 then (2%nat, 256)
  else if size <? 512 then (3%nat, 512)
  else if size <? 1024 then (4%nat, 1024)
  else if size <? 2048 then (5%nat, 2048)
  else if size <? 4096 then (6%nat, 4096)
  else if size >? 4096 then (7%nat, 4097)
  else (0%nat, 0).

(** [for idx := index; idx < 8; idx++]; [todo] counts the rounds left, 8 - idx. *)
Fixpoint findLoop (l : freeList T) (size buckSize : Z) (idx todo : nat) : freeList T * Z :=
  match todo with
  | O => (l, -1)
  | S todo' =>
      let '(l', (v, found)) := findInSizeList l idx size buckSize in
      if found then (l', v)
      else findLoop l' size (if (idx <? 6)%nat then buckSize * 2 else 4097) (S idx) todo'
  end.

Definition find (l : freeList T) (size : Z) : freeList T * Z :=
  let '(index, buckSize) := findStart size in
  findLoop l size buckSize index (8 - index).

(** ** What a free list holds *)

(** The bytes of a range. *)
Definition inBlock (it : itemPos) (x : Z) : Prop :=
  parentIndex it <= x < parentIndex it + actualSize it.

(** The free bytes. *)
Definition covers (B : blocks) (x : Z) : Prop :=
  exists p it, B !! p = Some it /\ inBlock it x.

Definition blocks_ok (B : blocks) : Prop :=
  (forall p it, B !! p = Some it -> 0 < actualSize it /\ 0 <= parentIndex it) /\
  (forall p q a b x, B !! p = Some a -> B !! q = Some b ->
     inBlock a x -> inBlock b x -> p = q).

(** The tree knows every range by its first and its last byte, and no other. *)
Definition tree_ok (t : gmap Z loc) (B : blocks) : Prop :=
  forall k p, t !! k = Some p <->
    exists it, B !! p = Some it /\ (k = parentIndex it \/ k = lastIndex it).

(** Each size array lists exactly the ranges of its size class, once. *)
Definition buckets_ok (sl : list (list loc)) (B : blocks) : Prop :=
  length sl = 8%nat /\
  forall i b, sl !! i = Some b ->
    NoDup b /\
    forall p, p ∈ b <->
      exists it, B !! p = Some it /\ sizeClass (actualSize it) = Some i.

Definition heap_ok (h : gmap loc itemPos) (next : loc) (B : blocks) : Prop :=
  (forall p it, B !! p = Some it -> h !! p = Some it) /\
  (forall p, is_Some (h !! p) -> (p < next)%positive).

Record fl_rep (l : freeList T) (B : blocks) : Prop := {
  rep_blocks : blocks_ok B;
  rep_tree : tree_ok (avl_view (fl_indexTree l)) B;
  rep_buckets : buckets_ok (fl_sizeList l) B;
  rep_heap : heap_ok (fl_heap l) (fl_next l) B
}.

End FreeListOps.

(** ** The tree, the arrays and the blocks, one update at a time *)

Lemma sizeClass_lt (n : Z) (i : nat) : sizeClass n = Some i -> (i < 8)%nat.
Proof. unfold sizeClass. repeat case_if; intros [= <-]; lia. Qed.

Lemma sizeClass_None (n : Z) : sizeClass n = None -> n = 4096.
Proof. unfold sizeClass. repeat case_if; intros; try discriminate; lia. Qed.

Lemma inBlock_first (it : itemPos) : 0 < actualSize it -> inBlock it (parentIndex it).
Proof. unfold inBlock. lia. Qed.

Lemma inBlock_last (it : itemPos) : 0 < actualSize it -> inBlock it (lastIndex it).
Proof. unfold inBlock, lastIndex. lia. Qed.

Create HintDb freelist.
#[export] Hint Resolve inBlock_first inBlock_last : freelist.

Lemma blocks_ok_size (B : blocks) (p : loc) (it : itemPos) :
  blocks_ok B -> B !! p = Some it -> 0 < actualSize it.
Proof. intros [H _] Hp. destruct (H _ _ Hp). done. Qed.

Lemma blocks_ok_delete (B : blocks) (v : loc) : blocks_ok B -> blocks_ok (delete v B).
Proof.
  intros [H1 H2]. split.
  - intros p it [_ Hp]%lookup_delete_Some. by eapply H1.
  - intros p q a b x [_ Hp]%lookup_delete_Some [_ Hq]%lookup_delete_Some. by eapply H2.
Qed.

(** A range that shares no byte with the others may join them. *)
Lemma blocks_ok_insert (B : blocks) (p : loc) (it : itemPos) :
  blocks_ok B -> 0 < actualSize it -> 0 <= parentIndex it ->
  (forall q a x, B !! q = Some a -> q <> p -> inBlock it x -> inBlock a x -> False) ->
  blocks_ok (<[p:=it]> B).
Proof.
  intros [H1 H2] Hs Hi Hd. split.
  - intros q a [[-> ->]|[? Hq]]%lookup_insert_Some; [done|]. by eapply H1.
  - intros q r a b x [[<- <-]|[? Hq]]%lookup_insert_Some [[<- <-]|[? Hr]]%lookup_insert_Some Ha Hb.
    + done.
    + exfalso. by eapply (Hd r b x).
    + exfalso. by eapply (Hd q a x).
    + by eapply H2.
Qed.

(** A key of one range is no key of another. *)
Lemma block_key_inj (B : blocks) (p q : loc) (a b : itemPos) (k : Z) :
  blocks_ok B -> B !! p = Some a -> B !! q = Some b ->
  (k = parentIndex a \/ k = lastIndex a) -> (k = parentIndex b \/ k = lastIndex b) ->
  p = q.
Proof.
  intros HB Hp Hq Ha Hb.
  pose proof (blocks_ok_size _ _ _ HB Hp). pose proof (blocks_ok_size _ _ _ HB Hq).
  eapply (proj2 HB p q a b k); [done..| |];
    [destruct Ha as [->| ->] | destruct Hb as [->| ->]]; auto with freelist.
Qed.

Lemma tree_ok_delete (t : gmap Z loc) (B : blocks) (v : loc) (vi : itemPos) :
  blocks_ok B -> tree_ok t B -> B !! v = Some vi ->
  tree_ok (delete (lastIndex vi) (delete (parentIndex vi) t)) (delete v B).
Proof.
  intros HB Ht Hv k p. rewrite !lookup_delete_Some, (Ht k p). split.
  - intros (H1 & H2 & it & Hp & Hk). exists it.
    rewrite lookup_delete_Some. split; [split|]; [|done..].
    intros ->. simplify_eq. naive_solver.
  - intros (it & [Hne Hp]%lookup_delete_Some & Hk).
    assert (k <> parentIndex vi /\ k <> lastIndex vi).
    { split; intros Hk'; apply Hne, (block_key_inj B v p vi it k); auto. }
    naive_solver.
Qed.

Lemma tree_ok_insert (t : gmap Z loc) (B : blocks) (p : loc) (it : itemPos) :
  blocks_ok (<[p:=it]> B) -> tree_ok t B -> B !! p = None ->
  tree_ok (<[lastIndex it:=p]> (<[parentIndex it:=p]> t)) (<[p:=it]> B).
Proof.
  intros HB Ht Hp k q.
  assert (forall a, B !! q = Some a -> (k = parentIndex a \/ k = lastIndex a) ->
                    k <> parentIndex it /\ k <> lastIndex it) as Hsep.
  { intros a Hq Hk. assert (p <> q) as Hpq by congruence.
    split; intros Hk'; apply Hpq, (block_key_inj (<[p:=it]> B) p q it a k); auto;
      by simplify_map_eq. }
  rewrite !lookup_insert_Some, (Ht k q). split.
  - intros [[<- <-]|[H1 [[<- <-]|[H2 (a & Hq & Hk)]]]].
    1,2: exists it; simplify_map_eq; auto.
    exists a. rewrite lookup_insert_ne by congruence. done.
  - intros (a & [[<- <-]|[Hne Hq]]%lookup_insert_Some & Hk).
    + destruct (decide (lastIndex it = k)); [by left|].
      destruct (decide (parentIndex it = k)); [naive_solver|]. naive_solver.
    + destruct (Hsep a Hq Hk). naive_solver.
Qed.

(** The in-place shrink of a range by its first [n] bytes. *)
Lemma tree_ok_shrink (t : gmap Z loc) (B : blocks) (p : loc) (it : itemPos) (n : Z) :
  blocks_ok B -> tree_ok t B -> B !! p = Some it -> 0 < n < actualSize it ->
  tree_ok (<[parentIndex it + n:=p]> (delete (parentIndex it) t))
          (<[p:=ItemPos (actualSize it - n) (parentIndex it + n)]> B).
Proof.
  intros HB Ht Hp Hn k q.
  rewrite lookup_insert_Some, lookup_delete_Some, (Ht k q). split.
  - intros [[<- <-]|(H1 & H2 & a & Hq & Hk)].
    { eexists. rewrite lookup_insert_eq. split; [done|]. simpl. auto. }
    destruct (decide (p = q)) as [->|Hne].
    + simplify_eq. eexists. rewrite lookup_insert_eq. split; [done|].
      unfold lastIndex in *. simpl. right. naive_solver lia.
    + exists a. rewrite lookup_insert_ne by done. done.
  - intros (a & [[<- <-]|[Hne Hq]]%lookup_insert_Some & Hk).
    + unfold lastIndex in Hk. simpl in Hk.
      destruct (decide (parentIndex it + n = k)); [by left|right].
      split; [done|]. split; [lia|]. exists it. unfold lastIndex. split; [done|lia].
    + pose proof (blocks_ok_size _ _ _ HB Hq).
      assert (inBlock a k) by (destruct Hk as [->| ->]; auto with freelist).
      assert (~ inBlock it k) as Hk'.
      { intros Hin. apply Hne. by eapply (proj2 HB p q it a k). }
      unfold inBlock in Hk'. right. split; [lia|]. split; [lia|]. eauto.
Qed.

Lemma cutAt_elem (x : nat) (b : list loc) (v p : loc) :
  NoDup b -> b !! x = Some v -> p ∈ cutAt x b <-> p ∈ b /\ p <> v.
Proof.
  intros Hnd Hx. unfold cutAt. pose proof (take_drop_middle b x v Hx) as Hb.
  rewrite <- Hb in Hnd. apply NoDup_app in Hnd as (_ & Hd & Hnd).
  apply NoDup_cons in Hnd as [Hv _].
  rewrite <- Hb at 3. rewrite !elem_of_app, elem_of_cons.
  split; [|naive_solver]. intros [H|H]; split; auto.
  - intros ->. apply (Hd v H). by left.
  - by intros ->.
Qed.

Lemma cutAt_NoDup (x : nat) (b : list loc) : NoDup b -> NoDup (cutAt x b).
Proof.
  intros Hnd. unfold cutAt. eapply sublist_NoDup; [exact Hnd|].
  rewrite <- (take_drop x b) at 3. apply sublist_app; [done|].
  rewrite <- (Nat.add_1_r x), <- drop_drop. apply sublist_drop.
Qed.

Lemma buckets_ok_remove (sl : list (list loc)) (B : blocks) (v : loc) (vi : itemPos) (i x : nat) (b : list loc) :
  buckets_ok sl B -> B !! v = Some vi -> sizeClass (actualSize vi) = Some i ->
  sl !! i = Some b -> b !! x = Some v ->
  buckets_ok (<[i:=cutAt x b]> sl) (delete v B).
Proof.
  intros [Hlen Hsl] Hv Hc Hi Hx. split; [by rewrite length_insert|].
  intros j b' [[<- [<- _]]|[Hne Hj]]%list_lookup_insert_Some.
  - destruct (Hsl _ _ Hi) as [Hnd Hb]. split; [by apply cutAt_NoDup|].
    intros p. rewrite cutAt_elem, Hb by done.
    setoid_rewrite lookup_delete_Some. naive_solver.
  - destruct (Hsl _ _ Hj) as [Hnd Hb]. split; [done|].
    intros p. rewrite Hb. setoid_rewrite lookup_delete_Some.
    split; [|naive_solver]. intros (it & Hp & Hcp). exists it.
    repeat split; auto. intros <-. naive_solver.
Qed.

Lemma buckets_ok_remove_None (sl : list (list loc)) (B : blocks) (v : loc) (vi : itemPos) :
  buckets_ok sl B -> B !! v = Some vi -> sizeClass (actualSize vi) = None ->
  buckets_ok sl (delete v B).
Proof.
  intros [Hlen Hsl] Hv Hc. split; [done|]. intros j b Hj.
  destruct (Hsl _ _ Hj) as [Hnd Hb]. split; [done|]. intros p. rewrite Hb.
  setoid_rewrite lookup_delete_Some. split; [|naive_solver].
  intros (it & Hp & Hcp). exists it. repeat split; auto. intros <-. naive_solver.
Qed.

Lemma buckets_ok_insert (sl : list (list loc)) (B : blocks) (p : loc) (it : itemPos) (i : nat) (b : list loc) :
  buckets_ok sl B -> B !! p = None -> sizeClass (actualSize it) = Some i ->
  sl !! i = Some b ->
  buckets_ok (<[i:=b ++ [p]]> sl) (<[p:=it]> B).
Proof.
  intros [Hlen Hsl] Hp Hc Hi. split; [by rewrite length_insert|].
  intros j b' [[<- [<- _]]|[Hne Hj]]%list_lookup_insert_Some.
  - destruct (Hsl _ _ Hi) as [Hnd Hb]. split.
    + apply NoDup_app. split; [done|]. split; [|apply NoDup_singleton].
      intros q Hq ->%list_elem_of_singleton. apply Hb in Hq as (a & Ha & _). congruence.
    + intros q. rewrite elem_of_app, list_elem_of_singleton, Hb.
      setoid_rewrite lookup_insert_Some. split; [|naive_solver].
      intros [(a & Ha & Hca)| ->]; [|naive_solver].
      exists a. split; [|done]. right. split; [congruence|done].
  - destruct (Hsl _ _ Hj) as [Hnd Hb]. split; [done|].
    intros q. rewrite Hb. setoid_rewrite lookup_insert_Some. split; [|naive_solver].
    intros (a & Ha & Hca). exists a. split; [|done]. right. split; [congruence|done].
Qed.

(** An item whose class stays the same, or has none, leaves the arrays right. *)
Lemma buckets_ok_update (sl : list (list loc)) (B : blocks) (p : loc) (it : itemPos) :
  buckets_ok sl B ->
  (match B !! p with Some a => sizeClass (actualSize a) | None => None end) =
    sizeClass (actualSize it) ->
  buckets_ok sl (<[p:=it]> B).
Proof.
  intros [Hlen Hsl] Hc. split; [done|]. intros j b Hj.
  destruct (Hsl _ _ Hj) as [Hnd Hb]. split; [done|]. intros q. rewrite Hb.
  setoid_rewrite lookup_insert_Some.
  destruct (decide (p = q)) as [<-|Hne]; [|naive_solver].
  split.
  - intros (a & Ha & Hca). rewrite Ha in Hc. exists it. split; [by left|congruence].
  - intros (a & [[_ <-]|[? _]] & Hca); [|done].
    destruct (B !! p) as [a|]; [exists a; split; congruence|congruence].
Qed.

Lemma listPosFrom_spec (v : loc) (arr : list loc) (x : Z) :
  v ∈ arr -> exists n, listPosFrom v arr x = x + Z.of_nat n /\ arr !! n = Some v.
Proof.
  revert x. induction arr as [|a arr IH]; intros x Hv; [by apply not_elem_of_nil in Hv|].
  simpl. case_decide as Hd.
  - subst. exists 0%nat. split; [lia|done].
  - apply elem_of_cons in Hv as [?|Hv]; [done|].
    destruct (IH (x + 1) Hv) as (n & -> & Hn). exists (S n). split; [lia|done].
Qed.

Lemma scanSize_Some (h : gmap loc itemPos) (arr : list loc) (size : Z) (x0 x : nat) (p : loc) :
  scanSize h arr size x0 = Some (x, p) ->
  (x0 <= x)%nat /\ arr !! (x - x0)%nat = Some p /\
  size <= actualSize (default (ItemPos 0 0) (h !! p)).
Proof.
  revert x0. induction arr as [|a arr IH]; intros x0 H; [discriminate|].
  simpl in H. case_match; zbool.
  - injection H as <- <-. rewrite Nat.sub_diag. auto.
  - apply IH in H as (H1 & H2 & H3). split; [lia|]. split; [|done].
    by replace (x - x0)%nat with (S (x - S x0)) by lia.
Qed.

Lemma scanSize_None (h : gmap loc itemPos) (arr : list loc) (size : Z) (x0 : nat) (p : loc) :
  scanSize h arr size x0 = None -> p ∈ arr ->
  actualSize (default (ItemPos 0 0) (h !! p)) < size.
Proof.
  revert x0. induction arr as [|a arr IH]; intros x0 H Hp; [by apply not_elem_of_nil in Hp|].
  simpl in H. case_match; zbool; [discriminate|].
  apply elem_of_cons in Hp as [->|Hp]; [done|]. by eapply IH.
Qed.

(** ** Free bytes *)

Lemma covers_insert (B : blocks) (p : loc) (it : itemPos) (x : Z) :
  B !! p = None -> covers (<[p:=it]> B) x <-> inBlock it x \/ covers B x.
Proof.
  intros Hp. unfold covers. setoid_rewrite lookup_insert_Some. split.
  - intros (q & a & [[<- <-]|[? ?]] & Hx); eauto.
  - intros [Hx|(q & a & Hq & Hx)]; [naive_solver|].
    exists q, a. split; [|done]. right. split; [congruence|done].
Qed.

Lemma covers_delete (B : blocks) (v : loc) (vi : itemPos) (x : Z) :
  blocks_ok B -> B !! v = Some vi ->
  covers (delete v B) x <-> covers B x /\ ~ inBlock vi x.
Proof.
  intros HB Hv. unfold covers. setoid_rewrite lookup_delete_Some. split.
  - intros (q & a & [Hne Hq] & Hx). split; [eauto|].
    intros Hvx. apply Hne. by eapply (proj2 HB v q vi a x).
  - intros [(q & a & Hq & Hx) Hn]. exists q, a. split; [|done]. split; [|done].
    intros <-. simplify_eq. done.
Qed.

(** Updating a range in place, seen as taking it out and putting it back. *)
Lemma covers_update (B : blocks) (p : loc) (a it : itemPos) (x : Z) :
  blocks_ok B -> B !! p = Some a ->
  covers (<[p:=it]> B) x <-> inBlock it x \/ (covers B x /\ ~ inBlock a x).
Proof.
  intros HB Hp. rewrite <- (covers_delete B p a x HB Hp), <- insert_delete_eq.
  apply covers_insert. apply lookup_delete_eq.
Qed.

(** A byte range none of whose bytes is free. *)
Definition noneFree (B : blocks) (index size : Z) : Prop :=
  forall x, index <= x < index + size -> ~ covers B x.

(** The bytes [add] forgets: when the freed range touches a free range on both
    sides, the left one is no longer tracked. *)
Definition lostLeft (B : blocks) (index size x : Z) : Prop :=
  exists v vi w wi, B !! v = Some vi /\ lastIndex vi = index - 1 /\
    B !! w = Some wi /\ parentIndex wi = index + size /\ inBlock vi x.

Section FreeListProofs.
Context {T : Type} `{!AvlTree loc T} `{!AvlTreeLaws loc T}.
Implicit Types l : freeList T.

Lemma newFreeList_rep : fl_rep (newFreeList (T := T)) ∅.
Proof.
  split; cbn [newFreeList fl_sizeList fl_indexTree fl_heap fl_next].
  - split; intros *; rewrite lookup_empty; discriminate.
  - rewrite avl_view_new. intros k p. rewrite lookup_empty. split; [discriminate|].
    intros (it & Hp & _). by rewrite lookup_empty in Hp.
  - split; [done|]. intros i b Hi. apply lookup_replicate in Hi as [-> _].
    split; [apply NoDup_nil_2|]. intros p. rewrite elem_of_nil. split; [done|].
    intros (it & Hp & _). by rewrite lookup_empty in Hp.
  - split; intros p; rewrite lookup_empty; [discriminate|]. by intros [].
Qed.

Lemma rep_deref l (B : blocks) (p : loc) (it : itemPos) :
  fl_rep l B -> B !! p = Some it -> deref l p = it.
Proof. intros H Hp. unfold deref. by rewrite (proj1 (rep_heap _ _ H) _ _ Hp). Qed.

Lemma rep_bucket l (B : blocks) (i : nat) :
  fl_rep l B -> (i < 8)%nat -> fl_sizeList l !! i = Some (bucket l i).
Proof.
  intros H Hi. destruct (rep_buckets _ _ H) as [Hlen _].
  unfold bucket. destruct (lookup_lt_is_Some_2 (fl_sizeList l) i) as [b Hb]; [lia|].
  by rewrite Hb.
Qed.

Lemma removeFromSizeList_same l (v : loc) :
  fl_indexTree (removeFromSizeList l v) = fl_indexTree l /\
  fl_heap (removeFromSizeList l v) = fl_heap l /\
  fl_next (removeFromSizeList l v) = fl_next l.
Proof. unfold removeFromSizeList. repeat case_match; auto. Qed.

Lemma removeFromSizeList_ok l (B : blocks) (v : loc) (vi : itemPos) :
  deref l v = vi -> B !! v = Some vi -> buckets_ok (fl_sizeList l) B ->
  buckets_ok (fl_sizeList (removeFromSizeList l v)) (delete v B).
Proof.
  intros Hd Hv Hb. unfold removeFromSizeList. rewrite Hd.
  destruct (sizeClass (actualSize vi)) as [i|] eqn:Hc;
    [|by eapply buckets_ok_remove_None].
  assert (fl_sizeList l !! i = Some (bucket l i)) as Hi.
  { apply sizeClass_lt in Hc. unfold bucket. destruct Hb as [Hlen _].
    destruct (lookup_lt_is_Some_2 (fl_sizeList l) i) as [b Hb]; [lia|]. by rewrite Hb. }
  assert (v ∈ bucket l i) as Hin by (apply (proj2 Hb _ _ Hi); eauto).
  destruct (listPosFrom_spec v (bucket l i) 0 Hin) as (n & Hpos & Hn).
  unfold listPos. rewrite Hpos. case_if; [lia|]. simpl.
  replace (Z.to_nat (0 + Z.of_nat n)) with n by lia.
  by eapply buckets_ok_remove.
Qed.

Lemma heap_ok_delete (h : gmap loc itemPos) (next v : loc) (B : blocks) :
  heap_ok h next B -> heap_ok h next (delete v B).
Proof. intros [H1 H2]. split; [|done]. intros p it [_ Hp]%lookup_delete_Some. auto. Qed.

(** Taking a range out of the tree and of its size array. *)
Lemma rep_forget l (B : blocks) (v : loc) (vi : itemPos) (k1 k2 : Z) :
  fl_rep l B -> B !! v = Some vi ->
  (k1 = parentIndex vi /\ k2 = lastIndex vi) \/ (k1 = lastIndex vi /\ k2 = parentIndex vi) ->
  fl_rep (removeFromSizeList (treeRemove (treeRemove l k1) k2) v) (delete v B).
Proof.
  intros H Hv Hk.
  destruct (removeFromSizeList_same (treeRemove (treeRemove l k1) k2) v) as (Ht & Hh & Hn).
  split.
  - apply blocks_ok_delete, H.
  - rewrite Ht. simpl. rewrite !avl_view_remove.
    destruct Hk as [[-> ->]|[-> ->]]; [|rewrite delete_delete];
      by apply tree_ok_delete; [apply H..|].
  - apply removeFromSizeList_ok with vi; [|done|apply H].
    unfold deref. simpl. by rewrite (proj1 (rep_heap _ _ H) _ _ Hv).
  - rewrite Hh, Hn. apply heap_ok_delete, H.
Qed.

Lemma rep_next_fresh l (B : blocks) : fl_rep l B -> B !! fl_next l = None.
Proof.
  intros H. destruct (B !! fl_next l) as [it|] eqn:E; [|done]. exfalso.
  destruct (rep_heap _ _ H) as [H1 H2]. apply H1 in E.
  specialize (H2 _ (ex_intro _ _ E)). lia.
Qed.

(** The last lines of [add]: allocate the item and put it everywhere. *)
Lemma rep_track l (B : blocks) (it : itemPos) :
  fl_rep l B -> 0 < actualSize it -> 0 <= parentIndex it ->
  noneFree B (parentIndex it) (actualSize it) ->
  let '(l3, p) := fl_alloc l it in
  fl_rep (putIntoSizeList
            (treePut (treePut l3 (parentIndex it) p) (parentIndex it + actualSize it - 1) p) p)
         (<[fl_next l:=it]> B).
Proof.
  intros H Hs Hi Hfree. simpl. pose proof (rep_next_fresh _ _ H) as Hnew.
  assert (blocks_ok (<[fl_next l:=it]> B)) as HB.
  { apply blocks_ok_insert; [apply H|done..|].
    intros q a x Hq _ Hx Ha. apply (Hfree x Hx). by exists q, a. }
  unfold putIntoSizeList, deref. simpl. rewrite lookup_insert_eq. simpl.
  assert (tree_ok (<[parentIndex it + actualSize it - 1:=fl_next l]>
             (<[parentIndex it:=fl_next l]> (avl_view (fl_indexTree l)))) (<[fl_next l:=it]> B)).
  { apply tree_ok_insert; [done|apply H|done]. }
  assert (heap_ok (<[fl_next l:=it]> (fl_heap l)) (Pos.succ (fl_next l)) (<[fl_next l:=it]> B)).
  { destruct (rep_heap _ _ H) as [H1 H2]. split.
    - intros p a [[<- <-]|[? Hp]]%lookup_insert_Some; [by rewrite lookup_insert_eq|].
      rewrite lookup_insert_ne by done. auto.
    - intros p [a [[<- <-]|[? Hp]]%lookup_insert_Some]; [lia|].
      specialize (H2 p (ex_intro _ _ Hp)). lia. }
  destruct (sizeClass (actualSize it)) as [i|] eqn:Hc;
    (split; simpl; [done|rewrite !avl_view_put; done| |done]).
  - apply buckets_ok_insert; [apply H|done..|]. apply (rep_bucket l B); [done|].
    by eapply sizeClass_lt.
  - apply buckets_ok_update; [apply H|]. by rewrite Hnew, Hc.
Qed.

(** ** [add] *)

Lemma mergeLeft_spec l (B : blocks) (item : itemPos) (index size : Z) :
  fl_rep l B -> 0 < size -> noneFree B index size ->
  (exists v vi l', B !! v = Some vi /\ lastIndex vi = index - 1 /\
     mergeLeft l item index size = (l', ItemPos (actualSize vi + size) (parentIndex vi)) /\
     fl_rep l' (delete v B)) \/
  ((forall p it, B !! p = Some it -> lastIndex it <> index - 1) /\
   mergeLeft l item index size = (l, item)).
Proof.
  intros H Hs Hfree. unfold mergeLeft. rewrite avl_get_view.
  destruct (avl_view (fl_indexTree l) !! (index - 1)) as [v|] eqn:E.
  - left. apply (rep_tree _ _ H) in E as (vi & Hv & Hk).
    pose proof (blocks_ok_size _ _ _ (rep_blocks _ _ H) Hv) as Hp.
    assert (lastIndex vi = index - 1) as Hlast.
    { destruct Hk as [Hk|Hk]; [|done]. unfold lastIndex.
      destruct (decide (actualSize vi = 1)); [lia|].
      exfalso. apply (Hfree index); [lia|]. exists v, vi. unfold inBlock. split; [done|lia]. }
    rewrite (rep_deref _ _ _ _ H Hv).
    exists v, vi, (removeFromSizeList (treeRemove (treeRemove l (index - 1)) (parentIndex vi)) v).
    split_and!; try done. apply (rep_forget l B v vi); auto.
  - right. split; [|done]. intros p it Hp Hk.
    assert (avl_view (fl_indexTree l) !! (index - 1) = Some p); [|congruence].
    apply (rep_tree _ _ H). eauto.
Qed.

Lemma mergeRight_spec l (B : blocks) (item : itemPos) (index size : Z) :
  fl_rep l B -> 0 < size -> noneFree B index size ->
  (exists w wi l', B !! w = Some wi /\ parentIndex wi = index + size /\
     mergeRight l item index size = (l', ItemPos (size + actualSize wi) index) /\
     fl_rep l' (delete w B)) \/
  ((forall p it, B !! p = Some it -> parentIndex it <> index + size) /\
   mergeRight l item index size = (l, item)).
Proof.
  intros H Hs Hfree. unfold mergeRight. rewrite avl_get_view.
  destruct (avl_view (fl_indexTree l) !! (index + size)) as [w|] eqn:E.
  - left. apply (rep_tree _ _ H) in E as (wi & Hw & Hk).
    pose proof (blocks_ok_size _ _ _ (rep_blocks _ _ H) Hw) as Hp.
    assert (parentIndex wi = index + size) as Hfst.
    { destruct Hk as [Hk|Hk]; [done|]. unfold lastIndex in Hk.
      destruct (decide (actualSize wi = 1)); [lia|].
      exfalso. apply (Hfree (index + size - 1)); [lia|].
      exists w, wi. unfold inBlock. split; [done|lia]. }
    rewrite (rep_deref _ _ _ _ H Hw).
    exists w, wi, (removeFromSizeList (treeRemove (treeRemove l (index + size))
                     (parentIndex wi + actualSize wi - 1)) w).
    split_and!; try done. apply (rep_forget l B w wi); auto.
  - right. split; [|done]. intros p it Hp Hk.
    assert (avl_view (fl_indexTree l) !! (index + size) = Some p); [|congruence].
    apply (rep_tree _ _ H). eauto.
Qed.

Lemma noneFree_delete (B : blocks) (v : loc) (vi : itemPos) (index size : Z) :
  blocks_ok B -> B !! v = Some vi -> noneFree B index size -> noneFree (delete v B) index size.
Proof.
  intros HB Hv H x Hx Hc. apply (H x Hx). apply (covers_delete B v vi) in Hc; tauto.
Qed.

Lemma lostLeft_both (B : blocks) (v w : loc) (vi wi : itemPos) (index size x : Z) :
  blocks_ok B -> B !! v = Some vi -> lastIndex vi = index - 1 ->
  B !! w = Some wi -> parentIndex wi = index + size ->
  lostLeft B index size x <-> inBlock vi x.
Proof.
  intros HB Hv Hl Hw Hf. split; [|intros; by exists v, vi, w, wi].
  intros (v' & vi' & _ & _ & Hv' & Hl' & _ & _ & Hx).
  assert (v' = v) as ->; [|simplify_eq; done].
  apply (block_key_inj B v' v vi' vi (index - 1)); auto.
Qed.

Lemma lostLeft_noRight (B : blocks) (index size x : Z) :
  (forall p it, B !! p = Some it -> parentIndex it <> index + size) ->
  ~ lostLeft B index size x.
Proof. intros H (_ & _ & w & wi & _ & _ & Hw & Hf & _). by apply (H w wi Hw). Qed.

Lemma lostLeft_noLeft (B : blocks) (index size x : Z) :
  (forall p it, B !! p = Some it -> lastIndex it <> index - 1) ->
  ~ lostLeft B index size x.
Proof. intros H (v & vi & _ & _ & Hv & Hl & _). by apply (H v vi Hv). Qed.

(** The item [add] ends with, the state before its last lines, and the bytes
    they account for. *)
Lemma merge_spec l (B : blocks) (index size : Z) :
  fl_rep l B -> 0 < size -> 0 <= index -> noneFree B index size ->
  exists l2 it B2,
    (let '(l1, item1) := mergeLeft l (ItemPos size index) index size in
     mergeRight l1 item1 index size) = (l2, it) /\
    fl_rep l2 B2 /\ 0 < actualSize it /\ 0 <= parentIndex it /\
    (forall x, inBlock it x -> ~ covers B2 x) /\
    (forall x, index <= x < index + size -> inBlock it x) /\
    (forall x, inBlock it x \/ covers B2 x <->
       index <= x < index + size \/ (covers B x /\ ~ lostLeft B index size x)).
Proof.
  intros H Hs Hi Hfree. pose proof (rep_blocks _ _ H) as HB.
  assert (forall v vi x, B !! v = Some vi -> inBlock vi x -> covers B x) as Hcov
    by (unfold covers; eauto).
  destruct (mergeLeft_spec l B (ItemPos size index) index size H Hs Hfree)
    as [(v & vi & l1 & Hv & Hlast & -> & H1)|[HnoL ->]].
  - destruct (proj1 HB _ _ Hv) as [Hvs Hvi].
    pose proof (noneFree_delete _ _ _ _ _ HB Hv Hfree) as Hfree1.
    pose proof (fun x => covers_delete B v vi x HB Hv) as Hc1.
    pose proof (rep_blocks _ _ H1) as HB1.
    destruct (mergeRight_spec l1 (delete v B) (ItemPos (actualSize vi + size) (parentIndex vi))
                index size H1 Hs Hfree1)
      as [(w & wi & l2 & Hw & Hfst & -> & H2)|[HnoR ->]].
    + pose proof (fun x => covers_delete (delete v B) w wi x HB1 Hw) as Hc2.
      pose proof (blocks_ok_size _ _ _ HB1 Hw) as Hws.
      apply lookup_delete_Some in Hw as [Hne Hw].
      pose proof (fun x => lostLeft_both B v w vi wi index size x HB Hv Hlast Hw Hfst) as Hlost.
      eexists _, _, _. split_and!; [done|exact H2|simpl; lia|simpl; lia| | |]; intros x;
        specialize (Hc1 x); specialize (Hc2 x); specialize (Hlost x);
        specialize (Hfree x); specialize (Hcov w wi x Hw);
        unfold inBlock, lastIndex in *; simpl in *; decide_ranges.
    + assert (forall x, ~ lostLeft B index size x) as Hlost.
      { intros x. apply lostLeft_noRight. intros p it Hp.
        destruct (decide (v = p)) as [<-|]; [unfold lastIndex in *; simplify_eq; lia|].
        apply (HnoR p). by rewrite lookup_delete_ne. }
      eexists _, _, _. split_and!; [done|exact H1|simpl; lia|simpl; lia| | |]; intros x;
        specialize (Hc1 x); specialize (Hlost x);
        specialize (Hfree x); specialize (Hcov v vi x Hv);
        unfold inBlock, lastIndex in *; simpl in *; decide_ranges.
  - pose proof (fun x => lostLeft_noLeft B index size x HnoL) as Hlost.
    destruct (mergeRight_spec l B (ItemPos size index) index size H Hs Hfree)
      as [(w & wi & l2 & Hw & Hfst & -> & H2)|[HnoR ->]].
    + pose proof (fun x => covers_delete B w wi x HB Hw) as Hc2.
      pose proof (blocks_ok_size _ _ _ HB Hw) as Hws.
      eexists _, _, _. split_and!; [done|exact H2|simpl; lia|simpl; lia| | |]; intros x;
        specialize (Hc2 x); specialize (Hlost x);
        specialize (Hfree x); specialize (Hcov w wi x Hw);
        unfold inBlock, lastIndex in *; simpl in *; decide_ranges.
    + eexists _, _, _. split_and!; [done|exact H|simpl; lia|simpl; lia| | |]; intros x;
        specialize (Hlost x); specialize (Hfree x);
        unfold inBlock in *; simpl in *; decide_ranges.
Qed.

(** [add] keeps the free list consistent, and the bytes free afterwards are the
    freed ones and those free before, less the left neighbour when the range
    touches a free range on both sides. *)
Lemma add_rep_block l (B : blocks) (index size : Z) :
  fl_rep l B -> 0 < size -> 0 <= index -> noneFree B index size ->
  exists B' p it, fl_rep (add l index size) B' /\ B' !! p = Some it /\
    (forall x, index <= x < index + size -> inBlock it x) /\
    (forall x, covers B' x <->
       index <= x < index + size \/ (covers B x /\ ~ lostLeft B index size x)).
Proof.
  intros H Hs Hi Hfree.
  destruct (merge_spec l B index size H Hs Hi Hfree)
    as (l2 & it & B2 & Hm & H2 & Hits & Hiti & Hdis & Hin & Hcov).
  unfold add. destruct (mergeLeft l (ItemPos size index) index size) as [l1 item1].
  rewrite Hm. exists (<[fl_next l2:=it]> B2), (fl_next l2), it. split_and!.
  - by apply (rep_track l2 B2 it).
  - apply lookup_insert_eq.
  - done.
  - intros x. rewrite <- Hcov. apply covers_insert. by apply rep_next_fresh.
Qed.

Lemma add_rep l (B : blocks) (index size : Z) :
  fl_rep l B -> 0 < size -> 0 <= index -> noneFree B index size ->
  exists B', fl_rep (add l index size) B' /\
    (forall x, covers B' x <->
       index <= x < index + size \/ (covers B x /\ ~ lostLeft B index size x)).
Proof.
  intros H Hs Hi Hf. destruct (add_rep_block l B index size H Hs Hi Hf) as (B' & p & it & H' & _ & _ & Hc).
  eauto.
Qed.

(** ** [find] *)

(** Taking the range at position [x] of its size array out of the list. *)
Lemma rep_forget_at l l' (B : blocks) (p : loc) (it : itemPos) (i x : nat) :
  fl_rep l B -> B !! p = Some it -> sizeClass (actualSize it) = Some i ->
  bucket l i !! x = Some p ->
  avl_view (fl_indexTree l') =
    delete (lastIndex it) (delete (parentIndex it) (avl_view (fl_indexTree l))) ->
  fl_sizeList l' = <[i:=cutAt x (bucket l i)]> (fl_sizeList l) ->
  fl_heap l' = fl_heap l -> fl_next l' = fl_next l ->
  fl_rep l' (delete p B).
Proof.
  intros H Hp Hc Hx Ht Hsl Hh Hn. split.
  - apply blocks_ok_delete, H.
  - rewrite Ht. by apply tree_ok_delete; [apply H..|].
  - rewrite Hsl. eapply buckets_ok_remove; [apply H|done..| |done].
    apply (rep_bucket l B); [done|]. by eapply sizeClass_lt.
  - rewrite Hh, Hn. apply heap_ok_delete, H.
Qed.

(** What a successful search does to the free bytes. *)
Definition took (B B' : blocks) (r size : Z) : Prop :=
  0 <= r /\
  (forall x, r <= x < r + size -> covers B x) /\
  (forall x, covers B' x <-> covers B x /\ ~ (r <= x < r + size)).

(** The bound [find] passes with an array: below it every leftover of a range
    of that array falls, except in the last array. *)
Definition bound_ok (idx : nat) (size buckSize : Z) : Prop :=
  if decide (idx = 7%nat) then buckSize = 4097
  else forall n, sizeClass n = Some idx -> size <= n -> n - size < buckSize.

Lemma took_whole (B : blocks) (p : loc) (it : itemPos) :
  blocks_ok B -> B !! p = Some it ->
  took B (delete p B) (parentIndex it) (actualSize it).
Proof.
  intros HB Hp. split_and!; [by destruct (proj1 HB _ _ Hp)| |].
  - intros x Hx. by exists p, it.
  - intros x. by rewrite (covers_delete B p it x HB Hp).
Qed.

Lemma took_shrink (B : blocks) (p : loc) (it : itemPos) (size : Z) :
  blocks_ok B -> B !! p = Some it -> 0 < size < actualSize it ->
  took B (<[p:=ItemPos (actualSize it - size) (parentIndex it + size)]> B)
       (parentIndex it) size.
Proof.
  intros HB Hp Hs. destruct (proj1 HB _ _ Hp) as [_ Hi].
  split_and!; [done| |].
  - intros x Hx. exists p, it. split; [done|]. unfold inBlock. lia.
  - intros x. rewrite (covers_update B p it _ x HB Hp).
    assert (inBlock it x -> covers B x) as Hc by (intros; by exists p, it).
    unfold inBlock in *. simpl. decide_ranges.
Qed.

(** The leftover of a range, given back to the list. *)
Lemma took_split l (B : blocks) (p : loc) (it : itemPos) (size : Z) :
  blocks_ok B -> fl_rep l (delete p B) -> B !! p = Some it -> 0 < size < actualSize it ->
  exists B', fl_rep (add l (parentIndex it + size) (actualSize it - size)) B' /\
    took B B' (parentIndex it) size.
Proof.
  intros HB H Hp Hs. destruct (proj1 HB _ _ Hp) as [_ Hi].
  pose proof (fun x => covers_delete B p it x HB Hp) as Hcd.
  destruct (add_rep l (delete p B) (parentIndex it + size) (actualSize it - size) H)
    as (B' & H' & Hc'); [lia..| |].
  { intros x Hx Hc. apply Hcd in Hc as [_ Hc]. unfold inBlock in Hc. lia. }
  exists B'. split; [done|]. split_and!; [done| |].
  - intros x Hx. exists p, it. split; [done|]. unfold inBlock. lia.
  - intros x. rewrite Hc', (Hcd x).
    assert (~ lostLeft (delete p B) (parentIndex it + size) (actualSize it - size) x) as Hl.
    { apply lostLeft_noLeft. intros q a [Hne Hq]%lookup_delete_Some Hl. apply Hne.
      pose proof (blocks_ok_size _ _ _ HB Hq).
      apply (proj2 HB p q it a (lastIndex a)); auto with freelist.
      unfold inBlock. lia. }
    assert (inBlock it x -> covers B x) as Hc by (intros; by exists p, it).
    unfold inBlock in *. decide_ranges.
Qed.

Lemma findInSizeList_spec l (B : blocks) (idx : nat) (size buckSize : Z) :
  fl_rep l B -> (idx < 8)%nat -> 0 < size -> bound_ok idx size buckSize ->
  (findInSizeList l idx size buckSize = (l, (-1, false)) /\
   forall p it, B !! p = Some it -> sizeClass (actualSize it) = Some idx -> actualSize it < size) \/
  (exists l' r B', findInSizeList l idx size buckSize = (l', (r, true)) /\
     fl_rep l' B' /\ took B B' r size).
Proof.
  intros H Hidx Hs Hbound. pose proof (rep_blocks _ _ H) as HB.
  destruct (proj2 (rep_buckets _ _ H) _ _ (rep_bucket _ _ _ H Hidx)) as [_ Hin].
  unfold findInSizeList.
  destruct (scanSize (fl_heap l) (bucket l idx) size 0) as [[x p]|] eqn:E.
  2:{ left. split; [done|]. intros p it Hp Hc.
      assert (p ∈ bucket l idx) as Hpin by (apply Hin; eauto).
      pose proof (scanSize_None _ _ _ _ _ E Hpin) as Hlt.
      by rewrite (proj1 (rep_heap _ _ H) _ _ Hp) in Hlt. }
  right. apply scanSize_Some in E as (_ & Hx & Hsize). rewrite Nat.sub_0_r in Hx.
  destruct (proj1 (Hin p)) as (it & Hp & Hc); [by eapply list_elem_of_lookup_2|].
  rewrite (proj1 (rep_heap _ _ H) _ _ Hp) in Hsize. simpl in Hsize.
  rewrite (rep_deref _ _ _ _ H Hp).
  destruct (size =? actualSize it) eqn:Eq; zbool.
  - eexists _, _, _. split; [done|]. subst. split; [|by apply took_whole].
    eapply (rep_forget_at l); eauto. simpl. rewrite !avl_view_remove. unfold lastIndex.
    do 2 f_equal. lia.
  - destruct (actualSize it - size >=? buckSize) eqn:Eb; zbool.
    + eexists _, _, _. split; [done|].
      assert (0 < size < actualSize it) as Hs' by lia.
      split; [|by apply took_shrink].
      assert (idx = 7%nat) as ->.
      { unfold bound_ok in Hbound. case_decide; [done|]. specialize (Hbound _ Hc Hsize). lia. }
      unfold bound_ok in Hbound. rewrite decide_True in Hbound by done.
      destruct (proj1 HB _ _ Hp) as [_ Hi].
      split; simpl.
      * apply blocks_ok_insert; simpl; [done|lia..|].
        intros q a y Hq Hne Hy Ha. apply Hne. symmetry.
        apply (proj2 HB p q it a y Hp Hq); [|done]. unfold inBlock in *. simpl in *. lia.
      * rewrite avl_view_put, avl_view_remove. by apply tree_ok_shrink; [| apply H| |].
      * apply buckets_ok_update; [apply H|]. rewrite Hp, Hc. simpl.
        unfold sizeClass. repeat case_if; lia || done.
      * destruct (rep_heap _ _ H) as [H1 H2]. split.
        -- intros q a [[<- <-]|[? Hq]]%lookup_insert_Some; [by rewrite lookup_insert_eq|].
           rewrite lookup_insert_ne by done. auto.
        -- intros q [a [[<- _]|[_ Hq]]%lookup_insert_Some]; eauto.
    + match goal with |- context [add ?l3 _ _] => set (l3' := l3) end.
      assert (fl_rep l3' (delete p B)) as H3.
      { eapply (rep_forget_at l); eauto. simpl. by rewrite !avl_view_remove. }
      destruct (took_split l3' B p it size HB H3 Hp ltac:(lia)) as (B' & H' & Ht).
      eauto 10.
Qed.

(** The value of [buckSize] when the loop of [find] reaches array [idx]. *)
Definition loop_bound (idx : nat) (size : Z) : Z :=
  if (idx <? 7)%nat
  then (if size =? 4096 then 0 else 64 * 2 ^ Z.of_nat idx)
  else 4097.

Lemma sizeClass_upper (n : Z) (i : nat) :
  sizeClass n = Some i -> (i < 7)%nat -> n < 64 * 2 ^ Z.of_nat i /\ n < 4096.
Proof. unfold sizeClass. repeat case_if; intros [= <-] ?; lia || (cbn; lia). Qed.

Lemma loop_bound_ok (idx : nat) (size : Z) :
  0 < size -> (idx < 8)%nat -> bound_ok idx size (loop_bound idx size).
Proof.
  intros Hs Hidx. unfold bound_ok, loop_bound. case_decide; [by subst|].
  rewrite (proj2 (Nat.ltb_lt idx 7)) by lia. intros n Hc Hn.
  apply sizeClass_upper in Hc; [|lia]. case_if; lia.
Qed.

Lemma loop_bound_next (idx : nat) (size : Z) :
  (idx < 7)%nat ->
  (if (idx <? 6)%nat then loop_bound idx size * 2 else 4097) = loop_bound (S idx) size.
Proof.
  intros H. unfold loop_bound.
  destruct (Nat.ltb_spec idx 6), (Nat.ltb_spec (S idx) 7), (Nat.ltb_spec idx 7); try lia.
  destruct (size =? 4096); [done|]. rewrite Nat2Z.inj_succ, Z.pow_succ_r; lia.
Qed.

Lemma findLoop_spec l (B : blocks) (size : Z) (todo idx : nat) :
  fl_rep l B -> 0 < size -> (idx + todo = 8)%nat ->
  (findLoop l size (loop_bound idx size) idx todo = (l, -1) /\
   forall p it i, B !! p = Some it -> sizeClass (actualSize it) = Some i ->
     (idx <= i)%nat -> actualSize it < size) \/
  (exists l' r B', findLoop l size (loop_bound idx size) idx todo = (l', r) /\
     fl_rep l' B' /\ took B B' r size).
Proof.
  intros H Hs. revert idx. induction todo as [|todo IH]; intros idx Hidx; simpl.
  { left. split; [done|]. intros p it i _ Hc ?. apply sizeClass_lt in Hc. lia. }
  destruct (findInSizeList_spec l B idx size (loop_bound idx size) H)
    as [[-> Hno]|(l' & r & B' & -> & H' & Ht)]; [lia|done|by apply loop_bound_ok; [|lia]| |].
  2:{ right. eauto 10. }
  destruct (decide (idx = 7%nat)) as [->|].
  - replace todo with 0%nat by lia. left. split; [done|].
    intros p it i Hp Hc ?. apply (Hno p it Hp). pose proof (sizeClass_lt _ _ Hc).
    by replace 7%nat with i by lia.
  - rewrite loop_bound_next by lia.
    destruct (IH (S idx)) as [[-> Hno']|]; [lia| |by right].
    left. split; [done|]. intros p it i Hp Hc Hi.
    destruct (decide (i = idx)) as [->|]; [by apply (Hno p)|]. apply (Hno' p it i); auto. lia.
Qed.

Lemma sizeClass_below_start (n size : Z) (i : nat) :
  0 < size -> sizeClass n = Some i -> (i < fst (findStart size))%nat -> n < size.
Proof.
  unfold findStart, sizeClass. intros Hs.
  destruct (size <? 64) eqn:?; [simpl; lia|].
  repeat (case_if; [intros [= <-]; repeat case_if; simpl; lia|]).
  discriminate.
Qed.

Lemma findStart_bound (size : Z) :
  (fst (findStart size) <= 7)%nat /\
  snd (findStart size) = loop_bound (fst (findStart size)) size.
Proof.
  unfold findStart, loop_bound. repeat case_if; simpl in *; zbool; try discriminate; try lia;
    split; try lia; try done.
Qed.

(** A search either fails and changes nothing, and then every free range of an
    indexed size is too small; or it takes exactly [size] free bytes. *)
Lemma find_rep l (B : blocks) (size : Z) :
  fl_rep l B -> 0 < size ->
  (find l size = (l, -1) /\
   forall p it, B !! p = Some it -> actualSize it <> 4096 -> actualSize it < size) \/
  (exists l' r B', find l size = (l', r) /\ fl_rep l' B' /\ took B B' r size).
Proof.
  intros H Hs. unfold find. destruct (findStart_bound size) as [Hi Hb].
  pose proof (fun n i => sizeClass_below_start n size i Hs) as Hbelow.
  destruct (findStart size) as [index b]. cbn [fst snd] in *. subst b.
  destruct (findLoop_spec l B size (8 - index) index H Hs)
    as [[-> Hno]|Hyes]; [lia| |by right].
  left. split; [done|]. intros p it Hp Hne.
  destruct (sizeClass (actualSize it)) as [i|] eqn:Hc;
    [|by apply sizeClass_None in Hc].
  destruct (decide (index <= i)%nat); [by apply (Hno p it i)|]. apply (Hbelow _ i); [done|lia].
Qed.

(** ** Runs of a free list *)

(** Runs from an empty free list, with the bytes that are free by the contract:
    those that were freed and not handed out since. *)
Inductive fl_run : freeList T -> (Z -> Prop) -> Prop :=
| run_new : fl_run newFreeList (fun _ => False)
| run_add l F index size :
    fl_run l F -> 0 < size -> 0 <= index -> (forall x, index <= x < index + size -> ~ F x) ->
    fl_run (add l index size) (fun x => F x \/ index <= x < index + size)
| run_find l l' F size r :
    fl_run l F -> 0 < size -> find l size = (l', r) ->
    fl_run l' (fun x => F x /\ ~ (r <> -1 /\ r <= x < r + size)).

(** What a run tracks is free by the contract. *)
Lemma fl_run_rep l F : fl_run l F -> exists B, fl_rep l B /\ forall x, covers B x -> F x.
Proof.
  induction 1 as [|l F index size _ (B & HB & HF) Hs Hi Hfree|l l' F size r _ (B & HB & HF) Hs Hf].
  - exists ∅. split; [apply newFreeList_rep|]. intros x (p & it & Hp & _). by rewrite lookup_empty in Hp.
  - destruct (add_rep l B index size HB Hs Hi) as (B' & HB' & Hcov).
    { intros x Hx Hc. by apply (Hfree x Hx), HF. }
    exists B'. split; [done|]. intros x [Hx|[Hx _]]%Hcov; [by right|left; by apply HF].
  - destruct (find_rep l B size HB Hs) as [[Hn _]|(l1 & r1 & B' & Hf1 & HB' & Ht)].
    + rewrite Hf in Hn. injection Hn as -> ->. exists B. split; [done|]. naive_solver.
    + rewrite Hf in Hf1. injection Hf1 as <- <-. exists B'. split; [done|].
      intros x [Hx Hout]%Ht. split; [by apply HF|tauto].
Qed.

(** ** Claims *)

(** C9. Safety of allocation.  In every run of the free list that frees only
    bytes that are not free, whatever [find] hands out is a range of bytes that
    were freed and not handed out since: no byte is ever given to two owners. *)
Theorem find_hands_out_free_bytes l l' F (size r : Z) :
  fl_run l F -> 0 < size -> find l size = (l', r) -> r <> -1 ->
  0 <= r /\ forall x, r <= x < r + size -> F x.
Proof.
  intros Hr Hs Hf Hne. destruct (fl_run_rep l F Hr) as (B & HB & HF).
  destruct (find_rep l B size HB Hs) as [[Hn _]|(l1 & r1 & B' & Hf1 & _ & (Hr0 & Hin & _))].
  - rewrite Hf in Hn. congruence.
  - rewrite Hf in Hf1. injection Hf1 as <- <-. split; [done|]. intros x Hx. by apply HF, Hin.
Qed.

(** [find] succeeds whenever a tracked range is large enough (ranges of
    exactly 4096 bytes apart, which no size array lists): it takes exactly the
    requested number of bytes out of the tracked ones and keeps the free list
    consistent, the rest of the range it cuts included. *)
Theorem find_complete l (B : blocks) (p : loc) (it : itemPos) (size : Z) :
  fl_rep l B -> 0 < size -> B !! p = Some it -> size <= actualSize it -> actualSize it <> 4096 ->
  exists l' r B', find l size = (l', r) /\ r <> -1 /\ fl_rep l' B' /\
    (forall x, r <= x < r + size -> covers B x) /\
    (forall x, covers B' x <-> covers B x /\ ~ (r <= x < r + size)).
Proof.
  intros H Hs Hp Hle Hne. destruct (find_rep l B size H Hs) as [[_ Hno]|(l' & r & B' & Hf & H' & Hr & Ht)].
  - specialize (Hno p it Hp Hne). lia.
  - exists l', r, B'. split_and!; [done|lia|done|apply Ht..].
Qed.

(** [add] keeps the free list consistent: tree, size arrays and ranges agree.
    The freed bytes are in one range, merged with what is free next to
    them; the tracked bytes are the freed ones and those tracked before, less the
    left neighbour when the freed range touches a free range on both sides. *)
Theorem add_tracks l (B : blocks) (index size : Z) :
  fl_rep l B -> 0 < size -> 0 <= index -> noneFree B index size ->
  exists B' p it, fl_rep (add l index size) B' /\ B' !! p = Some it /\
    (forall x, index <= x < index + size -> inBlock it x) /\
    (forall x, covers B' x <->
       index <= x < index + size \/ (covers B x /\ ~ lostLeft B index size x)).
Proof.
  intros H Hs Hi Hfree. destruct (add_rep_block l B index size H Hs Hi Hfree) as (B' & p & it & Hrest).
  exists B', p, it. tauto.
Qed.

End FreeListProofs.

(** ** Witnesses and runs of interest *)

Section FreeListExamples.
Abbreviation tree := (gmap Z loc).

(** Ten free bytes. *)
Definition tenFree : freeList tree := add newFreeList 1 10.

Definition tenBlock : blocks := {[1%positive := ItemPos 10 1]}.

Lemma tenFree_rep : fl_rep tenFree tenBlock.
Proof.
  apply (rep_track (newFreeList (T := tree)) ∅ (ItemPos 10 1)); simpl; [apply newFreeList_rep|lia|lia|].
  intros x _ (p & it & Hp & _). by rewrite lookup_empty in Hp.
Qed.

Lemma tenFree_run : fl_run tenFree (fun x => False \/ 1 <= x < 1 + 10).
Proof. apply (run_add newFreeList (fun _ => False)); [constructor 1|lia|lia|tauto]. Qed.

Lemma find_hands_out_free_bytes_witness :
  0 <= 1 /\ forall x, 1 <= x < 1 + 4 -> False \/ 1 <= x < 1 + 10.
Proof.
  apply (find_hands_out_free_bytes tenFree (fst (find tenFree 4)) (fun x => False \/ 1 <= x < 1 + 10) 4 1);
    [exact tenFree_run|lia|vm_compute; reflexivity|lia].
Defined.

Lemma find_complete_witness :
  exists l' r B', find tenFree 4 = (l', r) /\ r <> -1 /\ fl_rep l' B' /\
    (forall x, r <= x < r + 4 -> covers tenBlock x) /\
    (forall x, covers B' x <-> covers tenBlock x /\ ~ (r <= x < r + 4)).
Proof.
  apply (find_complete tenFree tenBlock 1%positive (ItemPos 10 1) 4);
    [exact tenFree_rep|lia|reflexivity|simpl; lia|simpl; lia].
Defined.

(** The range to the right of ten free bytes is freed. *)
Lemma add_tracks_witness :
  exists B' p it, fl_rep (add tenFree 11 5) B' /\ B' !! p = Some it /\
    (forall x, 11 <= x < 11 + 5 -> inBlock it x) /\
    (forall x, covers B' x <->
       11 <= x < 11 + 5 \/ (covers tenBlock x /\ ~ lostLeft tenBlock 11 5 x)).
Proof.
  apply (add_tracks tenFree tenBlock 11 5); [exact tenFree_rep|lia|lia|].
  intros x Hx (p & it & Hp & Hin). unfold tenBlock in Hp. apply lookup_singleton_Some in Hp as [_ <-].
  unfold inBlock in Hin. simpl in Hin. lia.
Defined.

(** Three ranges in a row, the middle one freed last. *)
Definition threeInARow : freeList tree := add (add (add newFreeList 1 10) 21 10) 11 10.

(** The merge with both neighbours loses the left one.  Thirty consecutive
    bytes are freed in three pieces, the middle one last; the free list then has
    no range of more than twenty, and once these are taken it has none at all:
    the first ten bytes can never be handed out again. *)
Theorem add_between_neighbours_leaks :
  snd (find threeInARow 30) = -1 /\ snd (find threeInARow 21) = -1 /\
  snd (find threeInARow 20) = 11 /\ snd (find (fst (find threeInARow 20)) 1) = -1.
Proof. vm_compute. auto. Qed.

(** A freed range of exactly 4096 bytes is listed in no size array: no request
    finds it, while ranges of 4095 and 4097 bytes are found. *)
Theorem size_4096_never_reused :
  let l (n : Z) : freeList tree := add newFreeList 1 n in
  snd (find (l 4096) 4096) = -1 /\ snd (find (l 4096) 1) = -1 /\
  snd (find (l 4095) 4095) = 1 /\ snd (find (l 4097) 4097) = 1.
Proof. vm_compute. auto. Qed.
End FreeListExamples.
