(* ===== verification/BytesQueue.v ===== *)
(** * The byte queue ([bigcache/queue/bytes_queue.go])

    A growable byte array in which entries are stored behind a four byte
    length.  [Push] reuses a freed range when the free list has one and
    otherwise appends at the tail; [Get] reads an entry by its index; [Delete]
    gives its bytes to the free list; [Pop] and [Peek] use the array as a ring.

    The cache only ever pushes, reads by index and deletes, so the head stays
    at the left margin ([bq_rep] requires it).  Under that discipline the queue
    is an indexed store: [bq_rep q live] says that the entries of the finite map
    [live] are exactly the ones stored, in pairwise disjoint ranges that share
    no byte with the free list. *)

From Stdlib Require Import Strings.String.
From stdpp Require Import base decidable countable list gmap.
From Stdlib Require Import ZArith Lia Strings.Byte.
From S2P Require Import Prelude.
From S2P Require Import GoLib.
From S2P Require Import FreeList.

Definition headerEntrySize : Z := 4.

Definition leftMarginIndex : Z := 1.

Definition minimumEmptyBlobSize : Z := 32 + headerEntrySize.

Inductive queueError : Type :=
| ErrFullQueue
| ErrEmptyQueue
| ErrInvalidIndex
| ErrIndexOutOfRange.

(** [queueError.Error] *)
Definition queueErrorText (e : queueError) : gostring :=
  match e with
  | ErrFullQueue => list_byte_of_string "Full queue. Maximum size limit reached."
  | ErrEmptyQueue => list_byte_of_string "Empty queue"
  | ErrInvalidIndex => list_byte_of_string "Index must be grater than zero. Invalid index."
  | ErrIndexOutOfRange => list_byte_of_string "Index out of range"
  end.

Record BytesQueue (T : Type) : Type := MkBytesQueue {
  bq_array : list byte;
  bq_capacity : Z;
  bq_maxCapacity : Z;
  bq_head : Z;
  bq_tail : Z;
  bq_count : Z;
  bq_rightMargin : Z;
  bq_headerBuffer : list byte;
  bq_verbose : bool;
  bq_initialCapacity : Z;
  bq_freelist : freeList T
}.

Arguments MkBytesQueue {T} _ _ _ _ _ _ _ _ _ _ _.
Arguments bq_array {T} _.
Arguments bq_capacity {T} _.
Arguments bq_maxCapacity {T} _.
Arguments bq_head {T} _.
Arguments bq_tail {T} _.
Arguments bq_count {T} _.
Arguments bq_rightMargin {T} _.
Arguments bq_headerBuffer {T} _.
Arguments bq_verbose {T} _.
Arguments bq_initialCapacity {T} _.
Arguments bq_freelist {T} _.

(** The entries a queue stores, by index. *)
Abbreviation entries := (gmap Z (list byte)).

Section BytesQueueOps.
Context {T : Type} `{!AvlTree loc T}.
Implicit Types q : BytesQueue T.

(** ** Field updates *)

Definition set_array q (a : list byte) : BytesQueue T :=
  MkBytesQueue a (bq_capacity q) (bq_maxCapacity q) (bq_head q) (bq_tail q) (bq_count q)
    (bq_rightMargin q) (bq_headerBuffer q) (bq_verbose q) (bq_initialCapacity q) (bq_freelist q).

Definition set_capacity q (c : Z) : BytesQueue T :=
  MkBytesQueue (bq_array q) c (bq_maxCapacity q) (bq_head q) (bq_tail q) (bq_count q)
    (bq_rightMargin q) (bq_headerBuffer q) (bq_verbose q) (bq_initialCapacity q) (bq_freelist q).

Definition set_head q (h : Z) : BytesQueue T :=
  MkBytesQueue (bq_array q) (bq_capacity q) (bq_maxCapacity q) h (bq_tail q) (bq_count q)
    (bq_rightMargin q) (bq_headerBuffer q) (bq_verbose q) (bq_initialCapacity q) (bq_freelist q).

Definition set_tail q (t : Z) : BytesQueue T :=
  MkBytesQueue (bq_array q) (bq_capacity q) (bq_maxCapacity q) (bq_head q) t (bq_count q)
    (bq_rightMargin q) (bq_headerBuffer q) (bq_verbose q) (bq_initialCapacity q) (bq_freelist q).

Definition set_count q (c : Z) : BytesQueue T :=
  MkBytesQueue (bq_array q) (bq_capacity q) (bq_maxCapacity q) (bq_head q) (bq_tail q) c
    (bq_rightMargin q) (bq_headerBuffer q) (bq_verbose q) (bq_initialCapacity q) (bq_freelist q).

Definition set_rightMargin q (r : Z) : BytesQueue T :=
  MkBytesQueue (bq_array q) (bq_capacity q) (bq_maxCapacity q) (bq_head q) (bq_tail q) (bq_count q)
    r (bq_headerBuffer q) (bq_verbose q) (bq_initialCapacity q) (bq_freelist q).

Definition set_headerBuffer q (b : list byte) : BytesQueue T :=
  MkBytesQueue (bq_array q) (bq_capacity q) (bq_maxCapacity q) (bq_head q) (bq_tail q) (bq_count q)
    (bq_rightMargin q) b (bq_verbose q) (bq_initialCapacity q) (bq_freelist q).

Definition set_freelist q (fl : freeList T) : BytesQueue T :=
  MkBytesQueue (bq_array q) (bq_capacity q) (bq_maxCapacity q) (bq_head q) (bq_tail q) (bq_count q)
    (bq_rightMargin q) (bq_headerBuffer q) (bq_verbose q) (bq_initialCapacity q) fl.

(** ** Operations *)

(** [make([]byte, n)] panics on a negative length. *)
Definition NewBytesQueue (initialCapacity maxCapacity : Z) (verbose : bool) : outcome (BytesQueue T) :=
  if initialCapacity <? 0 then Panic
  else Ret (MkBytesQueue (zeros initialCapacity) initialCapacity maxCapacity
              leftMarginIndex leftMarginIndex 0 leftMarginIndex
              (zeros headerEntrySize) verbose initialCapacity newFreeList).

Definition queueReset q : BytesQueue T :=
  set_count
    (set_rightMargin (set_head (set_tail q leftMarginIndex) leftMarginIndex) leftMarginIndex) 0.

(** [q.tail += copy(q.array[q.tail:], data[:len])]; every caller passes the
    length of [data], so the capacity of [data] does not matter. *)
Definition queueCopy q (data : list byte) (len : Z) : outcome (BytesQueue T) :=
  if (0 <=? bq_tail q) && (bq_tail q <=? zlen (bq_array q)) && (0 <=? len) && (len <=? zlen data)
  then
    let src := take (Z.to_nat len) data in
    let n := Z.min (zlen (bq_array q) - bq_tail q) (zlen src) in
    Ret (set_tail (set_array q (blit (bq_array q) (bq_tail q) src)) (bq_tail q + n))
  else Panic.

(** The header, then the data, at the tail. *)
Definition writeEntry q (data : list byte) (len : Z) : outcome (BytesQueue T) :=
  let q1 := set_headerBuffer q (le_bytes 4 (u32 len)) in
  let! q2 := queueCopy q1 (bq_headerBuffer q1) headerEntrySize in
  queueCopy q2 data len.

(** [push] *)
Definition queuePush q (data : list byte) (len : Z) : outcome (BytesQueue T) :=
  let! q1 := writeEntry q data len in
  let q2 := if bq_tail q1 >? bq_head q1 then set_rightMargin q1 (bq_tail q1) else q1 in
  Ret (set_count q2 (bq_count q2 + 1)).

Definition availableSpaceAfterTail q : Z :=
  if bq_tail q >=? bq_head q then bq_capacity q - bq_tail q
  else bq_head q - bq_tail q - minimumEmptyBlobSize.

Definition availableSpaceBeforeHead q : Z :=
  if bq_tail q >=? bq_head q then bq_head q - leftMarginIndex - minimumEmptyBlobSize
  else bq_head q - bq_tail q - minimumEmptyBlobSize.

(** The capacity the array grows to. *)
Definition grownCapacity (capacity maxCapacity minimum : Z) : Z :=
  let c1 := if capacity <? minimum then capacity + minimum else capacity in
  let c2 := c1 * 2 in
  if (c2 >? maxCapacity) && (maxCapacity >? 0) then maxCapacity else c2.

Definition allocateAdditionalMemory q (minimum : Z) : outcome (BytesQueue T) :=
  let q1 := set_capacity q (grownCapacity (bq_capacity q) (bq_maxCapacity q) minimum) in
  let oldArray := bq_array q1 in
  if bq_capacity q1 <? 0 then Panic
  else
    let q2 := set_array q1 (zeros (bq_capacity q1)) in
    if negb (leftMarginIndex =? bq_rightMargin q2) then
      if (bq_rightMargin q2 <? 0) || (zlen oldArray <? bq_rightMargin q2) then Panic
      else
        let q3 := set_array q2 (blit (bq_array q2) 0 (region oldArray 0 (bq_rightMargin q2))) in
        if bq_tail q3 <? bq_head q3 then
          let emptyBlobLen := bq_head q3 - bq_tail q3 - headerEntrySize in
          if emptyBlobLen <? 0 then Panic
          else
            let! q4 := queuePush q3 (zeros emptyBlobLen) emptyBlobLen in
            Ret (set_tail (set_head q4 leftMarginIndex) (bq_rightMargin q4))
        else Ret q3
    else Ret q2.

(** [Push] *)
Definition Push q (data : list byte) : outcome (BytesQueue T * (Z + queueError)) :=
  let dataLen := zlen data in
  let '(fl, idx) := find (bq_freelist q) (dataLen + headerEntrySize) in
  let q := set_freelist q fl in
  if negb (-1 =? idx) then
    let tmpTail := bq_tail q in
    let! q1 := writeEntry (set_tail q idx) data dataLen in
    let q2 := set_count q1 (bq_count q1 + 1) in
    Ret (set_tail q2 tmpTail, inl idx)
  else
    let! r :=
      if availableSpaceAfterTail q <? dataLen + headerEntrySize then
        if availableSpaceBeforeHead q >=? dataLen + headerEntrySize then
          Ret (inl (set_tail q leftMarginIndex))
        else if (bq_capacity q + headerEntrySize + dataLen >=? bq_maxCapacity q)
                && (bq_maxCapacity q >? 0) then
          Ret (inr ErrFullQueue)
        else
          let! q1 := allocateAdditionalMemory q (dataLen + headerEntrySize) in Ret (inl q1)
      else Ret (inl q) in
    match r with
    | inr e => Ret (q, inr e)
    | inl q1 =>
        let index := bq_tail q1 in
        let! q2 := queuePush q1 data dataLen in
        Ret (q2, inl index)
    end.

(** [peek]: the slice of the entry's data and its size. *)
Definition peek q (index : Z) : outcome (slice * Z + queueError) :=
  if bq_count q =? 0 then Ret (inr ErrEmptyQueue)
  else if index <=? 0 then Ret (inr ErrInvalidIndex)
  else if index + headerEntrySize >=? zlen (bq_array q) then Ret (inr ErrIndexOutOfRange)
  else
    let all := sl_all (bq_array q) in
    let! hdr := sl_slice (bq_array q) all index (index + headerEntrySize) in
    let! blockSize := sl_getUint 4 (bq_array q) hdr in
    let! s := sl_slice (bq_array q) all (index + headerEntrySize) (index + headerEntrySize + blockSize) in
    Ret (inl (s, blockSize)).

(** [Pop]: the slice aliases the array. *)
Definition Pop q : outcome (BytesQueue T * (slice + queueError)) :=
  let! r := peek q (bq_head q) in
  match r with
  | inr e => Ret (q, inr e)
  | inl (data, size) =>
      let q1 := set_head q (bq_head q + (headerEntrySize + size)) in
      let q2 := set_count q1 (bq_count q1 - 1) in
      let q3 :=
        if bq_head q2 =? bq_rightMargin q2 then
          let q4 := set_head q2 leftMarginIndex in
          let q5 := if bq_tail q4 =? bq_rightMargin q4 then set_tail q4 leftMarginIndex else q4 in
          set_rightMargin q5 (bq_tail q5)
        else q2 in
      Ret (q3, inl data)
  end.

Definition queueGet q (index : Z) : outcome (slice + queueError) :=
  let! r := peek q index in
  Ret (match r with inl (data, _) => inl data | inr e => inr e end).

Definition Peek q : outcome (slice + queueError) := queueGet q (bq_head q).

Definition queueCapacity q : Z := bq_capacity q.

Definition queueLen q : Z := bq_count q.

(** [Delete] *)
Definition queueDelete q (index : Z) : outcome (BytesQueue T * option queueError) :=
  let! r := peek q index in
  match r with
  | inr e => Ret (q, Some e)
  | inl (_, size) =>
      let q1 := set_freelist q (add (bq_freelist q) index (size + headerEntrySize)) in
      Ret (set_count q1 (bq_count q1 - 1), None)
  end.

(** ** What the queue stores *)

(** The bytes an entry occupies. *)
Definition inEntry (i : Z) (d : list byte) (x : Z) : Prop :=
  i <= x < i + headerEntrySize + zlen d.

Record bq_rep q (live : entries) (B : blocks) : Prop := {
  bqr_free : fl_rep (bq_freelist q) B;
  bqr_capacity : bq_capacity q = zlen (bq_array q);
  bqr_head : bq_head q = leftMarginIndex;
  bqr_tail : leftMarginIndex <= bq_tail q <= Z.max leftMarginIndex (bq_capacity q);
  bqr_margin : bq_rightMargin q = bq_tail q;
  bqr_count : bq_count q = Z.of_nat (size live);
  bqr_header : zlen (bq_headerBuffer q) = headerEntrySize;
  (** free bytes lie below the tail *)
  bqr_free_in : forall x, covers B x -> leftMarginIndex <= x < bq_tail q;
  (** every entry lies below the tail, is not empty, and is stored behind its length *)
  bqr_entry : forall i d, live !! i = Some d ->
    leftMarginIndex <= i /\ i + headerEntrySize + zlen d <= bq_tail q /\
    0 < zlen d < 2 ^ 32 /\
    region (bq_array q) i headerEntrySize = le_bytes 4 (zlen d) /\
    region (bq_array q) (i + headerEntrySize) (zlen d) = d;
  (** entries share no byte with each other or with free ranges *)
  bqr_disjoint : forall i j d e x, live !! i = Some d -> live !! j = Some e ->
    inEntry i d x -> inEntry j e x -> i = j;
  bqr_notfree : forall i d x, live !! i = Some d -> inEntry i d x -> ~ covers B x
}.

End BytesQueueOps.

(** ** Writing an entry *)

(** [arr'] is [arr] with the entry [d] stored at [i] and nothing else changed. *)
Definition written (arr arr' : list byte) (i : Z) (d : list byte) : Prop :=
  zlen arr' = zlen arr /\
  region arr' i headerEntrySize = le_bytes 4 (zlen d) /\
  region arr' (i + headerEntrySize) (zlen d) = d /\
  (forall o n, 0 <= o -> o + n <= i \/ i + headerEntrySize + zlen d <= o ->
     region arr' o n = region arr o n).

Lemma written_blit (arr : list byte) (i : Z) (d : list byte) :
  0 <= i -> i + headerEntrySize + zlen d <= zlen arr ->
  written arr (blit (blit arr i (le_bytes 4 (zlen d))) (i + headerEntrySize) d) i d.
Proof.
  unfold written, headerEntrySize. intros Hi Hl. pose proof (zlen_nonneg d).
  assert (zlen (le_bytes 4 (zlen d)) = 4) as Hh by apply zlen_le_bytes.
  assert (zlen (blit arr i (le_bytes 4 (zlen d))) = zlen arr) as Hb
    by (apply zlen_blit; lia).
  split_and!.
  - rewrite zlen_blit; lia.
  - rewrite region_blit_disjoint by lia.
    pose proof (region_blit_same arr (le_bytes 4 (zlen d)) i) as Hr.
    rewrite Hh in Hr. apply Hr; lia.
  - apply region_blit_same; lia.
  - intros o n Ho Hd. rewrite !region_blit_disjoint; lia || done.
Qed.

Section BytesQueueProofs.
Context {T : Type} `{!AvlTree loc T} `{!AvlTreeLaws loc T}.
Implicit Types q : BytesQueue T.

Lemma queueCopy_Ret q (data : list byte) :
  0 <= bq_tail q -> bq_tail q + zlen data <= zlen (bq_array q) ->
  queueCopy q data (zlen data) =
  Ret (set_tail (set_array q (blit (bq_array q) (bq_tail q) data)) (bq_tail q + zlen data)).
Proof.
  intros H1 H2. pose proof (zlen_nonneg data). unfold queueCopy.
  rewrite !(proj2 (Z.leb_le _ _)) by lia. simpl.
  unfold zlen at 1 4. rewrite Nat2Z.id, take_ge by done.
  by rewrite Z.min_r by lia.
Qed.

(** The state after [writeEntry]. *)
Definition entryWritten q (data : list byte) : BytesQueue T :=
  let hdr := le_bytes 4 (zlen data) in
  set_tail
    (set_array (set_headerBuffer q hdr)
       (blit (blit (bq_array q) (bq_tail q) hdr) (bq_tail q + headerEntrySize) data))
    (bq_tail q + headerEntrySize + zlen data).

Lemma writeEntry_Ret q (data : list byte) :
  0 <= bq_tail q -> bq_tail q + headerEntrySize + zlen data <= zlen (bq_array q) ->
  zlen data < 2 ^ 32 ->
  writeEntry q data (zlen data) = Ret (entryWritten q data).
Proof.
  intros H1 H2 H3. pose proof (zlen_nonneg data). unfold headerEntrySize in *.
  unfold writeEntry, u32. rewrite Z.mod_small by lia.
  assert (zlen (le_bytes 4 (zlen data)) = 4) as Hh by apply zlen_le_bytes.
  pose proof (queueCopy_Ret (set_headerBuffer q (le_bytes 4 (zlen data))) (le_bytes 4 (zlen data))) as Hc.
  rewrite Hh in Hc. cbn [bq_headerBuffer set_headerBuffer]. change headerEntrySize with 4.
  rewrite Hc by (cbn; lia). cbn [obind].
  rewrite queueCopy_Ret by (cbn -[zlen blit]; rewrite ?zlen_blit; lia).
  reflexivity.
Qed.

(** ** The representation, one update at a time *)

(** An entry stored in bytes no other entry uses joins the store. *)
Lemma rep_add_entry q q' (live : entries) (B B' : blocks) (i : Z) (d : list byte) :
  bq_rep q live B ->
  fl_rep (bq_freelist q') B' ->
  written (bq_array q) (bq_array q') i d ->
  bq_capacity q' = bq_capacity q -> bq_head q' = leftMarginIndex ->
  bq_tail q <= bq_tail q' <= bq_capacity q -> bq_rightMargin q' = bq_tail q' ->
  bq_count q' = bq_count q + 1 -> zlen (bq_headerBuffer q') = headerEntrySize ->
  leftMarginIndex <= i -> i + headerEntrySize + zlen d <= bq_tail q' -> 0 < zlen d < 2 ^ 32 ->
  (forall j e x, live !! j = Some e -> inEntry j e x -> ~ inEntry i d x) ->
  (forall x, covers B' x -> covers B x /\ ~ inEntry i d x) ->
  live !! i = None /\ bq_rep q' (<[i:=d]> live) B'.
Proof.
  intros H Hfl (Hlen & Hhdr & Hdata & Hframe) Hcap Hhead Htail Hmargin Hcount Hbuf
    Hi Hin Hd Hdisj Hcov.
  assert (live !! i = None) as Hnew.
  { destruct (live !! i) as [e|] eqn:E; [|done]. exfalso.
    apply (Hdisj i e i E); unfold inEntry, headerEntrySize; pose proof (zlen_nonneg e); lia. }
  pose proof (bqr_capacity _ _ _ H) as Hc.
  split; [done|]. split; try done.
  - by rewrite Hcap, Hc, Hlen.
  - pose proof (bqr_tail _ _ _ H). lia.
  - rewrite Hcount, (bqr_count _ _ _ H), map_size_insert_None by done. lia.
  - intros x Hx. destruct (Hcov x Hx) as [Hx' _].
    pose proof (bqr_free_in _ _ _ H x Hx'). lia.
  - intros j e [[<- <-]|[Hne Hj]]%lookup_insert_Some; [split_and!; done || lia|].
    destruct (bqr_entry _ _ _ H j e Hj) as (Hj1 & Hj2 & Hj3 & Hj4 & Hj5).
    pose proof (Hdisj j e i Hj) as Hd1. pose proof (Hdisj j e j Hj) as Hd2.
    unfold inEntry, headerEntrySize, leftMarginIndex in *.
    split_and!; try lia.
    + rewrite Hframe; [done|lia|lia].
    + rewrite Hframe; [done|lia|lia].
  - intros j k e f x [[<- <-]|[_ Hj]]%lookup_insert_Some [[<- <-]|[_ Hk]]%lookup_insert_Some Hx1 Hx2.
    + done.
    + exfalso. by apply (Hdisj k f x).
    + exfalso. by apply (Hdisj j e x).
    + by apply (bqr_disjoint _ _ _ H j k e f x).
  - intros j e x [[<- <-]|[_ Hj]]%lookup_insert_Some Hx Hc'; destruct (Hcov x Hc') as [Hc1 Hc2].
    + done.
    + by apply (bqr_notfree _ _ _ H j e x).
Qed.

(** Room for an entry at the tail: [push] stores it there. *)
Lemma queuePush_rep q (live : entries) (B : blocks) (d : list byte) :
  bq_rep q live B -> 0 < zlen d < 2 ^ 32 ->
  bq_tail q + headerEntrySize + zlen d <= bq_capacity q ->
  exists q', queuePush q d (zlen d) = Ret q' /\
    live !! bq_tail q = None /\ bq_rep q' (<[bq_tail q:=d]> live) B /\
    bq_capacity q' = bq_capacity q /\ bq_maxCapacity q' = bq_maxCapacity q /\
    bq_initialCapacity q' = bq_initialCapacity q.
Proof.
  intros H Hd Hroom. pose proof (bqr_tail _ _ _ H) as Ht.
  pose proof (bqr_capacity _ _ _ H) as Hc. pose proof (bqr_head _ _ _ H) as Hh.
  unfold headerEntrySize, leftMarginIndex in *.
  unfold queuePush. rewrite writeEntry_Ret by (unfold headerEntrySize; lia).
  cbn [obind]. eexists. split; [reflexivity|].
  replace (bq_tail (entryWritten q d) >? bq_head (entryWritten q d)) with true.
  2:{ symmetry. cbn. rewrite Z.gtb_ltb. apply Z.ltb_lt. unfold headerEntrySize. lia. }
  match goal with |- _ /\ bq_rep ?q' _ _ /\ _ => set (q1 := q') end.
  destruct (rep_add_entry q q1 live B B (bq_tail q) d) as [Hnew Hrep]; try done;
    cbn; unfold headerEntrySize, leftMarginIndex; try lia.
  - apply H.
  - apply written_blit; unfold headerEntrySize; lia.
  - intros j e x Hj Hx. destruct (bqr_entry _ _ _ H j e Hj) as (_ & Hj2 & _).
    unfold inEntry, headerEntrySize in *. lia.
  - intros x Hx. split; [done|]. pose proof (bqr_free_in _ _ _ H x Hx).
    unfold inEntry, headerEntrySize. lia.
Qed.

(** Growing the array moves no entry and leaves room for the new one. *)
Lemma grownCapacity_room (cap maxc m : Z) :
  0 <= cap -> 4 <= m -> cap + m < maxc \/ maxc <= 0 ->
  cap + m <= grownCapacity cap maxc m /\ 1 + m <= grownCapacity cap maxc m /\
  (0 < maxc -> grownCapacity cap maxc m <= maxc).
Proof.
  intros Hc Hm Hmax. unfold grownCapacity.
  destruct (cap <? m) eqn:E; zbool; case_if; zbool; lia.
Qed.

Lemma allocate_rep q (live : entries) (B : blocks) (m : Z) :
  bq_rep q live B -> 4 <= m ->
  bq_capacity q + m < bq_maxCapacity q \/ bq_maxCapacity q <= 0 ->
  exists q', allocateAdditionalMemory q m = Ret q' /\ bq_rep q' live B /\
    bq_tail q' = bq_tail q /\ bq_tail q + m <= bq_capacity q' /\
    bq_capacity q' = grownCapacity (bq_capacity q) (bq_maxCapacity q) m /\
    bq_maxCapacity q' = bq_maxCapacity q /\ bq_initialCapacity q' = bq_initialCapacity q.
Proof.
  intros H Hm Hmax. pose proof (bqr_tail _ _ _ H) as Ht.
  pose proof (bqr_capacity _ _ _ H) as Hc. pose proof (bqr_head _ _ _ H) as Hh.
  pose proof (bqr_margin _ _ _ H) as Hr. pose proof (zlen_nonneg (bq_array q)) as Hn.
  destruct (grownCapacity_room (bq_capacity q) (bq_maxCapacity q) m) as (G1 & G2 & _); [lia..|].
  unfold allocateAdditionalMemory.
  cbn [bq_array bq_capacity bq_rightMargin bq_head bq_tail set_array set_capacity].
  set (c' := grownCapacity (bq_capacity q) (bq_maxCapacity q) m) in *.
  unfold leftMarginIndex in *.
  destruct (c' <? 0) eqn:E1; zbool; [lia|].
  destruct (1 =? bq_rightMargin q) eqn:E2; zbool; cbn [negb].
  - eexists. split; [reflexivity|]. split; [|cbn; split_and!; done || lia].
    destruct H. split; cbn; unfold leftMarginIndex; try done; try lia.
    + by rewrite zlen_zeros by lia.
    + intros i d Hi. exfalso. destruct (bqr_entry0 i d Hi) as (? & ? & ? & _).
      unfold headerEntrySize, leftMarginIndex in *. lia.
  - destruct ((bq_rightMargin q <? 0) || (zlen (bq_array q) <? bq_rightMargin q)) eqn:E3.
    { exfalso. apply orb_true_iff in E3 as [?|?]; zbool; lia. }
    destruct (bq_tail q <? bq_head q) eqn:E4; zbool; [lia|].
    eexists. split; [reflexivity|]. split; [|cbn; split_and!; done || lia].
    destruct H. split; cbn; unfold leftMarginIndex; try done; try lia.
    + by rewrite zlen_blit, zlen_zeros by (rewrite ?zlen_zeros; lia).
    + intros i d Hi. destruct (bqr_entry0 i d Hi) as (Hi1 & Hi2 & Hi3 & Hi4 & Hi5).
      unfold headerEntrySize, leftMarginIndex in *.
      split_and!; try lia; rewrite region_blit_prefix; rewrite ?zlen_zeros; done || lia.
Qed.

(** The state fields that only growth and construction touch. *)
Definition sameLimits q q' : Prop :=
  bq_maxCapacity q' = bq_maxCapacity q /\ bq_initialCapacity q' = bq_initialCapacity q.

(** [Push] into a freed range. *)
Lemma push_reuse q (live : entries) (B B' : blocks) (fl : freeList T) (i : Z) (d : list byte) :
  bq_rep q live B -> 0 < zlen d < 2 ^ 32 -> fl_rep fl B' ->
  took B B' i (zlen d + headerEntrySize) ->
  exists q',
    (let! q1 := writeEntry (set_tail (set_freelist q fl) i) d (zlen d) in
     Ret (set_tail (set_count q1 (bq_count q1 + 1)) (bq_tail q), @inl Z queueError i)) =
    Ret (q', inl i) /\
    live !! i = None /\ bq_rep q' (<[i:=d]> live) B' /\
    bq_capacity q' = bq_capacity q /\ sameLimits q q'.
Proof.
  intros H Hd Hfl (Hi & Hfrom & Hto).
  pose proof (bqr_tail _ _ _ H) as Ht. pose proof (bqr_capacity _ _ _ H) as Hc.
  pose proof (bqr_free_in _ _ _ H i) as Hlo.
  pose proof (bqr_free_in _ _ _ H (i + headerEntrySize + zlen d - 1)) as Hhi.
  unfold headerEntrySize, leftMarginIndex in *.
  specialize (Hlo ltac:(apply Hfrom; lia)). specialize (Hhi ltac:(apply Hfrom; lia)).
  rewrite writeEntry_Ret by (cbn; unfold headerEntrySize; lia).
  cbn [obind]. eexists. split; [reflexivity|].
  match goal with |- _ /\ bq_rep ?q' _ _ /\ _ => set (q1 := q') end.
  destruct (rep_add_entry q q1 live B B' i d) as [Hnew Hrep]; try done;
    try (cbn; unfold headerEntrySize, leftMarginIndex; done || lia).
  - apply (written_blit (bq_array q) i d); unfold headerEntrySize; lia.
  - apply H.
  - cbn. apply H.
  - intros j e x Hj Hx Hx'. apply (bqr_notfree _ _ _ H j e x Hj Hx). apply Hfrom.
    unfold inEntry, headerEntrySize in *. lia.
  - intros x Hx. apply Hto in Hx as [Hx Hn]. split; [done|].
    unfold inEntry, headerEntrySize in *. lia.
Qed.

Lemma set_freelist_id q : set_freelist q (bq_freelist q) = q.
Proof. by destruct q. Qed.

(** [Push] stores the entry at an unused index, every other entry kept; or the
    queue is at its limit, and nothing changes. *)
Lemma Push_rep q (live : entries) (B : blocks) (d : list byte) :
  bq_rep q live B -> 0 < zlen d < 2 ^ 32 ->
  (exists q' i B', Push q d = Ret (q', inl i) /\
     live !! i = None /\ bq_rep q' (<[i:=d]> live) B' /\ sameLimits q q' /\
     (bq_capacity q' = bq_capacity q \/
      bq_capacity q' =
        grownCapacity (bq_capacity q) (bq_maxCapacity q) (zlen d + headerEntrySize) /\
      (bq_capacity q + headerEntrySize + zlen d < bq_maxCapacity q \/ bq_maxCapacity q <= 0))) \/
  (Push q d = Ret (q, inr ErrFullQueue) /\
   0 < bq_maxCapacity q <= bq_capacity q + headerEntrySize + zlen d).
Proof.
  intros H Hd. pose proof (bqr_tail _ _ _ H) as Ht.
  pose proof (bqr_capacity _ _ _ H) as Hc. pose proof (bqr_head _ _ _ H) as Hh.
  unfold Push.
  destruct (find_rep (bq_freelist q) B (zlen d + headerEntrySize) (bqr_free _ _ _ H))
    as [[-> _]|(fl & r & B' & -> & Hfl & Htook)]; [unfold headerEntrySize; lia| |].
  - rewrite set_freelist_id. cbn [negb Z.eqb Pos.eqb].
    unfold availableSpaceAfterTail, availableSpaceBeforeHead.
    replace (bq_tail q >=? bq_head q) with true
      by (symmetry; rewrite Z.geb_leb; apply Z.leb_le; lia).
    destruct (bq_capacity q - bq_tail q <? zlen d + headerEntrySize) eqn:E1; zbool.
    + replace (bq_head q - leftMarginIndex - minimumEmptyBlobSize >=? zlen d + headerEntrySize)
        with false
        by (symmetry; rewrite Z.geb_leb; apply Z.leb_gt;
            unfold minimumEmptyBlobSize, headerEntrySize; lia).
      destruct ((bq_capacity q + headerEntrySize + zlen d >=? bq_maxCapacity q) &&
                (bq_maxCapacity q >? 0)) eqn:E2.
      { right. zbool. split; [done|lia]. }
      assert (bq_capacity q + headerEntrySize + zlen d < bq_maxCapacity q \/
              bq_maxCapacity q <= 0) as E3
        by (apply andb_false_iff in E2 as [?|?]; zbool; lia).
      left. destruct (allocate_rep q live B (zlen d + headerEntrySize) H)
        as (q1 & -> & H1 & Ht1 & Hroom & Hc1 & Hm1 & Hi1);
        [unfold headerEntrySize; lia|unfold headerEntrySize in *; lia|].
      cbn [obind].
      destruct (queuePush_rep q1 live B d H1 Hd) as (q2 & -> & Hnew & H2 & Hc2 & Hm2 & Hi2);
        [unfold headerEntrySize in *; lia|].
      cbn [obind]. exists q2, (bq_tail q1), B. split_and!; try done; [split; congruence|].
      right. split; [congruence|done].
    + left. cbn [obind].
      destruct (queuePush_rep q live B d H Hd) as (q2 & -> & Hnew & H2 & Hc2 & Hm2 & Hi2);
        [unfold headerEntrySize in *; lia|].
      cbn [obind]. exists q2, (bq_tail q), B. split_and!; try done. by left.
  - left. destruct (push_reuse q live B B' fl r d H Hd Hfl Htook)
      as (q' & Heq & Hnew & H' & Hcap & Hlim).
    assert ((-1 =? r) = false) as -> by (apply Z.eqb_neq; destruct Htook; lia).
    cbn [negb]. change (bq_tail (set_freelist q fl)) with (bq_tail q).
    cbv zeta. rewrite Heq. exists q', r, B'. split_and!; try done. by left.
Qed.

(** ** Reading and deleting *)

(** The slice of an entry's data. *)
Definition entrySlice (i : Z) (d : list byte) : slice := Slice (i + headerEntrySize) (zlen d).

(** An entry that is stored behind its length is found. *)
Lemma peek_stored q (i : Z) (d : list byte) :
  bq_count q <> 0 -> 0 < i -> i + headerEntrySize + zlen d <= zlen (bq_array q) -> 0 < zlen d < 2 ^ 32 ->
  region (bq_array q) i headerEntrySize = le_bytes 4 (zlen d) ->
  peek q i = Ret (inl (entrySlice i d, zlen d)).
Proof.
  intros H0 H1 H2 H3 H4. unfold peek, headerEntrySize in *.
  assert ((bq_count q =? 0) = false) as -> by (by apply Z.eqb_neq).
  assert ((i <=? 0) = false) as -> by (apply Z.leb_gt; lia).
  assert ((i + 4 >=? zlen (bq_array q)) = false) as ->
    by (rewrite Z.geb_leb; apply Z.leb_gt; lia).
  rewrite sl_slice_Ret by (unfold sl_cap, sl_all; simpl; lia). cbn [obind].
  rewrite sl_getUint_Ret by (simpl; lia). cbn [obind sl_off sl_all].
  rewrite Z.add_0_l, H4, le_Z_le_bytes_small by (simpl; lia).
  rewrite sl_slice_Ret by (unfold sl_cap, sl_all; simpl; lia). cbn [obind sl_off sl_all].
  unfold entrySlice, headerEntrySize. rewrite Z.add_0_l. repeat f_equal. lia.
Qed.

Lemma peek_rep q (live : entries) (B : blocks) (i : Z) (d : list byte) :
  bq_rep q live B -> live !! i = Some d ->
  peek q i = Ret (inl (entrySlice i d, zlen d)) /\
  sl_bytes (bq_array q) (entrySlice i d) = d.
Proof.
  intros H Hi. destruct (bqr_entry _ _ _ H i d Hi) as (H1 & H2 & H3 & H4 & H5).
  pose proof (bqr_tail _ _ _ H) as Ht. pose proof (bqr_capacity _ _ _ H) as Hc.
  unfold leftMarginIndex in *. split; [|exact H5]. apply peek_stored; unfold headerEntrySize in *; try done; try lia.
  rewrite (bqr_count _ _ _ H). intros E. assert (size live = 0%nat) as Hs by lia. apply map_size_empty_inv in Hs.
  rewrite Hs in Hi. discriminate.
Qed.

Lemma queueGet_rep q (live : entries) (B : blocks) (i : Z) (d : list byte) :
  bq_rep q live B -> live !! i = Some d ->
  queueGet q i = Ret (inl (entrySlice i d)) /\
  sl_bytes (bq_array q) (entrySlice i d) = d.
Proof.
  intros H Hi. destruct (peek_rep q live B i d H Hi) as [Hp Hb]. split; [|done].
  unfold queueGet. by rewrite Hp.
Qed.

(** [Delete] gives the entry's bytes to the free list and touches no byte. *)
Lemma queueDelete_rep q (live : entries) (B : blocks) (i : Z) (d : list byte) :
  bq_rep q live B -> live !! i = Some d ->
  exists q' B', queueDelete q i = Ret (q', None) /\ bq_rep q' (delete i live) B' /\
    bq_array q' = bq_array q /\ bq_capacity q' = bq_capacity q /\ sameLimits q q'.
Proof.
  intros H Hi. destruct (peek_rep q live B i d H Hi) as [Hp _].
  destruct (bqr_entry _ _ _ H i d Hi) as (H1 & H2 & H3 & _ & _).
  unfold queueDelete. rewrite Hp. cbn [obind].
  destruct (add_rep (bq_freelist q) B i (zlen d + headerEntrySize) (bqr_free _ _ _ H))
    as (B' & Hfl & Hcov); try (unfold headerEntrySize, leftMarginIndex in *; lia).
  { intros x Hx. apply (bqr_notfree _ _ _ H i d x Hi).
    unfold inEntry, headerEntrySize in *. lia. }
  eexists _, B'. split; [reflexivity|]. split; [|done].
  destruct H. split; cbn; try done.
  - rewrite bqr_count0. rewrite map_size_delete, Hi. simpl.
    assert (size live <> 0%nat); [|lia].
    intros E. apply map_size_empty_inv in E. rewrite E in Hi. discriminate.
  - intros x Hx. apply Hcov in Hx as [Hx|[Hx _]]; [|by apply bqr_free_in0].
    unfold headerEntrySize, leftMarginIndex in *. lia.
  - intros j e [_ Hj]%lookup_delete_Some. by apply bqr_entry0.
  - intros j k e f x [_ Hj]%lookup_delete_Some [_ Hk]%lookup_delete_Some.
    by apply (bqr_disjoint0 j k e f x).
  - intros j e x [Hne Hj]%lookup_delete_Some Hx Hc. apply Hcov in Hc as [Hc|[Hc _]].
    + apply Hne. apply (bqr_disjoint0 i j d e x); try done.
      unfold inEntry, headerEntrySize in *. lia.
    + by apply (bqr_notfree0 j e x).
Qed.

(** Overwriting part of an entry's data through its slice. *)
Lemma rep_overwrite q (live : entries) (B : blocks) (i off : Z) (d src : list byte) :
  bq_rep q live B -> live !! i = Some d -> 0 <= off -> off + zlen src <= zlen d ->
  bq_rep (set_array q (blit (bq_array q) (i + headerEntrySize + off) src))
         (<[i:=blit d off src]> live) B.
Proof.
  intros H Hi Ho Hl. pose proof (zlen_nonneg src).
  destruct (bqr_entry _ _ _ H i d Hi) as (H1 & H2 & H3 & H4 & H5).
  pose proof (bqr_tail _ _ _ H) as Ht. pose proof (bqr_capacity _ _ _ H) as Hc.
  assert (zlen (blit d off src) = zlen d) as Hlen by (apply zlen_blit; lia).
  unfold headerEntrySize, leftMarginIndex in *.
  destruct H. split; cbn; try done.
  - rewrite zlen_blit by lia. done.
  - rewrite bqr_count0. rewrite map_size_insert_Some; [done|by rewrite Hi].
  - intros j e [[<- <-]|[Hne Hj]]%lookup_insert_Some.
    + rewrite !Hlen. unfold headerEntrySize in *. split_and!; try done; try lia.
      * rewrite region_blit_disjoint by lia. done.
      * rewrite region_blit_inside by lia. rewrite H5. f_equal. lia.
    + destruct (bqr_entry0 j e Hj) as (J1 & J2 & J3 & J4 & J5).
      pose proof (bqr_disjoint0 i j d e j Hi Hj) as D1.
      pose proof (bqr_disjoint0 i j d e i Hi Hj) as D2.
      unfold inEntry, headerEntrySize, leftMarginIndex in *.
      split_and!; try lia; rewrite region_blit_disjoint; done || lia.
  - intros j k e f x [[<- <-]|[_ Hj]]%lookup_insert_Some [[<- <-]|[_ Hk]]%lookup_insert_Some;
      unfold inEntry in *; rewrite ?Hlen; eauto.
  - intros j e x [[<- <-]|[_ Hj]]%lookup_insert_Some; unfold inEntry in *; rewrite ?Hlen; eauto.
Qed.

(** ** A fresh queue *)

Lemma NewBytesQueue_rep (c m : Z) (v : bool) :
  0 <= c -> exists q, NewBytesQueue c m v = Ret q /\ bq_rep q ∅ ∅ /\
    bq_capacity q = c /\ bq_maxCapacity q = m /\ bq_initialCapacity q = c.
Proof.
  intros Hc. unfold NewBytesQueue. destruct (c <? 0) eqn:E; zbool; [lia|].
  eexists. split; [reflexivity|]. split; [|done]. split; cbn; try done.
  - apply newFreeList_rep.
  - by rewrite zlen_zeros.
  - unfold leftMarginIndex. lia.
  - intros x (p & it & Hp & _). by rewrite lookup_empty in Hp.
Qed.

(** [Reset] keeps the free list: it empties the queue when nothing is free. *)
Lemma queueReset_rep q (live : entries) (B : blocks) :
  bq_rep q live B -> B = ∅ -> bq_rep (queueReset q) ∅ ∅.
Proof.
  intros H ->. destruct H. split; cbn; try done.
  - unfold leftMarginIndex in *. lia.
  - intros x (p & it & Hp & _). by rewrite lookup_empty in Hp.
Qed.

(** ** Runs of a queue *)

(** Runs of a queue created with capacity [c0] and limit [mx], with the entries
    its user relies on: those pushed and not deleted, as last written through
    the slices that [Get] returns. *)
Inductive bq_run (c0 mx : Z) : BytesQueue T -> entries -> Prop :=
| qrun_new q verbose :
    NewBytesQueue c0 mx verbose = Ret q -> bq_run c0 mx q ∅
| qrun_push q q' live d i :
    bq_run c0 mx q live -> 0 < zlen d < 2 ^ 32 -> Push q d = Ret (q', inl i) ->
    bq_run c0 mx q' (<[i:=d]> live)
| qrun_full q q' live d e :
    bq_run c0 mx q live -> 0 < zlen d < 2 ^ 32 -> Push q d = Ret (q', inr e) ->
    bq_run c0 mx q' live
| qrun_delete q q' live i d r :
    bq_run c0 mx q live -> live !! i = Some d -> queueDelete q i = Ret (q', r) ->
    bq_run c0 mx q' (delete i live)
| qrun_write q live i d off src :
    bq_run c0 mx q live -> live !! i = Some d -> 0 <= off -> off + zlen src <= zlen d ->
    bq_run c0 mx (set_array q (blit (bq_array q) (i + headerEntrySize + off) src))
      (<[i:=blit d off src]> live).

(** The limits a run keeps. *)
Definition within (c0 mx : Z) q : Prop :=
  bq_maxCapacity q = mx /\ 0 <= bq_capacity q /\ (0 < mx -> bq_capacity q <= Z.max c0 mx).

Lemma Push_within (c0 mx : Z) q q' (n : Z) :
  within c0 mx q -> 0 < n -> sameLimits q q' ->
  bq_capacity q' = bq_capacity q \/
  (bq_capacity q' = grownCapacity (bq_capacity q) (bq_maxCapacity q) (n + headerEntrySize) /\
   (bq_capacity q + headerEntrySize + n < bq_maxCapacity q \/ bq_maxCapacity q <= 0)) ->
  within c0 mx q'.
Proof.
  intros (Hm & H0 & Hc) Hn [Hs _] Hcap. unfold within, headerEntrySize in *. rewrite Hs, Hm in *.
  destruct Hcap as [->|[-> Hroom]]; [done|].
  destruct (grownCapacity_room (bq_capacity q) mx (n + 4)) as (H1 & _ & H2); lia.
Qed.

Lemma bq_run_rep (c0 mx : Z) q (live : entries) :
  bq_run c0 mx q live -> (exists B, bq_rep q live B) /\ within c0 mx q.
Proof.
  induction 1 as [q v Hn|q q' live d i _ [[B HB] Hw] Hd Hp|q q' live d e _ [[B HB] Hw] Hd Hp
                 |q q' live i d r _ [[B HB] Hw] Hi Hp|q live i d off src _ [[B HB] Hw] Hi Ho Hl].
  - assert (0 <= c0) as Hc by (unfold NewBytesQueue in Hn; destruct (c0 <? 0) eqn:E; zbool; [discriminate|lia]).
    destruct (NewBytesQueue_rep c0 mx v Hc) as (q1 & Hn1 & H1 & Hcap & Hmax & _).
    rewrite Hn in Hn1. injection Hn1 as <-. split; [by exists ∅|]. unfold within. lia.
  - destruct (Push_rep q live B d HB Hd) as [(q1 & j & B1 & Hp1 & _ & H1 & Hs & Hcap)|[Hp1 _]];
      rewrite Hp in Hp1; [|discriminate].
    injection Hp1 as <- <-. split; [by exists B1|]. by apply (Push_within c0 mx q q' (zlen d)); [|lia|..].
  - destruct (Push_rep q live B d HB Hd) as [(q1 & j & B1 & Hp1 & _)|[Hp1 _]];
      rewrite Hp in Hp1; [discriminate|].
    injection Hp1 as -> ->. by split; [exists B|].
  - destruct (queueDelete_rep q live B i d HB Hi) as (q1 & B1 & Hp1 & H1 & _ & Hcap & [Hs _]).
    rewrite Hp in Hp1. injection Hp1 as <- _. split; [by exists B1|].
    unfold within in *. by rewrite Hs, Hcap.
  - split; [|done]. exists B. by apply rep_overwrite.
Qed.

(** ** Claims *)

(** C8. The queue as an allocator keeps what it is given.  In every run of pushes of entries that are not empty (those of a shard
    have a header of 18 bytes), deletions and writes through returned slices, each entry that was pushed and
    not deleted is read back as last written, whatever was pushed, freed, merged,
    reused or moved to a larger array since; and [Len] counts them. *)
Theorem queue_reads_back (c0 mx : Z) q (live : entries) :
  bq_run c0 mx q live ->
  queueLen q = Z.of_nat (size live) /\
  forall i d, live !! i = Some d ->
    exists data, queueGet q i = Ret (inl data) /\ sl_bytes (bq_array q) data = d.
Proof.
  intros Hr. destruct (bq_run_rep _ _ _ _ Hr) as [[B HB] _]. split; [apply HB|].
  intros i d Hi. exists (entrySlice i d). by apply (queueGet_rep q live B).
Qed.


(** [Delete] of a live entry succeeds, forgets exactly that entry and changes no
    byte of the array: slices of other entries stay valid. *)
Theorem queue_delete_total (c0 mx : Z) q (live : entries) (i : Z) (d : list byte) :
  bq_run c0 mx q live -> live !! i = Some d ->
  exists q', queueDelete q i = Ret (q', None) /\ bq_array q' = bq_array q /\
    queueLen q' = queueLen q - 1 /\
    forall j e, j <> i -> live !! j = Some e ->
      exists data, queueGet q' j = Ret (inl data) /\ sl_bytes (bq_array q') data = e.
Proof.
  intros Hr Hi. destruct (bq_run_rep _ _ _ _ Hr) as [[B HB] _].
  destruct (queueDelete_rep q live B i d HB Hi) as (q' & B' & Hp & H' & Ha & _).
  exists q'. split_and!; [done|done| |].
  - unfold queueLen. rewrite (bqr_count _ _ _ H'), (bqr_count _ _ _ HB), map_size_delete, Hi.
    assert (size live <> 0)%nat by (apply map_size_ne_0_lookup; eauto). simpl. lia.
  - intros j e Hj He. exists (entrySlice j e). apply (queueGet_rep q' (delete i live) B' j e H').
    by rewrite lookup_delete_ne.
Qed.






(** C30. A queue with a limit never outgrows it: its capacity stays within the
    larger of the limit and the initial capacity. *)
Theorem queue_capacity_bounded (c0 mx : Z) q (live : entries) :
  bq_run c0 mx q live -> 0 < mx -> queueCapacity q <= Z.max c0 mx.
Proof. intros Hr Hm. destruct (bq_run_rep _ _ _ _ Hr) as [_ (_ & _ & Hc)]. by apply Hc. Qed.
End BytesQueueProofs.

(** ** Witnesses and runs of interest *)

Section BytesQueueExamples.
Abbreviation queue := (BytesQueue (gmap Z loc)).

Definition orElse {A : Type} (d : A) (m : outcome A) : A := match m with Ret x => x | _ => d end.

Definition noQueue : queue := MkBytesQueue [] 0 0 0 0 0 0 [] false 0 newFreeList.

Definition queue0 : queue := orElse noQueue (NewBytesQueue 40 100 false).

Definition pushed (q : queue) (d : list byte) : queue := fst (orElse (q, inl 0) (Push q d)).

Definition deleted (q : queue) (i : Z) : queue := fst (orElse (q, None) (queueDelete q i)).

(** The bytes [Get] returns. *)
Definition contents (q : queue) (i : Z) : option (list byte) :=
  match queueGet q i with
  | Ret (inl data) => Some (sl_bytes (bq_array q) data)
  | _ => None
  end.

Definition entryA : list byte := ["a"; "b"; "c"]%byte.
Definition entryB : list byte := ["x"; "y"; "z"]%byte.

(** Two pushes, the first entry deleted. *)
Definition queueAB : queue := pushed (pushed queue0 entryA) entryB.
Definition liveAB : entries := <[8:=entryB]> (<[1:=entryA]> ∅).

Lemma queueAB_run : bq_run 40 100 queueAB liveAB.
Proof.
  apply (qrun_push 40 100 (pushed queue0 entryA)); [|by vm_compute|vm_compute; reflexivity].
  apply (qrun_push 40 100 queue0); [|by vm_compute|vm_compute; reflexivity].
  by apply (qrun_new 40 100 _ false).
Qed.

Lemma queue_reads_back_witness :
  queueLen queueAB = Z.of_nat (size liveAB) /\
  forall i d, liveAB !! i = Some d ->
    exists data, queueGet queueAB i = Ret (inl data) /\ sl_bytes (bq_array queueAB) data = d.
Proof. apply (queue_reads_back 40 100 queueAB liveAB). exact queueAB_run. Defined.


Lemma queue_delete_total_witness :
  exists q', queueDelete queueAB 1 = Ret (q', None) /\ bq_array q' = bq_array queueAB /\
    queueLen q' = queueLen queueAB - 1 /\
    forall j e, j <> 1 -> liveAB !! j = Some e ->
      exists data, queueGet q' j = Ret (inl data) /\ sl_bytes (bq_array q') data = e.
Proof.
  apply (queue_delete_total 40 100 queueAB liveAB 1 entryA); [exact queueAB_run|by vm_compute].
Defined.

Lemma queue_capacity_bounded_witness : queueCapacity queueAB <= Z.max 40 100.
Proof. apply (queue_capacity_bounded 40 100 queueAB liveAB); [exact queueAB_run|lia]. Defined.


(** [Delete] and [Pop] do not know of each other: after [Delete] of the oldest
    entry, [Pop] returns the deleted entry again, and the count drops twice
    while one entry was pushed and lives on unseen. *)
Theorem pop_returns_deleted_entry :
  let q := deleted queueAB 1 in
  exists q' data, Pop q = Ret (q', inl data) /\ sl_bytes (bq_array q') data = entryA /\
    queueLen q' = 0 /\ contents q' 8 = None /\ contents q 8 = Some entryB.
Proof. eexists _, _. split; [vm_compute; reflexivity|]. vm_compute. auto. Qed.

(** The range check of [peek] is off by one: an empty entry that ends exactly at
    the end of the array is stored by [Push] and rejected by [Get] as out of
    range. *)
Example empty_entry_at_end_unreadable :
  let q := orElse noQueue (NewBytesQueue 5 0 false) in
  exists q', Push q [] = Ret (q', inl 1) /\ queueLen q' = 1 /\ queueCapacity q' = 5 /\
    queueGet q' 1 = Ret (inr ErrIndexOutOfRange).
Proof. eexists. split; [vm_compute; reflexivity|]. vm_compute. auto. Qed.
End BytesQueueExamples.
