(* ===== verification/Encoding.v ===== *)
(** * The layout of a cached entry ([bigcache/encoding.go])

    An entry is stored as one blob: expiry timestamp (8 bytes), hash (8 bytes),
    key length (2 bytes), key, value.  [wrapEntry] builds the blob in the
    shard's reusable buffer; the readers take it apart again, through a slice
    that aliases the byte queue's array.  The key length is a [uint16] and the
    readers add the header size to it in 16 bit arithmetic, so the round trip
    holds up to a key of 65517 bytes and the readers panic right above it. *)

From stdpp Require Import base decidable countable list gmap.
From Stdlib Require Import ZArith Lia Strings.Byte.
From S2P Require Import Prelude.

Definition timestampSizeInBytes : Z := 8.

Definition hashSizeInBytes : Z := 8.

Definition keySizeInBytes : Z := 2.

Definition headersSizeInBytes : Z := timestampSizeInBytes + hashSizeInBytes + keySizeInBytes.

(** The blob and the buffer it was built in. *)
Definition wrapEntry (timestamp hash : Z) (key : gostring) (entry buffer : list byte)
  : outcome (list byte * list byte) :=
  let keyLength := zlen key in
  let blobLength := zlen entry + headersSizeInBytes + keyLength in
  let blob := if blobLength >? zlen buffer then zeros blobLength else buffer in
  let! blob := sl_putUint 8 blob (sl_all blob) timestamp in
  let! s := sl_from blob (sl_all blob) timestampSizeInBytes in
  let! blob := sl_putUint 8 blob s hash in
  let! s := sl_from blob (sl_all blob) (timestampSizeInBytes + hashSizeInBytes) in
  let! blob := sl_putUint 2 blob s (u16 keyLength) in
  let! s := sl_from blob (sl_all blob) headersSizeInBytes in
  let! blob := Ret (sl_copy blob s key) in
  let! s := sl_from blob (sl_all blob) (headersSizeInBytes + keyLength) in
  let! blob := Ret (sl_copy blob s entry) in
  let! s := sl_slice blob (sl_all blob) 0 blobLength in
  Ret (sl_bytes blob s, blob).

Definition readEntry (arr : list byte) (data : slice) : outcome (list byte) :=
  let! s := sl_from arr data (timestampSizeInBytes + hashSizeInBytes) in
  let! length := sl_getUint 2 arr s in
  let n := sl_len data - u16 (headersSizeInBytes + length) in
  if n <? 0 then Panic
  else
    let dst := zeros n in
    let! src := sl_from arr data (u16 (headersSizeInBytes + length)) in
    Ret (sl_copy dst (sl_all dst) (sl_bytes arr src)).

Definition readTimestampFromEntry (arr : list byte) (data : slice) : outcome Z :=
  sl_getUint 8 arr data.

Definition readKeyFromEntry (arr : list byte) (data : slice) : outcome gostring :=
  let! s := sl_from arr data (timestampSizeInBytes + hashSizeInBytes) in
  let! length := sl_getUint 2 arr s in
  let dst := zeros length in
  let! src := sl_slice arr data headersSizeInBytes (u16 (headersSizeInBytes + length)) in
  Ret (sl_copy dst (sl_all dst) (sl_bytes arr src)).

Definition readHashFromEntry (arr : list byte) (data : slice) : outcome Z :=
  let! s := sl_from arr data timestampSizeInBytes in
  sl_getUint 8 arr s.

(** Clears the hash field in place; the result is the new backing array. *)
Definition resetKeyFromEntry (arr : list byte) (data : slice) : outcome (list byte) :=
  let! s := sl_from arr data timestampSizeInBytes in
  sl_putUint 8 arr s 0.

(** ** The layout *)

(** The bytes of a blob. *)
Definition wrapped (timestamp hash : Z) (key : gostring) (entry : list byte) : list byte :=
  le_bytes 8 timestamp ++ le_bytes 8 hash ++ le_bytes 2 (u16 (zlen key)) ++ key ++ entry.

(** Keys the readers handle: header and key length fit in 16 bits. *)
Definition key_ok (key : gostring) : Prop := headersSizeInBytes + zlen key < 2 ^ 16.

Lemma zlen_wrapped (ts h : Z) (key : gostring) (entry : list byte) :
  zlen (wrapped ts h key entry) = headersSizeInBytes + zlen key + zlen entry.
Proof.
  unfold wrapped. rewrite !zlen_app, !zlen_le_bytes.
  unfold headersSizeInBytes, timestampSizeInBytes, hashSizeInBytes, keySizeInBytes. lia.
Qed.

#[export] Hint Rewrite zlen_wrapped : golen.

(** Arithmetic on the header constants and the length of a blob. *)
Ltac hdr_unfold :=
  unfold key_ok, headersSizeInBytes, timestampSizeInBytes, hashSizeInBytes, keySizeInBytes in *.

Ltac wrapped_lia := rewrite ?zlen_wrapped; hdr_unfold; lia.

(** [wrapEntry] never panics, whatever the buffer holds, and the blob has the
    documented layout; the buffer is large enough for it afterwards. *)
Lemma wrapEntry_Ret (ts h : Z) (key : gostring) (entry buffer : list byte) :
  exists buffer', wrapEntry ts h key entry buffer = Ret (wrapped ts h key entry, buffer') /\
    zlen buffer' = Z.max (zlen buffer) (zlen (wrapped ts h key entry)).
Proof.
  pose proof (zlen_nonneg key). pose proof (zlen_nonneg entry). pose proof (zlen_nonneg buffer).
  rewrite zlen_wrapped.
  unfold wrapEntry, headersSizeInBytes, timestampSizeInBytes, hashSizeInBytes, keySizeInBytes.
  remember (zlen entry + (8 + 8 + 2) + zlen key) as n eqn:Hn.
  set (b0 := if n >? zlen buffer then zeros n else buffer).
  assert (zlen b0 = Z.max (zlen buffer) n) as L0.
  { unfold b0. case_if; [rewrite zlen_zeros by lia|]; lia. }
  cbv zeta.
  edestruct (filled_first (A := list byte * list byte) b0 8 ts) as (b1 & E1 & F1 & L1); [lia|]. rewrite E1. clear E1. cbv beta.
  edestruct (filled_put (A := list byte * list byte) F1 8 8 h) as (b2 & E2 & F2 & L2); [done|lia..|].
  rewrite E2. clear E2. cbv beta.
  edestruct (filled_put (A := list byte * list byte) F2 (8 + 8) 2 (u16 (zlen key))) as (b3 & E3 & F3 & L3); [done|lia..|].
  rewrite E3. clear E3. cbv beta.
  edestruct (filled_copy (A := list byte * list byte) F3 key (8 + 8 + 2)) as (b4 & E4 & F4 & L4); [done|lia|].
  rewrite E4. clear E4. cbv beta.
  edestruct (filled_copy (A := list byte * list byte) F4 entry (8 + 8 + 2 + zlen key)) as (b5 & E5 & F5 & L5);
    [rewrite !zlen_app, !zlen_le_bytes; lia|lia|].
  rewrite E5. clear E5. cbv beta.
  rewrite sl_slice_Ret by (unfold sl_cap; simpl; lia). cbn [obind].
  exists b5. split; [|lia]. unfold sl_bytes. cbn [sl_off sl_len sl_all]. rewrite Z.add_0_l, Z.sub_0_r.
  destruct F5 as [_ F5]. rewrite !zlen_app, !zlen_le_bytes in F5.
  replace n with (Z.of_nat (Z.to_nat 8) + Z.of_nat (Z.to_nat 8) + Z.of_nat (Z.to_nat 2) + zlen key + zlen entry) by lia.
  rewrite F5. unfold wrapped. by rewrite <- !app_assoc.
Qed.

(** ** Reading a blob back *)

(** The fields of a blob, at their offsets. *)
Lemma wrapped_regions (ts h : Z) (key : gostring) (entry : list byte) :
  let w := wrapped ts h key entry in
  region w 0 8 = le_bytes 8 ts /\ region w 8 8 = le_bytes 8 h /\
  region w 16 2 = le_bytes 2 (u16 (zlen key)) /\
  region w 18 (zlen key) = key /\
  region w (18 + zlen key) (zlen entry) = entry.
Proof.
  cbn zeta. pose proof zlen_le_bytes as Hle. unfold wrapped.
  set (a := le_bytes 8 ts). set (b := le_bytes 8 h). set (c := le_bytes 2 (u16 (zlen key))).
  assert (zlen a = 8 /\ zlen b = 8 /\ zlen c = 2) as (Ha & Hb & Hc)
    by (by subst a b c; rewrite !Hle).
  pose proof (zlen_nonneg key). pose proof (zlen_nonneg entry).
  assert (forall pre mid suf, region (pre ++ mid ++ suf) (zlen pre) (zlen mid) = mid) as Hmid.
  { intros pre mid suf. unfold region, zlen. rewrite !Nat2Z.id, drop_app_length.
    by rewrite take_app_length. }
  split_and!.
  - specialize (Hmid [] a (b ++ c ++ key ++ entry)). by rewrite Ha in Hmid.
  - specialize (Hmid a b (c ++ key ++ entry)). by rewrite Ha, Hb in Hmid.
  - specialize (Hmid (a ++ b) c (key ++ entry)).
    rewrite zlen_app, Ha, Hb, Hc, <- !app_assoc in Hmid. exact Hmid.
  - specialize (Hmid (a ++ b ++ c) key entry).
    rewrite !zlen_app, Ha, Hb, Hc, <- !app_assoc in Hmid. exact Hmid.
  - specialize (Hmid (a ++ b ++ c ++ key) entry []).
    rewrite !zlen_app, Ha, Hb, Hc, <- !app_assoc, app_nil_r in Hmid.
    replace (18 + zlen key) with (8 + (8 + (2 + zlen key))) by lia. exact Hmid.
Qed.

Lemma sl_sub_region (arr w : list byte) (s : slice) (o n : Z) :
  sl_ok arr s -> sl_bytes arr s = w -> 0 <= o -> o + n <= zlen w ->
  region arr (sl_off s + o) n = region w o n.
Proof.
  intros (H1 & H2 & H3) <- Ho Hn. unfold sl_bytes in *.
  rewrite zlen_region in Hn by lia. by rewrite region_region by lia.
Qed.

Lemma sl_len_bytes (arr : list byte) (s : slice) : sl_ok arr s -> sl_len s = zlen (sl_bytes arr s).
Proof. intros (H1 & H2 & H3). unfold sl_bytes. by rewrite zlen_region by lia. Qed.

(** A full copy into a fresh array. *)
Section Readers.
Context (arr : list byte) (data : slice) (ts h : Z) (key : gostring) (entry : list byte).
Hypothesis data_ok : sl_ok arr data.
Hypothesis data_bytes : sl_bytes arr data = wrapped ts h key entry.

Lemma data_len : sl_len data = 18 + zlen key + zlen entry.
Proof. rewrite (sl_len_bytes arr data data_ok), data_bytes. apply zlen_wrapped. Qed.

Lemma readTimestamp_wrapped : readTimestampFromEntry arr data = Ret (u64 ts).
Proof using data_ok data_bytes.
  pose proof data_len as HL. pose proof (zlen_nonneg key). pose proof (zlen_nonneg entry).
  unfold readTimestampFromEntry. rewrite sl_getUint_Ret by lia.
  rewrite <- (Z.add_0_r (sl_off data)).
  rewrite (sl_sub_region arr _ data 0 8 data_ok data_bytes) by wrapped_lia.
  destruct (wrapped_regions ts h key entry) as (-> & _). by rewrite le_Z_le_bytes.
Qed.

Lemma readHash_wrapped : readHashFromEntry arr data = Ret (u64 h).
Proof using data_ok data_bytes.
  pose proof data_len as HL. pose proof (zlen_nonneg key). pose proof (zlen_nonneg entry).
  unfold readHashFromEntry, timestampSizeInBytes. rewrite sl_from_Ret by lia. cbn [obind].
  rewrite sl_getUint_Ret by (simpl; lia). cbn [sl_off].
  rewrite (sl_sub_region arr _ data 8 8 data_ok data_bytes) by wrapped_lia.
  destruct (wrapped_regions ts h key entry) as (_ & -> & _). by rewrite le_Z_le_bytes.
Qed.

(** The first two lines of [readKeyFromEntry] and [readEntry]. *)
Lemma readKeyLength_wrapped :
  (let! s := sl_from arr data (timestampSizeInBytes + hashSizeInBytes) in sl_getUint 2 arr s) =
  Ret (u16 (zlen key)).
Proof using data_ok data_bytes.
  pose proof data_len as HL. pose proof (zlen_nonneg key). pose proof (zlen_nonneg entry).
  unfold timestampSizeInBytes, hashSizeInBytes. rewrite sl_from_Ret by lia. cbn [obind].
  rewrite sl_getUint_Ret by (simpl; lia). cbn [sl_off].
  rewrite (sl_sub_region arr _ data (8 + 8) 2 data_ok data_bytes) by wrapped_lia.
  destruct (wrapped_regions ts h key entry) as (_ & _ & Hk & _).
  change (8 + 8) with 16. rewrite Hk.
  rewrite le_Z_le_bytes. unfold u16. by rewrite Z.mod_mod.
Qed.

Lemma readKey_wrapped : key_ok key -> readKeyFromEntry arr data = Ret key.
Proof using data_ok data_bytes.
  unfold key_ok, headersSizeInBytes, timestampSizeInBytes, hashSizeInBytes, keySizeInBytes.
  intros Hk. pose proof data_len as HL. pose proof (zlen_nonneg key). pose proof (zlen_nonneg entry).
  unfold readKeyFromEntry. pose proof readKeyLength_wrapped as Hl.
  destruct (sl_from arr data (timestampSizeInBytes + hashSizeInBytes)) as [s| |]; try discriminate Hl.
  cbn [obind] in *. rewrite Hl. cbn [obind]. unfold u16. rewrite (Z.mod_small (zlen key)) by lia.
  unfold headersSizeInBytes, timestampSizeInBytes, hashSizeInBytes, keySizeInBytes.
  rewrite Z.mod_small by lia. destruct data_ok as (O1 & O2 & O3).
  rewrite sl_slice_Ret by (unfold sl_cap; lia). cbn [obind]. f_equal.
  unfold sl_bytes at 1. cbn [sl_off sl_len].
  rewrite (sl_sub_region arr _ data _ _ data_ok data_bytes) by wrapped_lia.
  destruct (wrapped_regions ts h key entry) as (_ & _ & _ & Hkey & _).
  replace (8 + 8 + 2 + zlen key - (8 + 8 + 2)) with (zlen key) by lia.
  change (8 + 8 + 2) with 18. rewrite Hkey. by apply sl_copy_zeros.
Qed.

Lemma readEntry_wrapped : key_ok key -> readEntry arr data = Ret entry.
Proof using data_ok data_bytes.
  unfold key_ok, headersSizeInBytes, timestampSizeInBytes, hashSizeInBytes, keySizeInBytes.
  intros Hk. pose proof data_len as HL. pose proof (zlen_nonneg key). pose proof (zlen_nonneg entry).
  unfold readEntry. pose proof readKeyLength_wrapped as Hl.
  destruct (sl_from arr data (timestampSizeInBytes + hashSizeInBytes)) as [s| |]; try discriminate Hl.
  cbn [obind] in *. rewrite Hl. cbn [obind]. unfold u16. rewrite (Z.mod_small (zlen key)) by lia.
  unfold headersSizeInBytes, timestampSizeInBytes, hashSizeInBytes, keySizeInBytes.
  rewrite Z.mod_small by lia.
  destruct (sl_len data - (8 + 8 + 2 + zlen key) <? 0) eqn:E; zbool; [lia|].
  rewrite sl_from_Ret by lia. cbn [obind]. f_equal.
  unfold sl_bytes at 1. cbn [sl_off sl_len].
  rewrite (sl_sub_region arr _ data _ _ data_ok data_bytes) by wrapped_lia.
  destruct (wrapped_regions ts h key entry) as (_ & _ & _ & _ & Hent).
  replace (sl_len data - (8 + 8 + 2 + zlen key)) with (zlen entry) by lia.
  change (8 + 8 + 2) with 18. rewrite Hent. by apply sl_copy_zeros.
Qed.

(** Clearing the hash is clearing it in the layout. *)
Lemma resetKey_wrapped :
  resetKeyFromEntry arr data = Ret (blit arr (sl_off data + 8) (le_bytes 8 0)).
Proof using data_ok data_bytes.
  pose proof data_len as HL. pose proof (zlen_nonneg key). pose proof (zlen_nonneg entry).
  unfold resetKeyFromEntry, timestampSizeInBytes. rewrite sl_from_Ret by lia. cbn [obind].
  rewrite sl_putUint_Ret by (simpl; lia). done.
Qed.

(** A key between 65518 and 65535 bytes: the 16 bit sum wraps below the header
    size and the slice expression panics. *)
Lemma readKey_wrapped_long :
  2 ^ 16 - headersSizeInBytes <= zlen key < 2 ^ 16 -> readKeyFromEntry arr data = Panic.
Proof using data_ok data_bytes.
  unfold headersSizeInBytes, timestampSizeInBytes, hashSizeInBytes, keySizeInBytes.
  intros Hk. unfold readKeyFromEntry. pose proof readKeyLength_wrapped as Hl.
  destruct (sl_from arr data (timestampSizeInBytes + hashSizeInBytes)) as [s| |]; try discriminate Hl.
  cbn [obind] in *. rewrite Hl. cbn [obind]. unfold u16. rewrite (Z.mod_small (zlen key)) by lia.
  unfold headersSizeInBytes, timestampSizeInBytes, hashSizeInBytes, keySizeInBytes.
  replace ((8 + 8 + 2 + zlen key) mod 2 ^ 16) with (18 + zlen key - 65536).
  2:{ apply (Z.mod_unique_pos _ _ 1); lia. }
  unfold sl_slice. destruct (8 + 8 + 2 <=? 18 + zlen key - 65536) eqn:E; zbool; [lia|].
  by rewrite andb_false_r.
Qed.
End Readers.

(** ** Claims *)

Lemma wrapped_clear (ts h : Z) (key : gostring) (entry : list byte) :
  blit (wrapped ts h key entry) 8 (le_bytes 8 0) = wrapped ts 0 key entry.
Proof.
  unfold wrapped. set (rest := le_bytes 2 (u16 (zlen key)) ++ key ++ entry).
  unfold blit. rewrite !length_app, !length_le_bytes.
  change (Z.to_nat 8) with 8%nat.
  rewrite take_app_length' by (by rewrite length_le_bytes).
  rewrite (take_ge (le_bytes 8 0)) by (rewrite length_le_bytes; lia).
  rewrite drop_app_ge by (rewrite length_le_bytes; lia). rewrite length_le_bytes.
  by rewrite drop_app_length' by (by rewrite length_le_bytes).
Qed.

(** C23. Entry encoding round trip.  Whatever the shared buffer holds and however
    long it is, [wrapEntry] returns a blob from which the four readers get back the
    timestamp, the hash, the key and the entry, for keys of up to 65517 bytes. *)
Theorem entry_roundtrip (ts h : Z) (key : gostring) (entry buffer : list byte) :
  0 <= ts < 2 ^ 64 -> 0 <= h < 2 ^ 64 -> key_ok key ->
  exists blob buffer', wrapEntry ts h key entry buffer = Ret (blob, buffer') /\
    readTimestampFromEntry blob (sl_all blob) = Ret ts /\
    readHashFromEntry blob (sl_all blob) = Ret h /\
    readKeyFromEntry blob (sl_all blob) = Ret key /\
    readEntry blob (sl_all blob) = Ret entry.
Proof.
  intros Ht Hh Hk. destruct (wrapEntry_Ret ts h key entry buffer) as (buffer' & Hw & _).
  exists (wrapped ts h key entry), buffer'. split; [done|].
  pose proof (sl_all_ok (wrapped ts h key entry)) as Ho. pose proof (sl_all_bytes (wrapped ts h key entry)) as Hb.
  rewrite (readTimestamp_wrapped _ _ _ _ _ _ Ho Hb), (readHash_wrapped _ _ _ _ _ _ Ho Hb),
    (readKey_wrapped _ _ _ _ _ _ Ho Hb Hk), (readEntry_wrapped _ _ _ _ _ _ Ho Hb Hk).
  unfold u64. by rewrite !Z.mod_small by done.
Qed.

Lemma entry_roundtrip_witness :
  exists blob buffer', wrapEntry 7 9 ["k"]%byte ["v"; "w"]%byte [] = Ret (blob, buffer') /\
    readTimestampFromEntry blob (sl_all blob) = Ret 7 /\
    readHashFromEntry blob (sl_all blob) = Ret 9 /\
    readKeyFromEntry blob (sl_all blob) = Ret ["k"]%byte /\
    readEntry blob (sl_all blob) = Ret ["v"; "w"]%byte.
Proof. apply (entry_roundtrip 7 9 ["k"]%byte ["v"; "w"]%byte []); [lia|lia|reflexivity]. Defined.

(** [resetKeyFromEntry] on a stored blob clears its hash and nothing else: the
    timestamp, the key and the entry are read as before. *)
Lemma reset_key_clears_hash (ts h : Z) (key : gostring) (entry : list byte) :
  0 <= ts < 2 ^ 64 -> key_ok key ->
  let blob := wrapped ts h key entry in
  exists blob', resetKeyFromEntry blob (sl_all blob) = Ret blob' /\
    readHashFromEntry blob' (sl_all blob') = Ret 0 /\
    readTimestampFromEntry blob' (sl_all blob') = Ret ts /\
    readKeyFromEntry blob' (sl_all blob') = Ret key /\
    readEntry blob' (sl_all blob') = Ret entry.
Proof.
  intros Ht Hk blob.
  rewrite (resetKey_wrapped _ _ _ _ _ _ (sl_all_ok blob) (sl_all_bytes blob)).
  cbn [sl_off sl_all]. rewrite Z.add_0_l. unfold blob. rewrite wrapped_clear. eexists. split; [done|].
  set (b := wrapped ts 0 key entry).
  pose proof (sl_all_ok b) as Ho. pose proof (sl_all_bytes b) as Hb.
  rewrite (readTimestamp_wrapped _ _ _ _ _ _ Ho Hb), (readHash_wrapped _ _ _ _ _ _ Ho Hb),
    (readKey_wrapped _ _ _ _ _ _ Ho Hb Hk), (readEntry_wrapped _ _ _ _ _ _ Ho Hb Hk).
  unfold u64. by rewrite !Z.mod_small by lia.
Qed.

(** Keys of 65518 to 65535 bytes are accepted by [wrapEntry] and make
    [readKeyFromEntry] panic on the stored blob: the 16 bit sum of header size and
    key length wraps around. *)
Theorem long_keys_panic (ts h : Z) (key : gostring) (entry buffer : list byte) :
  2 ^ 16 - headersSizeInBytes <= zlen key < 2 ^ 16 ->
  exists blob buffer', wrapEntry ts h key entry buffer = Ret (blob, buffer') /\
    readKeyFromEntry blob (sl_all blob) = Panic.
Proof.
  intros Hk. destruct (wrapEntry_Ret ts h key entry buffer) as (buffer' & Hw & _).
  eexists _, buffer'. split; [done|].
  by apply (readKey_wrapped_long _ _ _ _ _ _ (sl_all_ok _) (sl_all_bytes _)).
Qed.

Lemma long_keys_panic_witness :
  exists blob buffer', wrapEntry 0 1 (zeros 65518) [] [] = Ret (blob, buffer') /\
    readKeyFromEntry blob (sl_all blob) = Panic.
Proof.
  apply (long_keys_panic 0 1 (zeros 65518) [] []). rewrite zlen_zeros by lia.
  unfold headersSizeInBytes, timestampSizeInBytes, hashSizeInBytes, keySizeInBytes. lia.
Defined.
