(* ===== verification/Hash.v ===== *)
(** * Hashing ([bigcache/hash.go], [bigcache/fnv.go])

    The [Hasher] interface that the cache is written against, and the default
    64 bit FNV-1a implementation.  A shard compares keys only after their
    hashes agree, so what matters is the range of the hash and which keys can
    collide: keys of equal length that differ in one byte never do. *)

From stdpp Require Import base decidable countable list gmap.
From Stdlib Require Import ZArith Lia Strings.Byte Zdivisibility.
From S2P Require Import Prelude.

(** [type Hasher interface { Sum64(string) uint64 }]; the range is the type's. *)
Class Hasher : Type := {
  Sum64 : gostring -> Z;
  Sum64_range : forall key, 0 <= Sum64 key < 2 ^ 64
}.

Definition offset64 : Z := 14695981039346656037.

Definition prime64 : Z := 1099511628211.

(** One round of the loop: [hash ^= uint64(key[i]); hash *= prime64]. *)
Definition fnvRound (hash : Z) (b : byte) : Z :=
  u64 (Z.lxor hash (byte_Z b) * prime64).

Definition fnvSum64 (key : gostring) : Z := foldl fnvRound offset64 key.

Lemma u64_range (z : Z) : 0 <= u64 z < 2 ^ 64.
Proof. unfold u64. apply Z.mod_pos_bound. lia. Qed.

Lemma fnv_range_from (hash : Z) (key : gostring) :
  0 <= hash < 2 ^ 64 -> 0 <= foldl fnvRound hash key < 2 ^ 64.
Proof.
  revert hash. induction key as [|b key IH]; intros hash H; [done|].
  simpl. apply IH, u64_range.
Qed.

Lemma fnvSum64_range (key : gostring) : 0 <= fnvSum64 key < 2 ^ 64.
Proof. apply fnv_range_from. unfold offset64. lia. Qed.

(** [newDefaultHasher()] *)
#[export] Instance fnv64a : Hasher := {| Sum64 := fnvSum64; Sum64_range := fnvSum64_range |}.

(** ** Collisions *)

Lemma lxor_range (a b : Z) : 0 <= a < 2 ^ 64 -> 0 <= b < 2 ^ 64 -> 0 <= Z.lxor a b < 2 ^ 64.
Proof.
  intros Ha Hb. split; [apply Z.lxor_nonneg; lia|].
  destruct (decide (Z.lxor a b = 0)) as [->|Hne]; [lia|].
  apply Z.log2_lt_pow2.
  - assert (0 <= Z.lxor a b) by (apply Z.lxor_nonneg; lia). lia.
  - assert (forall z, 0 <= z < 2 ^ 64 -> Z.log2 z < 64) as Hlog.
    { intros z Hz. destruct (decide (z = 0)) as [->|]; [cbn; lia|].
      apply Z.log2_lt_pow2; lia. }
    pose proof (Z.log2_lxor a b ltac:(lia) ltac:(lia)).
    pose proof (Hlog a Ha). pose proof (Hlog b Hb). lia.
Qed.

Lemma lxor_cancel (a b c : Z) : Z.lxor a c = Z.lxor b c -> a = b.
Proof.
  intros H. apply (f_equal (fun z => Z.lxor z c)) in H.
  by rewrite !Z.lxor_assoc, !Z.lxor_nilpotent, !Z.lxor_0_r in H.
Qed.

(** The prime is odd, so multiplying by it is injective on 64 bit words. *)
Lemma mul_prime64_inj (a b : Z) :
  0 <= a < 2 ^ 64 -> 0 <= b < 2 ^ 64 -> u64 (a * prime64) = u64 (b * prime64) -> a = b.
Proof.
  intros Ha Hb H. unfold u64 in H.
  assert ((2 ^ 64 | prime64 * (a - b))) as Hdiv.
  { apply Z.mod_divide; [lia|].
    replace (prime64 * (a - b)) with (a * prime64 - b * prime64) by ring.
    rewrite Zminus_mod, H, Z.sub_diag. apply Z.mod_0_l. lia. }
  apply Z.gauss in Hdiv; [|reflexivity]. destruct Hdiv as [k Hk]. nia.
Qed.

Lemma byte_Z_range64 (b : byte) : 0 <= byte_Z b < 2 ^ 64.
Proof. pose proof (byte_Z_range b). lia. Qed.

#[local] Hint Resolve byte_Z_range64 lxor_range u64_range : core.

Lemma fnvRound_inj_hash (g h : Z) (b : byte) :
  0 <= g < 2 ^ 64 -> 0 <= h < 2 ^ 64 -> fnvRound g b = fnvRound h b -> g = h.
Proof.
  intros Hg Hh H. apply (lxor_cancel _ _ (byte_Z b)). apply mul_prime64_inj; auto.
Qed.

Lemma fnvRound_inj_byte (h : Z) (a b : byte) :
  0 <= h < 2 ^ 64 -> fnvRound h a = fnvRound h b -> a = b.
Proof.
  intros Hh H. apply byte_Z_inj, (lxor_cancel _ _ h).
  rewrite !(Z.lxor_comm _ h). apply mul_prime64_inj; auto.
Qed.

(** Once apart, two runs over the same bytes stay apart. *)
Lemma fnv_suffix_inj (g h : Z) (suf : gostring) :
  0 <= g < 2 ^ 64 -> 0 <= h < 2 ^ 64 ->
  foldl fnvRound g suf = foldl fnvRound h suf -> g = h.
Proof.
  revert g h. induction suf as [|b suf IH]; intros g h Hg Hh H; [done|].
  simpl in H. apply IH in H; [|apply u64_range..]. by apply fnvRound_inj_hash in H.
Qed.

(** The default hash tells keys of equal length apart when they differ in one
    byte: FNV-1a has no collision among them. *)
Theorem fnv64a_one_byte_no_collision (pre suf : gostring) (a b : byte) :
  fnvSum64 (pre ++ a :: suf) = fnvSum64 (pre ++ b :: suf) <-> a = b.
Proof.
  split; [|by intros ->]. unfold fnvSum64. rewrite !foldl_app. simpl. intros H.
  apply fnv_suffix_inj in H; [|apply u64_range..].
  apply fnvRound_inj_byte in H; [done|apply fnvSum64_range].
Qed.

(** Published FNV-1a vectors: the empty string, "a" and "foobar". *)
Example fnv64a_vectors :
  fnvSum64 [] = 0xcbf29ce484222325 /\
  fnvSum64 [Byte.x61] = 0xaf63dc4c8601ec8c /\
  fnvSum64 [Byte.x66; Byte.x6f; Byte.x6f; Byte.x62; Byte.x61; Byte.x72] = 0x85944171f73967e8.
Proof. vm_compute. auto. Qed.
