(* ===== verification/Config.v ===== *)
(** * Configuration and shard sizing ([bigcache/config.go], [bigcache/utils.go])

    Go's [int] is 64 bits wide: products and differences wrap, division
    truncates towards zero and panics on a zero divisor. *)

From stdpp Require Import base decidable countable list gmap.
From Stdlib Require Import ZArith Lia.
From S2P Require Import Prelude.

Definition minimumEntriesInShard : Z := 10.

(** [Config], less the hasher, the logger and the callback, which are separate
    arguments of the model; [cfg_OnRemove] says whether a callback is given. *)
Record Config : Type := MkConfig {
  cfg_Shards : Z;
  cfg_LifeWindow : Z;
  cfg_CleanWindow : Z;
  cfg_MaxEntriesInWindow : Z;
  cfg_MaxEntrySize : Z;
  cfg_Verbose : bool;
  cfg_HardMaxCacheSize : Z;
  cfg_OnRemove : bool
}.

(** [max] *)
Definition goMax (a b : Z) : Z := if a >? b then a else b.

Definition convertMBToBytes (value : Z) : Z := i64 (i64 (value * 1024) * 1024).

Definition isPowerOfTwo (number : Z) : bool := Z.land number (i64 (number - 1)) =? 0.

(** [a / b] on [int]. *)
Definition goDiv (a b : Z) : outcome Z :=
  if b =? 0 then Panic else Ret (i64 (Z.quot a b)).

Definition DefaultConfig : Config :=
  MkConfig 16 (72 * 3600 * 1000000000) 0 (1000 * 10 * 60) 500 true 0 false.

Definition initialShardSize (c : Config) : outcome Z :=
  let! n := goDiv (cfg_MaxEntriesInWindow c) (cfg_Shards c) in
  Ret (goMax n minimumEntriesInShard).

Definition maximumShardSize (c : Config) : outcome Z :=
  if cfg_HardMaxCacheSize c >? 0
  then goDiv (convertMBToBytes (cfg_HardMaxCacheSize c)) (cfg_Shards c)
  else Ret 0.

(** [SetShard] *)
Definition SetShard (c : Config) (num : Z) : Config :=
  MkConfig num (cfg_LifeWindow c) (cfg_CleanWindow c) (cfg_MaxEntriesInWindow c)
    (cfg_MaxEntrySize c) (cfg_Verbose c) (cfg_HardMaxCacheSize c) (cfg_OnRemove c).

(** ** Powers of two *)

Definition is_int (z : Z) : Prop := - 2 ^ 63 <= z < 2 ^ 63.

Lemma i64_small (z : Z) : is_int z -> i64 z = z.
Proof. unfold is_int, i64. intros. rewrite Z.mod_small; lia. Qed.

Lemma land_pow2_pred (k : Z) : 0 <= k -> Z.land (2 ^ k) (2 ^ k - 1) = 0.
Proof.
  intros Hk. replace (2 ^ k - 1) with (Z.ones k) by (rewrite Z.ones_equiv; lia).
  rewrite Z.land_ones by done. apply Z.mod_same. lia.
Qed.

Lemma land_pred_zero (n : Z) : 0 < n -> Z.land n (n - 1) = 0 -> n = 2 ^ Z.log2 n.
Proof.
  intros Hn H. pose proof (Z.log2_spec n Hn) as [H1 H2].
  destruct (decide (n = 2 ^ Z.log2 n)) as [|Hne]; [done|exfalso].
  pose proof (Z.log2_nonneg n).
  assert (Z.log2 (n - 1) = Z.log2 n) as Hl by (apply Z.log2_unique; lia).
  apply (f_equal (fun z => Z.testbit z (Z.log2 n))) in H.
  rewrite Z.land_spec, Z.bits_0, (Z.bit_log2 n) in H by done.
  rewrite <- Hl, (Z.bit_log2 (n - 1)) in H; [discriminate|]. lia.
Qed.

(** On 64 bit integers the test accepts the positive powers of two, and also
    zero and the smallest integer. *)
Lemma isPowerOfTwo_spec (n : Z) :
  is_int n ->
  isPowerOfTwo n = true <->
  n = 0 \/ n = - 2 ^ 63 \/ exists k, 0 <= k < 63 /\ n = 2 ^ k.
Proof.
  intros Hn. unfold isPowerOfTwo. rewrite Z.eqb_eq. unfold is_int in Hn. split.
  - intros H. destruct (Z.lt_trichotomy n 0) as [Hneg|[->|Hpos]]; [|by left|].
    + right; left. destruct (decide (n = - 2 ^ 63)) as [|Hne]; [done|exfalso].
      rewrite i64_small in H by (unfold is_int; lia).
      assert (Z.land n (n - 1) < 0); [|lia]. apply Z.land_neg. lia.
    + right; right. rewrite i64_small in H by (unfold is_int; lia).
      apply land_pred_zero in H; [|done]. exists (Z.log2 n). split; [|done].
      split; [apply Z.log2_nonneg|]. apply Z.log2_lt_pow2; lia.
  - intros [->|[->|(k & Hk & ->)]]; [reflexivity|reflexivity|].
    pose proof (Z.pow_pos_nonneg 2 k ltac:(lia) ltac:(lia)).
    assert (2 ^ k < 2 ^ 63) by (apply Z.pow_lt_mono_r; lia).
    rewrite i64_small by (unfold is_int; lia). apply land_pow2_pred. lia.
Qed.

(** Masking with [n - 1] is reduction modulo a power of two. *)
Lemma land_mask_mod (h k : Z) : 0 <= k -> Z.land h (2 ^ k - 1) = h mod 2 ^ k.
Proof.
  intros Hk. rewrite <- Z.land_ones by done. f_equal. rewrite Z.ones_equiv. lia.
Qed.
