(* ===== verification/GoTime.v ===== *)
(** * Time, timers and mutexes

    What the cache uses of Go's [time] and [sync]: durations in nanoseconds and
    their conversion to seconds through a [float64], one-shot timers with their
    buffered channel, mutexes.  A locked mutex that is locked again by the only
    goroutine that could release it leaves the run [Stuck]; unlocking an
    unlocked mutex is a fatal error, [Panic].  [bigcache/clock.go] reads the
    same Unix clock. *)

From stdpp Require Import base decidable countable list gmap.
From Stdlib Require Import ZArith Lia SpecFloat.
From S2P Require Import Prelude.

(** ** Durations *)

(** [time.Second] *)
Definition Second : Z := 1000000000.

(** [float64(z)] *)
Definition float64 (z : Z) : spec_float := binary_normalize 53 1024 z 0 false.

(** [d.Seconds()]: [float64(d / Second) + float64(d % Second) / 1e9]. *)
Definition Seconds (d : Z) : spec_float :=
  SFadd 53 1024 (float64 (Z.quot d Second))
    (SFdiv 53 1024 (float64 (Z.rem d Second)) (float64 1000000000)).

(** Truncation of a finite float towards zero. *)
Definition truncZ (f : spec_float) : Z :=
  match f with
  | S754_finite s m e =>
      let a := if 0 <=? e then Z.pos m * 2 ^ e else Z.pos m / 2 ^ (- e) in
      if s then - a else a
  | _ => 0
  end.

(** The language leaves [uint64(f)] to the platform when the truncated value
    does not fit, as for a negative duration. *)
Class Platform : Type := { uint64OutOfRange : Z -> Z }.

(** [uint64(f)] *)
Definition uint64_of_float {platform : Platform} (f : spec_float) : Z :=
  let t := truncZ f in
  if (0 <=? t) && (t <? 2 ^ 64) then t else u64 (uint64OutOfRange t).

(** [uint64(d.Seconds())] *)
Definition durationSeconds {platform : Platform} (d : Z) : Z := uint64_of_float (Seconds d).

(** The behaviour of the amd64 compiler: two's complement. *)
#[export] Instance amd64 : Platform := {| uint64OutOfRange := fun t => t |}.

(** [time.Now().Unix()] for a clock that shows [now] nanoseconds since 1970. *)
Definition unix (now : Z) : Z := now / Second.

(** ** Timers *)

(** A [time.Timer]: when it will fire, if it is active, and whether a tick is
    waiting in its channel. *)
Record timer : Type := Timer { tm_fire : option Z; tm_chan : bool }.

(** [time.NewTimer(d)] *)
Definition newTimer (now d : Z) : timer := Timer (Some (now + d)) false.

(** [if !t.Stop() { select { case <-t.C: default: } }] *)
Definition stopAndDrain (t : timer) : timer :=
  match tm_fire t with
  | Some _ => Timer None (tm_chan t)
  | None => Timer None false
  end.

(** [t.Reset(d)] *)
Definition timerReset (t : timer) (now d : Z) : timer := Timer (Some (now + d)) (tm_chan t).

(** The runtime fires an active timer whose time has come. *)
Definition timerFire (t : timer) : timer := Timer None true.

(** [<-t.C] *)
Definition timerRecv (t : timer) : timer := Timer (tm_fire t) false.

(** ** Mutexes *)

(** [sync.Mutex]: held or not. *)
Definition mutexLock (held : bool) : outcome bool := if held then Stuck else Ret true.

Definition mutexUnlock (held : bool) : outcome bool := if held then Ret false else Panic.

(** [sync.RWMutex] *)
Inductive rwmutex : Type :=
| RWFree
| RWWrite
| RWRead (readers : positive).

Definition rwLock (m : rwmutex) : outcome rwmutex :=
  match m with RWFree => Ret RWWrite | _ => Stuck end.

Definition rwUnlock (m : rwmutex) : outcome rwmutex :=
  match m with RWWrite => Ret RWFree | _ => Panic end.

Definition rwRLock (m : rwmutex) : outcome rwmutex :=
  match m with
  | RWFree => Ret (RWRead 1)
  | RWRead n => Ret (RWRead (Pos.succ n))
  | RWWrite => Stuck
  end.

Definition rwRUnlock (m : rwmutex) : outcome rwmutex :=
  match m with
  | RWRead n => Ret (if decide (n = 1%positive) then RWFree else RWRead (Pos.pred n))
  | _ => Panic
  end.

(** ** Conversions *)

(** Whole and fractional seconds, the rounding of long fractional durations, and
    a duration that has already passed. *)
Example durationSeconds_values :
  durationSeconds (5 * Second) = 5 /\
  durationSeconds 5999999999 = 5 /\
  durationSeconds 999999999 = 0 /\
  durationSeconds 16777216999999999 = 16777217 /\
  durationSeconds (- 5500000000) = 2 ^ 64 - 5.
Proof. vm_compute. auto. Qed.

(** How far apart two Unix times may be for a timer between them: the
    nanoseconds fit an [int64]. *)
Definition timer_range (a b : Z) : Prop := - 2 ^ 63 <= (a - b) * Second < 2 ^ 63.

Lemma i64_u64 (z : Z) : - 2 ^ 63 <= z < 2 ^ 63 -> i64 (u64 z) = z.
Proof.
  intros H. unfold i64, u64. rewrite Zplus_mod_idemp_l, Z.mod_small; lia.
Qed.

(** The relative duration [resetTimer] computes fires within the second of the
    timestamp, in the past as well as in the future. *)
Lemma relative_fire (now ts : Z) :
  0 <= now -> timer_range ts (unix now) ->
  (now + i64 (Second * i64 (u64 (ts - unix now)))) / Second = ts.
Proof.
  unfold timer_range, unix. intros Hn Hr.
  assert (0 < Second) as HS by (unfold Second; lia).
  rewrite i64_u64 by (unfold Second in *; lia).
  unfold i64. rewrite Z.mod_small by (unfold Second in *; lia).
  replace (now + (Second * (ts - now / Second) + 2 ^ 63 - 2 ^ 63))
    with (now + (ts - now / Second) * Second) by lia.
  rewrite Z.div_add by lia. lia.
Qed.
