(* ===== verification/Ttl.v ===== *)
(** * The expiry table of a shard ([bigcache/ttl.go])

    An AVL tree maps each expiry timestamp to the set of keys that expire then;
    one timer is kept set for the smallest timestamp.  The hash sets are
    reached only through the tree (the eviction goroutine takes a set out of the
    tree before it uses it), so the tree holds them by value.  The tree lock is
    modelled: an operation that finds it held is [Stuck], and every operation
    must leave it free.

    [due] is the set of (timestamp, key) pairs the table holds; [put] and
    [remove] add and take away exactly one pair, and [timer_ok], "the timer is
    set for the smallest timestamp or has just fired", is an invariant.  The
    eviction goroutine, which also needs the shard, is in the file Shard. *)

From stdpp Require Import base decidable countable list gmap.
From Stdlib Require Import ZArith Lia Strings.Byte.
From S2P Require Import Prelude.
From S2P Require Import GoLib.
From S2P Require Import GoTime.

(** The shard and the hasher the Go struct points to are arguments of the
    operations that use them. *)
Record ttlManager (TT : Type) : Type := MkTtl {
  ttl_timeTree : TT;
  ttl_treeLock : bool;
  ttl_timer : timer
}.

Arguments MkTtl {TT} _ _ _.
Arguments ttl_timeTree {TT} _.
Arguments ttl_treeLock {TT} _.
Arguments ttl_timer {TT} _.

Section TtlOps.
Context {HS TT : Type} `{!HashSet HS} `{!AvlTree HS TT}.
Implicit Types t : ttlManager TT.

Definition lockTree t : outcome (ttlManager TT) :=
  let! l := mutexLock (ttl_treeLock t) in Ret (MkTtl (ttl_timeTree t) l (ttl_timer t)).

Definition unlockTree t : outcome (ttlManager TT) :=
  let! l := mutexUnlock (ttl_treeLock t) in Ret (MkTtl (ttl_timeTree t) l (ttl_timer t)).

Definition setTree t (tree : TT) : ttlManager TT := MkTtl tree (ttl_treeLock t) (ttl_timer t).

Definition setTimer t (tm : timer) : ttlManager TT := MkTtl (ttl_timeTree t) (ttl_treeLock t) tm.

(** [newTtlManager]: the timer is first set ten hours ahead. *)
Definition newTtlManager (now : Z) : ttlManager TT :=
  MkTtl avl_new false (newTimer now (Second * 3600 * 10)).

(** [peek] *)
Definition ttlPeek t : option (Z * HS) := avl_first (ttl_timeTree t).

Definition stopTimer t : ttlManager TT := setTimer t (stopAndDrain (ttl_timer t)).

Definition resetTimer t (timeStamp now : Z) : ttlManager TT :=
  let interval := u64 (timeStamp - u64 (unix now)) in
  setTimer t (timerReset (stopAndDrain (ttl_timer t)) now (i64 (Second * i64 interval))).

(** [put] *)
Definition ttlPut t (timestamp : Z) (cacheKey : gostring) (now : Z) : outcome (ttlManager TT) :=
  let! t := lockTree t in
  let t' :=
    match avl_get (ttl_timeTree t) timestamp with
    | Some set => setTree t (avl_put (ttl_timeTree t) timestamp (hs_add set cacheKey))
    | None =>
        let set := hs_add hs_new cacheKey in
        let t1 := setTree t (avl_put (ttl_timeTree t) timestamp set) in
        if avl_size (ttl_timeTree t1) =? 1 then resetTimer t1 timestamp now
        else match ttlPeek t1 with
             | Some (key, _) => if key =? timestamp then resetTimer t1 timestamp now else t1
             | None => t1
             end
    end in
  unlockTree t'.

(** [remove] *)
Definition ttlRemove t (timestamp : Z) (key : gostring) (now : Z) : outcome (ttlManager TT) :=
  let! t := lockTree t in
  let t' :=
    match avl_get (ttl_timeTree t) timestamp with
    | Some set0 =>
        let set := hs_remove set0 key in
        let t1 := setTree t (avl_put (ttl_timeTree t) timestamp set) in
        if hs_empty set then
          let t2 := setTree t1 (avl_remove (ttl_timeTree t1) timestamp) in
          match ttlPeek t1 with
          | Some (k, _) =>
              if k =? timestamp then
                match ttlPeek t2 with
                | Some (k', _) => resetTimer t2 k' now
                | None => t2
                end
              else t2
          | None => t2
          end
        else t1
    | None => t
    end in
  unlockTree t'.

(** [reset] *)
Definition ttlReset t : outcome (ttlManager TT) :=
  let! t := lockTree t in
  let t1 := setTree t avl_new in
  unlockTree (stopTimer t1).

(** ** What the table holds *)

Definition dueIn (tree : TT) (ts : Z) (key : gostring) : Prop :=
  exists s, avl_view tree !! ts = Some s /\ key ∈ hs_view s.

Definition due t (ts : Z) (key : gostring) : Prop := dueIn (ttl_timeTree t) ts key.

(** The timer is set for the second of the smallest timestamp, or a tick is
    waiting for the eviction goroutine. *)
Definition timer_ok t : Prop :=
  forall ts s, ttlPeek t = Some (ts, s) ->
    tm_chan (ttl_timer t) = true \/
    exists f, tm_fire (ttl_timer t) = Some f /\ f / Second = ts.

Record ttl_ok t : Prop := {
  ttl_unlocked : ttl_treeLock t = false;
  ttl_nonempty : forall ts s, avl_view (ttl_timeTree t) !! ts = Some s -> hs_view s <> ∅;
  ttl_timer_ok : timer_ok t
}.

(** Timestamps a timer can be set for at time [now]. *)
Definition in_range t (now : Z) : Prop :=
  forall ts, is_Some (avl_view (ttl_timeTree t) !! ts) -> timer_range ts (unix now).

End TtlOps.

Section TtlProofs.
Context {HS TT : Type} `{!HashSet HS} `{!AvlTree HS TT} `{!HashSetLaws HS} `{!AvlTreeLaws HS TT}.
Implicit Types t : ttlManager TT.

(** ** The first entry of a tree *)

Lemma avl_first_iff (tree : TT) (k : Z) (v : HS) :
  avl_first tree = Some (k, v) <->
  avl_view tree !! k = Some v /\ (forall k', is_Some (avl_view tree !! k') -> k <= k').
Proof.
  split; [apply avl_first_Some|]. intros [Hk Hmin].
  destruct (avl_first tree) as [[k1 v1]|] eqn:E.
  - apply avl_first_Some in E as [Hk1 Hmin1].
    pose proof (Hmin k1 ltac:(eauto)). pose proof (Hmin1 k ltac:(eauto)).
    assert (k1 = k) as -> by lia. congruence.
  - apply avl_first_None in E. rewrite E, lookup_empty in Hk. discriminate.
Qed.

Lemma avl_first_exists (tree : TT) (k : Z) :
  is_Some (avl_view tree !! k) -> exists k' v', avl_first tree = Some (k', v').
Proof.
  intros [v Hv]. destruct (avl_first tree) as [[k' v']|] eqn:E; [eauto|].
  apply avl_first_None in E. rewrite E, lookup_empty in Hv. discriminate.
Qed.

(** ** The timer *)

Lemma resetTimer_fields t (ts now : Z) :
  ttl_timeTree (resetTimer t ts now) = ttl_timeTree t /\
  ttl_treeLock (resetTimer t ts now) = ttl_treeLock t.
Proof. done. Qed.

Lemma resetTimer_fires t (ts now : Z) :
  0 <= now -> timer_range ts (unix now) ->
  exists f, tm_fire (ttl_timer (resetTimer t ts now)) = Some f /\ f / Second = ts.
Proof.
  intros Hn Hr. eexists. split; [reflexivity|].
  replace (u64 (ts - u64 (unix now))) with (u64 (ts - unix now)).
  - by apply relative_fire.
  - unfold u64. by rewrite Zminus_mod_idemp_r.
Qed.

Lemma resetTimer_ok t (ts now : Z) (s : HS) :
  0 <= now -> timer_range ts (unix now) -> ttlPeek t = Some (ts, s) ->
  timer_ok (resetTimer t ts now).
Proof.
  intros Hn Hr Hp ts' s' Hp'. right. unfold ttlPeek in *. simpl in Hp'.
  rewrite Hp in Hp'. injection Hp' as -> ->. by apply resetTimer_fires.
Qed.

(** ** [newTtlManager] *)

Lemma newTtlManager_ok (now : Z) :
  ttl_ok (newTtlManager (TT := TT) now) /\ forall ts key, ~ due (newTtlManager now) ts key.
Proof.
  assert (avl_view (avl_new : TT) = ∅) as Hv by apply avl_view_new.
  split.
  - split; simpl; [done| |].
    + intros ts s. rewrite Hv, lookup_empty. discriminate.
    + intros ts s Hp. unfold ttlPeek in Hp. simpl in Hp.
      apply avl_first_Some in Hp as [Hp _]. rewrite Hv, lookup_empty in Hp. discriminate.
  - intros ts key (s & Hs & _). simpl in Hs. rewrite Hv, lookup_empty in Hs. discriminate.
Qed.

(** ** [put] *)

Lemma dueIn_put (tree : TT) (ts ts' : Z) (s : HS) (key : gostring) :
  dueIn (avl_put tree ts s) ts' key <->
  (ts' = ts /\ key ∈ hs_view s) \/ (ts' <> ts /\ dueIn tree ts' key).
Proof.
  unfold dueIn. rewrite avl_view_put. setoid_rewrite lookup_insert_Some.
  destruct (decide (ts' = ts)) as [->|Hne]; naive_solver.
Qed.

Lemma dueIn_remove (tree : TT) (ts ts' : Z) (key : gostring) :
  dueIn (avl_remove tree ts) ts' key <-> ts' <> ts /\ dueIn tree ts' key.
Proof.
  unfold dueIn. rewrite avl_view_remove. setoid_rewrite lookup_delete_Some. naive_solver.
Qed.

(** A new timestamp that is not the smallest leaves the first entry alone. *)
Lemma first_put_other (tree : TT) (ts ts' : Z) (s s' : HS) :
  avl_first (avl_put tree ts s) = Some (ts', s') -> ts' <> ts ->
  avl_first tree = Some (ts', s').
Proof.
  rewrite !avl_first_iff, avl_view_put. intros [Hk Hmin] Hne.
  rewrite lookup_insert_ne in Hk by done. split; [done|].
  intros k' Hk'. apply Hmin. rewrite lookup_insert_is_Some.
  destruct (decide (ts = k')); auto.
Qed.

(** Adding a key under a timestamp the tree already has keeps its first key. *)
Lemma first_put_same (tree : TT) (ts ts' : Z) (s s0 s' : HS) :
  avl_view tree !! ts = Some s0 ->
  avl_first (avl_put tree ts s) = Some (ts', s') ->
  exists s'', avl_first tree = Some (ts', s'').
Proof.
  intros Hts. rewrite avl_first_iff, avl_view_put. intros [Hk Hmin].
  destruct (decide (ts' = ts)) as [->|Hne].
  - exists s0. apply avl_first_iff. split; [done|]. intros k' Hk'. apply Hmin.
    rewrite lookup_insert_is_Some. destruct (decide (ts = k')); auto.
  - exists s'. apply (first_put_other tree ts ts' s s'); [|done].
    apply avl_first_iff. by rewrite avl_view_put.
Qed.

(** The end of [put] and [remove]: the lock is released. *)
Lemma unlockTree_ok t :
  ttl_treeLock t = true ->
  (forall ts s, avl_view (ttl_timeTree t) !! ts = Some s -> hs_view s <> ∅) -> timer_ok t ->
  exists t', unlockTree t = Ret t' /\ ttl_ok t' /\ ttl_timeTree t' = ttl_timeTree t.
Proof.
  intros Hl Hne Htm. unfold unlockTree, mutexUnlock. rewrite Hl. cbn [obind].
  eexists. split; [reflexivity|]. by split; [split|].
Qed.

Lemma due_put_new (tree : TT) (ts ts' : Z) (key key' : gostring) :
  avl_view tree !! ts = None ->
  dueIn (avl_put tree ts (hs_add hs_new key)) ts' key' <-> (ts' = ts /\ key' = key) \/ dueIn tree ts' key'.
Proof.
  intros E. rewrite dueIn_put, hs_view_add, hs_view_new.
  unfold dueIn. destruct (decide (ts' = ts)) as [->|]; [|naive_solver]. rewrite E. set_solver.
Qed.

Lemma due_put_known (tree : TT) (ts ts' : Z) (s : HS) (key key' : gostring) :
  avl_view tree !! ts = Some s ->
  dueIn (avl_put tree ts (hs_add s key)) ts' key' <-> (ts' = ts /\ key' = key) \/ dueIn tree ts' key'.
Proof.
  intros E. rewrite dueIn_put, hs_view_add.
  unfold dueIn. destruct (decide (ts' = ts)) as [->|]; [|naive_solver]. rewrite E. set_solver.
Qed.

Lemma nonempty_put (tree : TT) (ts : Z) (s : HS) (key : gostring) :
  (forall ts s, avl_view tree !! ts = Some s -> hs_view s <> ∅) ->
  forall ts' s', avl_view (avl_put tree ts (hs_add s key)) !! ts' = Some s' -> hs_view s' <> ∅.
Proof.
  intros Hne ts' s'. rewrite avl_view_put.
  intros [[<- <-]|[_ Hs']]%lookup_insert_Some; [rewrite hs_view_add; set_solver|by eapply Hne].
Qed.

(** The only timestamp of a tree is its first. *)
Lemma first_of_one (tree : TT) (ts k : Z) (s v : HS) :
  avl_view tree !! ts = None -> avl_size (avl_put tree ts s) = 1 ->
  avl_first (avl_put tree ts s) = Some (k, v) -> k = ts.
Proof.
  intros E Es [Hk _]%avl_first_Some. rewrite avl_size_view, avl_view_put, map_size_insert_None in Es by done.
  assert (avl_view tree = ∅) as H0 by (apply map_size_empty_inv; lia).
  rewrite avl_view_put, H0 in Hk.
  apply lookup_insert_Some in Hk as [[-> _]|[_ Hk]]; [done|]. by rewrite lookup_empty in Hk.
Qed.

(** What [put] does to the timer after a new timestamp. *)
Lemma put_timer_ok t t1 (ts now : Z) (key : gostring) :
  timer_ok t -> 0 <= now -> timer_range ts (unix now) -> avl_view (ttl_timeTree t) !! ts = None ->
  ttl_timeTree t1 = avl_put (ttl_timeTree t) ts (hs_add hs_new key) -> ttl_timer t1 = ttl_timer t ->
  timer_ok (if avl_size (ttl_timeTree t1) =? 1 then resetTimer t1 ts now
            else match ttlPeek t1 with
                 | Some (key, _) => if key =? ts then resetTimer t1 ts now else t1
                 | None => t1
                 end).
Proof.
  intros Htm Hn Hr E Ht Hm.
  assert (is_Some (avl_view (ttl_timeTree t1) !! ts)) as Hin.
  { rewrite Ht, avl_view_put, lookup_insert_eq. eauto. }
  destruct (avl_first_exists _ _ Hin) as (k & v & Hfirst).
  unfold ttlPeek. rewrite Hfirst. destruct (avl_size (ttl_timeTree t1) =? 1) eqn:Es; zbool.
  - rewrite Ht in Es. pose proof Hfirst as Hf. rewrite Ht in Hf.
    pose proof (first_of_one _ _ _ _ _ E Es Hf) as ->. by apply (resetTimer_ok t1 ts now v).
  - destruct (k =? ts) eqn:Ek; zbool; [subst k; by apply (resetTimer_ok t1 ts now v)|].
    intros ts' s' Hp. unfold ttlPeek in Hp. rewrite Hfirst in Hp. injection Hp as <- <-. rewrite Hm.
    apply (Htm k v). unfold ttlPeek. rewrite Ht in Hfirst.
    by apply (first_put_other _ ts k (hs_add hs_new key)).
Qed.

(** [put] schedules exactly one more pair, leaves the lock free, and sets the
    timer when the timestamp is the smallest. *)
Lemma ttlPut_ok t (ts now : Z) (key : gostring) :
  ttl_ok t -> 0 <= now -> timer_range ts (unix now) ->
  exists t', ttlPut t ts key now = Ret t' /\ ttl_ok t' /\
    (forall ts' key', due t' ts' key' <-> (ts' = ts /\ key' = key) \/ due t ts' key').
Proof.
  intros [Hl Hne Htm] Hn Hr. unfold ttlPut, lockTree, mutexLock. rewrite Hl. cbn [obind ttl_timeTree].
  rewrite avl_get_view.
  destruct (avl_view (ttl_timeTree t) !! ts) as [s0|] eqn:E.
  - match goal with |- context [unlockTree ?x] => destruct (unlockTree_ok x) as (t' & -> & Hok & Htr) end.
    + done.
    + by apply nonempty_put.
    + intros ts' s' Hp. unfold ttlPeek in Hp. simpl in Hp.
      destruct (first_put_same _ _ _ _ _ _ E Hp) as [s'' Hs'']. by apply (Htm ts' s'').
    + exists t'. split_and!; [done|done|]. intros ts' key'. unfold due. rewrite Htr. by apply due_put_known.
  - set (t1 := setTree (MkTtl (ttl_timeTree t) true (ttl_timer t))
                 (avl_put (ttl_timeTree t) ts (hs_add hs_new key))).
    pose proof (put_timer_ok t t1 ts now key Htm Hn Hr E eq_refl eq_refl) as Htm1.
    match goal with |- context [unlockTree ?x] => set (t2 := x) in * end.
    assert (ttl_treeLock t2 = true /\ ttl_timeTree t2 = ttl_timeTree t1) as [Hlk Htr].
    { unfold t2. repeat case_match; done. }
    destruct (unlockTree_ok t2 Hlk) as (t' & -> & Hok & Htr'); [|done|].
    + rewrite Htr. by apply nonempty_put.
    + exists t'. split_and!; [done|done|]. intros ts' key'. unfold due. rewrite Htr', Htr. by apply due_put_new.
Qed.

(** ** [remove] *)

Lemma first_remove_other (tree : TT) (ts k : Z) (v : HS) :
  avl_first tree = Some (k, v) -> k <> ts -> avl_first (avl_remove tree ts) = Some (k, v).
Proof.
  rewrite !avl_first_iff, avl_view_remove. intros [Hk Hmin] Hne. split.
  - by rewrite lookup_delete_ne.
  - intros k' [v' [_ Hk']%lookup_delete_Some]. eauto.
Qed.

Lemma due_put_removed (tree : TT) (ts ts' : Z) (s : HS) (key key' : gostring) :
  avl_view tree !! ts = Some s ->
  dueIn (avl_put tree ts (hs_remove s key)) ts' key' <-> dueIn tree ts' key' /\ ~ (ts' = ts /\ key' = key).
Proof.
  intros E. rewrite dueIn_put, hs_view_remove. unfold dueIn.
  destruct (decide (ts' = ts)) as [->|]; [|naive_solver]. rewrite E. set_solver.
Qed.

(** A timestamp without keys may as well be removed. *)
Lemma due_remove_empty (tree : TT) (ts ts' : Z) (s : HS) (key' : gostring) :
  hs_view s = ∅ ->
  dueIn (avl_remove (avl_put tree ts s) ts) ts' key' <-> dueIn (avl_put tree ts s) ts' key'.
Proof. intros Es. rewrite dueIn_remove, dueIn_put, Es. set_solver. Qed.

(** What [remove] does to the timer after the last key of a timestamp. *)
Lemma remove_timer_ok t t1 t2 (ts now : Z) (s s1 : HS) :
  timer_ok t -> 0 <= now -> in_range t now -> avl_view (ttl_timeTree t) !! ts = Some s ->
  ttl_timeTree t1 = avl_put (ttl_timeTree t) ts s1 ->
  ttl_timeTree t2 = avl_remove (ttl_timeTree t1) ts -> ttl_timer t2 = ttl_timer t ->
  timer_ok (match ttlPeek t1 with
            | Some (k, _) =>
                if k =? ts then
                  match ttlPeek t2 with
                  | Some (k', _) => resetTimer t2 k' now
                  | None => t2
                  end
                else t2
            | None => t2
            end).
Proof.
  intros Htm Hn Hr E Ht1 Ht2 Hm. unfold ttlPeek at 1. rewrite Ht1 in *.
  destruct (avl_first (avl_put (ttl_timeTree t) ts s1)) as [[k v]|] eqn:Ep.
  2:{ apply avl_first_None in Ep. rewrite avl_view_put in Ep. by apply insert_non_empty in Ep. }
  destruct (k =? ts) eqn:Ek; zbool.
  - destruct (ttlPeek t2) as [[k' v']|] eqn:Ep2; [|intros ts' s' Hp; congruence].
    apply (resetTimer_ok t2 k' now v' Hn); [|done]. apply Hr.
    apply avl_first_Some in Ep2 as [Hk' _]. rewrite Ht2, avl_view_remove, avl_view_put in Hk'.
    rewrite delete_insert_eq in Hk'. apply lookup_delete_Some in Hk' as [_ ?]. eauto.
  - intros ts' s' Hp. unfold ttlPeek in Hp. rewrite Ht2, (first_remove_other _ _ _ _ Ep Ek) in Hp.
    injection Hp as <- <-. rewrite Hm. destruct (first_put_same _ _ _ _ _ _ E Ep) as [v' Hv'].
    by apply (Htm k v').
Qed.

(** [remove] unschedules exactly one pair and moves the timer to the new first
    timestamp when it took the old one away. *)
Lemma ttlRemove_ok t (ts now : Z) (key : gostring) :
  ttl_ok t -> 0 <= now -> in_range t now ->
  exists t', ttlRemove t ts key now = Ret t' /\ ttl_ok t' /\
    (forall ts' key', due t' ts' key' <-> due t ts' key' /\ ~ (ts' = ts /\ key' = key)).
Proof.
  intros [Hl Hne Htm] Hn Hr. unfold ttlRemove, lockTree, mutexLock. rewrite Hl. cbn [obind ttl_timeTree].
  rewrite avl_get_view.
  destruct (avl_view (ttl_timeTree t) !! ts) as [s0|] eqn:E.
  2:{ eexists. split; [reflexivity|]. split; [by split|].
      intros ts' key'. unfold due, dueIn. simpl. split; [|naive_solver].
      intros (s & Hs & Hin). split; [eauto|]. intros [-> _]. congruence. }
  set (s1 := hs_remove s0 key).
  set (t1 := setTree (MkTtl (ttl_timeTree t) true (ttl_timer t)) (avl_put (ttl_timeTree t) ts s1)).
  pose proof (fun ts' key' => due_put_removed _ _ ts' _ key key' E) as Hdue. fold s1 in Hdue.
  destruct (hs_empty s1) eqn:Em.
  - apply hs_empty_view in Em. set (t2 := setTree t1 (avl_remove (ttl_timeTree t1) ts)).
    pose proof (remove_timer_ok t t1 t2 ts now s0 s1 Htm Hn Hr E eq_refl eq_refl eq_refl) as Htm3.
    match goal with |- context [unlockTree ?x] => set (t3 := x) in * end.
    assert (ttl_treeLock t3 = true /\ ttl_timeTree t3 = avl_remove (avl_put (ttl_timeTree t) ts s1) ts)
      as [Hlk Htr] by (unfold t3; repeat case_match; done).
    destruct (unlockTree_ok t3 Hlk) as (t' & -> & Hok & Htr'); [|done|].
    + rewrite Htr, avl_view_remove, avl_view_put, delete_insert_eq.
      intros ts' s' [_ Hs']%lookup_delete_Some. by eapply Hne.
    + exists t'. split_and!; [done|done|]. intros ts' key'. unfold due. rewrite Htr', Htr.
      by rewrite due_remove_empty.
  - destruct (unlockTree_ok t1 eq_refl) as (t' & -> & Hok & Htr).
    + unfold t1. simpl. intros ts' s'. rewrite avl_view_put.
      intros [[<- <-]|[_ Hs']]%lookup_insert_Some; [|by eapply Hne].
      intros He. apply hs_empty_view in He. by rewrite He in Em.
    + intros ts' s' Hp. destruct (first_put_same _ _ _ _ _ _ E Hp) as [s'' Hs'']. by apply (Htm ts' s'').
    + exists t'. split_and!; [done|done|]. intros ts' key'. unfold due. by rewrite Htr.
Qed.

(** [reset] empties the table and stops the timer. *)
Lemma ttlReset_ok t :
  ttl_ok t -> exists t', ttlReset t = Ret t' /\ ttl_ok t' /\
    tm_fire (ttl_timer t') = None /\ (forall ts key, ~ due t' ts key).
Proof.
  intros [Hl Hne Htm]. unfold ttlReset, lockTree, mutexLock. rewrite Hl. cbn [obind].
  eexists. split; [reflexivity|].
  assert (avl_view (avl_new : TT) = ∅) as Hv by apply avl_view_new.
  split; [|split].
  - split; simpl; [done| |].
    + intros ts s. rewrite Hv, lookup_empty. discriminate.
    + intros ts s Hp. unfold ttlPeek in Hp. simpl in Hp.
      apply avl_first_Some in Hp as [Hp _]. rewrite Hv, lookup_empty in Hp. discriminate.
  - simpl. unfold stopAndDrain. simpl. by case_match.
  - intros ts key (s & Hs & _). simpl in Hs. rewrite Hv, lookup_empty in Hs. discriminate.
Qed.

(** ** Runs of the table *)

(** Runs from a new table, with the pairs scheduled by the contract.  Between two
    operations the timer may fire. *)
Inductive ttl_run : ttlManager TT -> (Z -> gostring -> Prop) -> Prop :=
| trun_new now : ttl_run (newTtlManager now) (fun _ _ => False)
| trun_put t t' D ts key now :
    ttl_run t D -> 0 <= now -> timer_range ts (unix now) -> ttlPut t ts key now = Ret t' ->
    ttl_run t' (fun ts' key' => (ts' = ts /\ key' = key) \/ D ts' key')
| trun_remove t t' D ts key now :
    ttl_run t D -> 0 <= now -> in_range t now -> ttlRemove t ts key now = Ret t' ->
    ttl_run t' (fun ts' key' => D ts' key' /\ ~ (ts' = ts /\ key' = key))
| trun_reset t t' D :
    ttl_run t D -> ttlReset t = Ret t' -> ttl_run t' (fun _ _ => False)
| trun_fire t D :
    ttl_run t D -> ttl_run (setTimer t (timerFire (ttl_timer t))) D.

Lemma ttl_run_ok t D : ttl_run t D -> ttl_ok t /\ forall ts key, due t ts key <-> D ts key.
Proof.
  induction 1 as [now|t t' D ts key now _ [Hok Hd] Hn Hr Hp|t t' D ts key now _ [Hok Hd] Hn Hr Hp
                 |t t' D _ [Hok Hd] Hp|t D _ [Hok Hd]].
  - destruct (newTtlManager_ok now) as [H1 H2]. split; [done|].
    intros ts key. split; [apply H2|done].
  - destruct (ttlPut_ok t ts now key Hok Hn Hr) as (t1 & Hp1 & Hok1 & Hd1).
    rewrite Hp in Hp1. injection Hp1 as <-. split; [done|]. intros ts' key'. by rewrite Hd1, Hd.
  - destruct (ttlRemove_ok t ts now key Hok Hn Hr) as (t1 & Hp1 & Hok1 & Hd1).
    rewrite Hp in Hp1. injection Hp1 as <-. split; [done|]. intros ts' key'. by rewrite Hd1, Hd.
  - destruct (ttlReset_ok t Hok) as (t1 & Hp1 & Hok1 & _ & Hd1).
    rewrite Hp in Hp1. injection Hp1 as <-. split; [done|]. intros ts' key'. split; [apply Hd1|done].
  - split; [|done]. destruct Hok as [Hl Hne Htm]. split; [done|done|]. intros ts set _. by left.
Qed.

(** C19. The eviction timer is never lost.  In every run of [put], [remove], [reset]
    and timer fires, the table holds exactly the pairs scheduled and not removed,
    its lock is free between operations, and, as long as something is scheduled,
    either a tick is waiting for the eviction goroutine or the timer is set to
    fire within the second of the smallest timestamp. *)
Theorem ttl_timer_invariant t D :
  ttl_run t D ->
  (forall ts key, due t ts key <-> D ts key) /\ ttl_treeLock t = false /\
  forall ts set, ttlPeek t = Some (ts, set) ->
    (exists key, D ts key) /\ (forall ts' key, D ts' key -> ts <= ts') /\
    (tm_chan (ttl_timer t) = true \/
     exists f, tm_fire (ttl_timer t) = Some f /\ f / Second = ts).
Proof.
  intros Hr. destruct (ttl_run_ok t D Hr) as [[Hl Hne Htm] Hd]. split_and!; [done|done|].
  intros ts set Hp. destruct (avl_first_Some _ _ _ Hp) as [Hts Hmin]. split_and!.
  - destruct (set_choose_L (hs_view set)) as [key Hkey]; [by eapply Hne|].
    exists key. apply Hd. by exists set.
  - intros ts' key (v & Hv & _)%Hd. apply Hmin. eauto.
  - by apply (Htm ts set).
Qed.

(** [put] and [remove] always return, with the lock released, on every branch:
    a new or a known timestamp, the head of the tree or not, the last key of a
    timestamp or not. *)
Theorem ttl_operations_return t D (ts now : Z) (key : gostring) :
  ttl_run t D -> 0 <= now -> timer_range ts (unix now) -> in_range t now ->
  (exists t', ttlPut t ts key now = Ret t' /\ ttl_treeLock t' = false) /\
  (exists t', ttlRemove t ts key now = Ret t' /\ ttl_treeLock t' = false).
Proof.
  intros Hr Hn Htr Hir. destruct (ttl_run_ok t D Hr) as [Hok _]. split.
  - destruct (ttlPut_ok t ts now key Hok Hn Htr) as (t' & Hp & [Hl _ _] & _). eauto.
  - destruct (ttlRemove_ok t ts now key Hok Hn Hir) as (t' & Hp & [Hl _ _] & _). eauto.
Qed.
End TtlProofs.

(** ** Witnesses *)

Section TtlExamples.
Abbreviation ttl := (ttlManager (gmap Z (gset gostring))).

(** A key due at second 105, scheduled at second 100. *)
Definition ttl0 : ttl := newTtlManager (100 * Second).

Definition ttlK : ttl := match ttlPut ttl0 105 ["k"]%byte (100 * Second) with Ret t => t | _ => ttl0 end.

Definition dueK : Z -> gostring -> Prop := fun ts key => (ts = 105 /\ key = ["k"]%byte) \/ False.

Lemma ttlK_run : ttl_run ttlK dueK.
Proof.
  assert (0 <= 100 * Second /\ timer_range 105 (unix (100 * Second))) as [Hn Hr] by (by vm_compute).
  destruct (ttlPut_ok ttl0 105 (100 * Second) ["k"]%byte) as (t & Hp & _); [apply newTtlManager_ok|done..|].
  unfold ttlK. rewrite Hp. apply (trun_put ttl0 t (fun _ _ => False) _ _ (100 * Second)); [constructor|done..].
Qed.

Lemma ttl_timer_invariant_witness :
  (forall ts key, due ttlK ts key <-> dueK ts key) /\ ttl_treeLock ttlK = false /\
  forall ts set, ttlPeek ttlK = Some (ts, set) ->
    (exists key, dueK ts key) /\ (forall ts' key, dueK ts' key -> ts <= ts') /\
    (tm_chan (ttl_timer ttlK) = true \/
     exists f, tm_fire (ttl_timer ttlK) = Some f /\ f / Second = ts).
Proof. apply (ttl_timer_invariant ttlK dueK). exact ttlK_run. Defined.

Lemma ttl_operations_return_witness :
  (exists t', ttlPut ttlK 103 ["j"]%byte (101 * Second) = Ret t' /\ ttl_treeLock t' = false) /\
  (exists t', ttlRemove ttlK 103 ["j"]%byte (101 * Second) = Ret t' /\ ttl_treeLock t' = false).
Proof.
  apply (ttl_operations_return ttlK dueK 103 (101 * Second) ["j"]%byte);
    [exact ttlK_run|by vm_compute|by vm_compute|].
  intros ts [v Hv]. change (avl_view (ttl_timeTree ttlK)) with ({[105 := {[["k"]%byte]}]} : gmap Z (gset gostring)) in Hv.
  apply lookup_singleton_Some in Hv as [<- _]. by vm_compute.
Defined.
End TtlExamples.
