(* ===== verification/Shard.v ===== *)
(** * A cache shard ([bigcache/shard.go], and the eviction goroutine of
    [bigcache/ttl.go])

    A shard maps 64 bit hashes to indices of entries in its byte queue, keeps
    the expiry table and counts hits and misses.  Entries are read and cleared
    through slices that alias the queue's array.  Each operation is the body of
    the Go method, lock operations included; [epoch] is the reading of the shard's
    clock and [now] the reading of [time.Now()] an operation takes.

    [shard_rep] relates a shard to the finite map from hashes to (expiry, key,
    value) it implements.  The operations refine the operations on that map. *)

From stdpp Require Import base decidable countable list gmap.
From Stdlib Require Import ZArith Lia Strings.Byte.
From S2P Require Import Prelude.
From S2P Require Import GoLib.
From S2P Require Import FreeList.
From S2P Require Import BytesQueue.
From S2P Require Import Encoding.
From S2P Require Import Hash.
From S2P Require Import Config.
From S2P Require Import GoTime.
From S2P Require Import Ttl.

Definition NO_EXPIRY : Z := 0.

(** [Stats]: [int64] counters. *)
Record Stats : Type := MkStats {
  st_Hits : Z;
  st_Misses : Z;
  st_DelHits : Z;
  st_DelMisses : Z;
  st_Collisions : Z;
  st_EvictCount : Z
}.

Definition noStats : Stats := MkStats 0 0 0 0 0 0.

(** The errors a shard returns: [EntryNotFoundError] and the queue's errors. *)
Inductive cacheError : Type :=
| EntryNotFound (key : gostring)
| QueueError (e : queueError).

(** [notFound] *)
Definition notFound (key : gostring) : cacheError := EntryNotFound key.

(** The logger and the clock are not part of the state.  [sh_onRemove] says
    whether the configuration has a callback, [sh_removed] lists the calls made
    to it. *)
Record cacheShard (T TT : Type) : Type := MkShard {
  sh_sharedNum : Z;
  sh_hashmap : gmap Z Z;
  sh_entries : BytesQueue T;
  sh_lock : rwmutex;
  sh_entryBuffer : list byte;
  sh_onRemove : bool;
  sh_removed : list (gostring * list byte);
  sh_isVerbose : bool;
  sh_lifeWindow : Z;
  sh_stats : Stats;
  sh_ttlTable : ttlManager TT
}.

Arguments MkShard {T TT} _ _ _ _ _ _ _ _ _ _ _.
Arguments sh_sharedNum {T TT} _.
Arguments sh_hashmap {T TT} _.
Arguments sh_entries {T TT} _.
Arguments sh_lock {T TT} _.
Arguments sh_entryBuffer {T TT} _.
Arguments sh_onRemove {T TT} _.
Arguments sh_removed {T TT} _.
Arguments sh_isVerbose {T TT} _.
Arguments sh_lifeWindow {T TT} _.
Arguments sh_stats {T TT} _.
Arguments sh_ttlTable {T TT} _.

Section ShardOps.
Context {T HS TT : Type} `{!AvlTree loc T} `{!HashSet HS} `{!AvlTree HS TT}.
Context {hasher : Hasher} {platform : Platform}.
Implicit Types s : cacheShard T TT.

(** ** Field updates *)

Definition set_hashmap s (m : gmap Z Z) : cacheShard T TT :=
  MkShard (sh_sharedNum s) m (sh_entries s) (sh_lock s) (sh_entryBuffer s) (sh_onRemove s)
    (sh_removed s) (sh_isVerbose s) (sh_lifeWindow s) (sh_stats s) (sh_ttlTable s).

Definition set_entries s (q : BytesQueue T) : cacheShard T TT :=
  MkShard (sh_sharedNum s) (sh_hashmap s) q (sh_lock s) (sh_entryBuffer s) (sh_onRemove s)
    (sh_removed s) (sh_isVerbose s) (sh_lifeWindow s) (sh_stats s) (sh_ttlTable s).

Definition set_lock s (l : rwmutex) : cacheShard T TT :=
  MkShard (sh_sharedNum s) (sh_hashmap s) (sh_entries s) l (sh_entryBuffer s) (sh_onRemove s)
    (sh_removed s) (sh_isVerbose s) (sh_lifeWindow s) (sh_stats s) (sh_ttlTable s).

Definition set_entryBuffer s (b : list byte) : cacheShard T TT :=
  MkShard (sh_sharedNum s) (sh_hashmap s) (sh_entries s) (sh_lock s) b (sh_onRemove s)
    (sh_removed s) (sh_isVerbose s) (sh_lifeWindow s) (sh_stats s) (sh_ttlTable s).

Definition set_removed s (r : list (gostring * list byte)) : cacheShard T TT :=
  MkShard (sh_sharedNum s) (sh_hashmap s) (sh_entries s) (sh_lock s) (sh_entryBuffer s) (sh_onRemove s)
    r (sh_isVerbose s) (sh_lifeWindow s) (sh_stats s) (sh_ttlTable s).

Definition set_stats s (st : Stats) : cacheShard T TT :=
  MkShard (sh_sharedNum s) (sh_hashmap s) (sh_entries s) (sh_lock s) (sh_entryBuffer s) (sh_onRemove s)
    (sh_removed s) (sh_isVerbose s) (sh_lifeWindow s) st (sh_ttlTable s).

Definition set_ttlTable s (t : ttlManager TT) : cacheShard T TT :=
  MkShard (sh_sharedNum s) (sh_hashmap s) (sh_entries s) (sh_lock s) (sh_entryBuffer s) (sh_onRemove s)
    (sh_removed s) (sh_isVerbose s) (sh_lifeWindow s) (sh_stats s) t.

(** ** Counters *)

Definition hit s : cacheShard T TT :=
  let st := sh_stats s in
  set_stats s (MkStats (i64 (st_Hits st + 1)) (st_Misses st) (st_DelHits st) (st_DelMisses st)
    (st_Collisions st) (st_EvictCount st)).

Definition miss s : cacheShard T TT :=
  let st := sh_stats s in
  set_stats s (MkStats (st_Hits st) (i64 (st_Misses st + 1)) (st_DelHits st) (st_DelMisses st)
    (st_Collisions st) (st_EvictCount st)).

Definition delhit s : cacheShard T TT :=
  let st := sh_stats s in
  set_stats s (MkStats (st_Hits st) (st_Misses st) (i64 (st_DelHits st + 1)) (st_DelMisses st)
    (st_Collisions st) (st_EvictCount st)).

Definition delmiss s : cacheShard T TT :=
  let st := sh_stats s in
  set_stats s (MkStats (st_Hits st) (st_Misses st) (st_DelHits st) (i64 (st_DelMisses st + 1))
    (st_Collisions st) (st_EvictCount st)).

Definition collision s : cacheShard T TT :=
  let st := sh_stats s in
  set_stats s (MkStats (st_Hits st) (st_Misses st) (st_DelHits st) (st_DelMisses st)
    (i64 (st_Collisions st + 1)) (st_EvictCount st)).

(** [s.stats.EvictCount++] *)
Definition countEvict s : cacheShard T TT :=
  let st := sh_stats s in
  set_stats s (MkStats (st_Hits st) (st_Misses st) (st_DelHits st) (st_DelMisses st)
    (st_Collisions st) (i64 (st_EvictCount st + 1))).

(** ** Locks *)

Definition lockShard s : outcome (cacheShard T TT) :=
  let! l := rwLock (sh_lock s) in Ret (set_lock s l).

Definition unlockShard s : outcome (cacheShard T TT) :=
  let! l := rwUnlock (sh_lock s) in Ret (set_lock s l).

Definition rlockShard s : outcome (cacheShard T TT) :=
  let! l := rwRLock (sh_lock s) in Ret (set_lock s l).

Definition runlockShard s : outcome (cacheShard T TT) :=
  let! l := rwRUnlock (sh_lock s) in Ret (set_lock s l).

(** ** Operations *)

(** [s.hashmap[h]]: zero when absent. *)
Definition lookupIndex s (h : Z) : Z := default 0 (sh_hashmap s !! h).

Definition shardGet s (key : gostring) (hashedKey : Z)
  : outcome (cacheShard T TT * (list byte + cacheError)) :=
  let! s := rlockShard s in
  let itemIndex := lookupIndex s hashedKey in
  if itemIndex =? 0 then
    let! s := runlockShard s in
    Ret (miss s, inr (notFound key))
  else
    let! r := queueGet (sh_entries s) itemIndex in
    match r with
    | inr err =>
        let! s := runlockShard s in
        Ret (miss s, inr (QueueError err))
    | inl wrappedEntry =>
        let! entryKey := readKeyFromEntry (bq_array (sh_entries s)) wrappedEntry in
        if negb (bool_decide (key = entryKey)) then
          let! s := runlockShard s in
          Ret (collision s, inr (notFound key))
        else
          let! s := runlockShard s in
          let s := hit s in
          let! v := readEntry (bq_array (sh_entries s)) wrappedEntry in
          Ret (s, inl v)
    end.

(** [s.delete(index)]: the queue's error is dropped. *)
Definition shardDelete s (index : Z) : outcome (cacheShard T TT) :=
  let! r := queueDelete (sh_entries s) index in
  Ret (set_entries s (fst r)).

(** [resetKeyFromEntry] through a slice of the queue's array. *)
Definition clearHash s (w : slice) : outcome (cacheShard T TT) :=
  let! arr := resetKeyFromEntry (bq_array (sh_entries s)) w in
  Ret (set_entries s (set_array (sh_entries s) arr)).

(** [s.onRemove(wrappedEntry)]: [providedOnRemove] or [notProvidedOnRemove]. *)
Definition onRemove s (w : slice) : outcome (cacheShard T TT) :=
  if sh_onRemove s then
    let! k := readKeyFromEntry (bq_array (sh_entries s)) w in
    let! v := readEntry (bq_array (sh_entries s)) w in
    Ret (set_removed s (sh_removed s ++ [(k, v)]))
  else Ret s.

(** The expiry of an entry stored at [epoch] for [duration]. *)
Definition expiryOf (epoch duration : Z) : Z :=
  if negb (duration =? NO_EXPIRY)
  then u64 (u64 epoch + durationSeconds duration)
  else NO_EXPIRY.

(** The first half of [set]: the entry that has the hash now is unscheduled,
    cleared and deleted. *)
Definition dropPrevious s (key : gostring) (hashedKey now : Z) : outcome (cacheShard T TT) :=
  let previousIndex := lookupIndex s hashedKey in
  if negb (previousIndex =? 0) then
    let! r := queueGet (sh_entries s) previousIndex in
    match r with
    | inl previousEntry =>
        let! timestamp := readTimestampFromEntry (bq_array (sh_entries s)) previousEntry in
        let! t := ttlRemove (sh_ttlTable s) timestamp key now in
        let s := set_ttlTable s t in
        let! s := clearHash s previousEntry in
        shardDelete s previousIndex
    | inr _ => Ret s
    end
  else Ret s.

(** The result is Go's pair: the expiry and the error.  The error variable of
    the [if] statement shadows the one that is returned: when [Push] fails the
    method returns no error, and does not release the lock. *)
Definition shardSet s (key : gostring) (hashedKey : Z) (entry : list byte) (duration epoch now : Z)
  : outcome (cacheShard T TT * (Z * option cacheError)) :=
  let expiryTimestamp := expiryOf epoch duration in
  let! s := lockShard s in
  let! s := dropPrevious s key hashedKey now in
  let! wb := wrapEntry expiryTimestamp hashedKey key entry (sh_entryBuffer s) in
  let s := set_entryBuffer s (snd wb) in
  let! r := Push (sh_entries s) (fst wb) in
  let s := set_entries s (fst r) in
  match snd r with
  | inl index =>
      let s := set_hashmap s (<[hashedKey := u32 index]> (sh_hashmap s)) in
      let! s := unlockShard s in
      if negb (duration =? NO_EXPIRY) then
        let! t := ttlPut (sh_ttlTable s) expiryTimestamp key now in
        Ret (set_ttlTable s t, (expiryTimestamp, None))
      else Ret (s, (expiryTimestamp, None))
  | inr _ => Ret (s, (0, None))
  end.

(** The body of the loop of [evictDel]. *)
Definition evictKey s (timeStamp : Z) (key : gostring) : outcome (cacheShard T TT) :=
  let s := countEvict s in
  let keyHash := Sum64 key in
  let itemIndex := lookupIndex s keyHash in
  if itemIndex =? 0 then Ret (delmiss s)
  else
    let! r := queueGet (sh_entries s) itemIndex in
    match r with
    | inr _ => Ret (delmiss s)
    | inl wrappedEntry =>
        let! storedTimestamp := readTimestampFromEntry (bq_array (sh_entries s)) wrappedEntry in
        if storedTimestamp =? timeStamp then
          let s := set_hashmap s (delete keyHash (sh_hashmap s)) in
          let! s := onRemove s wrappedEntry in
          let! s := clearHash s wrappedEntry in
          let! s := shardDelete s itemIndex in
          Ret (delhit s)
        else Ret s
    end.

Fixpoint evictKeys s (timeStamp : Z) (keys : list gostring) : outcome (cacheShard T TT) :=
  match keys with
  | [] => Ret s
  | key :: keys' => let! s := evictKey s timeStamp key in evictKeys s timeStamp keys'
  end.

Definition evictDel s (timeStamp : Z) (set : HS) : outcome (cacheShard T TT) :=
  let! s := lockShard s in
  let! s := evictKeys s timeStamp (hs_values set) in
  unlockShard s.

Definition shardDel s (key : gostring) (hashedKey now : Z)
  : outcome (cacheShard T TT * option cacheError) :=
  let! s := lockShard s in
  let itemIndex := lookupIndex s hashedKey in
  if itemIndex =? 0 then
    let! s := unlockShard s in
    Ret (delmiss s, Some (notFound key))
  else
    let! r := queueGet (sh_entries s) itemIndex in
    match r with
    | inr err =>
        let! s := unlockShard s in
        Ret (delmiss s, Some (QueueError err))
    | inl wrappedEntry =>
        let s := set_hashmap s (delete hashedKey (sh_hashmap s)) in
        let! s := onRemove s wrappedEntry in
        let! s := clearHash s wrappedEntry in
        let! s := shardDelete s itemIndex in
        let! s := unlockShard s in
        let! timestamp := readTimestampFromEntry (bq_array (sh_entries s)) wrappedEntry in
        let! t := ttlRemove (sh_ttlTable s) timestamp key now in
        Ret (delhit (set_ttlTable s t), None)
    end.

(** [onEvict]: whether the entry is older than the life window, after calling
    [evict] on it in that case. *)
Definition shardOnEvict s (oldestEntry : slice) (currentTimestamp : Z)
    (evict : cacheShard T TT -> outcome (cacheShard T TT)) : outcome (cacheShard T TT * bool) :=
  let! oldestTimestamp := readTimestampFromEntry (bq_array (sh_entries s)) oldestEntry in
  if u64 (currentTimestamp - oldestTimestamp) >? sh_lifeWindow s then
    let! s := evict s in Ret (s, true)
  else Ret (s, false).

Definition getOldestEntry s : outcome (slice + queueError) := Peek (sh_entries s).

Definition getEntry s (index : Z) : outcome (slice + queueError) := queueGet (sh_entries s) index.

(** [copyKeys]; the order of the map's range loop is the order of its list. *)
Definition copyKeys s : outcome (cacheShard T TT * (list Z * Z)) :=
  let! s := rlockShard s in
  let keys := (map_to_list (sh_hashmap s)).*2 in
  let! s := runlockShard s in
  Ret (s, (keys, zlen keys)).

Definition removeOldestEntry s : outcome (cacheShard T TT * option queueError) :=
  let! r := Pop (sh_entries s) in
  let s := set_entries s (fst r) in
  match snd r with
  | inl oldest =>
      let! hash := readHashFromEntry (bq_array (sh_entries s)) oldest in
      let s := set_hashmap s (delete hash (sh_hashmap s)) in
      let! s := onRemove s oldest in
      Ret (s, None)
  | inr e => Ret (s, Some e)
  end.

Definition shardReset s (config : Config) : outcome (cacheShard T TT) :=
  let! s := lockShard s in
  let! _ := initialShardSize config in
  let s := set_hashmap s ∅ in
  let n := i64 (cfg_MaxEntrySize config + headersSizeInBytes) in
  if n <? 0 then Panic
  else
    let s := set_entryBuffer s (zeros n) in
    let s := set_entries s (queueReset (sh_entries s)) in
    let! t := ttlReset (sh_ttlTable s) in
    unlockShard (set_ttlTable s t).

Definition shardLen s : outcome (cacheShard T TT * Z) :=
  let! s := rlockShard s in
  let res := Z.of_nat (size (sh_hashmap s)) in
  let! s := runlockShard s in
  Ret (s, res).

Definition getStats s : Stats := sh_stats s.

Definition initNewShard (config : Config) (callback : bool) (now num : Z) : outcome (cacheShard T TT) :=
  let! size := initialShardSize config in
  let! maxSize := maximumShardSize config in
  let! q := NewBytesQueue (i64 (size * cfg_MaxEntrySize config)) maxSize (cfg_Verbose config) in
  let n := i64 (cfg_MaxEntrySize config + headersSizeInBytes) in
  if n <? 0 then Panic
  else
    Ret (MkShard num ∅ q RWFree (zeros n) callback [] (cfg_Verbose config)
           (durationSeconds (cfg_LifeWindow config)) noStats (newTtlManager now)).

(** ** The eviction goroutine *)

(** [ttl.evict] *)
Definition evict s (timeStamp : Z) (value : HS) : outcome (cacheShard T TT) :=
  evictDel s timeStamp value.

(** Runs an operation of the expiry table on the shard's table. *)
Definition onTable s (f : ttlManager TT -> outcome (ttlManager TT)) : outcome (cacheShard T TT) :=
  let! t := f (sh_ttlTable s) in Ret (set_ttlTable s t).

(** The inner loop of [eviction]: it is entered with the tree unlocked and left
    with the tree locked.  [clk] gives the clock readings, two per round: for the
    comparison and for the timer; each round takes a timestamp out of the tree, so the size of
    the tree bounds the number of rounds. *)
Fixpoint evictionLoop s (clk : nat -> Z) (fuel : nat) : outcome (cacheShard T TT) :=
  let! s := onTable s lockTree in
  if avl_size (ttl_timeTree (sh_ttlTable s)) <? 1 then Ret s
  else
    match ttlPeek (sh_ttlTable s) with
    | None => Panic
    | Some (nextExpiryTime, value) =>
        let interval := u64 (nextExpiryTime - u64 (unix (clk (2 * fuel + 1)%nat))) in
        if 0 =? interval then
          let t := sh_ttlTable s in
          let s := set_ttlTable s (setTree t (avl_remove (ttl_timeTree t) nextExpiryTime)) in
          let! s := onTable s unlockTree in
          let! s := evict s nextExpiryTime value in
          match fuel with
          | O => Stuck
          | S fuel' => evictionLoop s clk fuel'
          end
        else
          Ret (set_ttlTable s (resetTimer (sh_ttlTable s) nextExpiryTime (clk (2 * fuel)%nat)))
    end.

(** One round of [for range ttl.timer.C], from the receipt of the tick. *)
Definition eviction s (clk : nat -> Z) : outcome (cacheShard T TT) :=
  let t := sh_ttlTable s in
  let s := set_ttlTable s (setTimer t (timerRecv (ttl_timer t))) in
  let! s := onTable s lockTree in
  if avl_size (ttl_timeTree (sh_ttlTable s)) <? 1 then onTable s unlockTree
  else
    match ttlPeek (sh_ttlTable s) with
    | None => Panic
    | Some (key, value) =>
        let t := sh_ttlTable s in
        let s := set_ttlTable s (setTree t (avl_remove (ttl_timeTree t) key)) in
        let! s := onTable s unlockTree in
        let! s := evict s key value in
        let fuel := Z.to_nat (avl_size (ttl_timeTree (sh_ttlTable s))) in
        let! s := evictionLoop s clk fuel in
        onTable s unlockTree
    end.

End ShardOps.

(** ** The map a shard implements *)

(** What the cache knows under a hash. *)
Record item : Type := Item { it_ts : Z; it_key : gostring; it_val : list byte }.

(** The blob of an item. *)
Definition blob (h : Z) (e : item) : list byte := wrapped (it_ts e) h (it_key e) (it_val e).

Section ShardRep.
Context {T HS TT : Type} `{!AvlTree loc T} `{!HashSet HS} `{!AvlTree HS TT}.
Context {hasher : Hasher}.
Implicit Types s : cacheShard T TT.
Implicit Types m : gmap Z item.

(** The hash map points to the stored blobs, and to nothing else. *)
Record store_rep (hm : gmap Z Z) (q : BytesQueue T) m (live : entries) (B : blocks) : Prop := {
  sr_queue : bq_rep q live B;
  sr_index : forall h i, hm !! h = Some i -> exists e, m !! h = Some e /\ live !! i = Some (blob h e);
  sr_hash : forall h e, m !! h = Some e -> is_Some (hm !! h);
  sr_live : forall i d, live !! i = Some d -> exists h, hm !! h = Some i;
  sr_item : forall h e, m !! h = Some e ->
    h = Sum64 (it_key e) /\ key_ok (it_key e) /\ 0 <= it_ts e < 2 ^ 64
}.

(** Every item that expires is scheduled, and nothing is scheduled for the
    timestamp that stands for "never". *)
Definition scheduled (t : ttlManager TT) m : Prop :=
  (forall key, ~ due t NO_EXPIRY key) /\
  (forall h e, m !! h = Some e -> it_ts e <> NO_EXPIRY -> due t (it_ts e) (it_key e)).

Record shard_rep s m : Prop := {
  shr_store : exists live B, store_rep (sh_hashmap s) (sh_entries s) m live B;
  shr_lock : sh_lock s = RWFree;
  shr_ttl : ttl_ok (sh_ttlTable s);
  shr_sched : scheduled (sh_ttlTable s) m
}.

(** The clock reading [now] is one the timer of the shard can work with. *)
Definition clock_ok s (now : Z) : Prop := 0 <= now /\ in_range (sh_ttlTable s) now.

(** The queue stays below 4 GiB when a blob of [n] bytes is pushed, so that
    indices fit the [uint32] of the hash map. *)
Definition fits32 s (n : Z) : Prop :=
  let q := sh_entries s in
  bq_capacity q <= 2 ^ 32 /\
  grownCapacity (bq_capacity q) (bq_maxCapacity q) (n + headerEntrySize) <= 2 ^ 32.

End ShardRep.

Section ShardProofs.
Context {T HS TT : Type} `{!AvlTree loc T} `{!HashSet HS} `{!AvlTree HS TT}.
Context `{!AvlTreeLaws loc T} `{!HashSetLaws HS} `{!AvlTreeLaws HS TT}.
Context {hasher : Hasher} {platform : Platform}.
Implicit Types s : cacheShard T TT.
Implicit Types m : gmap Z item.

Lemma entrySlice_ok (q : BytesQueue T) (live : entries) (B : blocks) (i : Z) (d : list byte) :
  bq_rep q live B -> live !! i = Some d -> sl_ok (bq_array q) (entrySlice i d).
Proof.
  intros H Hi. destruct (bqr_entry _ _ _ H i d Hi) as (H1 & H2 & H3 & _).
  pose proof (bqr_tail _ _ _ H). pose proof (bqr_capacity _ _ _ H).
  unfold sl_ok, entrySlice, headerEntrySize, leftMarginIndex in *. simpl. lia.
Qed.

(** Two hashes never share an index. *)
Lemma index_inj (hm : gmap Z Z) (q : BytesQueue T) m (live : entries) (B : blocks) (h h' i : Z) :
  store_rep hm q m live B -> hm !! h = Some i -> hm !! h' = Some i -> h = h'.
Proof.
  intros H Hh Hh'. destruct (sr_index _ _ _ _ _ H _ _ Hh) as (e & He & Hi).
  destruct (sr_index _ _ _ _ _ H _ _ Hh') as (e' & He' & Hi').
  destruct (sr_item _ _ _ _ _ H _ _ He) as (E1 & _ & _).
  destruct (sr_item _ _ _ _ _ H _ _ He') as (E2 & _ & _).
  pose proof (entrySlice_ok _ _ _ _ _ (sr_queue _ _ _ _ _ H) Hi) as Hok.
  destruct (queueGet_rep _ _ _ _ _ (sr_queue _ _ _ _ _ H) Hi) as [_ Hb].
  assert (blob h e = blob h' e') as Heq by congruence. clear Hi'.
  pose proof (readHash_wrapped _ _ _ _ _ _ Hok Hb) as R1.
  rewrite Heq in R1, Hb, Hok. pose proof (readHash_wrapped _ _ _ _ _ _ Hok Hb) as R2.
  rewrite R1 in R2. injection R2 as R2. unfold u64 in R2.
  pose proof (Sum64_range (it_key e)). pose proof (Sum64_range (it_key e')).
  rewrite !Z.mod_small in R2; lia.
Qed.

(** What [lookupIndex] and [queueGet] find under a hash. *)
Lemma lookup_None s m (live : entries) (B : blocks) (h : Z) :
  store_rep (sh_hashmap s) (sh_entries s) m live B -> m !! h = None -> lookupIndex s h = 0.
Proof.
  intros H Hm. unfold lookupIndex. destruct (sh_hashmap s !! h) as [i|] eqn:E; [|done].
  destruct (sr_index _ _ _ _ _ H _ _ E) as (e & He & _). congruence.
Qed.

Lemma lookup_Some s m (live : entries) (B : blocks) (h : Z) (e : item) :
  store_rep (sh_hashmap s) (sh_entries s) m live B -> m !! h = Some e ->
  exists i, sh_hashmap s !! h = Some i /\ lookupIndex s h = i /\ (i =? 0) = false /\
    live !! i = Some (blob h e) /\
    queueGet (sh_entries s) i = Ret (inl (entrySlice i (blob h e))) /\
    sl_ok (bq_array (sh_entries s)) (entrySlice i (blob h e)) /\
    sl_bytes (bq_array (sh_entries s)) (entrySlice i (blob h e)) = blob h e.
Proof.
  intros H Hm. destruct (sr_hash _ _ _ _ _ H _ _ Hm) as [i Hi].
  destruct (sr_index _ _ _ _ _ H _ _ Hi) as (e' & He & Hl).
  rewrite Hm in He. injection He as <-.
  destruct (queueGet_rep _ _ _ _ _ (sr_queue _ _ _ _ _ H) Hl) as [Hg Hb].
  destruct (bqr_entry _ _ _ (sr_queue _ _ _ _ _ H) _ _ Hl) as (H1 & _).
  exists i. unfold lookupIndex. rewrite Hi. simpl. split_and!; try done.
  - apply Z.eqb_neq. unfold leftMarginIndex in H1. lia.
  - by apply (entrySlice_ok _ live B); [apply H|].
Qed.

(** Clearing an entry and giving its bytes back. *)
Lemma discard_ok s (live : entries) (B : blocks) (i h : Z) (e : item) :
  bq_rep (sh_entries s) live B -> live !! i = Some (blob h e) ->
  exists q' B',
    (let! s1 := clearHash s (entrySlice i (blob h e)) in shardDelete s1 i) =
      Ret (set_entries s q') /\
    bq_rep q' (delete i live) B' /\
    sl_ok (bq_array q') (entrySlice i (blob h e)) /\
    sl_bytes (bq_array q') (entrySlice i (blob h e)) = wrapped (it_ts e) 0 (it_key e) (it_val e) /\
    bq_capacity q' = bq_capacity (sh_entries s) /\ sameLimits (sh_entries s) q'.
Proof.
  intros H Hi. pose proof (entrySlice_ok _ _ _ _ _ H Hi) as Hok.
  destruct (queueGet_rep _ _ _ _ _ H Hi) as [_ Hb].
  unfold clearHash. rewrite (resetKey_wrapped _ _ _ _ _ _ Hok Hb). cbn [obind].
  assert (0 <= 8 /\ 8 + zlen (le_bytes 8 0) <= zlen (blob h e)) as [Ho Hl].
  { rewrite zlen_le_bytes. unfold blob.
    pose proof (zlen_nonneg (it_key e)). pose proof (zlen_nonneg (it_val e)). split; [lia|wrapped_lia]. }
  pose proof (rep_overwrite _ _ _ _ 8 _ (le_bytes 8 0) H Hi Ho Hl) as H1.
  cbn [sl_off entrySlice].
  set (q1 := set_array (sh_entries s) (blit (bq_array (sh_entries s)) (i + headerEntrySize + 8) (le_bytes 8 0))) in *.
  unfold blob in H1. rewrite wrapped_clear in H1.
  assert (<[i:=wrapped (it_ts e) 0 (it_key e) (it_val e)]> live !! i =
          Some (wrapped (it_ts e) 0 (it_key e) (it_val e))) as Hi1 by apply lookup_insert_eq.
  destruct (queueDelete_rep _ _ _ _ _ H1 Hi1) as (q2 & B2 & Hd & H2 & Ha & Hc & Hs).
  exists q2, B2. unfold shardDelete. simpl. rewrite Hd. cbn [obind fst].
  rewrite delete_insert_eq in H2.
  assert (entrySlice i (blob h e) = entrySlice i (wrapped (it_ts e) 0 (it_key e) (it_val e))) as ->.
  { unfold entrySlice, blob. by rewrite !zlen_wrapped. }
  rewrite Ha. split_and!; try done.
  - by apply (entrySlice_ok _ _ B _ _ H1).
  - by apply (queueGet_rep _ _ B _ _ H1).
Qed.

(** Forgetting a hash whose entry was discarded. *)
Lemma store_delete (hm : gmap Z Z) (q q' : BytesQueue T) m (live : entries) (B B' : blocks) (h i : Z) :
  store_rep hm q m live B -> hm !! h = Some i -> bq_rep q' (delete i live) B' ->
  store_rep (delete h hm) q' (delete h m) (delete i live) B'.
Proof.
  intros H Hh Hq. split; [done| | | |].
  - intros h' j [Hne Hj]%lookup_delete_Some.
    destruct (sr_index _ _ _ _ _ H _ _ Hj) as (e & He & Hl). exists e.
    rewrite lookup_delete_ne by done. split; [done|]. rewrite lookup_delete_ne; [done|].
    intros ->. apply Hne. by apply (index_inj hm q m live B h h' j).
  - intros h' e [Hne He]%lookup_delete_Some. rewrite lookup_delete_ne by done.
    by apply (sr_hash _ _ _ _ _ H h' e).
  - intros j d [Hne Hd]%lookup_delete_Some.
    destruct (sr_live _ _ _ _ _ H _ _ Hd) as [h' Hh']. exists h'.
    rewrite lookup_delete_ne; [done|]. intros <-. congruence.
  - intros h' e [_ He]%lookup_delete_Some. by apply (sr_item _ _ _ _ _ H).
Qed.

(** A hash that has no entry gets one. *)
Lemma store_insert (hm : gmap Z Z) (q q' : BytesQueue T) m (live : entries) (B B' : blocks) (i : Z) (e : item) :
  let h := Sum64 (it_key e) in
  store_rep hm q m live B -> m !! h = None -> live !! i = None ->
  bq_rep q' (<[i:=blob h e]> live) B' -> key_ok (it_key e) -> 0 <= it_ts e < 2 ^ 64 ->
  store_rep (<[h:=i]> hm) q' (<[h:=e]> m) (<[i:=blob h e]> live) B'.
Proof.
  intros h H Hm Hl Hq Hk Ht. split; [done| | | |].
  - intros h' j [[<- <-]|[Hne Hj]]%lookup_insert_Some.
    + exists e. by rewrite !lookup_insert_eq.
    + destruct (sr_index _ _ _ _ _ H _ _ Hj) as (e' & He' & Hl'). exists e'.
      rewrite !lookup_insert_ne by congruence. done.
  - intros h' e' [[<- <-]|[Hne He]]%lookup_insert_Some.
    + rewrite lookup_insert_eq. eauto.
    + rewrite lookup_insert_ne by done. by apply (sr_hash _ _ _ _ _ H h' e').
  - intros j d [[<- <-]|[Hne Hd]]%lookup_insert_Some.
    + exists h. by rewrite lookup_insert_eq.
    + destruct (sr_live _ _ _ _ _ H _ _ Hd) as [h' Hh']. exists h'.
      rewrite lookup_insert_ne; [done|]. intros <-.
      destruct (sr_index _ _ _ _ _ H _ _ Hh') as (e' & He' & _). congruence.
  - intros h' e' [[<- <-]|[_ He]]%lookup_insert_Some; [done|]. by apply (sr_item _ _ _ _ _ H).
Qed.

(** The counters are not part of what a shard implements. *)
Lemma shard_rep_stats s m (st : Stats) : shard_rep s m -> shard_rep (set_stats s st) m.
Proof. intros []. by split. Qed.

(** Releasing what was acquired gives the shard back. *)
Lemma set_lock_back s (l : rwmutex) : sh_lock s = RWFree -> set_lock (set_lock s l) RWFree = s.
Proof. destruct s. cbn. by intros ->. Qed.

(** ** [get] *)

(** What [get] answers, on the map. *)
Definition getAnswer m (key : gostring) (h : Z) : list byte + cacheError :=
  match m !! h with
  | Some e => if decide (key = it_key e) then inl (it_val e) else inr (notFound key)
  | None => inr (notFound key)
  end.

(** The counter [get] increments. *)
Definition getCount s m (key : gostring) (h : Z) : cacheShard T TT :=
  match m !! h with
  | Some e => if decide (key = it_key e) then hit s else collision s
  | None => miss s
  end.

Lemma shardGet_ok s m (key : gostring) (h : Z) :
  shard_rep s m -> shardGet s key h = Ret (getCount s m key h, getAnswer m key h).
Proof.
  intros H. destruct (shr_store _ _ H) as (live & B & Hst). pose proof (shr_lock _ _ H) as Hl.
  unfold shardGet, rlockShard, runlockShard, getCount, getAnswer. rewrite Hl.
  cbn [rwRLock obind].
  assert (set_lock (set_lock s (RWRead 1)) RWFree = s) as Hs by (by apply set_lock_back).
  change (lookupIndex (set_lock s (RWRead 1)) h) with (lookupIndex s h).
  destruct (m !! h) as [e|] eqn:Hm.
  - destruct (lookup_Some _ _ _ _ _ _ Hst Hm) as (i & _ & -> & -> & _ & Hget & Hok & Hb).
    destruct (sr_item _ _ _ _ _ Hst _ _ Hm) as (_ & Hk & _).
    change (sh_entries (set_lock s (RWRead 1))) with (sh_entries s). rewrite Hget. cbn [obind].
    rewrite (readKey_wrapped _ _ _ _ _ _ Hok Hb Hk). cbn [obind].
    change (sh_lock (set_lock s (RWRead 1))) with (RWRead 1).
    cbn [rwRUnlock obind]. rewrite decide_True by done. rewrite Hs.
    destruct (decide (key = it_key e)) as [->|Hne].
    + rewrite bool_decide_eq_true_2 by done. cbn [negb].
      change (sh_entries (hit s)) with (sh_entries s).
      by rewrite (readEntry_wrapped _ _ _ _ _ _ Hok Hb Hk).
    + by rewrite bool_decide_eq_false_2 by done.
  - rewrite (lookup_None _ _ _ _ _ Hst Hm). cbn [Z.eqb].
    change (sh_lock (set_lock s (RWRead 1))) with (RWRead 1).
    cbn [rwRUnlock obind]. by rewrite decide_True, Hs by done.
Qed.

Lemma getCount_rep s m (key : gostring) (h : Z) : shard_rep s m -> shard_rep (getCount s m key h) m.
Proof. intros H. unfold getCount. repeat case_match; by apply shard_rep_stats. Qed.

(** ** [set] *)

(** Removing the pair of one key keeps the other hashes scheduled. *)
Lemma scheduled_remove (t t' : ttlManager TT) m (ts : Z) (key : gostring) :
  (forall h e, m !! h = Some e -> h = Sum64 (it_key e)) ->
  scheduled t m ->
  (forall ts' key', due t' ts' key' <-> due t ts' key' /\ ~ (ts' = ts /\ key' = key)) ->
  scheduled t' (delete (Sum64 key) m).
Proof.
  intros Hh [H0 Hs] Hd. split; [intros key' [Hk _]%Hd; by apply (H0 key')|].
  intros h e [Hne He]%lookup_delete_Some Hts. apply Hd. split; [exact (Hs h e He Hts)|].
  intros [_ Hk]. apply Hne. rewrite <- Hk. symmetry. exact (Hh h e He).
Qed.

(** After [dropPrevious] the hash has no entry any more. *)
Lemma dropPrevious_ok s m (live : entries) (B : blocks) (key : gostring) (now : Z) :
  let h := Sum64 key in
  store_rep (sh_hashmap s) (sh_entries s) m live B ->
  ttl_ok (sh_ttlTable s) -> scheduled (sh_ttlTable s) m -> clock_ok s now ->
  exists q' t' live' B',
    dropPrevious s key h now = Ret (set_ttlTable (set_entries s q') t') /\
    store_rep (delete h (sh_hashmap s)) q' (delete h m) live' B' /\
    ttl_ok t' /\ scheduled t' (delete h m) /\
    bq_capacity q' = bq_capacity (sh_entries s) /\ sameLimits (sh_entries s) q'.
Proof.
  intros h Hst Ht Hsch [Hn Hr]. unfold dropPrevious.
  destruct (m !! h) as [e|] eqn:Hm.
  - destruct (lookup_Some _ _ _ _ _ _ Hst Hm) as (i & Hi & -> & -> & Hlive & Hget & Hok & Hb).
    cbn [negb]. rewrite Hget. cbn [obind].
    rewrite (readTimestamp_wrapped _ _ _ _ _ _ Hok Hb). cbn [obind].
    destruct (ttlRemove_ok (sh_ttlTable s) (u64 (it_ts e)) now key Ht Hn Hr) as (t' & -> & Ht' & Hdue).
    cbn [obind].
    destruct (discard_ok (set_ttlTable s t') live B i h e (sr_queue _ _ _ _ _ Hst) Hlive)
      as (q' & B' & -> & Hq' & _ & _ & Hc & Hs).
    exists q', t', (delete i live), B'. split_and!; try done.
    + by apply (store_delete _ (sh_entries s) _ _ _ B).
    + eapply scheduled_remove; [|exact Hsch|exact Hdue].
      intros h' e' He'. by apply (sr_item _ _ _ _ _ Hst).
  - rewrite (lookup_None _ _ _ _ _ Hst Hm). cbn [negb Z.eqb].
    exists (sh_entries s), (sh_ttlTable s), live, B.
    rewrite !delete_id; [|done|].
    + split_and!; try done. by destruct s.
    + destruct (sh_hashmap s !! h) as [i|] eqn:E; [|done].
      destruct (sr_index _ _ _ _ _ Hst _ _ E) as (e & He & _). congruence.
Qed.

Lemma expiryOf_range (epoch d : Z) : 0 <= expiryOf epoch d < 2 ^ 64.
Proof. unfold expiryOf. case_if; [apply u64_range|unfold NO_EXPIRY; lia]. Qed.

Lemma scheduled_insert (t t' : ttlManager TT) m (e : item) :
  scheduled t (delete (Sum64 (it_key e)) m) ->
  (forall key, ~ due t' NO_EXPIRY key) ->
  (forall ts key, due t ts key -> due t' ts key) ->
  (it_ts e <> NO_EXPIRY -> due t' (it_ts e) (it_key e)) ->
  scheduled t' (<[Sum64 (it_key e):=e]> m).
Proof.
  intros [_ Hs] H0 Hmono Hnew. split; [done|].
  intros h e' [[<- <-]|[Hne He]]%lookup_insert_Some Hts; [auto|].
  apply Hmono, (Hs h e'); [|done]. by rewrite lookup_delete_ne.
Qed.

(** The index of an entry fits 32 bits when the queue does. *)
Lemma index_u32 (q : BytesQueue T) (live : entries) (B : blocks) (i : Z) (d : list byte) :
  bq_rep q live B -> live !! i = Some d -> bq_capacity q <= 2 ^ 32 -> u32 i = i.
Proof.
  intros H Hi Hc. destruct (bqr_entry _ _ _ H i d Hi) as (H1 & H2 & H3 & _).
  pose proof (bqr_tail _ _ _ H). unfold u32, headerEntrySize, leftMarginIndex in *.
  apply Z.mod_small. lia.
Qed.

(** The end of [set], once the entry is pushed: the lock is released and the key
    scheduled if it expires. *)
Lemma finishSet_ok s m (e : item) (d now : Z) :
  let h := Sum64 (it_key e) in
  (exists live B, store_rep (sh_hashmap s) (sh_entries s) (<[h:=e]> m) live B) ->
  sh_lock s = RWWrite -> ttl_ok (sh_ttlTable s) -> scheduled (sh_ttlTable s) (delete h m) ->
  0 <= now -> timer_range (it_ts e) (unix now) -> (d = NO_EXPIRY <-> it_ts e = NO_EXPIRY) ->
  exists s',
    (let! s := unlockShard s in
     if negb (d =? NO_EXPIRY) then
       let! t := ttlPut (sh_ttlTable s) (it_ts e) (it_key e) now in
       Ret (set_ttlTable s t, (it_ts e, None : option cacheError))
     else Ret (s, (it_ts e, None))) = Ret (s', (it_ts e, None)) /\
    shard_rep s' (<[h:=e]> m).
Proof.
  intros h Hst Hl Ht Hsch Hn Htr Hd. unfold unlockShard. rewrite Hl. cbn [rwUnlock obind].
  destruct (d =? NO_EXPIRY) eqn:Ed; zbool; cbn [negb].
  - eexists. split; [reflexivity|]. split; [done|done|done|].
    apply (scheduled_insert (sh_ttlTable s) _ m e); [done|apply Hsch|done|]. tauto.
  - destruct (ttlPut_ok (sh_ttlTable s) (it_ts e) now (it_key e) Ht Hn Htr) as (t2 & Hput & Ht2 & Hdue).
    cbn [sh_ttlTable set_lock]. rewrite Hput. cbn [obind].
    eexists. split; [reflexivity|]. split; [done|done|done|].
    apply (scheduled_insert (sh_ttlTable s) t2 m e); [done| | |].
    + intros key' [[Hz _]|Hz]%Hdue; [by apply Ed, Hd|]. by apply (proj1 Hsch key').
    + intros ts' key' Hd'. apply Hdue. by right.
    + intros _. apply Hdue. by left.
Qed.

Lemma expiryOf_never (epoch d : Z) : d = NO_EXPIRY -> expiryOf epoch d = NO_EXPIRY.
Proof. intros ->. reflexivity. Qed.

(** [set] stores the item under the hash, whatever the hash had before; or the
    queue is full, and the method returns no error with the lock still held. *)
Lemma shardSet_ok s m (key : gostring) (entry : list byte) (d epoch now : Z) :
  let h := Sum64 key in
  let ts := expiryOf epoch d in
  shard_rep s m -> key_ok key -> clock_ok s now -> timer_range ts (unix now) ->
  (d <> NO_EXPIRY -> ts <> NO_EXPIRY) ->
  zlen (wrapped ts h key entry) < 2 ^ 32 -> fits32 s (zlen (wrapped ts h key entry)) ->
  (exists s', shardSet s key h entry d epoch now = Ret (s', (ts, None)) /\
     shard_rep s' (<[h:=Item ts key entry]> m)) \/
  (exists s', shardSet s key h entry d epoch now = Ret (s', (0, None)) /\
     sh_lock s' = RWWrite /\
     0 < bq_maxCapacity (sh_entries s) <=
       bq_capacity (sh_entries s) + headerEntrySize + zlen (wrapped ts h key entry)).
Proof.
  intros h ts H Hk Hck Htr Hts0 Hlen Hfit. destruct (shr_store _ _ H) as (live & B & Hst).
  unfold shardSet, lockShard. rewrite (shr_lock _ _ H). cbn [rwLock obind].
  set (s0 := set_lock s RWWrite).
  pose proof (dropPrevious_ok s0 m live B key now Hst (shr_ttl _ _ H) (shr_sched _ _ H) Hck) as Hdp.
  fold h in Hdp. destruct Hdp as (q1 & t1 & live1 & B1 & -> & Hst1 & Ht1 & Hsch1 & Hc1 & Hm1 & _).
  cbn [obind]. fold ts.
  destruct (wrapEntry_Ret ts h key entry (sh_entryBuffer (set_ttlTable (set_entries s0 q1) t1)))
    as (buf & -> & _).
  cbn [obind fst snd]. cbn [sh_entries set_entryBuffer set_ttlTable set_entries].
  pose proof (zlen_nonneg key). pose proof (zlen_nonneg entry).
  assert (0 < zlen (wrapped ts h key entry) < 2 ^ 32) as Hw by (split; [wrapped_lia|done]).
  destruct Hfit as [Hfit1 Hfit2]. change (sh_entries s0) with (sh_entries s) in *.
  destruct (Push_rep q1 live1 B1 (wrapped ts h key entry) (sr_queue _ _ _ _ _ Hst1) Hw)
    as [(q2 & i & B2 & -> & Hnew & Hq2 & _ & Hcap)|[-> Hfull]]; cbn [obind fst snd].
  - left. pose proof (store_insert _ _ q2 _ _ _ B2 i (Item ts key entry) Hst1) as Hst2.
    unfold blob in Hst2. cbn [it_key it_ts it_val] in Hst2. rewrite !insert_delete_eq in Hst2.
    assert (u32 i = i) as ->.
    { eapply (index_u32 q2); [exact Hq2|apply lookup_insert_eq|].
      destruct Hcap as [->|[-> _]]; rewrite Hc1; [done|]. by rewrite Hm1. }
    match goal with |- context [unlockShard ?x] => set (s2 := x) end.
    apply (finishSet_ok s2 m (Item ts key entry) d now); try done.
    + exists (<[i:=wrapped ts h key entry]> live1), B2.
      apply Hst2; [apply lookup_delete_eq|done|done|done|apply expiryOf_range].
    + apply Hck.
    + split; [apply expiryOf_never|]. intros Hz. destruct (decide (d = NO_EXPIRY)); [done|]. by destruct (Hts0 n).
  - right. eexists. split; [reflexivity|]. split; [done|]. rewrite Hc1, Hm1 in Hfull. lia.
Qed.

(** ** Removal: [del] and [evictDel] *)

(** The calls to the callback that removing an item adds. *)
Definition removedLog s (e : item) : list (gostring * list byte) :=
  if sh_onRemove s then sh_removed s ++ [(it_key e, it_val e)] else sh_removed s.

Lemma onRemove_ok s (w : slice) (h : Z) (e : item) :
  sl_ok (bq_array (sh_entries s)) w -> sl_bytes (bq_array (sh_entries s)) w = blob h e ->
  key_ok (it_key e) -> onRemove s w = Ret (set_removed s (removedLog s e)).
Proof.
  intros Hok Hb Hk. unfold onRemove, removedLog. destruct (sh_onRemove s) eqn:E.
  - rewrite (readKey_wrapped _ _ _ _ _ _ Hok Hb Hk), (readEntry_wrapped _ _ _ _ _ _ Hok Hb Hk). done.
  - by destruct s.
Qed.

(** The common part of [del] and [evictDel]: the entry of a hash is taken out of
    the map, reported, cleared and deleted; its bytes stay readable until they
    are reused. *)
Lemma removeEntry_ok s m (live : entries) (B : blocks) (h i : Z) (e : item) :
  store_rep (sh_hashmap s) (sh_entries s) m live B -> m !! h = Some e ->
  sh_hashmap s !! h = Some i ->
  exists q' live' B',
    (let! s1 := onRemove (set_hashmap s (delete h (sh_hashmap s))) (entrySlice i (blob h e)) in
     let! s2 := clearHash s1 (entrySlice i (blob h e)) in
     shardDelete s2 i) =
    Ret (set_entries (set_removed (set_hashmap s (delete h (sh_hashmap s))) (removedLog s e)) q') /\
    store_rep (delete h (sh_hashmap s)) q' (delete h m) live' B' /\
    readTimestampFromEntry (bq_array q') (entrySlice i (blob h e)) = Ret (it_ts e) /\
    bq_capacity q' = bq_capacity (sh_entries s) /\ sameLimits (sh_entries s) q'.
Proof.
  intros Hst Hm Hi. destruct (lookup_Some _ _ _ _ _ _ Hst Hm) as (i' & Hi' & _ & _ & Hl & _ & Hok & Hb).
  rewrite Hi in Hi'. injection Hi' as <-.
  destruct (sr_item _ _ _ _ _ Hst _ _ Hm) as (_ & Hk & Hts).
  rewrite (onRemove_ok _ _ h e) by done. cbn [obind].
  change (removedLog (set_hashmap s (delete h (sh_hashmap s))) e) with (removedLog s e).
  set (s1 := set_removed (set_hashmap s (delete h (sh_hashmap s))) (removedLog s e)).
  destruct (discard_ok s1 live B i h e (sr_queue _ _ _ _ _ Hst) Hl)
    as (q' & B' & -> & Hq' & Hok' & Hb' & Hc & Hs).
  exists q', (delete i live), B'. split_and!; try done; try apply Hs.
  - by apply (store_delete _ (sh_entries s) _ _ _ B).
  - rewrite (readTimestamp_wrapped _ _ _ _ _ _ Hok' Hb'). unfold u64. by rewrite Z.mod_small.
Qed.

(** [del] deletes the entry of the hash, whichever key it was stored under, and
    unschedules the key; or the hash has no entry and nothing changes. *)
Lemma shardDel_ok s m (key : gostring) (now : Z) :
  let h := Sum64 key in
  shard_rep s m -> clock_ok s now ->
  match m !! h with
  | Some e =>
      exists s', shardDel s key h now = Ret (s', None) /\ shard_rep s' (delete h m) /\
        sh_removed s' = removedLog s e
  | None => shardDel s key h now = Ret (delmiss s, Some (notFound key)) /\ shard_rep (delmiss s) m
  end.
Proof.
  intros h H [Hn Hr]. destruct (shr_store _ _ H) as (live & B & Hst).
  unfold shardDel, lockShard. rewrite (shr_lock _ _ H). cbn [rwLock obind].
  set (s0 := set_lock s RWWrite).
  destruct (m !! h) as [e|] eqn:Hm.
  - destruct (lookup_Some s0 _ _ _ _ _ Hst Hm) as (i & Hi & -> & -> & Hl & -> & _). cbn [obind].
    pose proof (removeEntry_ok s0 m live B h i e Hst Hm Hi) as (q' & live' & B' & Hrun & Hst' & Hts & _).
    destruct (onRemove (set_hashmap s0 (delete h (sh_hashmap s0))) (entrySlice i (blob h e))) as [s1| |];
      try discriminate Hrun. cbn [obind] in *.
    destruct (clearHash s1 (entrySlice i (blob h e))) as [s2| |]; try discriminate Hrun.
    cbn [obind] in *. rewrite Hrun. cbn [obind].
    unfold unlockShard. cbn [sh_lock set_entries set_removed set_hashmap s0 set_lock rwUnlock obind sh_entries].
    rewrite Hts. unfold s0. cbn [obind sh_ttlTable set_lock set_entries set_removed set_hashmap].
    destruct (ttlRemove_ok (sh_ttlTable s) (it_ts e) now key (shr_ttl _ _ H) Hn Hr) as (t' & -> & Ht' & Hdue).
    cbn [obind]. eexists. split; [reflexivity|]. split; [|done].
    split; cbn; [by exists live', B'|done|done|].
    eapply scheduled_remove; [|exact (shr_sched _ _ H)|exact Hdue].
    intros h' e' He'. by apply (sr_item _ _ _ _ _ Hst).
  - rewrite (lookup_None s0 _ _ _ _ Hst Hm). cbn [Z.eqb].
    unfold unlockShard. cbn [sh_lock s0 set_lock rwUnlock obind].
    unfold s0. rewrite (set_lock_back s RWWrite (shr_lock _ _ H)).
    split; [done|]. by apply shard_rep_stats.
Qed.

(** The map after the keys of an expired set were evicted. *)
Definition evictOne (ts : Z) m (key : gostring) : gmap Z item :=
  match m !! Sum64 key with
  | Some e => if it_ts e =? ts then delete (Sum64 key) m else m
  | None => m
  end.

Definition evictAll (ts : Z) m (keys : list gostring) : gmap Z item := foldl (evictOne ts) m keys.

Lemma evictKey_ok s m (live : entries) (B : blocks) (ts : Z) (key : gostring) :
  store_rep (sh_hashmap s) (sh_entries s) m live B ->
  exists s' live' B', evictKey s ts key = Ret s' /\
    store_rep (sh_hashmap s') (sh_entries s') (evictOne ts m key) live' B' /\
    sh_lock s' = sh_lock s /\ sh_ttlTable s' = sh_ttlTable s.
Proof.
  intros Hst. unfold evictKey, evictOne. set (s0 := countEvict s). set (h := Sum64 key).
  destruct (m !! h) as [e|] eqn:Hm.
  - destruct (lookup_Some s0 _ _ _ _ _ Hst Hm) as (i & Hi & -> & -> & Hl & -> & Hok & Hb). cbn [obind].
    destruct (sr_item _ _ _ _ _ Hst _ _ Hm) as (_ & _ & Hr).
    rewrite (readTimestamp_wrapped _ _ _ _ _ _ Hok Hb). cbn [obind].
    unfold u64. rewrite Z.mod_small by done.
    destruct (it_ts e =? ts); [|by exists s0, live, B].
    pose proof (removeEntry_ok s0 m live B h i e Hst Hm Hi) as (q' & live' & B' & Hrun & Hst' & _).
    destruct (onRemove (set_hashmap s0 (delete h (sh_hashmap s0))) (entrySlice i (blob h e))) as [s1| |];
      try discriminate Hrun. cbn [obind] in *.
    destruct (clearHash s1 (entrySlice i (blob h e))) as [s2| |]; try discriminate Hrun.
    cbn [obind] in *. rewrite Hrun. cbn [obind]. eexists _, live', B'. by split.
  - rewrite (lookup_None s0 _ _ _ _ Hst Hm). cbn [Z.eqb]. by exists (delmiss s0), live, B.
Qed.

Lemma evictKeys_ok s m (live : entries) (B : blocks) (ts : Z) (keys : list gostring) :
  store_rep (sh_hashmap s) (sh_entries s) m live B ->
  exists s' live' B', evictKeys s ts keys = Ret s' /\
    store_rep (sh_hashmap s') (sh_entries s') (evictAll ts m keys) live' B' /\
    sh_lock s' = sh_lock s /\ sh_ttlTable s' = sh_ttlTable s.
Proof.
  revert s m live B. induction keys as [|key keys IH]; intros s m live B Hst.
  { by exists s, live, B. }
  simpl. destruct (evictKey_ok s m live B ts key Hst) as (s1 & live1 & B1 & -> & Hst1 & Hl1 & Ht1).
  cbn [obind]. destruct (IH s1 _ _ _ Hst1) as (s2 & live2 & B2 & Hrun & Hst2 & Hl2 & Ht2).
  exists s2, live2, B2. split_and!; [done|done|congruence..].
Qed.

Lemma evictAll_lookup (ts : Z) m (keys : list gostring) (h : Z) :
  (forall h e, m !! h = Some e -> h = Sum64 (it_key e)) ->
  (forall h e, m !! h = Some e -> it_ts e = ts -> it_key e ∈ keys) ->
  evictAll ts m keys !! h =
  match m !! h with Some e => if it_ts e =? ts then None else Some e | None => None end.
Proof.
  intros Hh Hin.
  assert (forall keys m, (forall e, m !! h = Some e -> it_ts e = ts -> exists k, k ∈ keys /\ Sum64 k = h) ->
    evictAll ts m keys !! h =
    match m !! h with Some e => if it_ts e =? ts then None else Some e | None => None end) as Hgen.
  { clear. intros keys. induction keys as [|k keys IH]; intros m Hin.
    - simpl. destruct (m !! h) as [e|] eqn:E; [|done].
      destruct (it_ts e =? ts) eqn:Et; zbool; [|done].
      destruct (Hin e eq_refl Et) as (k & Hk & _). by apply not_elem_of_nil in Hk.
    - simpl. unfold evictAll in *. simpl. rewrite IH.
      + unfold evictOne. destruct (m !! Sum64 k) as [e|] eqn:E; [|done].
        destruct (it_ts e =? ts) eqn:Et; [|done].
        destruct (decide (Sum64 k = h)) as [Hk|Hk].
        * subst h. by rewrite lookup_delete_eq, E, Et.
        * by rewrite lookup_delete_ne.
      + intros e He Hts.
        assert (m !! h = Some e /\ Sum64 k <> h) as [Hm Hne].
        { unfold evictOne in He. destruct (m !! Sum64 k) as [e'|] eqn:E.
          - destruct (it_ts e' =? ts) eqn:Et.
            + by apply lookup_delete_Some in He as [? ?].
            + split; [done|]. intros Hk. rewrite Hk, He in E. injection E as ->. zbool. done.
          - split; [done|]. intros Hk. rewrite Hk in E. congruence. }
        destruct (Hin e Hm Hts) as (k' & [->|Hk']%elem_of_cons & Hs); [done|eauto]. }
  apply Hgen. intros e He Hts. exists (it_key e). split; [by eapply Hin|].
  symmetry. by apply Hh.
Qed.

Lemma evictDel_ok s m (live : entries) (B : blocks) (ts : Z) (set : HS) :
  store_rep (sh_hashmap s) (sh_entries s) m live B -> sh_lock s = RWFree ->
  exists s' live' B', evictDel s ts set = Ret s' /\
    store_rep (sh_hashmap s') (sh_entries s') (evictAll ts m (hs_values set)) live' B' /\
    sh_lock s' = RWFree /\ sh_ttlTable s' = sh_ttlTable s.
Proof.
  intros Hst Hl. unfold evictDel, lockShard. rewrite Hl. cbn [rwLock obind].
  destruct (evictKeys_ok (set_lock s RWWrite) m live B ts (hs_values set) Hst)
    as (s1 & live1 & B1 & -> & Hst1 & Hl1 & Ht1).
  cbn [obind]. unfold unlockShard. rewrite Hl1. cbn.
  by exists (set_lock s1 RWFree), live1, B1.
Qed.

(** ** The eviction goroutine *)

(** The items that do not expire at one of the given timestamps. *)
Definition withoutTs (tss : list Z) m : gmap Z item :=
  filter (fun he => it_ts (snd he) ∉ tss) m.

Lemma withoutTs_lookup (tss : list Z) m (h : Z) :
  withoutTs tss m !! h =
  match m !! h with
  | Some e => if decide (it_ts e ∈ tss) then None else Some e
  | None => None
  end.
Proof.
  unfold withoutTs. rewrite map_lookup_filter. destruct (m !! h) as [e|]; [|done].
  simpl. case_decide; [rewrite option_guard_False|rewrite option_guard_True]; auto.
Qed.

Lemma withoutTs_app (tss tss' : list Z) m :
  withoutTs tss' (withoutTs tss m) = withoutTs (tss ++ tss') m.
Proof.
  apply map_eq. intros h. rewrite !withoutTs_lookup.
  destruct (m !! h) as [e|]; [|done].
  destruct (decide (it_ts e ∈ tss)), (decide (it_ts e ∈ tss ++ tss')) as [Hin|Hin];
    rewrite elem_of_app in Hin; try tauto; try done;
    by destruct (decide (it_ts e ∈ tss')); try tauto.
Qed.

(** The state between two rounds of the goroutine: as [shard_rep], but the timer
    has fired and nothing is known about it. *)
Record between s m : Prop := {
  bt_store : exists live B, store_rep (sh_hashmap s) (sh_entries s) m live B;
  bt_lock : sh_lock s = RWFree;
  bt_nonempty : forall ts set,
    avl_view (ttl_timeTree (sh_ttlTable s)) !! ts = Some set -> hs_view set <> ∅;
  bt_sched : scheduled (sh_ttlTable s) m
}.

Lemma between_due s m (ts : Z) (value : HS) :
  between s m -> avl_view (ttl_timeTree (sh_ttlTable s)) !! ts = Some value ->
  exists key, due (sh_ttlTable s) ts key.
Proof.
  intros Hb Hv. destruct (set_choose_L (hs_view value)) as [key Hkey]; [by eapply bt_nonempty|].
  by exists key, value.
Qed.

(** Taking the set of a timestamp out of the tree and evicting its keys removes
    exactly the items that expire then. *)
Lemma evict_round s m (ts : Z) (value : HS) :
  between s m -> avl_view (ttl_timeTree (sh_ttlTable s)) !! ts = Some value ->
  let t' := MkTtl (avl_remove (ttl_timeTree (sh_ttlTable s)) ts) false (ttl_timer (sh_ttlTable s)) in
  exists s', evict (set_ttlTable s t') ts value = Ret s' /\
    between s' (withoutTs [ts] m) /\ sh_ttlTable s' = t' /\
    (forall ts' key, due t' ts' key <-> due (sh_ttlTable s) ts' key /\ ts' ∉ [ts]).
Proof.
  intros [(live & B & Hst) Hl Hne [H0 Hs]] Hts t'.
  destruct (evictDel_ok (set_ttlTable s t') m live B ts value Hst Hl)
    as (s' & live' & B' & Hrun & Hst' & Hl' & Ht').
  assert (ts <> NO_EXPIRY) as Hts0.
  { intros ->. destruct (set_choose_L (hs_view value)) as [key Hkey]; [by eapply Hne|].
    apply (H0 key). by exists value. }
  assert (forall ts' key, due t' ts' key <-> due (sh_ttlTable s) ts' key /\ ts' ∉ [ts]) as Hdue.
  { intros ts' key. unfold due, t'. simpl. rewrite dueIn_remove, list_elem_of_singleton. tauto. }
  exists s'. split_and!; [done| |done|done].
  assert (evictAll ts m (hs_values value) = withoutTs [ts] m) as Hm.
  { apply map_eq. intros h. rewrite evictAll_lookup, withoutTs_lookup.
    - destruct (m !! h) as [e|]; [|done].
      destruct (it_ts e =? ts) eqn:E; zbool.
      + by rewrite decide_True by (by rewrite list_elem_of_singleton).
      + by rewrite decide_False by (by rewrite list_elem_of_singleton).
    - intros h' e He. by apply (sr_item _ _ _ _ _ Hst).
    - intros h' e He Het. apply hs_values_view.
      destruct (Hs h' e He) as (v & Hv & Hin); [congruence|].
      rewrite Het, Hts in Hv. by injection Hv as ->. }
  rewrite Hm in Hst'. split; [eauto|done| |].
  - rewrite Ht'. unfold t'. simpl. rewrite avl_view_remove.
    intros ts' set [_ Hset]%lookup_delete_Some. by eapply Hne.
  - rewrite Ht'. split.
    + intros key [Hk _]%Hdue. by apply (H0 key).
    + intros h e He Het. rewrite withoutTs_lookup in He.
      destruct (m !! h) as [e'|] eqn:Hme; [|done].
      case_decide as Hin; [done|]. injection He as ->. apply Hdue. split; [|done]. by apply (Hs h e).
Qed.

Lemma tree_size_lt1 (tree : TT) :
  (avl_size tree <? 1) = true <-> avl_view tree = ∅.
Proof.
  rewrite Z.ltb_lt, avl_size_view. split.
  - intros Hz. apply map_size_empty_inv. lia.
  - intros ->. rewrite map_size_empty. lia.
Qed.

Lemma withoutTs_nil m : withoutTs [] m = m.
Proof.
  apply map_eq. intros h. rewrite withoutTs_lookup. destruct (m !! h); [|done].
  by rewrite decide_False by apply not_elem_of_nil.
Qed.

Lemma u64_unix (now : Z) : 0 <= now < 2 ^ 63 -> u64 (unix now) = unix now.
Proof.
  intros H. unfold u64, unix, Second. apply Z.mod_small.
  pose proof (Z.div_pos now 1000000000). pose proof (Z.div_le_upper_bound now 1000000000 (2 ^ 63)). lia.
Qed.

Lemma u64_diff_0 (a b : Z) : 0 = u64 (a - u64 b) -> u64 a = u64 b.
Proof.
  unfold u64. rewrite Zminus_mod_idemp_r. intros H. symmetry in H.
  apply Z.mod_divide in H as [k Hk]; [|lia].
  replace a with (b + k * 2 ^ 64) by lia. by rewrite Z.mod_add by lia.
Qed.

(** The readings of the clock an eviction takes. *)
Definition clocks_ok (t : ttlManager TT) (clk : nat -> Z) : Prop :=
  forall n, 0 <= clk n /\ in_range t (clk n).

Lemma in_range_remove (t t' : ttlManager TT) (ts now : Z) :
  ttl_timeTree t' = avl_remove (ttl_timeTree t) ts -> in_range t now -> in_range t' now.
Proof.
  intros Ht Hr ts'. unfold in_range in Hr. rewrite Ht, avl_view_remove.
  intros [v [_ Hv]%lookup_delete_Some]. eauto.
Qed.

(** Enough rounds for every timestamp of the tree: the inner loop ends, with the
    tree locked, the timestamps that were due taken out together with their
    items, and the timer set for the first that is left. *)
Lemma evictionLoop_ok (clk : nat -> Z) (fuel : nat) s m :
  between s m -> ttl_treeLock (sh_ttlTable s) = false ->
  (size (avl_view (ttl_timeTree (sh_ttlTable s))) <= fuel)%nat ->
  clocks_ok (sh_ttlTable s) clk ->
  exists s' tss, evictionLoop s clk fuel = Ret s' /\ between s' (withoutTs tss m) /\
    ttl_treeLock (sh_ttlTable s') = true /\ timer_ok (sh_ttlTable s') /\
    (forall ts key, due (sh_ttlTable s') ts key <-> due (sh_ttlTable s) ts key /\ ts ∉ tss) /\
    (forall ts, ts ∈ tss -> (exists key, due (sh_ttlTable s) ts key) /\ exists n, u64 ts = u64 (unix (clk n))).
Proof.
  revert s m. induction fuel as [|fuel IH]; intros s m Hb Hl Hsz Hck.
  all: cbn [evictionLoop]; unfold onTable at 1, lockTree, mutexLock; rewrite Hl; cbn [obind].
  all: set (t1 := MkTtl (ttl_timeTree (sh_ttlTable s)) true (ttl_timer (sh_ttlTable s))).
  all: cbn [sh_ttlTable set_ttlTable].
  all: assert (between (set_ttlTable s t1) m) as Hb1 by (destruct Hb; by split).
  all: destruct (avl_size (ttl_timeTree t1) <? 1) eqn:Es.
  (* the tree is empty *)
  1,3: apply tree_size_lt1 in Es; exists (set_ttlTable s t1), [];
    rewrite withoutTs_nil; split_and!;
    [done|done|done| | |by intros ts ?%not_elem_of_nil];
    [intros ts set Hp; apply avl_first_Some in Hp as [Hp _]; unfold t1 in Es; simpl in Es;
       simpl in Hp; rewrite Es, lookup_empty in Hp; discriminate
    |intros ts key; pose proof (not_elem_of_nil ts); unfold due; simpl; tauto].
  (* no fuel and a tree that is not empty *)
  - exfalso. assert (avl_view (ttl_timeTree t1) = ∅) as E0 by (apply map_size_empty_inv; simpl; lia).
    apply tree_size_lt1 in E0. congruence.
  - destruct (ttlPeek t1) as [[ts value]|] eqn:Ep.
    2:{ exfalso. apply avl_first_None, tree_size_lt1 in Ep. congruence. }
    destruct (avl_first_Some _ _ _ Ep) as [Hts _].
    change (avl_view (ttl_timeTree (sh_ttlTable s)) !! ts = Some value) in Hts.
    destruct (0 =? u64 (ts - u64 (unix (clk (2 * S fuel + 1)%nat)))) eqn:E0; zbool.
    + destruct (evict_round s m ts value Hb Hts) as (s2 & Hrun & Hb2 & Ht2 & Hdue2).
      set (t2 := MkTtl (avl_remove (ttl_timeTree (sh_ttlTable s)) ts) false (ttl_timer (sh_ttlTable s))) in *.
      change (onTable (set_ttlTable (set_ttlTable s t1) (setTree t1 (avl_remove (ttl_timeTree t1) ts))) unlockTree)
        with (Ret (set_ttlTable s t2)).
      cbn [obind]. rewrite Hrun. cbn [obind].
      destruct (IH s2 (withoutTs [ts] m) Hb2) as (s3 & tss & -> & Hb3 & Hl3 & Htm3 & Hdue3 & Hclk3).
      * by rewrite Ht2.
      * rewrite Ht2. unfold t2. simpl. rewrite avl_view_remove, map_size_delete, Hts. simpl.
        lia.
      * rewrite Ht2. intros n. destruct (Hck n) as [Hn Hr]. split; [done|].
        by apply (in_range_remove (sh_ttlTable s) t2 ts).
      * exists s3, ([ts] ++ tss). rewrite <- withoutTs_app. split_and!; try done.
        -- intros ts' key. rewrite Hdue3, Ht2, Hdue2, elem_of_app. tauto.
        -- intros ts' [->%list_elem_of_singleton|Hin]%elem_of_app.
           2:{ destruct (Hclk3 ts' Hin) as [[key Hk] Hn]. split; [|done].
               rewrite Ht2 in Hk. apply Hdue2 in Hk as [Hk _]. eauto. }
           split; [by apply (between_due s m ts value)|]. eexists. by apply u64_diff_0.
    + exists (set_ttlTable (set_ttlTable s t1) (resetTimer t1 ts (clk (2 * S fuel)%nat))), [].
      rewrite withoutTs_nil. split_and!; [done| |done| | |by intros ts' ?%not_elem_of_nil].
      * destruct Hb1. by split.
      * destruct (Hck (2 * S fuel)%nat) as [Hn Hr].
        apply (resetTimer_ok t1 ts _ value Hn); [|done]. apply Hr. eauto.
      * intros ts' key. pose proof (not_elem_of_nil ts'). unfold due. simpl. tauto.
Qed.

Lemma between_receive s m :
  shard_rep s m ->
  between (set_ttlTable s (setTimer (sh_ttlTable s) (timerRecv (ttl_timer (sh_ttlTable s))))) m.
Proof. intros [Hst Hl Ht Hs]. destruct Ht. by split. Qed.

Lemma between_done s m :
  between s m -> ttl_treeLock (sh_ttlTable s) = true -> timer_ok (sh_ttlTable s) ->
  exists s', onTable s unlockTree = Ret s' /\ shard_rep s' m /\
    (forall ts key, due (sh_ttlTable s') ts key <-> due (sh_ttlTable s) ts key).
Proof.
  intros [Hst Hlk Hne Hs] Hl Ht. unfold onTable, unlockTree, mutexUnlock. rewrite Hl. cbn [obind].
  eexists. split; [done|]. split; [|done]. by split; [done|done|split|].
Qed.

(** A round of the goroutine on a table that has timestamps. *)
Lemma eviction_some s m (clk : nat -> Z) (ts : Z) (value : HS) :
  shard_rep s m -> clocks_ok (sh_ttlTable s) clk -> ttlPeek (sh_ttlTable s) = Some (ts, value) ->
  exists s' tss, eviction s clk = Ret s' /\ shard_rep s' (withoutTs (ts :: tss) m) /\
    (forall ts' key, due (sh_ttlTable s') ts' key <-> due (sh_ttlTable s) ts' key /\ ts' ∉ ts :: tss) /\
    (forall ts', ts' ∈ ts :: tss -> exists key, due (sh_ttlTable s) ts' key) /\
    (forall ts', ts' ∈ tss -> exists n, u64 ts' = u64 (unix (clk n))).
Proof.
  intros Hrep Hck Hp. pose proof (between_receive _ _ Hrep) as Hb0.
  destruct (avl_first_Some _ _ _ Hp) as [Hts _].
  set (s0 := set_ttlTable s _) in Hb0.
  destruct (evict_round s0 m ts value Hb0 Hts) as (s2 & Hrun & Hb2 & Ht2 & Hdue2).
  set (t2 := MkTtl _ _ _) in Hrun, Ht2, Hdue2.
  destruct (evictionLoop_ok clk (Z.to_nat (avl_size (ttl_timeTree (sh_ttlTable s2)))) s2 (withoutTs [ts] m) Hb2)
    as (s3 & tss & Hloop & Hb3 & Hl3 & Htm3 & Hdue3 & Hclk3).
  { by rewrite Ht2. }
  { rewrite avl_size_view. lia. }
  { rewrite Ht2. intros n. destruct (Hck n) as [Hn Hr]. split; [done|].
    by apply (in_range_remove (sh_ttlTable s) t2 ts). }
  destruct (between_done _ _ Hb3 Hl3 Htm3) as (s4 & Hun & Hrep4 & Hdue4).
  exists s4, tss. split_and!.
  - unfold eviction, onTable at 1, lockTree, mutexLock. cbn [sh_ttlTable set_ttlTable ttl_treeLock setTimer].
    rewrite (ttl_unlocked _ (shr_ttl _ _ Hrep)). cbn [obind].
    destruct (avl_size _ <? 1) eqn:Es.
    { apply tree_size_lt1 in Es. cbn in Es. rewrite Es, lookup_empty in Hts. discriminate. }
    unfold ttlPeek in *. cbn [sh_ttlTable set_ttlTable ttl_timeTree setTimer] in *. rewrite Hp.
    change (evict (set_ttlTable s t2) ts value = Ret s2) in Hrun.
    match goal with |- obind (onTable ?x unlockTree) _ = _ =>
      change (onTable x unlockTree) with (Ret (set_ttlTable s t2)) end.
    cbn [obind]. rewrite Hrun. cbn [obind]. by rewrite Hloop.
  - change (ts :: tss) with ([ts] ++ tss). by rewrite <- withoutTs_app.
  - intros ts' key. rewrite Hdue4, Hdue3, Ht2, Hdue2, list_elem_of_singleton.
    rewrite elem_of_cons. unfold due. simpl. tauto.
  - intros ts' [->|Hin]%elem_of_cons; [by apply (between_due _ _ _ _ Hb0 Hts)|].
    destruct (Hclk3 ts' Hin) as [[key Hk] _]. rewrite Ht2 in Hk. apply Hdue2 in Hk as [Hk _]. eauto.
  - intros ts' Hin. by apply Hclk3.
Qed.

Lemma eviction_none s m (clk : nat -> Z) :
  shard_rep s m -> ttlPeek (sh_ttlTable s) = None ->
  exists s', eviction s clk = Ret s' /\ shard_rep s' m /\
    (forall ts' key, due (sh_ttlTable s') ts' key <-> due (sh_ttlTable s) ts' key).
Proof.
  intros Hrep Hp. pose proof (between_receive _ _ Hrep) as Hb0.
  apply avl_first_None in Hp as Hv.
  unfold eviction, onTable at 1, lockTree, mutexLock. cbn [sh_ttlTable set_ttlTable ttl_treeLock setTimer].
  rewrite (ttl_unlocked _ (shr_ttl _ _ Hrep)). cbn [obind].
  set (s1 := set_ttlTable _ _).
  assert ((avl_size (ttl_timeTree (sh_ttlTable s1)) <? 1) = true) as -> by by apply tree_size_lt1.
  destruct (between_done s1 m) as (s' & -> & Hr & Hd); [by destruct Hb0|done| |by exists s'].
  intros ts set Hp'. change (ttlPeek (sh_ttlTable s) = Some (ts, set)) in Hp'. congruence.
Qed.

(** ** A new shard *)

(** A shard around an empty queue. *)
Lemma newShard_rep (q : BytesQueue T) (num life now : Z) (buffer : list byte) (callback verbose : bool) :
  bq_rep q ∅ ∅ ->
  shard_rep (MkShard num ∅ q RWFree buffer callback [] verbose life noStats (newTtlManager now)) ∅.
Proof.
  intros Hq. destruct (newTtlManager_ok (HS := HS) (TT := TT) now) as [Ht Hd].
  split; simpl; [|done|done|].
  - exists ∅, ∅. split; [done|..]; intros *; rewrite lookup_empty; discriminate.
  - split; [intros key; apply Hd|]. intros h e. rewrite lookup_empty. discriminate.
Qed.

Lemma initNewShard_ok (config : Config) (callback : bool) (now num size maxSize : Z) :
  initialShardSize config = Ret size -> maximumShardSize config = Ret maxSize ->
  0 <= i64 (cfg_MaxEntrySize config + headersSizeInBytes) ->
  0 <= i64 (size * cfg_MaxEntrySize config) ->
  exists s, initNewShard config callback now num = Ret s /\ shard_rep s ∅ /\
    (forall ts key, ~ due (sh_ttlTable s) ts key) /\
    bq_capacity (sh_entries s) = i64 (size * cfg_MaxEntrySize config) /\
    bq_maxCapacity (sh_entries s) = maxSize.
Proof.
  intros Hs Hm Hn Hc. unfold initNewShard. rewrite Hs. cbn [obind]. rewrite Hm. cbn [obind].
  destruct (NewBytesQueue_rep (i64 (size * cfg_MaxEntrySize config)) maxSize (cfg_Verbose config) Hc)
    as (q & -> & Hq & Hcap & Hmax & _). cbn [obind].
  destruct (_ <? 0) eqn:E; zbool; [lia|]. destruct (newTtlManager_ok (HS := HS) (TT := TT) now) as [_ Hd].
  eexists. split; [done|]. split_and!; [by apply newShard_rep|done..].
Qed.

(** ** [len], [copyKeys] and [reset] *)

Lemma store_dom (hm : gmap Z Z) (q : BytesQueue T) m (live : entries) (B : blocks) :
  store_rep hm q m live B -> dom hm = dom m.
Proof.
  intros H. apply set_eq. intros h. rewrite !elem_of_dom. split.
  - intros [i Hi]. destruct (sr_index _ _ _ _ _ H _ _ Hi) as (e & He & _). eauto.
  - intros [e He]. by apply (sr_hash _ _ _ _ _ H h e).
Qed.

Lemma shardLen_ok s m : shard_rep s m -> shardLen s = Ret (s, Z.of_nat (size m)).
Proof.
  intros H. destruct (shr_store _ _ H) as (live & B & Hst). pose proof (shr_lock _ _ H) as Hl.
  unfold shardLen, rlockShard, runlockShard. rewrite Hl. cbn. rewrite decide_True by done. cbn.
  rewrite set_lock_back by done. rewrite <- !size_dom. by rewrite (store_dom _ _ _ _ _ Hst).
Qed.

Lemma copyKeys_ok s m :
  shard_rep s m ->
  copyKeys s = Ret (s, ((map_to_list (sh_hashmap s)).*2, Z.of_nat (size (sh_hashmap s)))).
Proof.
  intros H. pose proof (shr_lock _ _ H) as Hl.
  unfold copyKeys, rlockShard, runlockShard. rewrite Hl. cbn. rewrite decide_True by done. cbn.
  rewrite set_lock_back by done. unfold zlen. by rewrite length_fmap, length_map_to_list.
Qed.

(** ** Claims *)

(** [reset] turns a shard whose queue has no free ranges into an empty one: the
    map, the queue, the expiry table and the timer are all cleared and the lock
    is released. *)
Theorem reset_empties_shard s m (live : entries) (config : Config) (size : Z) :
  shard_rep s m -> bq_rep (sh_entries s) live ∅ ->
  initialShardSize config = Ret size ->
  0 <= i64 (cfg_MaxEntrySize config + headersSizeInBytes) ->
  exists s', shardReset s config = Ret s' /\ shard_rep s' ∅ /\
    tm_fire (ttl_timer (sh_ttlTable s')) = None.
Proof.
  intros H Hq Hs Hn. unfold shardReset, lockShard. rewrite (shr_lock _ _ H). cbn [rwLock obind].
  rewrite Hs. cbn [obind]. destruct (_ <? 0) eqn:E; zbool; [lia|].
  cbn [sh_ttlTable set_entries set_entryBuffer set_hashmap set_lock].
  destruct (ttlReset_ok _ (shr_ttl _ _ H)) as (t' & -> & Ht' & Hfire & Hd). cbn [obind].
  eexists. split; [done|]. split; [|done]. split; cbn; [|done|done|].
  - exists ∅, ∅. split; [by apply (queueReset_rep _ live ∅)|..]; intros *; rewrite lookup_empty; discriminate.
  - split; [intros key; apply Hd|]. intros h e. rewrite lookup_empty. discriminate.
Qed.

(** [get] on a shard that stores the map [m]: the value when the hash has an
    entry with that key, "not found" otherwise, also when another key holds the
    hash; exactly one counter moves (hit, miss or collision) and nothing else. *)
Theorem shard_get_exact s m (key : gostring) (h : Z) :
  shard_rep s m ->
  exists s', shardGet s key h = Ret (s', getAnswer m key h) /\ shard_rep s' m /\
    s' = match m !! h with
         | Some e => if decide (key = it_key e) then hit s else collision s
         | None => miss s
         end.
Proof.
  intros H. exists (getCount s m key h).
  split_and!; [by apply shardGet_ok|by apply getCount_rep|done].
Qed.

(** [del] of a stored hash removes exactly its item, releases the lock, keeps
    every other item scheduled and readable, and calls the removal callback once,
    with the stored key and value, if there is one. *)
Theorem shard_del_reports s m (key : gostring) (now : Z) (e : item) :
  shard_rep s m -> clock_ok s now -> m !! Sum64 key = Some e ->
  exists s', shardDel s key (Sum64 key) now = Ret (s', None) /\ shard_rep s' (delete (Sum64 key) m) /\
    sh_removed s' = if sh_onRemove s then sh_removed s ++ [(it_key e, it_val e)] else sh_removed s.
Proof. intros H Hc Hm. pose proof (shardDel_ok s m key now H Hc) as Hd. cbn zeta in Hd. by rewrite Hm in Hd. Qed.



(** The runtime fires the timer of a shard. *)
Definition fired s : cacheShard T TT :=
  let t := sh_ttlTable s in set_ttlTable s (setTimer t (timerFire (ttl_timer t))).

Lemma fired_rep s m : shard_rep s m -> shard_rep (fired s) m.
Proof.
  intros [Hst Hl [H1 H2 H3] Hs]. split; [done|done| |done]. split; [done|done|].
  intros ts set _. by left.
Qed.

(** C7. Eviction is exact and never early.  When the timer of a shard fires and the
    goroutine handles the tick, the round ends and leaves the shard consistent
    with the timer set again; what it removed are items that expire and whose
    time has come, no item was changed or added, and all items that expire at the
    first scheduled timestamp are gone. *)
Theorem tick_evicts_expired s m (f now : Z) (clk : nat -> Z) :
  shard_rep s m -> tm_chan (ttl_timer (sh_ttlTable s)) = false ->
  tm_fire (ttl_timer (sh_ttlTable s)) = Some f -> f <= now ->
  (forall n, now <= clk n < 2 ^ 63) -> clocks_ok (sh_ttlTable s) clk ->
  exists s' m', eviction (fired s) clk = Ret s' /\ shard_rep s' m' /\
    (forall h e, m' !! h = Some e -> m !! h = Some e) /\
    (forall h e, m !! h = Some e -> m' !! h = None ->
       it_ts e <> NO_EXPIRY /\ exists n, it_ts e <= unix (clk n)) /\
    (forall ts set h e, ttlPeek (sh_ttlTable s) = Some (ts, set) ->
       m !! h = Some e -> it_ts e = ts -> m' !! h = None).
Proof.
  intros H Hch Hf Hfn Hclk Hck. pose proof (fired_rep s m H) as HF.
  destruct (ttlPeek (sh_ttlTable s)) as [[ts set]|] eqn:Hp.
  - destruct (eviction_some (fired s) m clk ts set HF Hck Hp) as (s' & tss & Hrun & H' & _ & Hdue & Hc).
    exists s', (withoutTs (ts :: tss) m). split_and!; [done|done| | |].
    + intros h e. rewrite withoutTs_lookup. destruct (m !! h); [|done]. by case_decide.
    + intros h e Hm. rewrite withoutTs_lookup, Hm. case_decide as Hin; [intros _|done]. split.
      * intros H0. rewrite H0 in Hin. destruct (Hdue _ Hin) as [key Hk].
        by apply (proj1 (shr_sched _ _ H) key).
      * apply elem_of_cons in Hin as [->|Hin].
        -- exists 0%nat. destruct (ttl_timer_ok _ (shr_ttl _ _ H) ts set Hp) as [Ht|(f' & Hf' & <-)]; [congruence|].
           rewrite Hf in Hf'. injection Hf' as <-. unfold unix. apply Z.div_le_mono; [done|].
           pose proof (Hclk 0%nat). lia.
        -- destruct (Hc _ Hin) as [n Hn]. exists n.
           destruct (shr_store _ _ H) as (live & B & Hst).
           destruct (sr_item _ _ _ _ _ Hst _ _ Hm) as (_ & _ & Hr).
           rewrite (u64_unix (clk n)) in Hn by (destruct (Hck n); pose proof (Hclk n); lia).
           unfold u64 in Hn. rewrite Z.mod_small in Hn by done. lia.
    + intros ts' set' h e [= <- <-] Hm Hts. rewrite withoutTs_lookup, Hm. rewrite decide_True; [done|].
      rewrite Hts. apply elem_of_cons. by left.
  - destruct (eviction_none (fired s) m clk HF Hp) as (s' & Hrun & H' & _).
    exists s', m. split_and!; [done|done|done|congruence|done].
Qed.
End ShardProofs.

(** ** Witnesses *)

Section ShardExamples.
Abbreviation shard := (cacheShard (gmap Z loc) (gmap Z (gset gostring))).

Definition queue70 : BytesQueue (gmap Z loc) :=
  match NewBytesQueue 40 70 false with Ret q => q | _ => noQueue end.

(** A shard with 40 bytes, a limit of 70 and a removal callback, created at
    second 100. *)
Definition shard0 : shard :=
  MkShard 1 ∅ queue70 RWFree [] true [] false 0 noStats (newTtlManager (100 * Second)).

Lemma shard0_rep : shard_rep shard0 ∅.
Proof.
  apply newShard_rep. destruct (NewBytesQueue_rep (T := gmap Z loc) 40 70 false) as (q & Hq & H & _); [lia|].
  unfold queue70. by rewrite Hq.
Qed.

Lemma shard0_clock (now : Z) : 0 <= now -> clock_ok shard0 now.
Proof. intros Hn. split; [done|]. intros ts [v Hv]. discriminate. Qed.

Definition stored (r : outcome (shard * (Z * option cacheError))) : shard :=
  match r with Ret (s, _) => s | _ => shard0 end.

Lemma Ret_stored (r : outcome (shard * (Z * option cacheError))) :
  match r with Ret _ => true | _ => false end = true -> exists a, r = Ret (stored r, a).
Proof. destruct r as [[s a]| |]; [by exists a|done..]. Qed.

Definition keyK : gostring := ["k"]%byte.
Definition valV : list byte := ["v"; "w"]%byte.

(** An entry of 40 bytes does not fit under the limit of 70. *)
Definition bigV : list byte := zeros 40.

(** Blobs of both values are short enough to be offered to the queue. *)
Lemma shard0_fits (ts h : Z) (v : list byte) :
  v = valV \/ v = bigV ->
  zlen (wrapped ts h keyK v) < 2 ^ 32 /\ fits32 shard0 (zlen (wrapped ts h keyK v)).
Proof. rewrite zlen_wrapped. intros [-> | ->]; by vm_compute. Qed.

Lemma range_at_100 : timer_range 0 (unix (100 * Second)) /\ timer_range 105 (unix (100 * Second)).
Proof. by vm_compute. Qed.

Lemma second_100 : 0 <= 100 * Second.
Proof. by vm_compute. Qed.

(** [keyK] stored for ever, and for five seconds. *)
Definition shardEver : shard := stored (shardSet shard0 keyK (Sum64 keyK) valV 0 100 (100 * Second)).
Definition shardFive : shard := stored (shardSet shard0 keyK (Sum64 keyK) valV (5 * Second) 100 (100 * Second)).

Lemma stored_rep (d : Z) :
  expiryOf 100 d = 0 \/ expiryOf 100 d = 105 -> (d <> 0 -> expiryOf 100 d <> 0) ->
  let s := stored (shardSet shard0 keyK (Sum64 keyK) valV d 100 (100 * Second)) in
  sh_lock s = RWFree -> shard_rep s {[Sum64 keyK := Item (expiryOf 100 d) keyK valV]}.
Proof.
  intros Hts H0 s Hl.
  destruct (shardSet_ok shard0 ∅ keyK valV d 100 (100 * Second)) as [(s' & Hrun & Hs')|(s' & Hrun & Hl' & _)].
  - apply shard0_rep.
  - reflexivity.
  - apply shard0_clock, second_100.
  - destruct Hts as [-> | ->]; apply range_at_100.
  - exact H0.
  - apply shard0_fits. by left.
  - apply shard0_fits. by left.
  - unfold s. by rewrite Hrun.
  - unfold s in Hl. rewrite Hrun in Hl. simpl in Hl. congruence.
Qed.

Lemma shardEver_rep : shard_rep shardEver {[Sum64 keyK := Item 0 keyK valV]}.
Proof. apply (stored_rep 0); [by left|done|vm_compute; reflexivity]. Qed.

Lemma shardFive_rep : shard_rep shardFive {[Sum64 keyK := Item 105 keyK valV]}.
Proof.
  assert (expiryOf 100 (5 * Second) = 105) as E by (vm_compute; reflexivity).
  pose proof (stored_rep (5 * Second)) as H. rewrite E in H.
  apply H; [by right|done|vm_compute; reflexivity].
Qed.

Lemma shard_get_exact_witness :
  exists s', shardGet shardEver keyK (Sum64 keyK) = Ret (s', inl valV) /\
    shard_rep s' {[Sum64 keyK := Item 0 keyK valV]} /\ s' = hit shardEver.
Proof. exact (shard_get_exact shardEver _ keyK (Sum64 keyK) shardEver_rep). Defined.

Lemma shardEver_clock : clock_ok shardEver (101 * Second).
Proof.
  split; [by vm_compute|]. assert (avl_size (ttl_timeTree (sh_ttlTable shardEver)) = 0) as Hz by (vm_compute; reflexivity).
  rewrite avl_size_view in Hz. intros ts [v Hv].
  assert (avl_view (ttl_timeTree (sh_ttlTable shardEver)) = ∅) as He by (apply map_size_empty_inv; lia).
  rewrite He, lookup_empty in Hv. discriminate Hv.
Qed.

Lemma shard_del_reports_witness :
  exists s', shardDel shardEver keyK (Sum64 keyK) (101 * Second) = Ret (s', None) /\
    shard_rep s' (delete (Sum64 keyK) {[Sum64 keyK := Item 0 keyK valV]}) /\
    sh_removed s' = [(keyK, valV)].
Proof.
  apply (shard_del_reports shardEver {[Sum64 keyK := Item 0 keyK valV]} keyK (101 * Second) (Item 0 keyK valV));
    [exact shardEver_rep|exact shardEver_clock|apply lookup_singleton_eq].
Defined.

Lemma reset_empties_shard_witness :
  exists s', shardReset shard0 DefaultConfig = Ret s' /\ shard_rep s' ∅ /\
    tm_fire (ttl_timer (sh_ttlTable s')) = None.
Proof.
  apply (reset_empties_shard shard0 ∅ ∅ DefaultConfig 37500); [exact shard0_rep| |vm_compute; reflexivity|by vm_compute].
  destruct (NewBytesQueue_rep (T := gmap Z loc) 40 70 false) as (q & Hq & H & _); [lia|].
  simpl. unfold queue70. by rewrite Hq.
Defined.


Lemma shardFive_clocks (now : Z) :
  0 <= now -> timer_range 105 (unix now) -> clocks_ok (sh_ttlTable shardFive) (fun _ => now).
Proof.
  intros Hn Hr n. split; [done|]. intros ts [v Hv].
  assert (ts ∈ dom (ttl_timeTree (sh_ttlTable shardFive))) as Hd by (apply elem_of_dom; eauto).
  assert (elements (dom (ttl_timeTree (sh_ttlTable shardFive))) = [105]) as E by (vm_compute; reflexivity).
  apply elem_of_elements in Hd. rewrite E in Hd. by apply list_elem_of_singleton in Hd as ->.
Qed.

Lemma tick_evicts_expired_witness :
  let m : gmap Z item := {[Sum64 keyK := Item 105 keyK valV]} in
  exists s' m', eviction (fired shardFive) (fun _ => 105 * Second) = Ret s' /\ shard_rep s' m' /\
    (forall h e, m' !! h = Some e -> m !! h = Some e) /\
    (forall h e, m !! h = Some e -> m' !! h = None ->
       it_ts e <> NO_EXPIRY /\ exists n : nat, it_ts e <= unix (105 * Second)) /\
    (forall ts set h e, ttlPeek (sh_ttlTable shardFive) = Some (ts, set) ->
       m !! h = Some e -> it_ts e = ts -> m' !! h = None).
Proof.
  apply (tick_evicts_expired shardFive _ (105 * Second) (105 * Second) (fun _ => 105 * Second));
    [exact shardFive_rep|vm_compute; reflexivity|vm_compute; reflexivity|lia
    |intros _; by vm_compute|by apply shardFive_clocks; vm_compute].
Defined.
End ShardExamples.
