(* ===== verification/ShardRace.v ===== *)
(** * Operations of a shard that overlap ([bigcache/shard.go], [bigcache/ttl.go])

    The lock of a shard does not cover all that its methods do: [get] copies the value after it has
    released the lock, [set] schedules the key after it, [del] reads the timestamp and unschedules the key after it, and the
    eviction goroutine takes a set of keys out of the expiry table before it locks the
    shard.  The methods are cut here where they acquire and release locks, and the pieces of any number of
    calls interleave.

    A slice that a call holds points into the array the queue had when it was cut: a queue that
    grows goes on with a new array, and the call with the old one. *)

From stdpp Require Import base decidable countable list gmap.
From Stdlib Require Import ZArith Lia Strings.Byte.
From S2P Require Import Prelude.
From S2P Require Import GoLib.
From S2P Require Import FreeList.
From S2P Require Import BytesQueue.
From S2P Require Import Encoding.
From S2P Require Import Hash.
From S2P Require Import Config.
From S2P Require Import GoTime.
From S2P Require Import Ttl.
From S2P Require Import Shard.

(** ** The pieces of the methods *)

(** What [get] knows when it releases the lock. *)
Inductive getPause : Type :=
| GetMiss (err : cacheError)
| GetCollision
| GetHit (wrappedEntry : slice).

Section Pieces.
Context {T HS TT : Type} `{!AvlTree loc T} `{!HashSet HS} `{!AvlTree HS TT}.
Context {hasher : Hasher} {platform : Platform}.
Implicit Types s : cacheShard T TT.

Definition getLocked s (key : gostring) (hashedKey : Z) : outcome (cacheShard T TT * getPause) :=
  let! s := rlockShard s in
  let itemIndex := lookupIndex s hashedKey in
  if itemIndex =? 0 then
    let! s := runlockShard s in Ret (s, GetMiss (notFound key))
  else
    let! r := queueGet (sh_entries s) itemIndex in
    match r with
    | inr err => let! s := runlockShard s in Ret (s, GetMiss (QueueError err))
    | inl wrappedEntry =>
        let! entryKey := readKeyFromEntry (bq_array (sh_entries s)) wrappedEntry in
        if negb (bool_decide (key = entryKey)) then
          let! s := runlockShard s in Ret (s, GetCollision)
        else let! s := runlockShard s in Ret (s, GetHit wrappedEntry)
    end.

(** [arr] is the array the slice points into. *)
Definition getUnlocked s (key : gostring) (p : getPause) (arr : list byte)
  : outcome (cacheShard T TT * (list byte + cacheError)) :=
  match p with
  | GetMiss err => Ret (miss s, inr err)
  | GetCollision => Ret (collision s, inr (notFound key))
  | GetHit wrappedEntry =>
      let s := hit s in
      let! v := readEntry arr wrappedEntry in
      Ret (s, inl v)
  end.

Definition setDrop s (key : gostring) (hashedKey now : Z) : outcome (cacheShard T TT) :=
  let! s := lockShard s in dropPrevious s key hashedKey now.

(** [false] when the queue is full: then the lock is kept. *)
Definition setStore s (key : gostring) (hashedKey : Z) (entry : list byte) (expiryTimestamp : Z)
  : outcome (cacheShard T TT * bool) :=
  let! wb := wrapEntry expiryTimestamp hashedKey key entry (sh_entryBuffer s) in
  let s := set_entryBuffer s (snd wb) in
  let! r := Push (sh_entries s) (fst wb) in
  let s := set_entries s (fst r) in
  match snd r with
  | inl index =>
      let s := set_hashmap s (<[hashedKey := u32 index]> (sh_hashmap s)) in
      let! s := unlockShard s in Ret (s, true)
  | inr _ => Ret (s, false)
  end.

Definition setSchedule s (key : gostring) (duration expiryTimestamp now : Z) : outcome (cacheShard T TT) :=
  if negb (duration =? NO_EXPIRY) then
    let! t := ttlPut (sh_ttlTable s) expiryTimestamp key now in Ret (set_ttlTable s t)
  else Ret s.

Definition delLocked s (key : gostring) (hashedKey : Z) : outcome (cacheShard T TT * (slice + cacheError)) :=
  let! s := lockShard s in
  let itemIndex := lookupIndex s hashedKey in
  if itemIndex =? 0 then
    let! s := unlockShard s in Ret (s, inr (notFound key))
  else
    let! r := queueGet (sh_entries s) itemIndex in
    match r with
    | inr err => let! s := unlockShard s in Ret (s, inr (QueueError err))
    | inl wrappedEntry =>
        let s := set_hashmap s (delete hashedKey (sh_hashmap s)) in
        let! s := onRemove s wrappedEntry in
        let! s := clearHash s wrappedEntry in
        let! s := shardDelete s itemIndex in
        let! s := unlockShard s in Ret (s, inl wrappedEntry)
    end.

Definition delUnlocked s (key : gostring) (p : slice + cacheError) (arr : list byte) (now : Z)
  : outcome (cacheShard T TT * option cacheError) :=
  match p with
  | inr err => Ret (delmiss s, Some err)
  | inl wrappedEntry =>
      let! timestamp := readTimestampFromEntry arr wrappedEntry in
      let! t := ttlRemove (sh_ttlTable s) timestamp key now in
      Ret (delhit (set_ttlTable s t), None)
  end.

(** The eviction goroutine takes the first set out of the table, if there is one and, after
    its first round, if it expires now; otherwise it sets the timer. *)
Definition evictTake s (look : option (Z * Z)) : outcome (cacheShard T TT * option (Z * HS)) :=
  let! s := onTable s lockTree in
  if avl_size (ttl_timeTree (sh_ttlTable s)) <? 1 then
    let! s := onTable s unlockTree in Ret (s, None)
  else
    match ttlPeek (sh_ttlTable s) with
    | None => Panic
    | Some (key, value) =>
        let t := sh_ttlTable s in
        match look with
        | Some (now, now') =>
            if 0 =? u64 (key - u64 (unix now)) then
              let! s := onTable (set_ttlTable s (setTree t (avl_remove (ttl_timeTree t) key))) unlockTree in
              Ret (s, Some (key, value))
            else
              let! s := onTable (set_ttlTable s (resetTimer t key now')) unlockTree in Ret (s, None)
        | None =>
            let! s := onTable (set_ttlTable s (setTree t (avl_remove (ttl_timeTree t) key))) unlockTree in
            Ret (s, Some (key, value))
        end
    end.

(** ** The pieces make the methods *)

Lemma shardGet_pieces s key h :
  shardGet s key h =
  let! sp := getLocked s key h in getUnlocked (fst sp) key (snd sp) (bq_array (sh_entries (fst sp))).
Proof.
  unfold shardGet, getLocked. destruct (rlockShard s) as [s1| |]; cbn [obind]; try done.
  destruct (lookupIndex s1 h =? 0); [by destruct (runlockShard s1)|].
  destruct (queueGet (sh_entries s1) (lookupIndex s1 h)) as [[w|err]| |]; cbn [obind]; try done; [|by destruct (runlockShard s1)].
  destruct (readKeyFromEntry (bq_array (sh_entries s1)) w) as [k| |]; cbn [obind]; try done.
  destruct (negb (bool_decide (key = k))); by destruct (runlockShard s1).
Qed.

Lemma shardSet_pieces s key h entry d epoch now :
  shardSet s key h entry d epoch now =
  let ts := expiryOf epoch d in
  let! s := setDrop s key h now in
  let! sb := setStore s key h entry ts in
  if snd sb then let! s := setSchedule (fst sb) key d ts now in Ret (s, (ts, None)) else Ret (fst sb, (0, None)).
Proof.
  unfold shardSet, setDrop, setStore, setSchedule. destruct (lockShard s) as [s1| |]; cbn [obind]; try done.
  destruct (dropPrevious s1 key h now) as [s2| |]; cbn [obind]; try done.
  destruct (wrapEntry _ h key entry _) as [wb| |]; cbn [obind]; try done.
  destruct (Push _ (fst wb)) as [[q [i|e]]| |]; cbn [obind fst snd]; try done.
  match goal with |- context [unlockShard ?x] => destruct (unlockShard x) as [s3| |] end; cbn [obind fst snd]; try done.
  destruct (negb (d =? NO_EXPIRY)); [|done]. by destruct (ttlPut _ _ key now).
Qed.

Lemma shardDel_pieces s key h now :
  shardDel s key h now =
  let! sp := delLocked s key h in delUnlocked (fst sp) key (snd sp) (bq_array (sh_entries (fst sp))) now.
Proof.
  unfold shardDel, delLocked. destruct (lockShard s) as [s1| |]; cbn [obind]; try done.
  destruct (lookupIndex s1 h =? 0); [by destruct (unlockShard s1)|].
  destruct (queueGet (sh_entries s1) (lookupIndex s1 h)) as [[w|err]| |]; cbn [obind]; try done; [|by destruct (unlockShard s1)].
  destruct (onRemove _ w) as [s2| |]; cbn [obind]; try done. destruct (clearHash s2 w) as [s3| |]; cbn [obind]; try done.
  destruct (shardDelete s3 _) as [s4| |]; cbn [obind]; try done. by destruct (unlockShard s4).
Qed.

(** The rounds of the inner loop of [eviction] are takes and evictions. *)
Lemma evictionLoop_pieces s clk fuel :
  (let! s := evictionLoop s clk fuel in onTable s unlockTree) =
  let! so := evictTake s (Some (clk (2 * fuel + 1)%nat, clk (2 * fuel)%nat)) in
  match snd so with
  | None => Ret (fst so)
  | Some (ts, set) =>
      let! s := evict (fst so) ts set in
      match fuel with O => Stuck | S fuel' => let! s := evictionLoop s clk fuel' in onTable s unlockTree end
  end.
Proof.
  assert (evictionLoop s clk fuel =
    let! s := onTable s lockTree in
    if avl_size (ttl_timeTree (sh_ttlTable s)) <? 1 then Ret s
    else
      match ttlPeek (sh_ttlTable s) with
      | None => Panic
      | Some (ts, set) =>
          if 0 =? u64 (ts - u64 (unix (clk (2 * fuel + 1)%nat))) then
            let t := sh_ttlTable s in
            let! s := onTable (set_ttlTable s (setTree t (avl_remove (ttl_timeTree t) ts))) unlockTree in
            let! s := evict s ts set in
            match fuel with O => Stuck | S fuel' => evictionLoop s clk fuel' end
          else Ret (set_ttlTable s (resetTimer (sh_ttlTable s) ts (clk (2 * fuel)%nat)))
      end) as -> by (by destruct fuel).
  unfold evictTake. destruct (onTable s lockTree) as [s1| |]; cbn [obind]; try done.
  destruct (avl_size (ttl_timeTree (sh_ttlTable s1)) <? 1); [cbn [obind]; by destruct (onTable s1 unlockTree)|].
  destruct (ttlPeek (sh_ttlTable s1)) as [[ts set]|]; cbn [obind]; [|done].
  destruct (0 =? u64 (ts - u64 (unix (clk (2 * fuel + 1)%nat)))); cbn [obind];
    (match goal with |- context [onTable ?x unlockTree] => destruct (onTable x unlockTree) as [s2| |] end; cbn [obind fst snd]; try done).
  destruct (evict s2 ts set) as [s3| |]; cbn [obind]; try done. by destruct fuel.
Qed.

Lemma eviction_pieces s clk :
  eviction s clk =
  let s := set_ttlTable s (setTimer (sh_ttlTable s) (timerRecv (ttl_timer (sh_ttlTable s)))) in
  let! so := evictTake s None in
  match snd so with
  | None => Ret (fst so)
  | Some (ts, set) =>
      let! s := evict (fst so) ts set in
      let! s := evictionLoop s clk (Z.to_nat (avl_size (ttl_timeTree (sh_ttlTable s)))) in
      onTable s unlockTree
  end.
Proof.
  unfold eviction, evictTake. cbn zeta. destruct (onTable _ lockTree) as [s1| |]; cbn [obind]; try done.
  destruct (avl_size (ttl_timeTree (sh_ttlTable s1)) <? 1); [by destruct (onTable s1 unlockTree)|].
  destruct (ttlPeek (sh_ttlTable s1)) as [[ts set]|]; [|done]. by destruct (onTable _ unlockTree) as [s2| |].
Qed.
End Pieces.

(** ** Interleaving *)

(** A call between two of its pieces.  [old] is the array a slice points into when the queue has replaced it. *)
Inductive paused (HS : Type) : Type :=
| PausedGet (key : gostring) (wrappedEntry : slice) (old : option (list byte))
| PausedSet (key : gostring) (entry : list byte) (duration expiryTimestamp : Z)
| PausedPut (key : gostring) (duration expiryTimestamp : Z)
| PausedDel (key : gostring) (wrappedEntry : slice) (old : option (list byte))
| PausedEvict (timeStamp : Z) (set : HS).

Arguments PausedGet {HS} _ _ _.
Arguments PausedSet {HS} _ _ _ _.
Arguments PausedPut {HS} _ _ _.
Arguments PausedDel {HS} _ _ _.
Arguments PausedEvict {HS} _ _.

(** What a piece does, seen from outside. *)
Inductive raceEvent : Type :=
| EvHit (key : gostring)
| EvMiss (key : gostring)
| EvReturns (key : gostring) (v : list byte)
| EvDrop (key : gostring)
| EvStore (e : item)
| EvFull
| EvDel (key : gostring)
| EvDelMiss (key : gostring)
| EvDelDone (key : gostring)
| EvEvict (timeStamp : Z) (keys : list gostring)
| EvTable.

Section Race.
Context {T HS TT : Type} `{!AvlTree loc T} `{!HashSet HS} `{!AvlTree HS TT}.
Context {hasher : Hasher} {platform : Platform}.
Implicit Types s : cacheShard T TT.
Implicit Types m : gmap Z item.
Implicit Types ps : list (paused HS).

(** A shard with the calls that are under way. *)
Record race : Type := Race { rc_shard : cacheShard T TT; rc_paused : list (paused HS) }.

(** The array a slice points into. *)
Definition arrayOf s (old : option (list byte)) : list byte := default (bq_array (sh_entries s)) old.

(** A queue that has grown left its array to the slices that were cut from it. *)
Definition detach s s' (p : paused HS) : paused HS :=
  if bq_capacity (sh_entries s') =? bq_capacity (sh_entries s) then p
  else
    match p with
    | PausedGet key w None => PausedGet key w (Some (bq_array (sh_entries s)))
    | PausedDel key w None => PausedDel key w (Some (bq_array (sh_entries s)))
    | _ => p
    end.

(** A [set] is modelled for keys and entries of a size the encoding can hold, in a queue below 4 GiB. *)
Definition settable (key : gostring) (entry : list byte) (d ts : Z) : Prop :=
  key_ok key /\ zlen (wrapped ts (Sum64 key) key entry) < 2 ^ 32 /\ (d = NO_EXPIRY <-> ts = NO_EXPIRY) /\ 0 <= ts < 2 ^ 64.

Inductive race_step : race -> raceEvent -> race -> Prop :=
| step_get_hit s ps key w s' :
    getLocked s key (Sum64 key) = Ret (s', GetHit w) ->
    race_step (Race s ps) (EvHit key) (Race s' (ps ++ [PausedGet key w None]))
| step_get_miss s ps key p s1 s' e :
    getLocked s key (Sum64 key) = Ret (s1, p) -> getUnlocked s1 key p [] = Ret (s', inr e) ->
    race_step (Race s ps) (EvMiss key) (Race s' ps)
| step_get_returns s ps1 ps2 key w old s' v :
    getUnlocked s key (GetHit w) (arrayOf s old) = Ret (s', inl v) ->
    race_step (Race s (ps1 ++ PausedGet key w old :: ps2)) (EvReturns key v) (Race s' (ps1 ++ ps2))
| step_set s ps key entry d epoch now s' :
    settable key entry d (expiryOf epoch d) -> setDrop s key (Sum64 key) now = Ret s' ->
    race_step (Race s ps) (EvDrop key) (Race s' (ps ++ [PausedSet key entry d (expiryOf epoch d)]))
| step_store s ps1 ps2 key entry d ts s' :
    fits32 s (zlen (wrapped ts (Sum64 key) key entry)) -> setStore s key (Sum64 key) entry ts = Ret (s', true) ->
    race_step (Race s (ps1 ++ PausedSet key entry d ts :: ps2)) (EvStore (Item ts key entry))
      (Race s' (map (detach s s') (ps1 ++ PausedPut key d ts :: ps2)))
| step_full s ps1 ps2 key entry d ts s' :
    fits32 s (zlen (wrapped ts (Sum64 key) key entry)) -> setStore s key (Sum64 key) entry ts = Ret (s', false) ->
    race_step (Race s (ps1 ++ PausedSet key entry d ts :: ps2)) EvFull (Race s' (ps1 ++ ps2))
| step_schedule s ps1 ps2 key d ts now s' :
    setSchedule s key d ts now = Ret s' ->
    race_step (Race s (ps1 ++ PausedPut key d ts :: ps2)) EvTable (Race s' (ps1 ++ ps2))
| step_del s ps key w s' :
    delLocked s key (Sum64 key) = Ret (s', inl w) ->
    race_step (Race s ps) (EvDel key) (Race s' (ps ++ [PausedDel key w None]))
| step_del_miss s ps key s1 err s' e now :
    delLocked s key (Sum64 key) = Ret (s1, inr err) -> delUnlocked s1 key (inr err) [] now = Ret (s', e) ->
    race_step (Race s ps) (EvDelMiss key) (Race s' ps)
| step_del_done s ps1 ps2 key w old s' e now :
    delUnlocked s key (inl w) (arrayOf s old) now = Ret (s', e) ->
    race_step (Race s (ps1 ++ PausedDel key w old :: ps2)) (EvDelDone key) (Race s' (ps1 ++ ps2))
| step_evict_take s ps look s' ts set :
    evictTake s look = Ret (s', Some (ts, set)) ->
    race_step (Race s ps) EvTable (Race s' (ps ++ [PausedEvict ts set]))
| step_evict_sleep s ps look s' :
    evictTake s look = Ret (s', None) ->
    race_step (Race s ps) EvTable (Race s' ps)
| step_evict s ps1 ps2 ts set s' :
    evict s ts set = Ret s' ->
    race_step (Race s (ps1 ++ PausedEvict ts set :: ps2)) (EvEvict ts (hs_values set)) (Race s' (ps1 ++ ps2)).

Inductive race_run : race -> list raceEvent -> race -> Prop :=
| run_nil c : race_run c [] c
| run_cons c ev c' evs c'' : race_step c ev c' -> race_run c' evs c'' -> race_run c (ev :: evs) c''.

(** What the events do to the map, and what they say of it. *)
Definition eventEffect m (ev : raceEvent) : gmap Z item :=
  match ev with
  | EvDrop key => delete (Sum64 key) m
  | EvStore e => <[Sum64 (it_key e) := e]> m
  | EvDel key => delete (Sum64 key) m
  | EvEvict ts keys => evictAll ts m keys
  | _ => m
  end.

Definition eventTrue m (ev : raceEvent) : Prop :=
  match ev with
  | EvHit key => exists e, m !! Sum64 key = Some e /\ it_key e = key
  | EvMiss key => getAnswer m key (Sum64 key) = inr (notFound key)
  | EvDel key => is_Some (m !! Sum64 key)
  | EvDelMiss key => m !! Sum64 key = None
  | _ => True
  end.

(** All events of a run are true of the map when they happen. *)
Fixpoint eventsTrue m (evs : list raceEvent) : Prop :=
  match evs with
  | [] => True
  | ev :: evs' => eventTrue m ev /\ eventsTrue (eventEffect m ev) evs'
  end.

(** The calls that hold the lock. *)
Definition writers ps : list gostring :=
  omap (fun p => match p with PausedSet key _ _ _ => Some key | _ => None end) ps.

Definition paused_ok (p : paused HS) : Prop :=
  match p with
  | PausedSet key entry d ts => settable key entry d ts
  | PausedPut _ d ts => d = NO_EXPIRY <-> ts = NO_EXPIRY
  | _ => True
  end.

(** A set that found the queue full left the lock behind; its entry is gone. *)
Definition lockLost s m : Prop :=
  sh_lock s = RWWrite /\ exists h live B, store_rep (delete h (sh_hashmap s)) (sh_entries s) m live B.

Definition storeState s ps m : Prop :=
  match writers ps with
  | [] => (sh_lock s = RWFree /\ exists live B, store_rep (sh_hashmap s) (sh_entries s) m live B) \/ lockLost s m
  | [key] => sh_lock s = RWWrite /\ exists live B, store_rep (delete (Sum64 key) (sh_hashmap s)) (sh_entries s) m live B
  | _ => False
  end.

Record race_inv (c : race) m : Prop := {
  ri_store : storeState (rc_shard c) (rc_paused c) m;
  ri_tree : ttl_treeLock (sh_ttlTable (rc_shard c)) = false;
  ri_paused : Forall paused_ok (rc_paused c)
}.

(** A call that will schedule the key for the timestamp, or evict it. *)
Definition promises (p : paused HS) (ts : Z) (key : gostring) : Prop :=
  match p with
  | PausedPut key' d ts' => key' = key /\ ts' = ts /\ d <> NO_EXPIRY
  | PausedEvict ts' set => ts' = ts /\ key ∈ hs_view set
  | _ => False
  end.

Definition expected (c : race) (ts : Z) (key : gostring) : Prop :=
  due (sh_ttlTable (rc_shard c)) ts key \/ exists p, p ∈ rc_paused c /\ promises p ts key.

(** Every item that expires is scheduled, or will be, or is being evicted. *)
Definition watched (c : race) m : Prop :=
  (forall key, ~ expected c NO_EXPIRY key) /\
  forall h e, m !! h = Some e -> it_ts e <> NO_EXPIRY -> expected c (it_ts e) (it_key e).

(** A deletion whose key is not stored again before it ends. *)
Definition eventCalm m (ev : raceEvent) : Prop :=
  match ev with EvDelDone key => m !! Sum64 key = None | _ => True end.

Fixpoint eventsCalm m (evs : list raceEvent) : Prop :=
  match evs with
  | [] => True
  | ev :: evs' => eventCalm m ev /\ eventsCalm (eventEffect m ev) evs'
  end.
End Race.

Arguments race T HS TT : clear implicits.

Section RaceProofs.
Context {T HS TT : Type} `{!AvlTree loc T} `{!HashSet HS} `{!AvlTree HS TT}.
Context `{!AvlTreeLaws loc T} `{!HashSetLaws HS} `{!AvlTreeLaws HS TT}.
Context {hasher : Hasher} {platform : Platform}.
Implicit Types s : cacheShard T TT.
Implicit Types m : gmap Z item.
Implicit Types ps : list (paused HS).
Implicit Types t : ttlManager TT.

(** *** The table, whatever its timer *)

Lemma ttlPut_due t (ts now : Z) (key : gostring) :
  ttl_treeLock t = false ->
  exists t', ttlPut t ts key now = Ret t' /\ ttl_treeLock t' = false /\
    (forall ts' key', due t' ts' key' <-> (ts' = ts /\ key' = key) \/ due t ts' key').
Proof.
  intros Hl. unfold ttlPut, lockTree, mutexLock. rewrite Hl. cbn [obind ttl_timeTree]. rewrite avl_get_view.
  destruct (avl_view (ttl_timeTree t) !! ts) as [s0|] eqn:E.
  - eexists. split; [reflexivity|]. split; [done|]. intros ts' key'. by apply due_put_known.
  - match goal with |- context [unlockTree ?x] => set (t2 := x) end.
    assert (ttl_treeLock t2 = true /\ ttl_timeTree t2 = avl_put (ttl_timeTree t) ts (hs_add hs_new key)) as [Hl2 Ht2].
    { unfold t2. repeat case_match; done. }
    unfold unlockTree, mutexUnlock. rewrite Hl2. eexists. split; [reflexivity|]. split; [done|].
    intros ts' key'. unfold due. cbn [ttl_timeTree]. rewrite Ht2. by apply due_put_new.
Qed.

Lemma ttlRemove_due t (ts now : Z) (key : gostring) :
  ttl_treeLock t = false ->
  exists t', ttlRemove t ts key now = Ret t' /\ ttl_treeLock t' = false /\
    (forall ts' key', due t' ts' key' <-> due t ts' key' /\ ~ (ts' = ts /\ key' = key)).
Proof.
  intros Hl. unfold ttlRemove, lockTree, mutexLock. rewrite Hl. cbn [obind ttl_timeTree]. rewrite avl_get_view.
  destruct (avl_view (ttl_timeTree t) !! ts) as [s0|] eqn:E.
  2:{ eexists. split; [reflexivity|]. split; [done|]. intros ts' key'. unfold due, dueIn. simpl. split; [|naive_solver].
      intros (s & Hs & Hin). split; [eauto|]. intros [-> _]. congruence. }
  match goal with |- context [unlockTree ?x] => set (t3 := x) end.
  assert (ttl_treeLock t3 = true /\ forall ts' key',
    dueIn (ttl_timeTree t3) ts' key' <-> dueIn (ttl_timeTree t) ts' key' /\ ~ (ts' = ts /\ key' = key)) as [Hl3 Hd3].
  { unfold t3. destruct (hs_empty (hs_remove s0 key)) eqn:Em.
    - apply hs_empty_view in Em. split; [repeat case_match; done|]. intros ts' key'.
      rewrite <- (due_put_removed _ _ ts' _ key key' E), <- (due_remove_empty _ _ _ _ _ Em).
      repeat case_match; done.
    - split; [done|]. intros ts' key'. by apply due_put_removed. }
  unfold unlockTree, mutexUnlock. rewrite Hl3. eexists. split; [reflexivity|]. split; [done|]. exact Hd3.
Qed.

(** *** The pieces on the map *)

Lemma getLocked_ok s m (live : entries) (B : blocks) (key : gostring) (h : Z) :
  sh_lock s = RWFree -> store_rep (sh_hashmap s) (sh_entries s) m live B ->
  exists p, getLocked s key h = Ret (s, p) /\
    match m !! h with
    | Some e =>
        if decide (key = it_key e)
        then exists i, p = GetHit (entrySlice i (blob h e)) /\ live !! i = Some (blob h e)
        else p = GetCollision
    | None => p = GetMiss (notFound key)
    end.
Proof.
  intros Hl Hst. unfold getLocked, rlockShard, runlockShard. rewrite Hl. cbn [rwRLock obind].
  assert (set_lock (set_lock s (RWRead 1)) RWFree = s) as Hs by (by apply set_lock_back).
  change (lookupIndex (set_lock s (RWRead 1)) h) with (lookupIndex s h).
  change (sh_lock (set_lock s (RWRead 1))) with (RWRead 1).
  change (sh_entries (set_lock s (RWRead 1))) with (sh_entries s). cbn [rwRUnlock]. rewrite decide_True by done. cbn [obind].
  destruct (m !! h) as [e|] eqn:Hm.
  - destruct (lookup_Some _ _ _ _ _ _ Hst Hm) as (i & _ & -> & -> & Hi & -> & Hok & Hb). cbn [obind].
    destruct (sr_item _ _ _ _ _ Hst _ _ Hm) as (_ & Hk & _). rewrite (readKey_wrapped _ _ _ _ _ _ Hok Hb Hk). cbn [obind].
    destruct (decide (key = it_key e)) as [->|Hne].
    + rewrite bool_decide_eq_true_2 by done. cbn [negb]. rewrite Hs. eauto.
    + rewrite bool_decide_eq_false_2 by done. cbn [negb]. rewrite Hs. eauto.
  - rewrite (lookup_None _ _ _ _ _ Hst Hm). cbn [Z.eqb]. rewrite Hs. eauto.
Qed.

(** After the first half of [set] the hash has no entry, and at most the pair of its old entry is unscheduled. *)
Lemma setDrop_ok s m (live : entries) (B : blocks) (key : gostring) (now : Z) :
  let h := Sum64 key in
  sh_lock s = RWFree -> store_rep (sh_hashmap s) (sh_entries s) m live B -> ttl_treeLock (sh_ttlTable s) = false ->
  exists s' live' B', setDrop s key h now = Ret s' /\ sh_lock s' = RWWrite /\
    store_rep (delete h (sh_hashmap s')) (sh_entries s') (delete h m) live' B' /\
    ttl_treeLock (sh_ttlTable s') = false /\
    (forall ts' key', due (sh_ttlTable s') ts' key' -> due (sh_ttlTable s) ts' key') /\
    (forall ts' key', key' <> key -> due (sh_ttlTable s) ts' key' -> due (sh_ttlTable s') ts' key').
Proof.
  intros h Hl Hst Ht. unfold setDrop, lockShard. rewrite Hl. cbn [rwLock obind]. set (s0 := set_lock s RWWrite).
  unfold dropPrevious. destruct (m !! h) as [e|] eqn:Hm.
  - destruct (lookup_Some s0 _ _ _ _ _ Hst Hm) as (i & Hi & -> & -> & Hlive & -> & Hok & Hb). cbn [negb obind].
    rewrite (readTimestamp_wrapped _ _ _ _ _ _ Hok Hb). cbn [obind].
    destruct (ttlRemove_due (sh_ttlTable s0) (u64 (it_ts e)) now key Ht) as (t' & -> & Ht' & Hdue). cbn [obind].
    destruct (discard_ok (set_ttlTable s0 t') live B i h e (sr_queue _ _ _ _ _ Hst) Hlive) as (q' & B' & -> & Hq' & _).
    eexists _, (delete i live), B'. split; [reflexivity|]. split_and!; try done.
    + by apply (store_delete _ (sh_entries s) _ _ _ B).
    + intros ts' key' Hd. by apply Hdue in Hd as [? _].
    + intros ts' key' Hne Hd. apply Hdue. split; [done|]. by intros [_ ?].
  - rewrite (lookup_None s0 _ _ _ _ Hst Hm). cbn [negb Z.eqb]. exists s0, live, B. split_and!; try done.
    rewrite !delete_id; [done|done|]. change (sh_hashmap s0) with (sh_hashmap s).
    destruct (sh_hashmap s !! h) as [i|] eqn:E; [|done]. destruct (sr_index _ _ _ _ _ Hst _ _ E) as (e & He & _). congruence.
Qed.

Lemma setStore_ok s m (live : entries) (B : blocks) (key : gostring) (entry : list byte) (d ts : Z) :
  let h := Sum64 key in
  sh_lock s = RWWrite -> store_rep (delete h (sh_hashmap s)) (sh_entries s) m live B ->
  settable key entry d ts -> fits32 s (zlen (wrapped ts h key entry)) ->
  exists s' stored live' B', setStore s key h entry ts = Ret (s', stored) /\ sh_ttlTable s' = sh_ttlTable s /\
    if stored : bool
    then sh_lock s' = RWFree /\ store_rep (sh_hashmap s') (sh_entries s') (<[h := Item ts key entry]> m) live' B'
    else sh_lock s' = RWWrite /\ store_rep (delete h (sh_hashmap s')) (sh_entries s') m live' B'.
Proof.
  intros h Hl Hst (Hk & Hlen & _ & Hts) [Hfit1 Hfit2]. unfold setStore.
  destruct (wrapEntry_Ret ts h key entry (sh_entryBuffer s)) as (buf & -> & _). cbn [obind fst snd sh_entries set_entryBuffer].
  pose proof (zlen_nonneg key). pose proof (zlen_nonneg entry).
  assert (0 < zlen (wrapped ts h key entry) < 2 ^ 32) as Hw by (split; [wrapped_lia|done]).
  destruct (Push_rep (sh_entries s) live B (wrapped ts h key entry) (sr_queue _ _ _ _ _ Hst) Hw)
    as [(q2 & i & B2 & -> & Hnew & Hq2 & _ & Hcap)|[-> _]]; cbn [obind fst snd].
  - pose proof (store_insert _ _ q2 _ _ _ B2 i (Item ts key entry) Hst) as Hst2.
    unfold blob in Hst2. cbn [it_key it_ts it_val] in Hst2. fold h in Hst2. rewrite insert_delete_eq in Hst2.
    assert (u32 i = i) as ->.
    { eapply (index_u32 q2); [exact Hq2|apply lookup_insert_eq|]. destruct Hcap as [->|[-> _]]; done. }
    unfold unlockShard. cbn [sh_lock set_hashmap set_entries set_entryBuffer]. rewrite Hl. cbn [rwUnlock obind].
    eexists _, true, _, B2. split; [reflexivity|]. split; [done|]. split; [done|]. apply Hst2; try done.
    destruct (m !! h) as [e|] eqn:E; [|done]. destruct (sr_hash _ _ _ _ _ Hst _ _ E) as [j Hj]. by rewrite lookup_delete_eq in Hj.
  - eexists _, false, live, B. split; [reflexivity|]. split; [done|]. split; [done|]. done.
Qed.

Lemma delLocked_ok s m (live : entries) (B : blocks) (key : gostring) :
  let h := Sum64 key in
  sh_lock s = RWFree -> store_rep (sh_hashmap s) (sh_entries s) m live B ->
  exists s' p live' B', delLocked s key h = Ret (s', p) /\ sh_lock s' = RWFree /\ sh_ttlTable s' = sh_ttlTable s /\
    store_rep (sh_hashmap s') (sh_entries s') (delete h m) live' B' /\
    match m !! h with
    | Some e => exists i, p = inl (entrySlice i (blob h e)) /\ live !! i = Some (blob h e)
    | None => p = inr (notFound key)
    end.
Proof.
  intros h Hl Hst. unfold delLocked, lockShard. rewrite Hl. cbn [rwLock obind]. set (s0 := set_lock s RWWrite).
  destruct (m !! h) as [e|] eqn:Hm.
  - destruct (lookup_Some s0 _ _ _ _ _ Hst Hm) as (i & Hi & -> & -> & Hlive & -> & _). cbn [obind].
    pose proof (removeEntry_ok s0 m live B h i e Hst Hm Hi) as (q' & live' & B' & Hrun & Hst' & _).
    destruct (onRemove (set_hashmap s0 (delete h (sh_hashmap s0))) (entrySlice i (blob h e))) as [s1| |];
      try discriminate Hrun. cbn [obind] in *.
    destruct (clearHash s1 (entrySlice i (blob h e))) as [s2| |]; try discriminate Hrun. cbn [obind] in *. rewrite Hrun. cbn [obind].
    unfold unlockShard. cbn [sh_lock set_entries set_removed set_hashmap s0 set_lock rwUnlock obind].
    eexists _, _, live', B'. split; [reflexivity|]. split_and!; eauto.
  - rewrite (lookup_None s0 _ _ _ _ Hst Hm). cbn [Z.eqb].
    unfold unlockShard. cbn [sh_lock s0 set_lock rwUnlock obind]. unfold s0. rewrite (set_lock_back s RWWrite Hl).
    eexists s, _, live, B. split; [reflexivity|]. rewrite delete_id by done. by split_and!.
Qed.

(** A take leaves the store alone and takes at most one set out of the table. *)
Lemma evictTake_ok s (look : option (Z * Z)) :
  ttl_treeLock (sh_ttlTable s) = false ->
  exists t' o, evictTake s look = Ret (set_ttlTable s t', o) /\ ttl_treeLock t' = false /\
    forall ts key, due (sh_ttlTable s) ts key <->
      due t' ts key \/ exists set, o = Some (ts, set) /\ key ∈ hs_view set.
Proof.
  intros Hl. unfold evictTake, onTable, lockTree, mutexLock. rewrite Hl. cbn [obind sh_ttlTable set_ttlTable ttl_timeTree].
  unfold ttlPeek. cbn [ttl_timeTree].
  destruct (avl_size (ttl_timeTree (sh_ttlTable s)) <? 1) eqn:Es.
  { cbn. eexists _, _. split; [reflexivity|]. split; [done|]. intros ts key. split; [by left|]. intros [|(set & ? & _)]; done. }
  destruct (avl_first (ttl_timeTree (sh_ttlTable s))) as [[k v]|] eqn:Ef.
  2:{ apply avl_first_None in Ef. apply tree_size_lt1 in Ef. congruence. }
  apply avl_first_Some in Ef as [Hv _].
  assert (exists t' o, Ret (set_ttlTable s (MkTtl (avl_remove (ttl_timeTree (sh_ttlTable s)) k) false (ttl_timer (sh_ttlTable s))), Some (k, v)) =
      Ret (set_ttlTable s t', o) /\ ttl_treeLock t' = false /\
      forall ts key, due (sh_ttlTable s) ts key <-> due t' ts key \/ exists set, o = Some (ts, set) /\ key ∈ hs_view set) as Htake.
  { eexists _, _. split; [reflexivity|]. split; [done|]. intros ts key. unfold due. cbn [ttl_timeTree]. rewrite dueIn_remove. split.
    - intros Hd. destruct (decide (ts = k)) as [->|]; [|by left]. right. destruct Hd as (set & Hset & Hin). exists set.
      rewrite Hv in Hset. by injection Hset as <-.
    - intros [[_ ?]|(set & [= -> ->] & Hin)]; [done|]. by exists set. }
  destruct look as [[now now']|]; [|exact Htake].
  destruct (0 =? u64 (k - u64 (unix now))); [exact Htake|]. cbn. eexists _, _. split; [reflexivity|]. split; [done|].
  intros ts key. split; [by left|]. intros [|(set & ? & _)]; done.
Qed.

(** *** The invariant *)

Lemma writers_app ps1 ps2 : writers (ps1 ++ ps2) = writers ps1 ++ writers ps2.
Proof. apply omap_app. Qed.

Lemma writers_snoc ps (p : paused HS) : writers [p] = [] -> writers (ps ++ [p]) = writers ps.
Proof. intros Hp. by rewrite writers_app, Hp, app_nil_r. Qed.

Lemma writers_middle ps1 ps2 (p : paused HS) : writers [p] = [] -> writers (ps1 ++ p :: ps2) = writers (ps1 ++ ps2).
Proof. intros Hp. change (p :: ps2) with ([p] ++ ps2). by rewrite !writers_app, Hp. Qed.

Lemma writers_detach s s' ps : writers (map (detach s s') ps) = writers ps.
Proof.
  induction ps as [|p ps IH]; [done|]. cbn [map]. change (?x :: ?l) with ([x] ++ l). rewrite !writers_app, IH. f_equal.
  unfold detach. destruct (_ =? _); [done|]. by destruct p as [? ? [|]| | |? ? [|]|].
Qed.

Lemma paused_ok_detach s s' ps : Forall paused_ok ps -> Forall paused_ok (map (detach s s') ps).
Proof.
  intros H. apply Forall_map. eapply Forall_impl; [exact H|]. intros p Hp. unfold detach. destruct (_ =? _); [done|].
  by destruct p as [? ? [|]| | |? ? [|]|].
Qed.

Lemma paused_ok_drop ps1 ps2 (p : paused HS) :
  Forall paused_ok (ps1 ++ p :: ps2) -> paused_ok p /\ Forall paused_ok (ps1 ++ ps2).
Proof. rewrite !Forall_app, Forall_cons. tauto. Qed.

Lemma paused_ok_snoc ps (p : paused HS) : Forall paused_ok ps -> paused_ok p -> Forall paused_ok (ps ++ [p]).
Proof. intros H Hp. apply Forall_app. split; [done|]. by apply Forall_singleton. Qed.

(** Pieces that touch neither the store nor its lock. *)
Lemma storeState_same s s' ps ps' m :
  writers ps' = writers ps -> sh_hashmap s' = sh_hashmap s -> sh_entries s' = sh_entries s -> sh_lock s' = sh_lock s ->
  storeState s ps m -> storeState s' ps' m.
Proof. unfold storeState, lockLost. intros -> -> -> ->. done. Qed.

Lemma storeState_free s ps m :
  storeState s ps m -> sh_lock s <> RWWrite ->
  writers ps = [] /\ sh_lock s = RWFree /\ exists live B, store_rep (sh_hashmap s) (sh_entries s) m live B.
Proof.
  unfold storeState. destruct (writers ps) as [|key [|key' ws]]; [|by intros [? _]|done].
  intros [[Hl Hst]|[Hl _]] Hw; [done|congruence].
Qed.

Lemma storeState_idle s ps m (live : entries) (B : blocks) :
  writers ps = [] -> sh_lock s = RWFree -> store_rep (sh_hashmap s) (sh_entries s) m live B -> storeState s ps m.
Proof. intros Hw Hl Hst. unfold storeState. rewrite Hw. left. eauto. Qed.

Lemma storeState_item s ps m :
  storeState s ps m -> forall h e, m !! h = Some e -> h = Sum64 (it_key e) /\ key_ok (it_key e) /\ 0 <= it_ts e < 2 ^ 64.
Proof.
  unfold storeState, lockLost. destruct (writers ps) as [|key [|key' ws]]; [|intros (_ & live & B & Hst)|done].
  - by intros [(_ & live & B & Hst)|(_ & h & live & B & Hst)]; intros h' e'; apply (sr_item _ _ _ _ _ Hst).
  - intros h' e'. apply (sr_item _ _ _ _ _ Hst).
Qed.

(** The call that holds the lock is the only one. *)
Lemma storeState_writer s ps1 ps2 key entry d ts m :
  storeState s (ps1 ++ PausedSet key entry d ts :: ps2) m ->
  writers (ps1 ++ ps2) = [] /\ sh_lock s = RWWrite /\
  exists live B, store_rep (delete (Sum64 key) (sh_hashmap s)) (sh_entries s) m live B.
Proof.
  unfold storeState. change (PausedSet key entry d ts :: ps2) with ([PausedSet key entry d ts] ++ ps2).
  rewrite !writers_app. change (writers [PausedSet key entry d ts]) with [key].
  destruct (writers ps1) as [|k ws1]; cbn [app].
  - by destruct (writers ps2).
  - by destruct ws1.
Qed.

(** What the lock must be for a piece that takes it. *)
Lemma locked_piece {A : Type} s (f : cacheShard T TT -> outcome A) (a : A) :
  (let! s := lockShard s in f s) = Ret a -> sh_lock s <> RWWrite.
Proof. unfold lockShard. by destruct (sh_lock s). Qed.

Lemma rlocked_piece {A : Type} s (f : cacheShard T TT -> outcome A) (a : A) :
  (let! s := rlockShard s in f s) = Ret a -> sh_lock s <> RWWrite.
Proof. unfold rlockShard. by destruct (sh_lock s). Qed.

(** *** The schedule *)

Lemma watched_change (c c' : race T HS TT) m m' :
  (forall key, expected c' NO_EXPIRY key -> expected c NO_EXPIRY key) ->
  (forall h e, m' !! h = Some e -> it_ts e <> NO_EXPIRY ->
     expected c' (it_ts e) (it_key e) \/
     (m !! h = Some e /\ (expected c (it_ts e) (it_key e) -> expected c' (it_ts e) (it_key e)))) ->
  watched c m -> watched c' m'.
Proof.
  intros H0 Hm [Hn Hw]. split; [intros key He; by apply (Hn key), H0|]. intros h e He Ht.
  destruct (Hm h e He Ht) as [|[He' Himp]]; [done|]. apply Himp. by apply (Hw h).
Qed.

(** The pieces that leave the table alone, or only wait. *)
Lemma watched_same (c c' : race T HS TT) m m' :
  (forall ts key, expected c' ts key <-> expected c ts key) -> m' ⊆ m -> watched c m -> watched c' m'.
Proof.
  intros He Hsub. apply watched_change; [intros key; apply He|]. intros h e Hh _. right.
  split; [by eapply lookup_weaken|apply He].
Qed.

Lemma expected_snoc s ps (p : paused HS) ts key :
  expected (Race s (ps ++ [p])) ts key <-> expected (Race s ps) ts key \/ promises p ts key.
Proof. unfold expected. cbn [rc_shard rc_paused]. setoid_rewrite elem_of_app. setoid_rewrite list_elem_of_singleton. naive_solver. Qed.

Lemma expected_middle s ps1 ps2 (p : paused HS) ts key :
  expected (Race s (ps1 ++ p :: ps2)) ts key <-> expected (Race s (ps1 ++ ps2)) ts key \/ promises p ts key.
Proof. unfold expected. cbn [rc_shard rc_paused]. setoid_rewrite elem_of_app. setoid_rewrite elem_of_cons. naive_solver. Qed.

Lemma expected_table s s' ps ts key :
  sh_ttlTable s' = sh_ttlTable s -> expected (Race s' ps) ts key <-> expected (Race s ps) ts key.
Proof. unfold expected. cbn [rc_shard rc_paused]. by intros ->. Qed.

Lemma promises_detach s s' (p : paused HS) ts key : promises (detach s s' p) ts key <-> promises p ts key.
Proof. unfold detach. destruct (_ =? _); [done|]. by destruct p as [? ? [|]| | |? ? [|]|]. Qed.

Lemma expected_detach s0 s1 s ps ts key :
  expected (Race s (map (detach s0 s1) ps)) ts key <-> expected (Race s ps) ts key.
Proof.
  unfold expected. cbn [rc_shard rc_paused]. split; (intros [|(p & Hp & Hpr)]; [by left|right]).
  - apply list_elem_of_In, in_map_iff in Hp as (p' & <- & Hp'). exists p'. rewrite <- (promises_detach s0 s1).
    split; [by apply list_elem_of_In|done].
  - exists (detach s0 s1 p). rewrite promises_detach. split; [|done]. apply list_elem_of_In, in_map, list_elem_of_In, Hp.
Qed.

Lemma evictAll_Some (ts : Z) m (keys : list gostring) (h : Z) (e : item) :
  (forall h e, m !! h = Some e -> h = Sum64 (it_key e)) ->
  evictAll ts m keys !! h = Some e -> m !! h = Some e /\ ~ (it_ts e = ts /\ it_key e ∈ keys).
Proof.
  unfold evictAll. revert m. induction keys as [|key keys IH]; intros m Hm; cbn [foldl].
  { intros He. split; [done|]. by intros [_ ?%not_elem_of_nil]. }
  intros He. apply IH in He as [He Hn].
  - unfold evictOne in He. destruct (m !! Sum64 key) as [e'|] eqn:E.
    + destruct (it_ts e' =? ts) eqn:Et; zbool.
      * apply lookup_delete_Some in He as [Hne He]. split; [done|]. intros [H1 [<-|H2]%elem_of_cons]; [|tauto].
        apply Hne. symmetry. by apply Hm.
      * split; [done|]. intros [H1 [<-|H2]%elem_of_cons]; [|tauto]. rewrite (Hm _ _ He) in He. congruence.
    + split; [done|]. intros [H1 [<-|H2]%elem_of_cons]; [|tauto]. rewrite (Hm _ _ He) in He. congruence.
  - intros h' e' He'. unfold evictOne in He'. destruct (m !! Sum64 key) as [e2|]; [|by apply Hm].
    destruct (it_ts e2 =? ts); [|by apply Hm]. apply lookup_delete_Some in He' as [_ He']. by apply Hm.
Qed.

(** *** Steps *)

(** An event that is true of the map and leads to the map after it; the schedule is kept if it is calm. *)
Definition follows (c : race T HS TT) m (ev : raceEvent) (c' : race T HS TT) : Prop :=
  eventTrue m ev /\ race_inv c' (eventEffect m ev) /\
  (eventCalm m ev -> watched c m -> watched c' (eventEffect m ev)).

(** Steps that leave the map and the table alone. *)
Lemma follows_quiet s s' ps ps' m ev :
  eventTrue m ev -> eventEffect m ev = m -> race_inv (Race s ps) m ->
  sh_hashmap s' = sh_hashmap s -> sh_entries s' = sh_entries s -> sh_lock s' = sh_lock s ->
  sh_ttlTable s' = sh_ttlTable s -> writers ps' = writers ps -> Forall paused_ok ps' ->
  (forall ts key, expected (Race s ps') ts key <-> expected (Race s ps) ts key) ->
  follows (Race s ps) m ev (Race s' ps').
Proof.
  intros Ht He [Hst Htree Hp] H1 H2 H3 H4 Hw Hp' Hex. split; [done|]. rewrite He. split.
  - split; [by eapply storeState_same|by cbn; rewrite H4|done].
  - intros _. apply watched_same; [|done]. intros ts key. by rewrite (expected_table s s' ps' ts key H4), Hex.
Qed.

Lemma follows_get s ps m key s' p :
  race_inv (Race s ps) m -> getLocked s key (Sum64 key) = Ret (s', p) ->
  s' = s /\ match p with
            | GetHit w => eventTrue m (EvHit key)
            | GetMiss e => e = notFound key /\ eventTrue m (EvMiss key)
            | GetCollision => eventTrue m (EvMiss key)
            end.
Proof.
  intros H Hg. pose proof (rlocked_piece _ _ _ Hg) as Hl.
  destruct (storeState_free _ _ _ (ri_store _ _ H) Hl) as (_ & Hf & live & B & Hst). cbn [rc_shard] in *.
  destruct (getLocked_ok s m live B key (Sum64 key) Hf Hst) as (p' & Hp & Hm). rewrite Hg in Hp. injection Hp as -> <-.
  split; [done|]. unfold eventTrue, getAnswer. destruct (m !! Sum64 key) as [e|]; [|by rewrite Hm].
  destruct (decide (key = it_key e)) as [->|]; [|by rewrite Hm]. destruct Hm as (i & -> & _). eauto.
Qed.

Lemma follows_hit s ps m key w s' :
  race_inv (Race s ps) m -> getLocked s key (Sum64 key) = Ret (s', GetHit w) ->
  follows (Race s ps) m (EvHit key) (Race s' (ps ++ [PausedGet key w None])).
Proof.
  intros H Hg. destruct (follows_get s ps m key s' _ H Hg) as [-> Ht].
  apply follows_quiet; try done; [by apply writers_snoc|by apply paused_ok_snoc; [apply H|]|].
  intros ts k. rewrite expected_snoc. cbn [promises]. tauto.
Qed.

Lemma follows_miss s ps m key p s1 s' e :
  race_inv (Race s ps) m -> getLocked s key (Sum64 key) = Ret (s1, p) -> getUnlocked s1 key p [] = Ret (s', inr e) ->
  follows (Race s ps) m (EvMiss key) (Race s' ps).
Proof.
  intros H Hg Hu. destruct (follows_get s ps m key s1 p H Hg) as [-> Ht].
  destruct p as [err| |w]; cbn [getUnlocked] in Hu.
  - injection Hu as <- _. apply follows_quiet; try done; [apply Ht|apply H].
  - injection Hu as <- _. apply follows_quiet; try done. apply H.
  - destruct (readEntry [] w); discriminate Hu.
Qed.

Lemma follows_returns s ps1 ps2 m key w old s' v :
  race_inv (Race s (ps1 ++ PausedGet key w old :: ps2)) m -> getUnlocked s key (GetHit w) (arrayOf s old) = Ret (s', inl v) ->
  follows (Race s (ps1 ++ PausedGet key w old :: ps2)) m (EvReturns key v) (Race s' (ps1 ++ ps2)).
Proof.
  intros H Hu. cbn [getUnlocked] in Hu. destruct (readEntry (arrayOf s old) w) as [v'| |]; try discriminate Hu. injection Hu as <- _.
  apply follows_quiet; try done.
  - by rewrite writers_middle.
  - apply (paused_ok_drop _ _ _ (ri_paused _ _ H)).
  - intros ts k. rewrite expected_middle. cbn [promises]. tauto.
Qed.

Lemma follows_drop s ps m key entry d ts now s' :
  race_inv (Race s ps) m -> settable key entry d ts -> setDrop s key (Sum64 key) now = Ret s' ->
  follows (Race s ps) m (EvDrop key) (Race s' (ps ++ [PausedSet key entry d ts])).
Proof.
  intros H Hs Hd. pose proof (locked_piece _ _ _ Hd) as Hl.
  destruct (storeState_free _ _ _ (ri_store _ _ H) Hl) as (Hw & Hf & live & B & Hst). cbn [rc_shard rc_paused] in *.
  destruct (setDrop_ok s m live B key now Hf Hst (ri_tree _ _ H)) as (s1 & live' & B' & Hd1 & Hl' & Hst' & Ht' & Hdue & Hdue').
  rewrite Hd in Hd1. injection Hd1 as <-. split; [done|]. split.
  - split; cbn [rc_shard rc_paused eventEffect]; [|done|apply paused_ok_snoc; [apply H|done]].
    unfold storeState. rewrite writers_app, Hw. cbn. eauto.
  - intros _. cbn [eventEffect]. apply watched_change.
    + intros k. rewrite expected_snoc. unfold expected. cbn [rc_shard rc_paused promises].
      intros [[Hdk|?]|[]]; [left; by apply Hdue|by right].
    + intros h e [Hne He]%lookup_delete_Some _. right. split; [done|]. rewrite expected_snoc.
      unfold expected. cbn [rc_shard rc_paused]. intros [Hdk|?]; left; [left|by right]. apply Hdue'; [|done].
      intros Hk. apply Hne. rewrite <- Hk. symmetry. by apply (sr_item _ _ _ _ _ Hst).
Qed.

Lemma follows_store s ps1 ps2 m key entry d ts s' (stored : bool) :
  race_inv (Race s (ps1 ++ PausedSet key entry d ts :: ps2)) m ->
  fits32 s (zlen (wrapped ts (Sum64 key) key entry)) -> setStore s key (Sum64 key) entry ts = Ret (s', stored) ->
  if stored then
    follows (Race s (ps1 ++ PausedSet key entry d ts :: ps2)) m (EvStore (Item ts key entry))
      (Race s' (map (detach s s') (ps1 ++ PausedPut key d ts :: ps2)))
  else follows (Race s (ps1 ++ PausedSet key entry d ts :: ps2)) m EvFull (Race s' (ps1 ++ ps2)).
Proof.
  intros H Hfit Hs. destruct (storeState_writer _ _ _ _ _ _ _ _ (ri_store _ _ H)) as (Hw & Hl & live & B & Hst).
  destruct (paused_ok_drop _ _ _ (ri_paused _ _ H)) as [Hset Hps]. cbn [rc_shard rc_paused paused_ok] in *.
  destruct (setStore_ok s m live B key entry d ts Hl Hst Hset Hfit) as (s1 & st & live' & B' & Hs1 & Ht & Hres).
  rewrite Hs in Hs1. injection Hs1 as <- <-. destruct stored; destruct Hres as [Hl' Hst']; (split; [done|split]).
  - split; cbn [rc_shard rc_paused eventEffect it_key]; [|by rewrite Ht; apply H|].
    + eapply storeState_idle; [by rewrite writers_detach, writers_middle|done|exact Hst'].
    + apply paused_ok_detach, Forall_app. apply Forall_app in Hps as [? ?]. split; [done|]. apply Forall_cons.
      split; [apply Hset|done].
  - intros _. cbn [eventEffect it_key].
    assert (forall ts' k', expected (Race s' (map (detach s s') (ps1 ++ PausedPut key d ts :: ps2))) ts' k' <->
      expected (Race s (ps1 ++ PausedSet key entry d ts :: ps2)) ts' k' \/ promises (PausedPut key d ts : paused HS) ts' k') as Hex.
    { intros ts' k'. rewrite expected_detach, !expected_middle, (expected_table s s') by done. cbn [promises]. tauto. }
    destruct Hset as (_ & _ & Hd & _). apply watched_change.
    + intros k. rewrite Hex. cbn [promises]. intros [|(_ & Hz & Hn)]; [done|]. by destruct Hn; apply Hd.
    + intros h e [[<- <-]|[Hne He]]%lookup_insert_Some Hts; [left|right; split; [done|]]; rewrite Hex; [|tauto].
      right. cbn in *. split_and!; try done. by intros ->%Hd.
  - split; cbn [rc_shard rc_paused eventEffect]; [|by rewrite Ht; apply H|done].
    unfold storeState. rewrite Hw. right. split; [done|eauto].
  - intros _. apply watched_same; [|done]. intros ts' k'. rewrite expected_middle, (expected_table s s') by done. cbn [promises]. tauto.
Qed.

Lemma follows_schedule s ps1 ps2 m key d ts now s' :
  race_inv (Race s (ps1 ++ PausedPut key d ts :: ps2)) m -> setSchedule s key d ts now = Ret s' ->
  follows (Race s (ps1 ++ PausedPut key d ts :: ps2)) m EvTable (Race s' (ps1 ++ ps2)).
Proof.
  intros H Hs. destruct (paused_ok_drop _ _ _ (ri_paused _ _ H)) as [Hd Hps]. cbn [rc_paused paused_ok] in *.
  unfold setSchedule in Hs. destruct (d =? NO_EXPIRY) eqn:Ed; zbool; cbn [negb] in Hs.
  - injection Hs as <-. apply follows_quiet; try done; [by rewrite writers_middle|].
    intros ts' k'. rewrite expected_middle. cbn [promises]. tauto.
  - destruct (ttlPut_due (sh_ttlTable s) ts now key (ri_tree _ _ H)) as (t' & Ht & Htree & Hdue). rewrite Ht in Hs. injection Hs as <-.
    split; [done|]. split.
    + split; [|done|done]. eapply storeState_same; [..|exact (ri_store _ _ H)]; try done. cbn [rc_paused]. by rewrite writers_middle.
    + intros _. apply watched_same; [|done]. intros ts' k'. rewrite expected_middle. unfold expected.
      cbn [rc_shard rc_paused sh_ttlTable set_ttlTable promises]. rewrite Hdue. split; [naive_solver|].
      intros [|(-> & -> & _)]; tauto.
Qed.

Lemma follows_del s ps m key s' p :
  race_inv (Race s ps) m -> delLocked s key (Sum64 key) = Ret (s', p) ->
  match p with
  | inl w => follows (Race s ps) m (EvDel key) (Race s' (ps ++ [PausedDel key w None]))
  | inr _ => follows (Race s ps) m (EvDelMiss key) (Race (delmiss s') ps)
  end.
Proof.
  intros H Hd. pose proof (locked_piece _ _ _ Hd) as Hl.
  destruct (storeState_free _ _ _ (ri_store _ _ H) Hl) as (Hw & Hf & live & B & Hst). cbn [rc_shard rc_paused] in *.
  destruct (delLocked_ok s m live B key Hf Hst) as (s1 & p1 & live' & B' & Hd1 & Hl' & Ht & Hst' & Hp).
  rewrite Hd in Hd1. injection Hd1 as <- <-. destruct (m !! Sum64 key) as [e|] eqn:Hm.
  - destruct Hp as (i & -> & _). split; [by exists e|]. split.
    + split; cbn [rc_shard rc_paused eventEffect]; [|by rewrite Ht; apply H|apply paused_ok_snoc; [apply H|done]].
      eapply storeState_idle; [by rewrite writers_snoc|done|exact Hst'].
    + intros _. cbn [eventEffect]. apply watched_same; [|apply delete_subseteq]. intros ts k.
      rewrite expected_snoc, (expected_table s s') by done. cbn [promises]. tauto.
  - rewrite Hp. split; [done|]. cbn [eventEffect]. rewrite delete_id in Hst' by done. split.
    + split; cbn [rc_shard rc_paused]; [|cbn; by rewrite Ht; apply H|apply H]. by eapply storeState_idle.
    + intros _. apply watched_same; [|done]. intros ts k. by apply (expected_table s (delmiss s')).
Qed.

Lemma follows_del_done s ps1 ps2 m key w old s' e now :
  race_inv (Race s (ps1 ++ PausedDel key w old :: ps2)) m -> delUnlocked s key (inl w) (arrayOf s old) now = Ret (s', e) ->
  follows (Race s (ps1 ++ PausedDel key w old :: ps2)) m (EvDelDone key) (Race s' (ps1 ++ ps2)).
Proof.
  intros H Hu. cbn [delUnlocked] in Hu. destruct (readTimestampFromEntry (arrayOf s old) w) as [ts| |]; try discriminate Hu.
  cbn [obind] in Hu. destruct (ttlRemove_due (sh_ttlTable s) ts now key (ri_tree _ _ H)) as (t' & Ht & Htree & Hdue).
  rewrite Ht in Hu. injection Hu as <- _. split; [done|]. split.
  - split; [|done|apply (paused_ok_drop _ _ _ (ri_paused _ _ H))].
    eapply storeState_same; [..|exact (ri_store _ _ H)]; try done. cbn [rc_paused]. by rewrite writers_middle.
  - intros Hcalm. cbn [eventEffect eventCalm] in *. apply watched_change.
    + intros k. rewrite expected_middle. unfold expected. cbn [rc_shard rc_paused]. intros [Hd|?]; left; [left|by right].
      by apply Hdue in Hd as [? _].
    + intros h e' He' _. right. split; [done|]. rewrite expected_middle. unfold expected. cbn [rc_shard rc_paused promises].
      intros [[Hd|?]|[]]; [left|by right]. apply Hdue. split; [done|]. intros [_ Hk].
      destruct (storeState_item _ _ _ (ri_store _ _ H) h e' He') as [Hh _]. rewrite Hh, Hk in He'. congruence.
Qed.

Lemma follows_take s ps m look s' o :
  race_inv (Race s ps) m -> evictTake s look = Ret (s', o) ->
  follows (Race s ps) m EvTable (Race s' (match o with Some (ts, set) => ps ++ [PausedEvict ts set] | None => ps end)).
Proof.
  intros H He. destruct (evictTake_ok s look (ri_tree _ _ H)) as (t' & o' & He' & Htree & Hdue).
  rewrite He in He'. injection He' as -> <-. split; [done|]. destruct o as [[ts set]|]; split.
  - split; [|done|apply paused_ok_snoc; [apply H|done]].
    eapply storeState_same; [..|exact (ri_store _ _ H)]; try done. cbn [rc_paused]. by rewrite writers_snoc.
  - intros _. apply watched_same; [|done]. intros ts' k'. rewrite expected_snoc. unfold expected.
    cbn [rc_shard rc_paused sh_ttlTable set_ttlTable promises]. rewrite Hdue. naive_solver.
  - split; [|done|apply H]. by eapply storeState_same; [..|exact (ri_store _ _ H)].
  - intros _. apply watched_same; [|done]. intros ts' k'. unfold expected.
    cbn [rc_shard rc_paused sh_ttlTable set_ttlTable]. rewrite Hdue. naive_solver.
Qed.

Lemma follows_evict s ps1 ps2 m ts set s' :
  race_inv (Race s (ps1 ++ PausedEvict ts set :: ps2)) m -> evict s ts set = Ret s' ->
  follows (Race s (ps1 ++ PausedEvict ts set :: ps2)) m (EvEvict ts (hs_values set)) (Race s' (ps1 ++ ps2)).
Proof.
  intros H He. pose proof (locked_piece _ _ _ He) as Hl.
  destruct (storeState_free _ _ _ (ri_store _ _ H) Hl) as (Hw & Hf & live & B & Hst). cbn [rc_shard rc_paused] in *.
  destruct (evictDel_ok s m live B ts set Hst Hf) as (s1 & live' & B' & He1 & Hst' & Hl' & Ht).
  unfold evict in He. rewrite He in He1. injection He1 as <-. split; [done|]. split.
  - split; cbn [rc_shard rc_paused eventEffect]; [|by rewrite Ht; apply H|apply (paused_ok_drop _ _ _ (ri_paused _ _ H))].
    eapply storeState_idle; [|done|exact Hst']. by rewrite writers_middle in Hw.
  - intros _. cbn [eventEffect]. apply watched_change.
    + intros k. rewrite expected_middle, (expected_table s s') by done. tauto.
    + intros h e Hh _. right. apply evictAll_Some in Hh as [Hh Hn]; [|intros h' e' He'; by apply (sr_item _ _ _ _ _ Hst)].
      split; [done|]. rewrite expected_middle, (expected_table s s') by done. cbn [promises].
      intros [|[-> Hin]]; [done|]. destruct Hn. split; [done|]. by apply hs_values_view.
Qed.

(** Every step does what its event says. *)
Lemma race_step_follows (c c' : race T HS TT) m ev : race_inv c m -> race_step c ev c' -> follows c m ev c'.
Proof.
  intros H Hs. destruct Hs.
  - by apply follows_hit.
  - by eapply follows_miss.
  - by apply follows_returns.
  - by eapply follows_drop.
  - by eapply (follows_store _ _ _ _ _ _ _ _ _ true).
  - by eapply (follows_store _ _ _ _ _ _ _ _ _ false).
  - by eapply follows_schedule.
  - by apply (follows_del _ _ _ _ _ (inl _)).
  - cbn [delUnlocked] in *. simplify_eq. by eapply (follows_del _ _ _ _ _ (inr _)).
  - by eapply follows_del_done.
  - by eapply (follows_take _ _ _ _ _ (Some (_, _))).
  - by eapply (follows_take _ _ _ _ _ None).
  - by apply follows_evict.
Qed.

(** ** Runs *)

Lemma race_run_follows (c c' : race T HS TT) m evs :
  race_inv c m -> race_run c evs c' ->
  eventsTrue m evs /\ race_inv c' (foldl eventEffect m evs) /\
  (eventsCalm m evs -> watched c m -> watched c' (foldl eventEffect m evs)).
Proof.
  intros H Hr. revert m H. induction Hr as [c|c ev c1 evs c2 Hs _ IH]; intros m H; [done|].
  destruct (race_step_follows c c1 m ev H Hs) as (Ht & H1 & Hw). destruct (IH _ H1) as (Ht' & H2 & Hw').
  cbn [eventsTrue eventsCalm foldl]. split_and!; [done|done|done|]. intros [Hc Hcs] Hw0. apply Hw'; [done|]. by apply Hw.
Qed.

Lemma shard_rep_race s m : shard_rep s m -> race_inv (Race s [] : race T HS TT) m /\ watched (Race s [] : race T HS TT) m.
Proof.
  intros [(live & B & Hst) Hl [Htree _ _] [H0 Hs]]. split; [split; [by eapply storeState_idle|done|done]|].
  split; unfold expected; cbn [rc_shard rc_paused].
  - intros key [Hd|(p & Hp & _)]; [by apply (H0 key)|by apply not_elem_of_nil in Hp].
  - intros h e He Hts. left. by apply (Hs h).
Qed.

(** C3. Calls that overlap refine the map.  Whatever calls of [get], [set] and [del] and whatever rounds of the
    eviction goroutine overlap on a shard, and wherever they are interrupted, the store is at
    every moment the map that results from the sections under the lock in the order they
    were entered: [get] hits or misses and [del] finds or misses as that map says, and when no call is under way and the lock is
    free, the hash map and the queue hold exactly its items. *)
Theorem overlapping_calls_refine_map s m evs (c' : race T HS TT) :
  shard_rep s m -> race_run (Race s []) evs c' ->
  eventsTrue m evs /\
  storeState (rc_shard c') (rc_paused c') (foldl eventEffect m evs) /\
  (rc_paused c' = [] -> sh_lock (rc_shard c') = RWFree ->
   exists live B, store_rep (sh_hashmap (rc_shard c')) (sh_entries (rc_shard c')) (foldl eventEffect m evs) live B).
Proof.
  intros Hrep Hr. destruct (shard_rep_race s m Hrep) as [H _].
  destruct (race_run_follows _ _ _ _ H Hr) as (Ht & H' & _). split; [done|]. split; [apply H'|].
  intros Hp Hl. apply (storeState_free _ _ _ (ri_store _ _ H')). by rewrite Hl.
Qed.

(** C13. Overlapping calls keep the schedule.  As long as no key is stored again while a deletion of it
    is between its two halves, every item that expires is scheduled, or the call that stores it will schedule it, or the
    eviction goroutine is about to evict it; so when no call is under way, every item that expires
    is scheduled. *)
Theorem overlapping_calls_stay_scheduled s m evs (c' : race T HS TT) :
  shard_rep s m -> race_run (Race s []) evs c' -> eventsCalm m evs ->
  watched c' (foldl eventEffect m evs) /\
  (rc_paused c' = [] -> scheduled (sh_ttlTable (rc_shard c')) (foldl eventEffect m evs)).
Proof.
  intros Hrep Hr Hc. destruct (shard_rep_race s m Hrep) as [H Hw].
  destruct (race_run_follows _ _ _ _ H Hr) as (_ & _ & Hw'). specialize (Hw' Hc Hw). split; [done|].
  intros Hp. destruct Hw' as [H0 Hs]. unfold expected in *. rewrite Hp in *. split.
  - intros key Hd. apply (H0 key). by left.
  - intros h e He Hts. destruct (Hs h e He Hts) as [|(p & Hin & _)]; [done|]. by apply not_elem_of_nil in Hin.
Qed.

(** The slice that a call holds covers the entry that its place has now. *)
Definition coversEntry s (w : slice) (h : Z) (e : item) : Prop :=
  exists i, sh_hashmap s !! h = Some i /\ w = entrySlice i (blob h e).

Lemma coversEntry_ok s m (live : entries) (B : blocks) (w : slice) (h : Z) (e : item) :
  store_rep (sh_hashmap s) (sh_entries s) m live B -> m !! h = Some e -> coversEntry s w h e ->
  sl_ok (bq_array (sh_entries s)) w /\ sl_bytes (bq_array (sh_entries s)) w = blob h e.
Proof.
  intros Hst Hm (i & Hi & ->). destruct (lookup_Some _ _ _ _ _ _ Hst Hm) as (j & Hj & _ & _ & _ & _ & Hok & Hb).
  rewrite Hi in Hj. injection Hj as <-. done.
Qed.

(** C36. [get] returns what it finds when it copies.  A [get] that found its key and released the lock returns the
    value of whatever entry its bytes hold by then: its own while that is stored, but after a deletion
    the value of another key whose entry has taken the place. *)
Theorem overtaken_get_returns_other s m key evs (c' : race T HS TT) ps1 ps2 (w : slice) (h : Z) (e : item) :
  shard_rep s m -> race_run (Race s []) (EvHit key :: evs) c' ->
  rc_paused c' = ps1 ++ PausedGet key w None :: ps2 -> sh_lock (rc_shard c') = RWFree ->
  foldl eventEffect m evs !! h = Some e -> coversEntry (rc_shard c') w h e ->
  exists c'', race_step c' (EvReturns key (it_val e)) c''.
Proof.
  intros Hrep Hr Hp Hl Hm Hcov. destruct (shard_rep_race s m Hrep) as [H _].
  destruct (race_run_follows _ _ _ _ H Hr) as (_ & H' & _). cbn [foldl eventEffect] in H'.
  destruct (storeState_free _ _ _ (ri_store _ _ H')) as (_ & _ & live & B & Hst); [by rewrite Hl|].
  destruct (coversEntry_ok _ _ _ _ _ _ _ Hst Hm Hcov) as [Hok Hb].
  destruct (sr_item _ _ _ _ _ Hst _ _ Hm) as (_ & Hk & _).
  destruct c' as [s' ps]. cbn [rc_shard rc_paused] in *. subst ps.
  exists (Race (hit s') (ps1 ++ ps2)). apply step_get_returns. cbn [getUnlocked arrayOf default].
  by rewrite (readEntry_wrapped _ _ _ _ _ _ Hok Hb Hk).
Qed.









(** C37. A deletion unschedules what was stored after it.  When a key is stored again between the halves of a
    [del] and its new entry takes the bytes of the old one, [del] reads the new timestamp and unschedules it:
    the item stays in the map, it is to expire, and nothing is left that would evict it. *)
Theorem overtaken_del_unschedules s m key evs (c' : race T HS TT) (w : slice) (e : item) now :
  shard_rep s m -> race_run (Race s []) (EvDel key :: evs) c' ->
  rc_paused c' = [PausedDel key w None] -> sh_lock (rc_shard c') = RWFree ->
  foldl eventEffect m (EvDel key :: evs) !! Sum64 key = Some e -> it_key e = key -> it_ts e <> NO_EXPIRY ->
  coversEntry (rc_shard c') w (Sum64 key) e ->
  exists s'', delUnlocked (rc_shard c') key (inl w) (arrayOf (rc_shard c') None) now = Ret (s'', None) /\
    race_step c' (EvDelDone key) (Race s'' []) /\
    race_inv (Race s'' [] : race T HS TT) (foldl eventEffect m (EvDel key :: evs)) /\
    ~ due (sh_ttlTable s'') (it_ts e) key /\ ~ scheduled (sh_ttlTable s'') (foldl eventEffect m (EvDel key :: evs)).
Proof.
  intros Hrep Hr Hp Hl Hm Hkey Hts Hcov. destruct (shard_rep_race s m Hrep) as [H _].
  destruct (race_run_follows _ _ _ _ H Hr) as (_ & H' & _). set (m' := foldl eventEffect m (EvDel key :: evs)) in *.
  destruct (storeState_free _ _ _ (ri_store _ _ H')) as (_ & _ & live & B & Hst); [by rewrite Hl|].
  destruct (coversEntry_ok _ _ _ _ _ _ _ Hst Hm Hcov) as [Hok Hb].
  destruct (sr_item _ _ _ _ _ Hst _ _ Hm) as (_ & _ & Hr64).
  destruct c' as [s' ps]. cbn [rc_shard rc_paused] in *. subst ps.
  destruct (ttlRemove_due (sh_ttlTable s') (it_ts e) now key (ri_tree _ _ H')) as (t' & Ht & _ & Hdue).
  assert (delUnlocked s' key (inl w) (arrayOf s' None) now = Ret (delhit (set_ttlTable s' t'), None)) as Hdel.
  { cbn [delUnlocked arrayOf default]. rewrite (readTimestamp_wrapped _ _ _ _ _ _ Hok Hb).
    unfold u64. rewrite Z.mod_small by done. cbn [obind]. by rewrite Ht. }
  assert (race_step (Race s' [PausedDel key w None]) (EvDelDone key) (Race (delhit (set_ttlTable s' t')) [])) as Hstep.
  { exact (step_del_done s' [] [] key w None _ None now Hdel). }
  assert (~ due t' (it_ts e) key) as Hnd by (intros [_ Hn]%Hdue; by apply Hn).
  eexists. split; [exact Hdel|]. split; [exact Hstep|]. split; [exact (proj1 (proj2 (race_step_follows _ _ _ _ H' Hstep)))|].
  split; [exact Hnd|]. intros [_ Hs]. apply Hnd. specialize (Hs _ e Hm Hts). by rewrite Hkey in Hs.
Qed.
End RaceProofs.

(** ** Playing a schedule *)

(** The next piece of a new call, or of the call at a position of the list. *)
Inductive move : Type :=
| MvGet (key : gostring)
| MvSet (key : gostring) (entry : list byte) (d epoch now : Z)
| MvDel (key : gostring)
| MvResume (n : nat) (now : Z).

Section Play.
Context {T HS TT : Type} `{!AvlTree loc T} `{!HashSet HS} `{!AvlTree HS TT}.
Context {hasher : Hasher} {platform : Platform}.
Implicit Types s : cacheShard T TT.

Definition settableb (key : gostring) (entry : list byte) (d ts : Z) : bool :=
  (headersSizeInBytes + zlen key <? 2 ^ 16) && (zlen (wrapped ts (Sum64 key) key entry) <? 2 ^ 32) &&
  Bool.eqb (d =? NO_EXPIRY) (ts =? NO_EXPIRY) && (0 <=? ts) && (ts <? 2 ^ 64).

Definition fits32b s (n : Z) : bool :=
  let q := sh_entries s in
  (bq_capacity q <=? 2 ^ 32) && (grownCapacity (bq_capacity q) (bq_maxCapacity q) (n + headerEntrySize) <=? 2 ^ 32).

(** The piece of a paused call: its event, the shard and what is left of the call. *)
Definition resume s (p : paused HS) (now : Z) : option (raceEvent * (cacheShard T TT * list (paused HS))) :=
  match p with
  | PausedGet key w old =>
      match getUnlocked s key (GetHit w) (arrayOf s old) with
      | Ret (s', inl v) => Some (EvReturns key v, (s', [])) | _ => None
      end
  | PausedSet key entry d ts =>
      if fits32b s (zlen (wrapped ts (Sum64 key) key entry)) then
        match setStore s key (Sum64 key) entry ts with
        | Ret (s', true) => Some (EvStore (Item ts key entry), (s', [PausedPut key d ts]))
        | Ret (s', false) => Some (EvFull, (s', []))
        | _ => None
        end
      else None
  | PausedPut key d ts =>
      match setSchedule s key d ts now with Ret s' => Some (EvTable, (s', [])) | _ => None end
  | PausedDel key w old =>
      match delUnlocked s key (inl w) (arrayOf s old) now with Ret (s', _) => Some (EvDelDone key, (s', [])) | _ => None end
  | PausedEvict ts set =>
      match evict s ts set with Ret s' => Some (EvEvict ts (hs_values set), (s', [])) | _ => None end
  end.

Definition play1 (c : race T HS TT) (mv : move) : option (raceEvent * race T HS TT) :=
  let 'Race s ps := c in
  match mv with
  | MvGet key =>
      match getLocked s key (Sum64 key) with
      | Ret (s', GetHit w) => Some (EvHit key, Race s' (ps ++ [PausedGet key w None])) | _ => None
      end
  | MvSet key entry d epoch now =>
      if settableb key entry d (expiryOf epoch d) then
        match setDrop s key (Sum64 key) now with
        | Ret s' => Some (EvDrop key, Race s' (ps ++ [PausedSet key entry d (expiryOf epoch d)])) | _ => None
        end
      else None
  | MvDel key =>
      match delLocked s key (Sum64 key) with
      | Ret (s', inl w) => Some (EvDel key, Race s' (ps ++ [PausedDel key w None])) | _ => None
      end
  | MvResume n now =>
      match ps !! n with
      | None => None
      | Some p =>
          match resume s p now with
          | None => None
          | Some (ev, (s', rest)) =>
              let ps' := take n ps ++ rest ++ drop (S n) ps in
              Some (ev, Race s' (match ev with EvStore _ => map (detach s s') ps' | _ => ps' end))
          end
      end
  end.

Fixpoint play (c : race T HS TT) (mvs : list move) : option (list raceEvent * race T HS TT) :=
  match mvs with
  | [] => Some ([], c)
  | mv :: mvs' =>
      match play1 c mv with
      | None => None
      | Some (ev, c1) => match play c1 mvs' with None => None | Some (evs, c2) => Some (ev :: evs, c2) end
      end
  end.

Lemma settableb_ok key entry d ts : settableb key entry d ts = true -> settable key entry d ts.
Proof.
  unfold settableb. rewrite !andb_true_iff, eqb_true_iff, !Z.ltb_lt, Z.leb_le. intros [[[[H1 H2] H3] H4] H5].
  split; [done|]. split; [done|]. split; [|done]. destruct (Z.eqb_spec d NO_EXPIRY), (Z.eqb_spec ts NO_EXPIRY); (discriminate || tauto).
Qed.

Lemma fits32b_ok s n : fits32b s n = true -> fits32 s n.
Proof. unfold fits32b. rewrite andb_true_iff, !Z.leb_le. done. Qed.

Lemma play1_step (c c' : race T HS TT) (mv : move) (ev : raceEvent) : play1 c mv = Some (ev, c') -> race_step c ev c'.
Proof.
  destruct c as [s ps]. destruct mv as [key|key entry d epoch now|key|n now]; cbn [play1]; intros H.
  - destruct (getLocked s key (Sum64 key)) as [[s' [| |w]]| |] eqn:E; try discriminate H. injection H as <- <-. by apply step_get_hit.
  - destruct (settableb key entry d (expiryOf epoch d)) eqn:Es; [|discriminate H].
    destruct (setDrop s key (Sum64 key) now) as [s'| |] eqn:E; try discriminate H. injection H as <- <-.
    apply (step_set _ _ _ _ _ _ now); [by apply settableb_ok|done].
  - destruct (delLocked s key (Sum64 key)) as [[s' [w|]]| |] eqn:E; try discriminate H. injection H as <- <-. by apply step_del.
  - destruct (ps !! n) as [p|] eqn:Ep; [|discriminate H]. rewrite <- (take_drop_middle ps n p Ep) at 1.
    destruct p as [key w old|key entry d ts|key d ts|key w old|ts set]; cbn [resume] in H.
    + destruct (getUnlocked s key (GetHit w) (arrayOf s old)) as [[s' [v|]]| |] eqn:E; try discriminate H.
      injection H as <- <-. by apply step_get_returns.
    + destruct (fits32b s _) eqn:Ef; [|discriminate H]. apply fits32b_ok in Ef.
      destruct (setStore s key (Sum64 key) entry ts) as [[s' [|]]| |] eqn:E; try discriminate H; injection H as <- <-.
      * by apply step_store.
      * by apply (step_full _ _ _ _ _ d).
    + destruct (setSchedule s key d ts now) as [s'| |] eqn:E; try discriminate H. injection H as <- <-. by eapply step_schedule.
    + destruct (delUnlocked s key (inl w) (arrayOf s old) now) as [[s' e]| |] eqn:E; try discriminate H. injection H as <- <-.
      by eapply step_del_done.
    + destruct (evict s ts set) as [s'| |] eqn:E; try discriminate H. injection H as <- <-. by apply step_evict.
Qed.

Lemma play_run (c c' : race T HS TT) (mvs : list move) (evs : list raceEvent) :
  play c mvs = Some (evs, c') -> race_run c evs c'.
Proof.
  revert c evs. induction mvs as [|mv mvs IH]; intros c evs H; cbn [play] in H; [injection H as <- <-; constructor|].
  destruct (play1 c mv) as [[ev c1]|] eqn:E; [|discriminate H]. destruct (play c1 mvs) as [[evs' c2]|] eqn:E'; [|discriminate H].
  injection H as <- <-. econstructor; [by apply (play1_step c c1 mv)|by apply IH].
Qed.
End Play.

(** ** Witnesses *)

#[local] Abbreviation shard := (cacheShard (gmap Z loc) (gmap Z (gset gostring))).
#[local] Abbreviation shardRace := (race (gmap Z loc) (gset gostring) (gmap Z (gset gostring))).

(** Another key, and another value of the same length. *)
Definition keyL : gostring := ["l"]%byte.
Definition valX : list byte := ["x"; "y"]%byte.

(** [keyK] was stored for five seconds; [get] of it, overtaken by its deletion and a [set] of another key. *)
Definition getMoves : list move :=
  [MvGet keyK; MvDel keyK; MvResume 1 (101 * Second); MvSet keyL valX 0 101 (101 * Second); MvResume 1 (101 * Second);
   MvResume 1 (101 * Second)].

(** [del] of it, overtaken by a [set] of the same key for seven seconds. *)
Definition delMoves : list move :=
  [MvDel keyK; MvSet keyK valX (7 * Second) 101 (101 * Second); MvResume 1 (101 * Second); MvResume 1 (101 * Second)].

(** The same calls one after the other. *)
Definition calmMoves : list move :=
  [MvDel keyK; MvResume 0 (101 * Second); MvSet keyK valX (7 * Second) 101 (101 * Second); MvResume 0 (101 * Second);
   MvResume 0 (101 * Second)].

Definition played (s : shard) (mvs : list move) : shardRace :=
  match play (Race s []) mvs with Some (_, c) => c | None => Race s [] end.

Definition events (s : shard) (mvs : list move) : list raceEvent :=
  match play (Race s [] : shardRace) mvs with Some (evs, _) => evs | None => [] end.

Lemma played_run (s : shard) (mvs : list move) :
  match play (Race s [] : shardRace) mvs with Some _ => true | None => false end = true ->
  race_run (Race s [] : shardRace) (events s mvs) (played s mvs).
Proof.
  unfold played, events. destruct (play (Race s [] : shardRace) mvs) as [[evs c]|] eqn:E; [|discriminate]. intros _. by apply (play_run _ _ mvs).
Qed.

Definition itemFive : gmap Z item := {[Sum64 keyK := Item 105 keyK valV]}.

Lemma overlapping_calls_refine_map_witness :
  eventsTrue itemFive (events shardFive getMoves) /\
  storeState (rc_shard (played shardFive getMoves)) (rc_paused (played shardFive getMoves))
    (foldl eventEffect itemFive (events shardFive getMoves)) /\
  length (rc_paused (played shardFive getMoves)) = 1%nat.
Proof.
  destruct (overlapping_calls_refine_map shardFive itemFive (events shardFive getMoves) (played shardFive getMoves))
    as (H1 & H2 & _).
  - exact shardFive_rep.
  - apply played_run. vm_compute. reflexivity.
  - split; [exact H1|]. split; [exact H2|]. vm_compute. reflexivity.
Defined.

Lemma overlapping_calls_stay_scheduled_witness :
  scheduled (sh_ttlTable (rc_shard (played shardFive calmMoves))) (foldl eventEffect itemFive (events shardFive calmMoves)).
Proof.
  destruct (overlapping_calls_stay_scheduled shardFive itemFive (events shardFive calmMoves) (played shardFive calmMoves)) as [_ H].
  - exact shardFive_rep.
  - apply played_run. vm_compute. reflexivity.
  - assert (events shardFive calmMoves = [EvDel keyK; EvDelDone keyK; EvDrop keyK; EvStore (Item 108 keyK valX); EvTable]) as ->
      by (vm_compute; reflexivity).
    cbn [eventsCalm eventEffect eventCalm]. split; [exact I|]. split; [apply lookup_delete_eq|]. auto.
  - apply H. vm_compute. reflexivity.
Defined.

(** The entry of [keyL] is where that of [keyK] was, and [get] of [keyK] returns its value. *)
Definition sliceOf (c : shardRace) : slice :=
  match rc_paused c with PausedGet _ w _ :: _ => w | PausedDel _ w _ :: _ => w | _ => Slice 0 0 end.

Lemma overtaken_get_returns_other_witness :
  exists c'', race_step (played shardFive getMoves) (EvReturns keyK valX) c''.
Proof.
  assert (events shardFive getMoves = EvHit keyK :: [EvDel keyK; EvDelDone keyK; EvDrop keyL; EvStore (Item 0 keyL valX); EvTable]) as E
    by (vm_compute; reflexivity).
  apply (overtaken_get_returns_other shardFive itemFive keyK [EvDel keyK; EvDelDone keyK; EvDrop keyL; EvStore (Item 0 keyL valX); EvTable]
    (played shardFive getMoves) [] [] (sliceOf (played shardFive getMoves)) (Sum64 keyL) (Item 0 keyL valX)).
  - exact shardFive_rep.
  - rewrite <- E. apply played_run. vm_compute. reflexivity.
  - vm_compute. reflexivity.
  - vm_compute. reflexivity.
  - cbn [foldl eventEffect it_key]. apply lookup_insert_eq.
  - exists 1. split; vm_compute; reflexivity.
Defined.

Lemma overtaken_del_unschedules_witness :
  exists s'', race_step (played shardFive delMoves) (EvDelDone keyK) (Race s'' []) /\
    ~ due (sh_ttlTable s'') 108 keyK /\
    ~ scheduled (sh_ttlTable s'') (foldl eventEffect itemFive (events shardFive delMoves)).
Proof.
  assert (events shardFive delMoves = EvDel keyK :: [EvDrop keyK; EvStore (Item 108 keyK valX); EvTable]) as E
    by (vm_compute; reflexivity).
  destruct (overtaken_del_unschedules shardFive itemFive keyK [EvDrop keyK; EvStore (Item 108 keyK valX); EvTable]
    (played shardFive delMoves) (sliceOf (played shardFive delMoves)) (Item 108 keyK valX) (101 * Second))
    as (s'' & _ & Hs & _ & Hd & Hn).
  - exact shardFive_rep.
  - rewrite <- E. apply played_run. vm_compute. reflexivity.
  - vm_compute. reflexivity.
  - vm_compute. reflexivity.
  - cbn [foldl eventEffect it_key]. apply lookup_insert_eq.
  - reflexivity.
  - discriminate.
  - exists 1. split; vm_compute; reflexivity.
  - exists s''. split; [exact Hs|]. split; [exact Hd|]. rewrite E. exact Hn.
Defined.

(** *** A [get] that panics *)








