(* ===== verification/BigCache.v ===== *)
(** * The cache ([bigcache/bigcache.go])

    A cache is a power of two of shards; the low bits of a key's hash choose the
    shard.  The operations hash the key, find the shard and run the shard's
    operation; [cache_rep] relates the shards to one finite map from hashes to
    items, the union of the shards' maps. *)

From stdpp Require Import base decidable countable list gmap.
From Stdlib Require Import ZArith Lia Strings.Byte.
From S2P Require Import Prelude.
From S2P Require Import GoLib.
From S2P Require Import FreeList.
From S2P Require Import BytesQueue.
From S2P Require Import Encoding.
From S2P Require Import Hash.
From S2P Require Import Config.
From S2P Require Import GoTime.
From S2P Require Import Ttl.
From S2P Require Import Shard.

(** The hasher is a class argument and the clock a reading passed to the
    operations that take one. *)
Record BigCache (T TT : Type) : Type := MkBigCache {
  bc_shards : list (cacheShard T TT);
  bc_lifeWindow : Z;
  bc_config : Config;
  bc_shardMask : Z;
  bc_maxShardSize : Z
}.

Arguments MkBigCache {T TT} _ _ _ _ _.
Arguments bc_shards {T TT} _.
Arguments bc_lifeWindow {T TT} _.
Arguments bc_config {T TT} _.
Arguments bc_shardMask {T TT} _.
Arguments bc_maxShardSize {T TT} _.

(** [fmt.Errorf("Shards number must be power of two")] *)
Inductive configError : Type := ShardsNotPowerOfTwo.

Section BigCacheOps.
Context {T HS TT : Type} `{!AvlTree loc T} `{!HashSet HS} `{!AvlTree HS TT}.
Context {hasher : Hasher} {platform : Platform}.
Implicit Types c : BigCache T TT.

Definition set_shards c (shards : list (cacheShard T TT)) : BigCache T TT :=
  MkBigCache shards (bc_lifeWindow c) (bc_config c) (bc_shardMask c) (bc_maxShardSize c).

(** The loop of [newBigCache], from shard [i] on; [clk i] is the time at which
    shard [i] creates its timer. *)
Fixpoint initShards (config : Config) (clk : nat -> Z) (i n : nat) : outcome (list (cacheShard T TT)) :=
  match n with
  | O => Ret []
  | S n' =>
      let! s := initNewShard config (cfg_OnRemove config) (clk i) (u64 (Z.of_nat i + 1)) in
      let! ss := initShards config clk (S i) n' in
      Ret (s :: ss)
  end.

Definition newBigCache (config : Config) (clk : nat -> Z) : outcome (BigCache T TT + configError) :=
  if negb (isPowerOfTwo (cfg_Shards config)) then Ret (inr ShardsNotPowerOfTwo)
  else if cfg_Shards config <? 0 then Panic
  else
    let! max := maximumShardSize config in
    let! shards := initShards config clk 0 (Z.to_nat (cfg_Shards config)) in
    Ret (inl (MkBigCache shards (durationSeconds (cfg_LifeWindow config)) config
                (u64 (i64 (cfg_Shards config - 1))) (u32 max))).

Definition NewBigCache (config : Config) (clk : nat -> Z) : outcome (BigCache T TT + configError) :=
  newBigCache config clk.

(** [c.shards[hashedKey & c.shardMask]]: the position, when it is in range. *)
Definition getShard c (hashedKey : Z) : outcome (nat * cacheShard T TT) :=
  let i := Z.to_nat (Z.land hashedKey (bc_shardMask c)) in
  match bc_shards c !! i with
  | Some s => Ret (i, s)
  | None => Panic
  end.

(** Runs a method of the shard of a hash. *)
Definition onShard {A : Type} c (hashedKey : Z) (f : cacheShard T TT -> outcome (cacheShard T TT * A))
  : outcome (BigCache T TT * A) :=
  let! r := getShard c hashedKey in
  let! sa := f (snd r) in
  Ret (set_shards c (<[fst r := fst sa]> (bc_shards c)), snd sa).

Definition Get c (key : gostring) : outcome (BigCache T TT * (list byte + cacheError)) :=
  let hashedKey := Sum64 key in
  onShard c hashedKey (fun shard => shardGet shard key hashedKey).

Definition Set_ c (key : gostring) (entry : list byte) (duration epoch now : Z)
  : outcome (BigCache T TT * (Z * option cacheError)) :=
  let hashedKey := Sum64 key in
  onShard c hashedKey (fun shard => shardSet shard key hashedKey entry duration epoch now).

Definition Delete c (key : gostring) (now : Z) : outcome (BigCache T TT * option cacheError) :=
  let hashedKey := Sum64 key in
  onShard c hashedKey (fun shard => shardDel shard key hashedKey now).

(** The loops over the shards. *)
Fixpoint resetShards (config : Config) (shards : list (cacheShard T TT)) : outcome (list (cacheShard T TT)) :=
  match shards with
  | [] => Ret []
  | s :: shards' =>
      let! s := shardReset s config in
      let! ss := resetShards config shards' in
      Ret (s :: ss)
  end.

(** [Reset] always returns [nil]. *)
Definition Reset c : outcome (BigCache T TT) :=
  let! ss := resetShards (bc_config c) (bc_shards c) in
  Ret (set_shards c ss).

Fixpoint lenShards (shards : list (cacheShard T TT)) (len : Z) : outcome (list (cacheShard T TT) * Z) :=
  match shards with
  | [] => Ret ([], len)
  | s :: shards' =>
      let! r := shardLen s in
      let! rs := lenShards shards' (i64 (len + snd r)) in
      Ret (fst r :: fst rs, snd rs)
  end.

Definition Len c : outcome (BigCache T TT * Z) :=
  let! r := lenShards (bc_shards c) 0 in
  Ret (set_shards c (fst r), snd r).

(** The body of the loop of [Stats]. *)
Definition addStats (s tmp : Stats) : Stats :=
  MkStats (i64 (st_Hits s + st_Hits tmp)) (i64 (st_Misses s + st_Misses tmp))
    (i64 (st_DelHits s + st_DelHits tmp)) (i64 (st_DelMisses s + st_DelMisses tmp))
    (i64 (st_Collisions s + st_Collisions tmp)) (i64 (st_EvictCount s + st_EvictCount tmp)).

Definition cacheStats c : Stats :=
  foldl (fun s shard => addStats s (getStats shard)) noStats (bc_shards c).

(** [onEvict] of the cache; [arr] holds the bytes of the entry. *)
Definition cacheOnEvict {A : Type} c (arr : list byte) (oldestEntry : slice) (currentTimestamp : Z)
    (evict : A -> outcome A) (st : A) : outcome (A * bool) :=
  let! oldestTimestamp := readTimestampFromEntry arr oldestEntry in
  if u64 (currentTimestamp - oldestTimestamp) >? bc_lifeWindow c then
    let! st := evict st in Ret (st, true)
  else Ret (st, false).

(** The eviction goroutine of shard [i] handles a tick. *)
Definition evictionAt c (i : nat) (clk : nat -> Z) : outcome (BigCache T TT) :=
  match bc_shards c !! i with
  | None => Panic
  | Some s => let! s := eviction s clk in Ret (set_shards c (<[i := s]> (bc_shards c)))
  end.

End BigCacheOps.

(** ** The map a cache implements *)

(** The items of shard [i] of [2 ^ k]. *)
Definition part (k : Z) (i : nat) (m : gmap Z item) : gmap Z item :=
  filter (fun he => Z.to_nat (fst he mod 2 ^ k) = i) m.

Lemma part_lookup (k : Z) (m : gmap Z item) (h : Z) :
  part k (Z.to_nat (h mod 2 ^ k)) m !! h = m !! h.
Proof.
  unfold part. rewrite map_lookup_filter. destruct (m !! h); [|done]. simpl.
  by rewrite option_guard_True by done.
Qed.

Lemma part_lookup_Some (k : Z) (i : nat) (m : gmap Z item) (h : Z) (e : item) :
  part k i m !! h = Some e <-> m !! h = Some e /\ Z.to_nat (h mod 2 ^ k) = i.
Proof. unfold part. by rewrite map_lookup_filter_Some. Qed.

Lemma part_insert (k : Z) (m : gmap Z item) (h : Z) (e : item) :
  part k (Z.to_nat (h mod 2 ^ k)) (<[h:=e]> m) = <[h:=e]> (part k (Z.to_nat (h mod 2 ^ k)) m).
Proof. unfold part. by rewrite map_filter_insert_True. Qed.

Lemma part_insert_other (k : Z) (i : nat) (m : gmap Z item) (h : Z) (e : item) :
  i <> Z.to_nat (h mod 2 ^ k) -> part k i (<[h:=e]> m) = part k i m.
Proof.
  intros Hi. apply map_eq. intros h'. apply option_eq. intros e'.
  rewrite !part_lookup_Some, lookup_insert_Some. naive_solver.
Qed.

Lemma part_delete (k : Z) (i : nat) (m : gmap Z item) (h : Z) :
  part k i (delete h m) = delete h (part k i m).
Proof. unfold part. apply map_filter_delete. Qed.

Lemma part_delete_other (k : Z) (i : nat) (m : gmap Z item) (h : Z) :
  i <> Z.to_nat (h mod 2 ^ k) -> part k i (delete h m) = part k i m.
Proof.
  intros Hi. apply map_eq. intros h'. apply option_eq. intros e'.
  rewrite !part_lookup_Some, lookup_delete_Some. naive_solver.
Qed.

Section BigCacheRep.
Context {T HS TT : Type} `{!AvlTree loc T} `{!HashSet HS} `{!AvlTree HS TT}.
Context {hasher : Hasher}.
Implicit Types c : BigCache T TT.
Implicit Types m : gmap Z item.

(** [2 ^ k] shards, each implementing its part of the map. *)
Record cache_rep c (k : Z) m : Prop := {
  cr_k : 0 <= k < 63;
  cr_count : length (bc_shards c) = Z.to_nat (2 ^ k);
  cr_mask : bc_shardMask c = 2 ^ k - 1;
  cr_shards : forall i s, bc_shards c !! i = Some s -> shard_rep s (part k i m)
}.

(** A clock reading every shard's timer can work with. *)
Definition cache_clock_ok c (now : Z) : Prop := Forall (fun s => clock_ok s now) (bc_shards c).

(** No shard outgrows its 32 bit indices when a blob of [n] bytes is pushed. *)
Definition cache_fits32 c (n : Z) : Prop := Forall (fun s => fits32 s n) (bc_shards c).

(** No shard's lock is held. *)
Definition unlocked c : Prop := Forall (fun s => sh_lock s = RWFree) (bc_shards c).

(** The queue of the shard of a hash cannot grow by [n] bytes. *)
Definition atLimit c (h n : Z) : Prop :=
  exists i s, getShard c h = Ret (i, s) /\
    0 < bq_maxCapacity (sh_entries s) <= bq_capacity (sh_entries s) + headerEntrySize + n.

End BigCacheRep.

Section BigCacheProofs.
Context {T HS TT : Type} `{!AvlTree loc T} `{!HashSet HS} `{!AvlTree HS TT}.
Context `{!AvlTreeLaws loc T} `{!HashSetLaws HS} `{!AvlTreeLaws HS TT}.
Context {hasher : Hasher} {platform : Platform}.
Implicit Types c : BigCache T TT.
Implicit Types m : gmap Z item.

(** Every hash has a shard. *)
Lemma getShard_ok c (k : Z) m (h : Z) :
  cache_rep c k m ->
  let i := Z.to_nat (h mod 2 ^ k) in
  exists s, getShard c h = Ret (i, s) /\ bc_shards c !! i = Some s /\ shard_rep s (part k i m).
Proof.
  intros H i. destruct (cr_k _ _ _ H) as [Hk _].
  assert (0 < 2 ^ k) as Hp by (apply Z.pow_pos_nonneg; lia).
  assert (i < length (bc_shards c))%nat as Hi.
  { rewrite (cr_count _ _ _ H). unfold i. pose proof (Z.mod_pos_bound h (2 ^ k) Hp). lia. }
  destruct (lookup_lt_is_Some_2 _ _ Hi) as [s Hs]. exists s.
  unfold getShard. rewrite (cr_mask _ _ _ H), land_mask_mod by done. fold i. rewrite Hs.
  split_and!; [done|done|]. by apply (cr_shards _ _ _ H).
Qed.

(** Replacing the shard of a hash: the map may change at that shard only. *)
Lemma cache_rep_update c (k : Z) m m' (i : nat) s :
  cache_rep c k m -> (i < length (bc_shards c))%nat -> shard_rep s (part k i m') ->
  (forall j, j <> i -> part k j m' = part k j m) ->
  cache_rep (set_shards c (<[i:=s]> (bc_shards c))) k m'.
Proof.
  intros [Hk Hn Hm Hs] Hi Hnew Hold. split; [done| |done|].
  - simpl. by rewrite length_insert.
  - simpl. intros j s'. destruct (decide (j = i)) as [->|Hne].
    + rewrite list_lookup_insert_eq by done. by intros [= <-].
    + rewrite list_lookup_insert_ne by done. intros Hj. rewrite Hold by done. by apply Hs.
Qed.

Lemma Get_ok c (k : Z) m (key : gostring) :
  cache_rep c k m ->
  exists c', Get c key = Ret (c', getAnswer m key (Sum64 key)) /\ cache_rep c' k m.
Proof.
  intros H. destruct (getShard_ok _ _ _ (Sum64 key) H) as (s & Hg & Hi & Hs).
  unfold Get, onShard. rewrite Hg. cbn [obind fst snd]. rewrite (shardGet_ok _ _ key (Sum64 key) Hs).
  cbn [obind fst snd]. eexists. split.
  - unfold getAnswer. by rewrite part_lookup.
  - apply (cache_rep_update c k m); [done|by eapply lookup_lt_Some| |done].
    by apply getCount_rep.
Qed.

Lemma Delete_ok c (k : Z) m (key : gostring) (now : Z) :
  let h := Sum64 key in
  cache_rep c k m -> cache_clock_ok c now ->
  exists c', Delete c key now = Ret (c', if decide (is_Some (m !! h)) then None else Some (notFound key)) /\
    cache_rep c' k (delete h m).
Proof.
  intros h H Hck. destruct (getShard_ok _ _ _ h H) as (s & Hg & Hi & Hs).
  pose proof (Forall_lookup_1 _ _ _ _ Hck Hi) as Hcs.
  pose proof (shardDel_ok _ _ key now Hs Hcs) as Hdel. cbn zeta in Hdel. fold h in Hdel.
  rewrite part_lookup in Hdel.
  unfold Delete, onShard. fold h. rewrite Hg. cbn [obind fst snd].
  destruct (m !! h) as [e|] eqn:Hm.
  - destruct Hdel as (s' & -> & Hs' & _). cbn [obind fst snd]. eexists. split; [done|].
    apply (cache_rep_update c k m); [done|by eapply lookup_lt_Some|by rewrite part_delete|].
    intros j Hj. by apply part_delete_other.
  - destruct Hdel as [-> Hs']. cbn [obind fst snd]. eexists. split; [done|].
    rewrite delete_id by done.
    by apply (cache_rep_update c k m); [|eapply lookup_lt_Some| |].
Qed.

Lemma unlocked_insert c (i : nat) s :
  (i < length (bc_shards c))%nat -> unlocked (set_shards c (<[i:=s]> (bc_shards c))) -> sh_lock s = RWFree.
Proof.
  intros Hi Hu. apply (Forall_lookup_1 _ _ i _ Hu). simpl. by apply list_lookup_insert_eq.
Qed.

(** What [Set] needs of the state, the key and the clocks. *)
Record set_ok c (key : gostring) (entry : list byte) (d epoch now : Z) : Prop := {
  so_key : key_ok key;
  so_clock : cache_clock_ok c now;
  so_range : timer_range (expiryOf epoch d) (unix now);
  so_expiry : d <> NO_EXPIRY -> expiryOf epoch d <> NO_EXPIRY;
  so_len : zlen (wrapped (expiryOf epoch d) (Sum64 key) key entry) < 2 ^ 32;
  so_fits : cache_fits32 c (zlen (wrapped (expiryOf epoch d) (Sum64 key) key entry))
}.

(** [Set] returns; it stored the item, or some lock is still held. *)
Lemma Set_ok c (k : Z) m (key : gostring) (entry : list byte) (d epoch now : Z) :
  cache_rep c k m -> set_ok c key entry d epoch now ->
  exists c' r, Set_ c key entry d epoch now = Ret (c', (r, None)) /\
    (r = expiryOf epoch d /\ cache_rep c' k (<[Sum64 key:=Item (expiryOf epoch d) key entry]> m) \/
     r = 0 /\ ~ unlocked c' /\ atLimit c (Sum64 key) (zlen (wrapped (expiryOf epoch d) (Sum64 key) key entry))).
Proof.
  intros H [Hkey Hck Htr Hts Hlen Hfit]. set (h := Sum64 key).
  destruct (getShard_ok _ _ _ h H) as (s & Hg & Hi & Hs).
  pose proof (Forall_lookup_1 _ _ _ _ Hck Hi) as Hcs.
  pose proof (Forall_lookup_1 _ _ _ _ Hfit Hi) as Hfs.
  pose proof (lookup_lt_Some _ _ _ Hi) as Hlt.
  unfold Set_, onShard. fold h. rewrite Hg. cbn [obind fst snd].
  destruct (shardSet_ok s _ key entry d epoch now Hs Hkey Hcs Htr Hts Hlen Hfs)
    as [(s' & Hrun & Hs')|(s' & Hrun & Hl & Hfull)]; fold h in Hrun; rewrite Hrun; cbn [obind fst snd].
  - eexists _, _. split; [done|]. left. split; [done|].
    apply (cache_rep_update c k m); [done|done|by rewrite part_insert|].
    intros j Hj. by apply part_insert_other.
  - eexists _, _. split; [done|]. right. split; [done|]. split; [|by eexists _, s]. intros Hu.
    apply unlocked_insert in Hu; [|done]. congruence.
Qed.

(** ** Creation *)

Lemma part_empty (k : Z) (i : nat) : part k i ∅ = ∅.
Proof. apply map_filter_empty. Qed.

(** Configurations with a positive power of two of shards and sizes that are
    not negative. *)
Record config_ok (config : Config) (k : Z) : Prop := {
  co_k : 0 <= k < 63;
  co_shards : cfg_Shards config = 2 ^ k;
  co_entry : 0 <= i64 (cfg_MaxEntrySize config + headersSizeInBytes);
  co_size : forall n, initialShardSize config = Ret n -> 0 <= i64 (n * cfg_MaxEntrySize config)
}.

Lemma sizes_Ret (config : Config) (k : Z) :
  config_ok config k ->
  exists n mx, initialShardSize config = Ret n /\ maximumShardSize config = Ret mx.
Proof.
  intros [Hk Hs _ _]. pose proof (Z.pow_pos_nonneg 2 k ltac:(lia) ltac:(lia)) as Hp.
  unfold initialShardSize, maximumShardSize, goDiv. rewrite Hs.
  destruct (2 ^ k =? 0) eqn:E; zbool; [lia|]. cbn [obind]. case_if; eauto.
Qed.

Lemma initShards_ok (config : Config) (k : Z) (clk : nat -> Z) (i n : nat) :
  config_ok config k ->
  exists ss : list (cacheShard T TT), initShards config clk i n = Ret ss /\ length ss = n /\
    Forall (fun s => shard_rep s ∅) ss.
Proof.
  intros Hc. destruct (sizes_Ret _ _ Hc) as (sz & mx & Hsz & Hmx).
  revert i. induction n as [|n IH]; intros i; [by exists []|]. cbn [initShards].
  destruct (initNewShard_ok config (cfg_OnRemove config) (clk i) (u64 (Z.of_nat i + 1)) sz mx Hsz Hmx)
    as (s & -> & Hs & _); [apply Hc|by apply Hc|]. cbn [obind].
  destruct (IH (S i)) as (ss & -> & Hl & Hss). cbn [obind].
  exists (s :: ss). simpl. split_and!; [done|lia|]. by constructor.
Qed.

Lemma newBigCache_ok (config : Config) (k : Z) (clk : nat -> Z) :
  config_ok config k ->
  exists c : BigCache T TT, newBigCache config clk = Ret (inl c) /\ cache_rep c k ∅ /\ bc_config c = config.
Proof.
  intros Hc. destruct (sizes_Ret _ _ Hc) as (sz & mx & _ & Hmx).
  pose proof (co_k _ _ Hc) as Hk. pose proof (co_shards _ _ Hc) as Hsh.
  pose proof (Z.pow_pos_nonneg 2 k ltac:(lia) ltac:(lia)) as Hp.
  assert (2 ^ k < 2 ^ 63) as Hb by (apply Z.pow_lt_mono_r; lia).
  assert (isPowerOfTwo (cfg_Shards config) = true) as Hpow.
  { rewrite Hsh. apply isPowerOfTwo_spec; [unfold is_int; lia|]. right; right; eauto. }
  unfold newBigCache. rewrite Hpow, Hsh, Hmx. cbn [negb obind].
  destruct (2 ^ k <? 0) eqn:E; zbool; [lia|].
  destruct (initShards_ok config k clk 0 (Z.to_nat (2 ^ k)) Hc) as (ss & -> & Hl & Hss). cbn [obind].
  eexists. split; [done|]. split; [|done]. split; cbn; [done|done| |].
  - rewrite i64_small by (unfold is_int; lia). unfold u64. apply Z.mod_small. lia.
  - intros i s Hi. rewrite part_empty. by apply (Forall_lookup_1 _ _ _ _ Hss Hi).
Qed.

(** ** [Len] *)

(** The items of the first [n] shards. *)
Definition firstParts (k : Z) (n : nat) m : gmap Z item :=
  filter (fun he => (Z.to_nat (fst he mod 2 ^ k) < n)%nat) m.

Lemma firstParts_0 (k : Z) m : firstParts k 0 m = ∅.
Proof.
  apply map_empty. intros h. apply map_lookup_filter_None. right. intros e _. simpl. lia.
Qed.

Lemma firstParts_S (k : Z) (n : nat) m :
  firstParts k (S n) m = firstParts k n m ∪ part k n m /\ firstParts k n m ##ₘ part k n m.
Proof.
  assert (firstParts k n m ##ₘ part k n m) as Hd.
  { apply map_disjoint_spec. intros h e1 e2. unfold firstParts, part.
    rewrite !map_lookup_filter_Some. simpl. lia. }
  split; [|done]. apply map_eq. intros h. apply option_eq. intros e.
  rewrite lookup_union_Some by done. unfold firstParts, part. rewrite !map_lookup_filter_Some. simpl.
  split; [intros [He Hlt]|intros [[He Hlt]|[He Hlt]]]; [|split; [done|lia]..].
  destruct (decide (Z.to_nat (h mod 2 ^ k) = n)); [by right|left; split; [done|lia]].
Qed.

(** They are all the items when [n] is the number of shards. *)
Lemma firstParts_all c (k : Z) m : cache_rep c k m -> firstParts k (length (bc_shards c)) m = m.
Proof.
  intros H. apply map_filter_id. intros h e _. simpl.
  rewrite (cr_count _ _ _ H). pose proof (cr_k _ _ _ H).
  pose proof (Z.mod_pos_bound h (2 ^ k) ltac:(apply Z.pow_pos_nonneg; lia)). lia.
Qed.

Definition totalSize (ms : list (gmap Z item)) : nat := sum_list_with size ms.

Lemma lenShards_ok (ss : list (cacheShard T TT)) (ms : list (gmap Z item)) (acc : Z) :
  Forall2 shard_rep ss ms -> 0 <= acc -> acc + Z.of_nat (totalSize ms) < 2 ^ 63 ->
  lenShards ss acc = Ret (ss, acc + Z.of_nat (totalSize ms)).
Proof.
  unfold totalSize. intros H. revert acc.
  induction H as [|s m ss ms Hs _ IH]; intros acc Hacc Hb; simpl in *.
  { by rewrite Z.add_0_r. }
  rewrite (shardLen_ok _ _ Hs). cbn [obind fst snd].
  rewrite i64_small by (unfold is_int; lia). rewrite IH by lia. cbn [obind fst snd].
  do 2 f_equal. lia.
Qed.

(** The maps of the first [n] shards. *)
Definition parts (k : Z) (n : nat) m : list (gmap Z item) := (fun i => part k i m) <$> seq 0 n.

Lemma totalSize_parts (k : Z) (n : nat) m : totalSize (parts k n m) = size (firstParts k n m).
Proof.
  unfold totalSize, parts. induction n as [|n IH].
  - by rewrite firstParts_0, map_size_empty.
  - destruct (firstParts_S k n m) as [-> Hd]. rewrite map_size_disj_union by done.
    rewrite seq_S, fmap_app, sum_list_with_app, IH. simpl. lia.
Qed.

Lemma cache_rep_parts c (k : Z) m :
  cache_rep c k m -> Forall2 shard_rep (bc_shards c) (parts k (length (bc_shards c)) m).
Proof.
  intros H. apply Forall2_same_length_lookup. unfold parts. split.
  - by rewrite length_fmap, length_seq.
  - intros i s m' Hs Hm. rewrite list_lookup_fmap, fmap_Some in Hm. destruct Hm as (j & Hj & ->).
    apply lookup_seq in Hj as [-> _]. by apply (cr_shards _ _ _ H).
Qed.

Lemma size_parts c (k : Z) m :
  cache_rep c k m -> totalSize (parts k (length (bc_shards c)) m) = size m.
Proof. intros H. by rewrite totalSize_parts, (firstParts_all _ _ _ H). Qed.

Lemma set_shards_same c : set_shards c (bc_shards c) = c.
Proof. by destruct c. Qed.

Lemma Len_ok c (k : Z) m :
  cache_rep c k m -> Z.of_nat (size m) < 2 ^ 63 -> Len c = Ret (c, Z.of_nat (size m)).
Proof.
  intros H Hb. unfold Len. rewrite (lenShards_ok _ (parts k (length (bc_shards c)) m)).
  - cbn [obind fst snd]. rewrite (size_parts _ _ _ H), set_shards_same. done.
  - by apply cache_rep_parts.
  - lia.
  - rewrite (size_parts _ _ _ H). lia.
Qed.

(** ** Eviction *)

(** The items but those of shard [i] that expire at one of the timestamps. *)
Definition evicted (k : Z) (i : nat) (tss : list Z) m : gmap Z item :=
  filter (fun he => ~ (Z.to_nat (fst he mod 2 ^ k) = i /\ it_ts (snd he) ∈ tss)) m.

Lemma part_evicted (k : Z) (i : nat) (tss : list Z) m :
  part k i (evicted k i tss m) = withoutTs tss (part k i m).
Proof.
  apply map_eq. intros h. apply option_eq. intros e.
  unfold part, evicted, withoutTs. rewrite !map_lookup_filter_Some. simpl. tauto.
Qed.

Lemma part_evicted_other (k : Z) (i j : nat) (tss : list Z) m :
  j <> i -> part k j (evicted k i tss m) = part k j m.
Proof.
  intros Hj. apply map_eq. intros h. apply option_eq. intros e.
  unfold part, evicted. rewrite !map_lookup_filter_Some. simpl. naive_solver.
Qed.

(** A tick of shard [i]: the items of that shard that expire at the first
    timestamp of its table, and at those that the clock showed, are gone, and
    nothing else. *)
Lemma evictionAt_ok c (k : Z) m (i : nat) s (clk : nat -> Z) :
  cache_rep c k m -> bc_shards c !! i = Some s -> clocks_ok (sh_ttlTable s) clk ->
  exists c' tss, evictionAt c i clk = Ret c' /\ cache_rep c' k (evicted k i tss m) /\
    (forall ts, ts ∈ tss ->
      (exists set, ttlPeek (sh_ttlTable s) = Some (ts, set)) \/ exists n, u64 ts = u64 (unix (clk n))) /\
    (forall ts set, ttlPeek (sh_ttlTable s) = Some (ts, set) -> ts ∈ tss) /\
    NO_EXPIRY ∉ tss.
Proof.
  intros H Hi Hck. pose proof (cr_shards _ _ _ H _ _ Hi) as Hs.
  assert (exists s' tss, eviction s clk = Ret s' /\ shard_rep s' (withoutTs tss (part k i m)) /\
    (forall ts, ts ∈ tss ->
      (exists set, ttlPeek (sh_ttlTable s) = Some (ts, set)) \/ exists n, u64 ts = u64 (unix (clk n))) /\
    (forall ts set, ttlPeek (sh_ttlTable s) = Some (ts, set) -> ts ∈ tss) /\ NO_EXPIRY ∉ tss)
    as (s' & tss & Hrun & Hs' & H1 & H2 & H3).
  { destruct (ttlPeek (sh_ttlTable s)) as [[ts set]|] eqn:Hp.
    - destruct (eviction_some _ _ clk ts set Hs Hck Hp) as (s' & tss & Hrun & Hs' & _ & Hd & Hc).
      exists s', (ts :: tss). split_and!; [done|done| | |].
      + intros ts' [->|Hin]%elem_of_cons; [left; eauto|right; by apply Hc].
      + intros ts' set' [= <- <-]. apply elem_of_cons. by left.
      + intros Hin. destruct (Hd _ Hin) as [key Hk]. by apply (proj1 (shr_sched _ _ Hs) key).
    - destruct (eviction_none _ _ clk Hs Hp) as (s' & Hrun & Hs' & _).
      exists s', []. rewrite withoutTs_nil. split_and!; [done|done| |done|apply not_elem_of_nil].
      by intros ts ?%not_elem_of_nil. }
  unfold evictionAt. rewrite Hi, Hrun. cbn [obind]. eexists _, tss. split; [done|].
  split; [|done].
  apply (cache_rep_update c k m); [done|by eapply lookup_lt_Some|by rewrite part_evicted|].
  intros j Hj. by apply part_evicted_other.
Qed.

(** ** Claims *)

(** [NewBigCache] refuses a configuration exactly when its number of shards is
    not a positive power of two, with two exceptions its test lets pass: zero and
    the smallest integer. *)
Theorem newBigCache_refuses (config : Config) (clk : nat -> Z) :
  is_int (cfg_Shards config) ->
  newBigCache (T := T) (TT := TT) config clk = Ret (inr ShardsNotPowerOfTwo) <->
  ~ (exists k, 0 <= k < 63 /\ cfg_Shards config = 2 ^ k) /\
  cfg_Shards config <> 0 /\ cfg_Shards config <> - 2 ^ 63.
Proof.
  intros Hi. pose proof (isPowerOfTwo_spec _ Hi) as Hp. unfold newBigCache.
  destruct (isPowerOfTwo (cfg_Shards config)); cbn [negb].
  - split; [|tauto]. case_if; [discriminate|]. intros Hr.
    destruct (maximumShardSize config) as [mx| |]; [|discriminate..]. cbn [obind] in Hr.
    destruct (initShards config clk 0 _) as [ss| |]; discriminate.
  - split; [|done]. intros _. assert (~ false = true) as Hf by done. rewrite Hp in Hf. tauto.
Qed.

(** A new cache is empty: with a positive power of two of shards and sizes that
    are not negative, [NewBigCache] succeeds, no key is found and [Len] is 0. *)
Theorem newBigCache_empty (config : Config) (k : Z) (clk : nat -> Z) :
  config_ok config k ->
  exists c : BigCache T TT, newBigCache config clk = Ret (inl c) /\ cache_rep c k ∅ /\
    Z.of_nat (length (bc_shards c)) = cfg_Shards config /\ Len c = Ret (c, 0) /\
    forall key, exists c', Get c key = Ret (c', inr (notFound key)).
Proof.
  intros Hc. destruct (newBigCache_ok config k clk Hc) as (c & Hn & H & _).
  exists c. split_and!; [done|done| | |].
  - rewrite (cr_count _ _ _ H), (co_shards _ _ Hc). pose proof (co_k _ _ Hc).
    pose proof (Z.pow_pos_nonneg 2 k ltac:(lia) ltac:(lia)). lia.
  - apply (Len_ok _ _ _ H). rewrite map_size_empty. lia.
  - intros key. destruct (Get_ok c k ∅ key H) as (c' & Hg & _). exists c'. rewrite Hg.
    unfold getAnswer. by rewrite lookup_empty.
Qed.

(** [Set] then [Get].  After a [Set] that leaves no lock behind, [Get] of the key
    returns the stored bytes, and [Get] of every key with another hash answers as
    before the [Set]. *)
Theorem cache_set_get c (k : Z) m (key : gostring) (entry : list byte) (d epoch now : Z) :
  cache_rep c k m -> set_ok c key entry d epoch now ->
  exists c1 r, Set_ c key entry d epoch now = Ret (c1, (r, None)) /\
    (unlocked c1 ->
     r = expiryOf epoch d /\
     (exists c2, Get c1 key = Ret (c2, inl entry)) /\
     forall key', Sum64 key' <> Sum64 key ->
       exists c2 c2' a, Get c key' = Ret (c2, a) /\ Get c1 key' = Ret (c2', a)).
Proof.
  intros H Hs. destruct (Set_ok _ _ _ _ _ _ _ _ H Hs) as (c1 & r & Hset & [[-> H1]|(-> & Hl & _)]);
    exists c1; eexists; (split; [done|]); [intros _|done].
  split_and!; [done| |].
  - destruct (Get_ok _ _ _ key H1) as (c2 & Hg & _). exists c2. rewrite Hg. unfold getAnswer.
    rewrite lookup_insert_eq. simpl. by rewrite decide_True.
  - intros key' Hne. destruct (Get_ok _ _ _ key' H) as (c2 & Hg & _).
    destruct (Get_ok _ _ _ key' H1) as (c2' & Hg' & _). exists c2, c2', (getAnswer m key' (Sum64 key')).
    split; [done|]. rewrite Hg'. unfold getAnswer. by rewrite lookup_insert_ne.
Qed.

(** [Delete] then [Get].  [Delete] answers "not found" exactly when the hash has
    no item; afterwards [Get] of the key finds nothing, a second [Delete] answers
    "not found", and keys with other hashes are not affected. *)
Theorem cache_delete_get c (k : Z) m (key : gostring) (now : Z) :
  cache_rep c k m -> cache_clock_ok c now ->
  exists c1 r, Delete c key now = Ret (c1, r) /\ (r = None <-> is_Some (m !! Sum64 key)) /\
    (exists c2, Get c1 key = Ret (c2, inr (notFound key))) /\
    (cache_clock_ok c1 now -> exists c2, Delete c1 key now = Ret (c2, Some (notFound key))) /\
    forall key', Sum64 key' <> Sum64 key ->
      exists c2 c2' a, Get c key' = Ret (c2, a) /\ Get c1 key' = Ret (c2', a).
Proof.
  intros H Hck. destruct (Delete_ok _ _ _ key now H Hck) as (c1 & Hd & H1).
  eexists c1, _. split_and!; [done| | | |].
  - by destruct (decide (is_Some (m !! Sum64 key))).
  - destruct (Get_ok _ _ _ key H1) as (c2 & Hg & _). exists c2. rewrite Hg. unfold getAnswer.
    by rewrite lookup_delete_eq.
  - intros Hck1. destruct (Delete_ok _ _ _ key now H1 Hck1) as (c2 & Hd2 & _). exists c2. rewrite Hd2.
    rewrite lookup_delete_eq. rewrite decide_False; [done|]. by intros [? ?].
  - intros key' Hne. destruct (Get_ok _ _ _ key' H) as (c2 & Hg & _).
    destruct (Get_ok _ _ _ key' H1) as (c2' & Hg' & _). exists c2, c2', (getAnswer m key' (Sum64 key')).
    split; [done|]. rewrite Hg'. unfold getAnswer. by rewrite lookup_delete_ne.
Qed.
End BigCacheProofs.

(** ** Witnesses and runs of interest *)

Section BigCacheExamples.
Abbreviation cache := (BigCache (gmap Z loc) (gmap Z (gset gostring))).

(** Two shards of 100 bytes. *)
Definition config2 : Config := MkConfig 2 (3600 * Second) 0 20 10 false 0 false.

Definition clk100 : nat -> Z := fun _ => 100 * Second.

Definition noCache : cache := MkBigCache [] 0 config2 0 0.

Definition created (r : outcome (cache + configError)) : cache :=
  match r with Ret (inl c) => c | _ => noCache end.

(** The cache after an operation. *)
Definition after {A : Type} (c : cache) (r : outcome (cache * A)) : cache :=
  match r with Ret (c', _) => c' | _ => c end.

Definition answered {A : Type} (r : outcome (cache * A)) : option A :=
  match r with Ret (_, a) => Some a | _ => None end.

Definition cache2 : cache := created (newBigCache config2 clk100).

Lemma config2_ok : config_ok config2 1.
Proof.
  split; [lia|done|by vm_compute|]. intros n Hn. assert (n = 10) as -> by (vm_compute in Hn; congruence).
  by vm_compute.
Qed.

Lemma cache2_rep : cache_rep cache2 1 ∅.
Proof.
  destruct (newBigCache_ok (T := gmap Z loc) (TT := gmap Z (gset gostring)) config2 1 clk100 config2_ok)
    as (c & Hn & H & _).
  unfold cache2. by rewrite Hn.
Qed.

Lemma newBigCache_refuses_witness :
  newBigCache (T := gmap Z loc) (TT := gmap Z (gset gostring)) (SetShard config2 3) clk100 =
    Ret (inr ShardsNotPowerOfTwo) <->
  ~ (exists k, 0 <= k < 63 /\ 3 = 2 ^ k) /\ 3 <> 0 /\ 3 <> - 2 ^ 63.
Proof. apply (newBigCache_refuses (SetShard config2 3) clk100). unfold is_int. simpl. lia. Defined.

Lemma newBigCache_empty_witness :
  exists c : cache, newBigCache config2 clk100 = Ret (inl c) /\ cache_rep c 1 ∅ /\
    Z.of_nat (length (bc_shards c)) = 2 /\ Len c = Ret (c, 0) /\
    forall key, exists c', Get c key = Ret (c', inr (notFound key)).
Proof. exact (newBigCache_empty config2 1 clk100 config2_ok). Defined.

Lemma cache2_shards s :
  s ∈ bc_shards cache2 ->
  (forall now, 0 <= now -> clock_ok s now) /\ bq_capacity (sh_entries s) = 100 /\
  bq_maxCapacity (sh_entries s) = 0.
Proof.
  assert (forallb (fun s => (avl_size (ttl_timeTree (sh_ttlTable s)) =? 0) &&
    (bq_capacity (sh_entries s) =? 100) && (bq_maxCapacity (sh_entries s) =? 0)) (bc_shards cache2) = true) as HF
    by (vm_compute; reflexivity).
  intros Hin. rewrite forallb_forall in HF. specialize (HF s (proj1 (list_elem_of_In _ _) Hin)).
  rewrite !andb_true_iff, !Z.eqb_eq in HF. destruct HF as [[Hz Hc] Hm].
  split_and!; [|done|done]. intros now Hn. split; [done|]. intros ts [v Hv]. rewrite avl_size_view in Hz.
  assert (avl_view (ttl_timeTree (sh_ttlTable s)) = ∅) as He by (apply map_size_empty_inv; lia).
  rewrite He, lookup_empty in Hv. discriminate Hv.
Qed.

Lemma cache2_clock : cache_clock_ok cache2 (100 * Second).
Proof. apply Forall_forall. intros s [H _]%cache2_shards. apply H. by vm_compute. Qed.

Lemma cache2_set_ok : set_ok cache2 keyK valV 0 100 (100 * Second).
Proof.
  split.
  - reflexivity.
  - exact cache2_clock.
  - exact (proj1 range_at_100).
  - done.
  - rewrite zlen_wrapped. by vm_compute.
  - apply Forall_forall. intros s (_ & Hc & Hm)%cache2_shards. unfold fits32.
    rewrite Hc, Hm, zlen_wrapped. by vm_compute.
Qed.

Definition setIn (c : cache) (key : gostring) (v : list byte) : cache :=
  after c (Set_ c key v 0 100 (100 * Second)).

(** One key in two shards. *)
Definition cacheK : cache := setIn cache2 keyK valV.

Definition unlockedb (c : cache) : bool :=
  forallb (fun s => match sh_lock s with RWFree => true | _ => false end) (bc_shards c).

Lemma unlockedb_unlocked (c : cache) : unlockedb c = true -> unlocked c.
Proof.
  unfold unlockedb, unlocked. rewrite forallb_forall, Forall_forall. intros H s Hs.
  apply list_elem_of_In in Hs. specialize (H s Hs). by destruct (sh_lock s).
Qed.

Lemma cacheK_set :
  Set_ cache2 keyK valV 0 100 (100 * Second) = Ret (cacheK, (0, None)) /\
  cache_rep cacheK 1 (<[Sum64 keyK := Item 0 keyK valV]> ∅).
Proof.
  assert (unlocked cacheK) as Hu by (apply unlockedb_unlocked; vm_compute; reflexivity).
  destruct (Set_ok _ _ _ _ _ _ _ _ cache2_rep cache2_set_ok) as (c1 & r & Hrun & Hr).
  assert (cacheK = c1) as E1 by (unfold cacheK, setIn; rewrite Hrun; reflexivity).
  destruct Hr as [[-> H1]|(_ & Hl & _)]; [|rewrite E1 in Hu; destruct (Hl Hu)].
  rewrite E1. exact (conj Hrun H1).
Qed.

Lemma cacheK_rep : cache_rep cacheK 1 (<[Sum64 keyK := Item 0 keyK valV]> ∅).
Proof. apply cacheK_set. Qed.

Lemma cache_set_get_witness :
  exists c1 r, Set_ cache2 keyK valV 0 100 (100 * Second) = Ret (c1, (r, None)) /\
    (unlocked c1 ->
     r = expiryOf 100 0 /\ (exists c2, Get c1 keyK = Ret (c2, inl valV)) /\
     forall key', Sum64 key' <> Sum64 keyK ->
       exists c2 c2' a, Get cache2 key' = Ret (c2, a) /\ Get c1 key' = Ret (c2', a)).
Proof. exact (cache_set_get cache2 1 ∅ keyK valV 0 100 (100 * Second) cache2_rep cache2_set_ok). Defined.

Lemma cache_delete_get_witness :
  exists c1 r, Delete cache2 keyK (100 * Second) = Ret (c1, r) /\
    (r = None <-> is_Some ((∅ : gmap Z item) !! Sum64 keyK)) /\
    (exists c2, Get c1 keyK = Ret (c2, inr (notFound keyK))) /\
    (cache_clock_ok c1 (100 * Second) ->
       exists c2, Delete c1 keyK (100 * Second) = Ret (c2, Some (notFound keyK))) /\
    forall key', Sum64 key' <> Sum64 keyK ->
      exists c2 c2' a, Get cache2 key' = Ret (c2, a) /\ Get c1 key' = Ret (c2', a).
Proof. exact (cache_delete_get cache2 1 ∅ keyK (100 * Second) cache2_rep cache2_clock). Defined.

(** The two exceptions of the shard test.  A configuration with no shards is
    accepted and gives a cache on which every [Get] panics; with the smallest
    integer the constructor itself panics. *)
Theorem zero_shards_panics (key : gostring) :
  exists c : cache, newBigCache (SetShard config2 0) clk100 = Ret (inl c) /\ Get c key = Panic /\
    newBigCache (T := gmap Z loc) (TT := gmap Z (gset gostring)) (SetShard config2 (- 2 ^ 63)) clk100 = Panic.
Proof. eexists. split; [vm_compute; reflexivity|]. split; [done|]. vm_compute. reflexivity. Qed.

(** One shard. *)
Definition cache1 : cache := created (newBigCache (SetShard config2 1) clk100).

(** [Reset] does not clear the free lists.  A key is stored and deleted, the
    cache is reset, and two keys are stored, each [Set] without error: the
    first of them is gone, its bytes were handed out twice. *)
Theorem reset_then_set_loses_entry :
  let k1 := ["a"]%byte in let k2 := ["b"]%byte in
  let c := setIn cache1 k1 valV in
  let c := after c (Delete c k1 (100 * Second)) in
  let c := match Reset c with Ret c' => c' | _ => c end in
  let c1 := setIn c k1 valV in
  let c2 := setIn c1 k2 valV in
  answered (Get c1 k1) = Some (inl valV) /\
  answered (Get c2 k2) = Some (inl valV) /\
  answered (Get c2 k1) = Some (inr (notFound k1)) /\
  answered (Len c2) = Some 2.
Proof. vm_compute. auto. Qed.

(** A hasher under which all keys collide. *)
Lemma five_range (key : gostring) : 0 <= 5 < 2 ^ 64.
Proof. lia. Qed.

Definition fiveHasher : Hasher := {| Sum64 := fun _ => 5; Sum64_range := five_range |}.

(** [Delete] does not compare keys: with a hasher under which two keys
    collide, deleting the key that was never stored succeeds and removes the
    other one, where [Get] of the same key is answered "not found". *)
Theorem delete_ignores_key :
  let k1 := ["a"]%byte in let k2 := ["b"]%byte in
  let c := after cache1 (Set_ (hasher := fiveHasher) cache1 k1 valV 0 100 (100 * Second)) in
  answered (Get (hasher := fiveHasher) c k2) = Some (inr (notFound k2)) /\
  answered (Delete (hasher := fiveHasher) c k2 (100 * Second)) = Some None /\
  answered (Get (hasher := fiveHasher) (after c (Delete (hasher := fiveHasher) c k2 (100 * Second))) k1) =
    Some (inr (notFound k1)).
Proof. vm_compute. auto. Qed.
End BigCacheExamples.
