(* ===== verification/Refinement.v ===== *)
(** * The contract of the cache

    The contract is a map from hashes to items: every operation is a step of that
    map with its answer.  [cache_run] lists runs of the cache, operation after
    operation, in which no shard was full; [returned_run] lists those that may end with a [Set] that finds its shard
    full, which keeps the lock of the shard.  Their premises ([op_ok]) are about clock readings, key lengths and the 4 GiB
    limit of a shard.  Every such run of a cache is a run of the contract, up to that [Set]. *)

From stdpp Require Import base decidable countable list gmap.
From Stdlib Require Import ZArith Lia Strings.Byte.
From S2P Require Import Prelude.
From S2P Require Import GoLib.
From S2P Require Import FreeList.
From S2P Require Import BytesQueue.
From S2P Require Import Encoding.
From S2P Require Import Hash.
From S2P Require Import Config.
From S2P Require Import GoTime.
From S2P Require Import Ttl.
From S2P Require Import Shard.
From S2P Require Import BigCache.

(** What a client of the cache does, and a tick of the timer of a shard. *)
Inductive op : Type :=
| OpGet (key : gostring)
| OpSet (key : gostring) (entry : list byte) (duration epoch now : Z)
| OpDelete (key : gostring) (now : Z)
| OpLen
| OpTick (i : nat) (clk : nat -> Z).

Inductive answer : Type :=
| AnsGet (r : list byte + cacheError)
| AnsSet (expiry : Z) (e : option cacheError)
| AnsDelete (e : option cacheError)
| AnsLen (n : Z)
| AnsTick.

Section Contract.
Context {hasher : Hasher} {platform : Platform}.
Implicit Types m : gmap Z item.

(** [2 ^ k] shards; the items of shard [i] that expire. *)
Definition expiring (k : Z) (i : nat) m (h : Z) (e : item) : Prop :=
  m !! h = Some e /\ Z.to_nat (h mod 2 ^ k) = i /\ it_ts e <> NO_EXPIRY.

(** A tick of shard [i] may remove items of that shard that expire: the first to expire,
    and those that expire in a second the clock showed. *)
Inductive spec_step (k : Z) : gmap Z item -> op -> answer -> gmap Z item -> Prop :=
| spec_get m key :
    spec_step k m (OpGet key) (AnsGet (getAnswer m key (Sum64 key))) m
| spec_set m key entry d epoch now :
    let ts := expiryOf epoch d in
    spec_step k m (OpSet key entry d epoch now) (AnsSet ts None) (<[Sum64 key := Item ts key entry]> m)
| spec_delete m key now :
    spec_step k m (OpDelete key now)
      (AnsDelete (if decide (is_Some (m !! Sum64 key)) then None else Some (notFound key)))
      (delete (Sum64 key) m)
| spec_len m :
    spec_step k m OpLen (AnsLen (Z.of_nat (size m))) m
| spec_tick m m' i clk :
    (forall h e, m' !! h = Some e -> m !! h = Some e) ->
    (forall h e, m !! h = Some e -> m' !! h = None ->
       expiring k i m h e /\
       ((forall h' e', expiring k i m h' e' -> it_ts e <= it_ts e') \/
        exists n, u64 (it_ts e) = u64 (unix (clk n)))) ->
    spec_step k m (OpTick i clk) AnsTick m'.

Inductive spec_run (k : Z) : gmap Z item -> list (op * answer) -> gmap Z item -> Prop :=
| spec_done m : spec_run k m [] m
| spec_more m m1 m2 o a tr :
    spec_step k m o a m1 -> spec_run k m1 tr m2 -> spec_run k m ((o, a) :: tr) m2.

End Contract.

Section Runs.
Context {T HS TT : Type} `{!AvlTree loc T} `{!HashSet HS} `{!AvlTree HS TT}.
Context {hasher : Hasher} {platform : Platform}.
Implicit Types c : BigCache T TT.

(** The operations of the cache as one function. *)
Definition run_op c (o : op) : outcome (BigCache T TT * answer) :=
  match o with
  | OpGet key => let! r := Get c key in Ret (fst r, AnsGet (snd r))
  | OpSet key entry d epoch now =>
      let! r := Set_ c key entry d epoch now in Ret (fst r, AnsSet (fst (snd r)) (snd (snd r)))
  | OpDelete key now => let! r := Delete c key now in Ret (fst r, AnsDelete (snd r))
  | OpLen => let! r := Len c in Ret (fst r, AnsLen (snd r))
  | OpTick i clk => let! c := evictionAt c i clk in Ret (c, AnsTick)
  end.

(** The state can serve the operation. *)
Definition op_ok c (o : op) : Prop :=
  match o with
  | OpGet _ => True
  | OpSet key entry d epoch now => set_ok c key entry d epoch now
  | OpDelete _ now => cache_clock_ok c now
  | OpLen => Z.of_nat (sum_list_with (fun s => size (sh_hashmap s)) (bc_shards c)) < 2 ^ 63
  | OpTick i clk => exists s, bc_shards c !! i = Some s /\ clocks_ok (sh_ttlTable s) clk
  end.

(** Runs in which no operation leaves a lock behind. *)
Inductive cache_run : BigCache T TT -> list (op * answer) -> BigCache T TT -> Prop :=
| run_done c : cache_run c [] c
| run_more c c1 c2 o a tr :
    op_ok c o -> run_op c o = Ret (c1, a) -> unlocked c1 -> cache_run c1 tr c2 ->
    cache_run c ((o, a) :: tr) c2.

(** Runs up to the first operation that leaves a lock behind. *)
Inductive returned_run : BigCache T TT -> list (op * answer) -> BigCache T TT -> Prop :=
| ret_done c : returned_run c [] c
| ret_full c c1 o a :
    op_ok c o -> run_op c o = Ret (c1, a) -> ~ unlocked c1 -> returned_run c [(o, a)] c1
| ret_more c c1 c2 o a tr :
    op_ok c o -> run_op c o = Ret (c1, a) -> unlocked c1 -> returned_run c1 tr c2 ->
    returned_run c ((o, a) :: tr) c2.

(** A [Set] that finds its shard at its limit: it answers 0 without an error and keeps the lock. *)
Definition fullSet c (o : op) (a : answer) c' : Prop :=
  exists key entry d epoch now, o = OpSet key entry d epoch now /\ a = AnsSet 0 None /\ ~ unlocked c' /\
    atLimit c (Sum64 key) (zlen (wrapped (expiryOf epoch d) (Sum64 key) key entry)).

End Runs.

Section Refine.
Context {T HS TT : Type} `{!AvlTree loc T} `{!HashSet HS} `{!AvlTree HS TT}.
Context `{!AvlTreeLaws loc T} `{!HashSetLaws HS} `{!AvlTreeLaws HS TT}.
Context {hasher : Hasher} {platform : Platform}.
Implicit Types c : BigCache T TT.
Implicit Types m : gmap Z item.

Lemma hashmap_sizes c (k : Z) m :
  cache_rep c k m -> sum_list_with (fun s => size (sh_hashmap s)) (bc_shards c) = size m.
Proof.
  intros H. rewrite <- (size_parts _ _ _ H). pose proof (cache_rep_parts _ _ _ H) as HF.
  unfold totalSize. induction HF as [|s m' ss ms Hs _ IH]; [done|]. simpl. rewrite IH. f_equal.
  destruct (shr_store _ _ Hs) as (live & B & Hst). rewrite <- !size_dom.
  by rewrite (store_dom _ _ _ _ _ Hst).
Qed.

Lemma evicted_tick c (k : Z) m (i : nat) s (tss : list Z) (clk : nat -> Z) :
  cache_rep c k m -> bc_shards c !! i = Some s -> NO_EXPIRY ∉ tss ->
  (forall ts, ts ∈ tss ->
     (exists set, ttlPeek (sh_ttlTable s) = Some (ts, set)) \/ exists n, u64 ts = u64 (unix (clk n))) ->
  spec_step k m (OpTick i clk) AnsTick (evicted k i tss m).
Proof.
  intros H Hi Hn Htss. unfold evicted. constructor.
  { intros h e. rewrite map_lookup_filter_Some. by intros [? _]. }
  intros h e He Hgone.
  assert (Z.to_nat (h mod 2 ^ k) = i /\ it_ts e ∈ tss) as [Hh Hin].
  { apply map_lookup_filter_None in Hgone as [Hg|Hg]; [congruence|].
    specialize (Hg e He). simpl in Hg.
    destruct (decide (Z.to_nat (h mod 2 ^ k) = i)), (decide (it_ts e ∈ tss)); tauto. }
  split.
  - split_and!; [done|done|]. intros H0. by rewrite H0 in Hin.
  - destruct (Htss _ Hin) as [[set Hp]|Hc]; [left|by right].
    intros h' e' (He' & Hh' & Hne). destruct (avl_first_Some _ _ _ Hp) as [_ Hmin]. apply Hmin.
    destruct (proj2 (shr_sched _ _ (cr_shards _ _ _ H _ _ Hi)) h' e') as (v & Hv & _); [|done|eauto].
    by apply part_lookup_Some.
Qed.

Lemma cache_rep_unlocked c (k : Z) m : cache_rep c k m -> unlocked c.
Proof. intros H. apply Forall_lookup_2. intros i s Hi. exact (shr_lock _ _ (cr_shards _ _ _ H _ _ Hi)). Qed.

(** Every operation the state can serve returns, and is a step of the contract
    or a [Set] that finds its shard full. *)
Lemma run_op_cases c (k : Z) m (o : op) :
  cache_rep c k m -> op_ok c o ->
  exists c1 a, run_op c o = Ret (c1, a) /\
    ((exists m', spec_step k m o a m' /\ cache_rep c1 k m') \/ fullSet c o a c1).
Proof.
  intros H Ho. destruct o as [key|key entry d epoch now|key now| |i clk]; simpl in *.
  - destruct (Get_ok _ _ _ key H) as (c1 & -> & H1). eexists _, _. split; [done|].
    left. eexists. split; [constructor|done].
  - destruct (Set_ok _ _ _ _ _ _ _ _ H Ho) as (c1 & r & -> & [[-> H1]|(-> & Hl & Hfull)]);
      eexists _, _; (split; [done|]); [left|right; by exists key, entry, d, epoch, now].
    eexists. split; [constructor|done].
  - destruct (Delete_ok _ _ _ key now H Ho) as (c1 & -> & H1). eexists _, _. split; [done|].
    left. eexists. split; [constructor|done].
  - rewrite (hashmap_sizes _ _ _ H) in Ho. rewrite (Len_ok _ _ _ H Ho). eexists _, _.
    split; [done|]. left. eexists. split; [constructor|done].
  - destruct Ho as (s & Hi & Hck).
    destruct (evictionAt_ok _ _ _ _ _ _ H Hi Hck) as (c1 & tss & -> & H1 & Htss & _ & Hn).
    eexists _, _. split; [done|]. left. eexists. split; [by apply (evicted_tick c k m i s tss)|done].
Qed.

Lemma run_op_refines c (k : Z) m (o : op) :
  cache_rep c k m -> op_ok c o ->
  exists c1 a, run_op c o = Ret (c1, a) /\
    (unlocked c1 -> exists m', spec_step k m o a m' /\ cache_rep c1 k m').
Proof.
  intros H Ho. destruct (run_op_cases c k m o H Ho) as (c1 & a & Hr & [?|(? & ? & ? & ? & ? & _ & _ & Hl & _)]); eauto.
  exists c1, a. split; [done|]. by intros ?%Hl.
Qed.

Lemma cache_run_refines c c' (k : Z) m (tr : list (op * answer)) :
  cache_run c tr c' -> cache_rep c k m ->
  exists m', spec_run k m tr m' /\ cache_rep c' k m'.
Proof.
  intros Hr. revert m. induction Hr as [c|c c1 c2 o a tr Ho Hop Hu _ IH]; intros m H.
  { exists m. by split; [constructor|]. }
  destruct (run_op_refines _ _ _ _ H Ho) as (c1' & a' & Hop' & Hstep).
  rewrite Hop in Hop'. injection Hop' as <- <-.
  destruct (Hstep Hu) as (m1 & Hs & H1). destruct (IH m1 H1) as (m2 & Hs2 & H2).
  exists m2. by split; [econstructor|].
Qed.

Lemma returned_run_refines c c' (k : Z) m (tr : list (op * answer)) :
  returned_run c tr c' -> cache_rep c k m ->
  (exists m', spec_run k m tr m' /\ cache_rep c' k m') \/
  (exists tr' c1 m' o a, tr = tr' ++ [(o, a)] /\ spec_run k m tr' m' /\ cache_rep c1 k m' /\ fullSet c1 o a c').
Proof.
  intros Hr. revert m. induction Hr as [c|c c1 o a Ho Hop Hl|c c1 c2 o a tr Ho Hop Hu _ IH]; intros m H.
  { left. exists m. by split; [constructor|]. }
  all: destruct (run_op_cases _ _ _ _ H Ho) as (c1' & a' & Hop' & Hcase); rewrite Hop in Hop'; injection Hop' as <- <-;
    destruct Hcase as [(m1 & Hs & H1)|Hf].
  - by destruct (Hl (cache_rep_unlocked _ _ _ H1)).
  - right. exists [], c, m, o, a. split_and!; [done|constructor|done|done].
  - destruct (IH m1 H1) as [(m2 & Hs2 & H2)|(tr' & c3 & m2 & o' & a' & -> & Hs2 & H2 & Hf)]; [left|right].
    + exists m2. by split; [econstructor|].
    + exists ((o, a) :: tr'), c3, m2, o', a'. split_and!; [done|by econstructor|done|done].
  - destruct Hf as (? & ? & ? & ? & ? & _ & _ & Hl & _). by destruct (Hl Hu).
Qed.

(** ** Claims *)

(** C1. The cache refines its contract.  Take any run of a new cache, of any length and
    with ticks of the eviction timers at any point between operations, each of which the state can serve: keys below
    65518 bytes, clocks and expiry times within range, shards below 4 GiB.  Up to the first [Set] that
    finds its shard at its size limit it is a run of the contract from the empty map with the same answers, and
    the state represents the contract's map; that [Set], if there is one, answers 0 without an error and keeps the lock of the shard. *)
Theorem cache_refines_contract (config : Config) (k : Z) (clk : nat -> Z) c0 c (tr : list (op * answer)) :
  config_ok config k -> newBigCache config clk = Ret (inl c0) -> returned_run c0 tr c ->
  (exists m, spec_run k ∅ tr m /\ cache_rep c k m) \/
  (exists tr' c1 m o a, tr = tr' ++ [(o, a)] /\ spec_run k ∅ tr' m /\ cache_rep c1 k m /\ fullSet c1 o a c).
Proof.
  intros Hc Hn Hr. destruct (newBigCache_ok config k clk Hc) as (c1 & Hn1 & H & _).
  rewrite Hn in Hn1. injection Hn1 as <-. by apply (returned_run_refines c0 c k ∅ tr).
Qed.

(** C2. Progress.  After every run of a new cache, each operation the state can serve
    returns: it neither panics nor blocks, and unless a full queue left a lock
    behind, its answer is the one the contract gives. *)
Theorem cache_operations_return (config : Config) (k : Z) (clk : nat -> Z) c0 c (tr : list (op * answer)) (o : op) :
  config_ok config k -> newBigCache config clk = Ret (inl c0) -> cache_run c0 tr c -> op_ok c o ->
  exists c1 a m, run_op c o = Ret (c1, a) /\ spec_run k ∅ tr m /\
    (unlocked c1 -> exists m', spec_step k m o a m' /\ cache_rep c1 k m').
Proof.
  intros Hc Hn Hr Ho. destruct (newBigCache_ok config k clk Hc) as (c1 & Hn1 & H & _).
  rewrite Hn in Hn1. injection Hn1 as <-.
  destruct (cache_run_refines c0 c k ∅ tr Hr H) as (m & Hs & Hm).
  destruct (run_op_refines c k m o Hm Ho) as (c2 & a & Hop & Hstep). by exists c2, a, m.
Qed.

End Refine.

(** ** Witnesses *)

Section RefineExamples.
Abbreviation cache := (BigCache (gmap Z loc) (gmap Z (gset gostring))).

(** [Set], then [Get], on a new cache with two shards. *)
Definition cacheGot : cache := after cacheK (Get cacheK keyK).

Definition trace : list (op * answer) :=
  [(OpSet keyK valV 0 100 (100 * Second), AnsSet 0 None); (OpGet keyK, AnsGet (inl valV))].

Lemma cache2_new : newBigCache config2 clk100 = Ret (inl cache2).
Proof.
  destruct (newBigCache_ok (T := gmap Z loc) (TT := gmap Z (gset gostring)) config2 1 clk100 config2_ok)
    as (c & Hn & _ & _).
  unfold cache2. by rewrite Hn.
Qed.

Lemma trace_run : cache_run cache2 trace cacheGot.
Proof.
  assert (unlocked cacheK) as Hu1 by (apply unlockedb_unlocked; vm_compute; reflexivity).
  assert (unlocked cacheGot) as Hu2 by (apply unlockedb_unlocked; vm_compute; reflexivity).
  destruct (Get_ok _ _ _ keyK cacheK_rep) as (c2 & Hget & _).
  assert (cacheGot = c2) as E2 by (unfold cacheGot; rewrite Hget; reflexivity).
  rewrite E2 in *. apply (run_more cache2 cacheK); [exact cache2_set_ok| |exact Hu1|].
  - cbn [run_op]. rewrite (proj1 cacheK_set). reflexivity.
  - apply (run_more cacheK c2); [exact I| |exact Hu2|constructor].
    cbn [run_op]. rewrite Hget. unfold getAnswer. rewrite lookup_insert_eq. reflexivity.
Qed.

Lemma returned_of_run c c' (tr : list (op * answer)) : cache_run c tr c' -> returned_run (T := gmap Z loc) (TT := gmap Z (gset gostring)) c tr c'.
Proof. intros H. induction H; econstructor; eauto. Qed.

Lemma cache_refines_contract_witness : exists m, spec_run 1 ∅ trace m /\ cache_rep cacheGot 1 m.
Proof.
  destruct (cache_refines_contract config2 1 clk100 cache2 cacheGot trace config2_ok cache2_new (returned_of_run _ _ _ trace_run))
    as [H|(tr' & c1 & m & o & a & _ & _ & _ & Hf)]; [exact H|].
  exfalso. destruct Hf as (? & ? & ? & ? & ? & _ & _ & Hl & _). apply Hl. apply unlockedb_unlocked. vm_compute. reflexivity.
Defined.

Lemma cache_operations_return_witness :
  exists c1 a m, run_op cacheGot (OpGet keyK) = Ret (c1, a) /\ spec_run 1 ∅ trace m /\
    (unlocked c1 -> exists m', spec_step 1 m (OpGet keyK) a m' /\ cache_rep c1 1 m').
Proof.
  exact (cache_operations_return config2 1 clk100 cache2 cacheGot trace (OpGet keyK)
           config2_ok cache2_new trace_run I).
Defined.
End RefineExamples.
