(* ===== verification/Iterator.v ===== *)
(** * Iteration over the cache ([bigcache/iterator.go])

    An iterator copies the entry indices of one shard at a time and reads the
    entries through them.  On a cache that nobody changes, it visits every
    item exactly once. *)

From Stdlib Require Import Strings.String.
From stdpp Require Import base decidable countable list gmap.
From Stdlib Require Import ZArith Lia Strings.Byte.
From S2P Require Import Prelude.
From S2P Require Import GoLib.
From S2P Require Import FreeList.
From S2P Require Import BytesQueue.
From S2P Require Import Encoding.
From S2P Require Import Hash.
From S2P Require Import Config.
From S2P Require Import GoTime.
From S2P Require Import Ttl.
From S2P Require Import Shard.
From S2P Require Import BigCache.

Inductive iteratorError : Type := ErrInvalidIteratorState | ErrCannotRetrieveEntry.

(** [iteratorError.Error] *)
Definition iteratorErrorText (e : iteratorError) : gostring :=
  match e with
  | ErrInvalidIteratorState => list_byte_of_string "Iterator is in invalid state. Use SetNext() to move to next position"
  | ErrCannotRetrieveEntry => list_byte_of_string "Could not retrieve entry from cache"
  end.

Record EntryInfo : Type := MkEntryInfo {
  ei_timestamp : Z;
  ei_hash : Z;
  ei_key : gostring;
  ei_value : list byte
}.

Definition emptyEntryInfo : EntryInfo := MkEntryInfo 0 0 [] [].

(** The accessors of an entry. *)
Definition EntryInfo_Key (e : EntryInfo) : gostring := ei_key e.

Definition EntryInfo_Hash (e : EntryInfo) : Z := ei_hash e.

Definition EntryInfo_Timestamp (e : EntryInfo) : Z := ei_timestamp e.

Definition EntryInfo_Value (e : EntryInfo) : list byte := ei_value e.

(** The cache the iterator points to is passed to its methods. *)
Record EntryInfoIterator : Type := MkIterator {
  it_mutex : bool;
  it_currentShard : Z;
  it_currentIndex : Z;
  it_elements : list Z;
  it_elementsCount : Z;
  it_valid : bool
}.

(** [l[i]]: nothing when the index is out of range. *)
Definition indexed {A : Type} (l : list A) (i : Z) : option A :=
  if i <? 0 then None else l !! Z.to_nat i.

Section IteratorOps.
Context {T HS TT : Type} `{!AvlTree loc T} `{!HashSet HS} `{!AvlTree HS TT}.
Implicit Types c : BigCache T TT.
Implicit Types it : EntryInfoIterator.

(** [it.cache.shards[i].copyKeys()] *)
Definition copyKeysAt c (i : Z) : outcome (BigCache T TT * (list Z * Z)) :=
  match indexed (bc_shards c) i with
  | None => Panic
  | Some s =>
      let! r := copyKeys s in
      Ret (set_shards c (<[Z.to_nat i := fst r]> (bc_shards c)), snd r)
  end.

Definition newIterator c : outcome (BigCache T TT * EntryInfoIterator) :=
  let! r := copyKeysAt c 0 in
  Ret (fst r, MkIterator false 0 (-1) (fst (snd r)) (snd (snd r)) false).

(** [BigCache.Iterator] *)
Definition cacheIterator c : outcome (BigCache T TT * EntryInfoIterator) := newIterator c.

(** The loop of [SetNext], at shard [i] with [n] shards to go: the shard it stops
    at, if any, with the elements last copied. *)
Fixpoint nextShard c (i : Z) (n : nat) (elems : list Z * Z)
  : outcome (BigCache T TT * (list Z * Z) * option Z) :=
  match n with
  | O => Ret (c, elems, None)
  | S n' =>
      let! r := copyKeysAt c i in
      if snd (snd r) >? 0 then Ret (fst r, snd r, Some i)
      else nextShard (fst r) (i + 1) n' (snd r)
  end.

Definition SetNext it c : outcome (BigCache T TT * EntryInfoIterator * bool) :=
  let! _ := mutexLock (it_mutex it) in
  let index := i64 (it_currentIndex it + 1) in
  if it_elementsCount it >? index then
    Ret (c, MkIterator false (it_currentShard it) index (it_elements it) (it_elementsCount it) true, true)
  else
    let start := it_currentShard it + 1 in
    let! r := nextShard c start (Z.to_nat (cfg_Shards (bc_config c) - start))
                (it_elements it, it_elementsCount it) in
    let elems := snd (fst r) in
    match snd r with
    | Some i => Ret (fst (fst r), MkIterator false i 0 (fst elems) (snd elems) true, true)
    | None =>
        Ret (fst (fst r),
             MkIterator false (it_currentShard it) index (fst elems) (snd elems) false, false)
    end.

Definition Value it c : outcome (EntryInfoIterator * (EntryInfo + iteratorError)) :=
  let! _ := mutexLock (it_mutex it) in
  if negb (it_valid it) then Ret (it, inr ErrInvalidIteratorState)
  else
    match indexed (bc_shards c) (it_currentShard it), indexed (it_elements it) (it_currentIndex it) with
    | Some s, Some element =>
        let! r := getEntry s element in
        match r with
        | inr _ => Ret (it, inr ErrCannotRetrieveEntry)
        | inl entry =>
            let arr := bq_array (sh_entries s) in
            let! timestamp := readTimestampFromEntry arr entry in
            let! hash := readHashFromEntry arr entry in
            let! key := readKeyFromEntry arr entry in
            let! value := readEntry arr entry in
            Ret (it, inl (MkEntryInfo timestamp hash key value))
        end
    | _, _ => Panic
    end.

(** A client that reads every value: [for it.SetNext() { ... it.Value() ... }]. *)
Fixpoint collect it c (fuel : nat) : outcome (list (EntryInfo + iteratorError)) :=
  match fuel with
  | O => Stuck
  | S fuel' =>
      let! r := SetNext it c in
      if snd r then
        let! v := Value (snd (fst r)) (fst (fst r)) in
        let! vs := collect (fst v) (fst (fst r)) fuel' in
        Ret (snd v :: vs)
      else Ret []
  end.

End IteratorOps.

(** ** What an iterator visits *)

Definition infoOf (he : Z * item) : EntryInfo :=
  MkEntryInfo (it_ts (snd he)) (fst he) (it_key (snd he)) (it_val (snd he)).

Definition infoAt (m : gmap Z item) (h : Z) : EntryInfo :=
  match m !! h with Some e => infoOf (h, e) | None => emptyEntryInfo end.

Section IteratorProofs.
Context {T HS TT : Type} `{!AvlTree loc T} `{!HashSet HS} `{!AvlTree HS TT}.
Context `{!AvlTreeLaws loc T} `{!HashSetLaws HS} `{!AvlTreeLaws HS TT}.
Context {hasher : Hasher}.
Implicit Types c : BigCache T TT.
Implicit Types s : cacheShard T TT.
Implicit Types it : EntryInfoIterator.
Implicit Types m : gmap Z item.

(** What a shard that implements [m] shows, in the order of its hash map. *)
Definition shardInfos s m : list EntryInfo := infoAt m <$> (map_to_list (sh_hashmap s)).*1.

Lemma infoAt_items m : infoAt m <$> (map_to_list m).*1 = infoOf <$> map_to_list m.
Proof.
  rewrite <- list_fmap_compose. apply list_fmap_ext. intros i [h e] Hi. simpl.
  apply list_elem_of_lookup_2, elem_of_map_to_list in Hi. unfold infoAt. by rewrite Hi.
Qed.

Lemma shardInfos_items s m : shard_rep s m -> shardInfos s m ≡ₚ infoOf <$> map_to_list m.
Proof.
  intros H. destruct (shr_store _ _ H) as (live & B & Hst). unfold shardInfos.
  rewrite <- infoAt_items. apply fmap_Permutation.
  apply NoDup_Permutation; [apply NoDup_fst_map_to_list..|]. intros h.
  rewrite !list_elem_of_fmap. pose proof (store_dom _ _ _ _ _ Hst) as Hd.
  assert (is_Some (sh_hashmap s !! h) <-> is_Some (m !! h)) as Hiff by (by rewrite <- !elem_of_dom, Hd).
  split; intros ([h' x] & -> & Hx%elem_of_map_to_list); simpl in *.
  - destruct (proj1 Hiff ltac:(eauto)) as [e He]. exists (h', e). by rewrite elem_of_map_to_list.
  - destruct (proj2 Hiff ltac:(eauto)) as [e He]. exists (h', e). by rewrite elem_of_map_to_list.
Qed.

Lemma map_to_list_union (m1 m2 : gmap Z item) :
  m1 ##ₘ m2 -> map_to_list (m1 ∪ m2) ≡ₚ map_to_list m1 ++ map_to_list m2.
Proof.
  intros Hd. apply NoDup_Permutation.
  - apply NoDup_map_to_list.
  - apply NoDup_app. split_and!; [apply NoDup_map_to_list| |apply NoDup_map_to_list].
    intros [h e]. rewrite !elem_of_map_to_list. intros H1 H2.
    by apply (map_disjoint_spec m1 m2) with h e e in Hd.
  - intros [h e]. rewrite elem_of_app, !elem_of_map_to_list. by apply lookup_union_Some.
Qed.

(** The items of the first [n] shards, shard by shard. *)
Lemma items_parts (k : Z) (n : nat) m :
  concat ((fun i => infoOf <$> map_to_list (part k i m)) <$> seq 0 n) ≡ₚ
  infoOf <$> map_to_list (firstParts k n m).
Proof.
  induction n as [|n IH].
  - rewrite firstParts_0, map_to_list_empty. done.
  - rewrite seq_S, fmap_app, concat_app, IH. simpl. rewrite app_nil_r.
    destruct (firstParts_S k n m) as [-> Hd].
    rewrite map_to_list_union by done. by rewrite fmap_app.
Qed.

Lemma concat_Permutation {A : Type} (l1 l2 : list (list A)) :
  Forall2 Permutation l1 l2 -> concat l1 ≡ₚ concat l2.
Proof. induction 1 as [|x y l1 l2 Hxy _ IH]; simpl; [done|]. by rewrite Hxy, IH. Qed.

(** What all shards show. *)
Definition cacheInfos c (k : Z) m : list EntryInfo :=
  concat (imap (fun i s => shardInfos s (part k i m)) (bc_shards c)).

Lemma cacheInfos_items c (k : Z) m : cache_rep c k m -> cacheInfos c k m ≡ₚ infoOf <$> map_to_list m.
Proof.
  intros H. rewrite <- (firstParts_all _ _ _ H) at 2. rewrite <- items_parts. unfold cacheInfos.
  apply concat_Permutation, Forall2_same_length_lookup.
  rewrite length_imap, length_fmap, length_seq. split; [done|].
  intros i l1 l2. rewrite list_lookup_imap, list_lookup_fmap, !fmap_Some.
  intros (s & Hs & ->) (j & Hj & ->). apply lookup_seq in Hj as [-> _]. simpl.
  apply shardInfos_items. by apply (cr_shards _ _ _ H).
Qed.

(** The lists the shards from [i] on show. *)
Definition later c (k : Z) m (i : nat) : list (list EntryInfo) :=
  drop i (imap (fun i s => shardInfos s (part k i m)) (bc_shards c)).

(** What is left to visit from position [j] of shard [i] on. *)
Definition remaining c (k : Z) m s (i j : nat) : list EntryInfo :=
  drop j (shardInfos s (part k i m)) ++ concat (later c k m (S i)).

(** The iterator stands before position [j] of shard [i]. *)
Record stands c it s (i j : nat) : Prop := {
  sd_mutex : it_mutex it = false;
  sd_shard : it_currentShard it = Z.of_nat i;
  sd_index : it_currentIndex it = Z.of_nat j - 1;
  sd_at : bc_shards c !! i = Some s;
  sd_elements : it_elements it = (map_to_list (sh_hashmap s)).*2;
  sd_count : it_elementsCount it = Z.of_nat (size (sh_hashmap s));
  sd_le : (j <= size (sh_hashmap s))%nat
}.

Lemma copyKeysAt_ok c (k : Z) m (i : nat) s :
  cache_rep c k m -> bc_shards c !! i = Some s ->
  copyKeysAt c (Z.of_nat i) =
  Ret (c, ((map_to_list (sh_hashmap s)).*2, Z.of_nat (size (sh_hashmap s)))).
Proof.
  intros H Hi. unfold copyKeysAt, indexed. destruct (_ <? 0) eqn:E; zbool; [lia|].
  rewrite Nat2Z.id, Hi. rewrite (copyKeys_ok _ _ (cr_shards _ _ _ H _ _ Hi)). cbn [obind fst snd].
  by rewrite list_insert_id, set_shards_same by done.
Qed.

Lemma later_cons c (k : Z) m (i : nat) s :
  bc_shards c !! i = Some s -> later c k m i = shardInfos s (part k i m) :: later c k m (S i).
Proof. intros Hi. unfold later. apply drop_S. by rewrite list_lookup_imap, Hi. Qed.

Lemma length_shardInfos s m : length (shardInfos s m) = size (sh_hashmap s).
Proof. unfold shardInfos. by rewrite !length_fmap, length_map_to_list. Qed.

Lemma nextShard_ok c (k : Z) m (n i : nat) (elems : list Z * Z) :
  cache_rep c k m -> (i + n)%nat = length (bc_shards c) ->
  (concat (later c k m i) = [] /\
   exists elems', nextShard c (Z.of_nat i) n elems = Ret (c, elems', None)) \/
  (exists j s, bc_shards c !! j = Some s /\ (0 < size (sh_hashmap s))%nat /\
     nextShard c (Z.of_nat i) n elems =
       Ret (c, ((map_to_list (sh_hashmap s)).*2, Z.of_nat (size (sh_hashmap s))), Some (Z.of_nat j)) /\
     concat (later c k m i) = shardInfos s (part k j m) ++ concat (later c k m (S j))).
Proof.
  intros H. revert i elems. induction n as [|n IH]; intros i elems Hn; cbn [nextShard].
  { left. split; [|eauto]. unfold later. rewrite drop_ge; [done|]. rewrite length_imap. lia. }
  destruct (lookup_lt_is_Some_2 (bc_shards c) i) as [s Hi]; [lia|].
  rewrite (copyKeysAt_ok _ _ _ _ _ H Hi). cbn [obind fst snd].
  rewrite (later_cons _ _ _ _ _ Hi). simpl.
  destruct (Z.of_nat (size (sh_hashmap s)) >? 0) eqn:E; zbool.
  - right. exists i, s. split_and!; [done|lia|done|done].
  - assert (shardInfos s (part k i m) = []) as -> by (apply length_zero_iff_nil; rewrite length_shardInfos; lia).
    replace (Z.of_nat i + 1) with (Z.of_nat (S i)) by lia. simpl. apply IH. lia.
Qed.

(** Reading the element at position [j] of a shard. *)
Lemma Value_ok c (k : Z) m it (i j : nat) s :
  cache_rep c k m -> bc_shards c !! i = Some s ->
  it_mutex it = false -> it_valid it = true -> it_currentShard it = Z.of_nat i ->
  it_currentIndex it = Z.of_nat j -> it_elements it = (map_to_list (sh_hashmap s)).*2 ->
  (j < size (sh_hashmap s))%nat ->
  exists info, Value it c = Ret (it, inl info) /\ shardInfos s (part k i m) !! j = Some info.
Proof.
  intros H Hi Hmu Hv Hcs Hci Hel Hj. pose proof (cr_shards _ _ _ H _ _ Hi) as Hs.
  destruct (shr_store _ _ Hs) as (live & B & Hst).
  rewrite <- length_map_to_list in Hj. destruct (lookup_lt_is_Some_2 _ _ Hj) as [[h idx] Hx].
  pose proof (list_elem_of_lookup_2 _ _ _ Hx) as Hin. apply elem_of_map_to_list in Hin.
  destruct (sr_index _ _ _ _ _ Hst _ _ Hin) as (e & He & _).
  destruct (lookup_Some _ _ _ _ _ _ Hst He) as (idx' & Hidx & _ & _ & _ & Hget & Hok & Hb).
  rewrite Hin in Hidx. injection Hidx as <-.
  destruct (sr_item _ _ _ _ _ Hst _ _ He) as (Hh & Hk & Ht).
  pose proof (Sum64_range (it_key e)) as Hr.
  exists (infoOf (h, e)). split.
  - unfold Value, mutexLock, indexed. rewrite Hmu, Hv, Hcs, Hci, Hel. cbn [obind negb].
    destruct (Z.of_nat i <? 0) eqn:E1; zbool; [lia|]. destruct (Z.of_nat j <? 0) eqn:E2; zbool; [lia|].
    rewrite !Nat2Z.id, Hi, list_lookup_fmap, Hx. simpl. unfold getEntry. rewrite Hget. cbn [obind].
    rewrite (readTimestamp_wrapped _ _ _ _ _ _ Hok Hb), (readHash_wrapped _ _ _ _ _ _ Hok Hb),
      (readKey_wrapped _ _ _ _ _ _ Hok Hb Hk), (readEntry_wrapped _ _ _ _ _ _ Hok Hb Hk). cbn [obind].
    unfold infoOf, u64. simpl. rewrite !Z.mod_small by lia. done.
  - unfold shardInfos. rewrite !list_lookup_fmap, Hx. simpl. unfold infoAt. by rewrite He.
Qed.

(** No shard has more entries than an [int] can count. *)
Definition countable_shards c : Prop :=
  Forall (fun s => Z.of_nat (size (sh_hashmap s)) < 2 ^ 63) (bc_shards c).

Lemma small_shards c (k : Z) m : cache_rep c k m -> Z.of_nat (size m) < 2 ^ 63 -> countable_shards c.
Proof.
  intros H Hn. apply Forall_lookup. intros i s Hi. pose proof (cr_shards _ _ _ H _ _ Hi) as Hs.
  destruct (shr_store _ _ Hs) as (live & B & Hst).
  assert (size (sh_hashmap s) = size (part k i m)) as ->.
  { rewrite <- !size_dom. by rewrite (store_dom _ _ _ _ _ Hst). }
  assert (size (part k i m) <= size m)%nat; [|lia].
  apply map_subseteq_size, map_filter_subseteq.
Qed.

(** [SetNext] moves to the next item, or there is none. *)
Lemma SetNext_ok c (k : Z) m it s (i j : nat) :
  cache_rep c k m -> cfg_Shards (bc_config c) = 2 ^ k -> countable_shards c -> stands c it s i j ->
  (remaining c k m s i j = [] /\ exists it', SetNext it c = Ret (c, it', false)) \/
  (exists it' s' i' j' info, SetNext it c = Ret (c, it', true) /\ Value it' c = Ret (it', inl info) /\
     stands c it' s' i' (S j') /\
     remaining c k m s i j = info :: remaining c k m s' i' (S j')).
Proof.
  intros H Hc Hn [Hmu Hcs Hci Hi Hel Hct Hle].
  pose proof (Forall_lookup_1 _ _ _ _ Hn Hi) as Hsz. simpl in Hsz.
  unfold SetNext, mutexLock. rewrite Hmu, Hci, Hct, Hcs, Hc. cbn [obind].
  replace (Z.of_nat j - 1 + 1) with (Z.of_nat j) by lia. rewrite i64_small by (unfold is_int; lia).
  destruct (Z.of_nat (size (sh_hashmap s)) >? Z.of_nat j) eqn:E; zbool.
  - right. set (it' := MkIterator _ _ _ _ _ _).
    destruct (Value_ok c k m it' i j s H Hi) as (info & Hv & Hinfo); [done..|lia|].
    exists it', s, i, j, info. split_and!; [done|done|split; simpl; try done; lia|].
    unfold remaining. by rewrite (drop_S _ _ _ Hinfo).
  - assert (drop j (shardInfos s (part k i m)) = []) as Hd.
    { apply drop_ge. rewrite length_shardInfos. lia. }
    assert (length (bc_shards c) = Z.to_nat (2 ^ k)) as Hlen by apply H.
    pose proof (lookup_lt_Some _ _ _ Hi) as Hlt.
    replace (Z.of_nat i + 1) with (Z.of_nat (S i)) by lia.
    destruct (nextShard_ok c k m (Z.to_nat (2 ^ k - Z.of_nat (S i))) (S i)
                (it_elements it, Z.of_nat (size (sh_hashmap s))) H)
      as [(He & elems & ->)|(i' & s' & Hi' & Hpos & -> & He)]; [lia| |]; cbn [obind fst snd].
    + left. unfold remaining. rewrite Hd, He. eauto.
    + right. set (it' := MkIterator _ _ _ _ _ _).
      destruct (Value_ok c k m it' i' 0 s' H Hi') as (info & Hv & Hinfo); [done..|lia|].
      exists it', s', i', 0%nat, info. split_and!; [done|done|split; simpl; try done; lia|].
      unfold remaining. rewrite Hd, He. simpl.
      destruct (shardInfos s' (part k i' m)) as [|x l]; [done|]. simpl in *. injection Hinfo as ->.
      by rewrite drop_0.
Qed.

Lemma collect_ok c (k : Z) m it s (i j fuel : nat) :
  cache_rep c k m -> cfg_Shards (bc_config c) = 2 ^ k -> countable_shards c -> stands c it s i j ->
  (length (remaining c k m s i j) < fuel)%nat ->
  collect it c fuel = Ret (inl <$> remaining c k m s i j).
Proof.
  intros H Hc Hn. revert it s i j. induction fuel as [|fuel IH]; intros it s i j Hs Hf; [lia|].
  cbn [collect].
  destruct (SetNext_ok c k m it s i j H Hc Hn Hs)
    as [(-> & it' & ->)|(it' & s' & i' & j' & info & -> & Hv & Hs' & Hr)]; [done|].
  cbn [obind fst snd]. rewrite Hv. cbn [obind fst snd]. rewrite Hr in *. simpl in Hf.
  rewrite (IH it' s' i' (S j') Hs') by lia. done.
Qed.

Lemma newIterator_ok c (k : Z) m :
  cache_rep c k m ->
  exists it s, newIterator c = Ret (c, it) /\ stands c it s 0 0 /\
    remaining c k m s 0 0 = cacheInfos c k m.
Proof.
  intros H. assert (0 < length (bc_shards c))%nat as Hl.
  { rewrite (cr_count _ _ _ H). pose proof (cr_k _ _ _ H).
    pose proof (Z.pow_pos_nonneg 2 k ltac:(lia) ltac:(lia)). lia. }
  destruct (lookup_lt_is_Some_2 _ _ Hl) as [s Hs].
  unfold newIterator. rewrite (copyKeysAt_ok _ _ _ _ _ H Hs : copyKeysAt c 0 = _). cbn [obind fst snd].
  eexists _, s. split; [done|]. split; [split; simpl; try done; lia|].
  unfold remaining, cacheInfos. rewrite drop_0. pose proof (later_cons c k m 0 s Hs) as E.
  unfold later at 1 in E. rewrite drop_0 in E. by rewrite E.
Qed.

(** ** Claims *)

(** C22. Iteration is complete and exact.  On a cache that nobody changes, a client
    that calls [SetNext] until it answers false and reads each [Value] gets every
    item exactly once, with its hash, key and value and the timestamp that is stored with it, which is the second in which it
    expires (0 if it does not), and no error. *)
Theorem iterator_visits_each_item_once c (k : Z) m (fuel : nat) :
  cache_rep c k m -> cfg_Shards (bc_config c) = 2 ^ k -> Z.of_nat (size m) < 2 ^ 63 ->
  (size m < fuel)%nat ->
  exists it infos, newIterator c = Ret (c, it) /\ collect it c fuel = Ret (inl <$> infos) /\
    infos ≡ₚ infoOf <$> map_to_list m.
Proof.
  intros H Hc Hn Hf. destruct (newIterator_ok c k m H) as (it & s & Hnew & Hs & Hr).
  pose proof (cacheInfos_items c k m H) as Hp.
  exists it, (cacheInfos c k m). split_and!; [done| |done]. rewrite <- Hr.
  apply (collect_ok c k m it s 0 0 fuel H Hc); [by apply (small_shards c k m)|done|].
  rewrite Hr, Hp, length_fmap, length_map_to_list. done.
Qed.
End IteratorProofs.

(** ** Witnesses *)

Section IteratorExamples.
(** One item in two shards. *)
Lemma iterator_visits_each_item_once_witness :
  let m : gmap Z item := <[Sum64 keyK := Item 0 keyK valV]> ∅ in
  exists it infos, newIterator cacheK = Ret (cacheK, it) /\ collect it cacheK 2 = Ret (inl <$> infos) /\
    infos ≡ₚ infoOf <$> map_to_list m.
Proof.
  apply (iterator_visits_each_item_once cacheK 1 _ 2 cacheK_rep);
    [vm_compute; reflexivity|rewrite map_size_insert_None, map_size_empty by done; simpl; lia..].
Defined.
End IteratorExamples.
