(* ===== verification/Message.v ===== *)
(** * Messages between nodes ([message/*.go]) and their frames
    ([networkSender] and [networkConsumer] of [Cluster/remoteNode.go])

    The messages with a binary layout (put, get response) and those that are
    nothing but a code (ping, pong, verify OK), written against the interface
    [NodeMessage]; the frame a message travels in, and the loop that cuts the
    byte stream of a connection back into messages. *)

From Stdlib Require Import Strings.String.
From stdpp Require Import base decidable countable list gmap.
From Stdlib Require Import ZArith Lia Strings.Byte.
From S2P Require Import Prelude.

(** ** Codes *)

Definition MsgVERIFY : Z := 10.
Definition MsgVERIFYOK : Z := 11.
Definition MsgPING : Z := 12.
Definition MsgPONG : Z := 13.
Definition MsgPUT : Z := 14.
Definition MsgGETReq : Z := 15.
Definition MsgGETRsp : Z := 16.
Definition MsgDEL : Z := 17.
Definition MsgSyncReq : Z := 18.
Definition MsgSyncRsp : Z := 19.

Definition MsgCodeToString (code : Z) : string :=
  if code =? MsgDEL then "msgDelete"
  else if code =? MsgSyncRsp then "msgSyncRsp"
  else if code =? MsgSyncReq then "msgSyncReq"
  else if code =? MsgPUT then "msgPUT"
  else if code =? MsgPONG then "msgPONG"
  else if code =? MsgPING then "mgsPING"
  else if code =? MsgVERIFYOK then "msgVerifyOK"
  else if code =? MsgVERIFY then "msgVerify"
  else if code =? MsgGETReq then "msgGETReq"
  else if code =? MsgGETRsp then "msgGETRsp"
  else "unknown".

(** ** The interface *)

Record NodeWireMessage : Type := WireMessage { wm_Code : Z; wm_Data : list byte }.

(** [NodeMessage]: the receiver of [DeSerialize] is the message it overwrites. *)
Class NodeMessage (M : Type) : Type := {
  Serialize : M -> outcome NodeWireMessage;
  DeSerialize : M -> NodeWireMessage -> outcome M
}.

(** What the nodes rely on: of the messages in [wf], the receiver gets the one that
    was sent, with its code filled in, whatever the message it reads into held
    before. *)
Class NodeMessageLaws (M : Type) `{!NodeMessage M} (wf : M -> Prop) (code : Z) (coded : M -> M) : Prop := {
  msg_sends : forall m, wf m -> exists w, Serialize m = Ret w /\ wm_Code w = code;
  msg_receives : forall m m0 w, wf m -> Serialize m = Ret w -> DeSerialize m0 w = Ret (coded m)
}.

(** ** Messages with a binary layout *)

Record PutMessage : Type := MkPut {
  pm_Code : Z;
  pm_Key : gostring;
  pm_Expiry : Z;
  pm_Data : list byte
}.

Definition PutMessage_Serialize (pm : PutMessage) : outcome NodeWireMessage :=
  let keyLen := zlen (pm_Key pm) in
  let data := zeros (keyLen + zlen (pm_Data pm) + 2 + 8) in
  let! data := sl_putUint 8 data (sl_all data) (pm_Expiry pm) in
  let! s := sl_from data (sl_all data) 8 in
  let! data := sl_putUint 2 data s (u16 keyLen) in
  let! s := sl_from data (sl_all data) (8 + 2) in
  let! data := Ret (sl_copy data s (pm_Key pm)) in
  let! s := sl_from data (sl_all data) (8 + 2 + keyLen) in
  let! data := Ret (sl_copy data s (pm_Data pm)) in
  Ret (WireMessage MsgPUT data).

(** [8 + 2 + keyLen] is a sum of 16 bit integers. *)
Definition PutMessage_DeSerialize (pm : PutMessage) (msg : NodeWireMessage) : outcome PutMessage :=
  let data := wm_Data msg in
  let! expiry := sl_getUint 8 data (sl_all data) in
  let! s := sl_from data (sl_all data) 8 in
  let! keyLen := sl_getUint 2 data s in
  let! key := sl_slice data (sl_all data) (8 + 2) (u16 (8 + 2 + keyLen)) in
  let! rest := sl_from data (sl_all data) (u16 (8 + 2 + keyLen)) in
  Ret (MkPut MsgPUT (sl_bytes data key) expiry (sl_bytes data rest)).

#[export] Instance PutMessage_msg : NodeMessage PutMessage :=
  {| Serialize := PutMessage_Serialize; DeSerialize := PutMessage_DeSerialize |}.

Record GetRspMessage : Type := MkGetRsp {
  gr_Code : Z;
  gr_PendingKey : gostring;
  gr_Data : list byte
}.

Definition GetRspMessage_Serialize (gm : GetRspMessage) : outcome NodeWireMessage :=
  let keyLen := zlen (gr_PendingKey gm) in
  let data := zeros (keyLen + zlen (gr_Data gm) + 2) in
  let! data := sl_putUint 2 data (sl_all data) (u16 keyLen) in
  let! s := sl_from data (sl_all data) 2 in
  let! data := Ret (sl_copy data s (gr_PendingKey gm)) in
  let! s := sl_from data (sl_all data) (2 + keyLen) in
  let! data := Ret (sl_copy data s (gr_Data gm)) in
  Ret (WireMessage MsgGETRsp data).

Definition GetRspMessage_DeSerialize (gm : GetRspMessage) (msg : NodeWireMessage) : outcome GetRspMessage :=
  let data := wm_Data msg in
  let! keyLen := sl_getUint 2 data (sl_all data) in
  let! key := sl_slice data (sl_all data) 2 (u16 (2 + keyLen)) in
  let! rest := sl_from data (sl_all data) (u16 (2 + keyLen)) in
  Ret (MkGetRsp MsgGETRsp (sl_bytes data key) (sl_bytes data rest)).

#[export] Instance GetRspMessage_msg : NodeMessage GetRspMessage :=
  {| Serialize := GetRspMessage_Serialize; DeSerialize := GetRspMessage_DeSerialize |}.

(** ** Messages that are a code *)

Record PingMessage : Type := MkPing { ping_code : Z }.

Definition PingMessage_Serialize (pm : PingMessage) : outcome NodeWireMessage :=
  Ret (WireMessage MsgPING []).

Definition PingMessage_DeSerialize (pm : PingMessage) (msg : NodeWireMessage) : outcome PingMessage :=
  Ret (MkPing (wm_Code msg)).

#[export] Instance PingMessage_msg : NodeMessage PingMessage :=
  {| Serialize := PingMessage_Serialize; DeSerialize := PingMessage_DeSerialize |}.

Record PongMessage : Type := MkPong { pong_code : Z }.

Definition PongMessage_Serialize (pm : PongMessage) : outcome NodeWireMessage :=
  Ret (WireMessage MsgPONG []).

Definition PongMessage_DeSerialize (pm : PongMessage) (msg : NodeWireMessage) : outcome PongMessage :=
  Ret (MkPong (wm_Code msg)).

#[export] Instance PongMessage_msg : NodeMessage PongMessage :=
  {| Serialize := PongMessage_Serialize; DeSerialize := PongMessage_DeSerialize |}.

Record VerifyOKMessage : Type := MkVerifyOK {}.

Definition VerifyOKMessage_Serialize (vm : VerifyOKMessage) : outcome NodeWireMessage :=
  Ret (WireMessage MsgVERIFYOK []).

Definition VerifyOKMessage_DeSerialize (vm : VerifyOKMessage) (msg : NodeWireMessage)
  : outcome VerifyOKMessage :=
  Ret vm.

#[export] Instance VerifyOKMessage_msg : NodeMessage VerifyOKMessage :=
  {| Serialize := VerifyOKMessage_Serialize; DeSerialize := VerifyOKMessage_DeSerialize |}.

(** ** Frames *)

(** The body of [networkSender]'s loop up to [SendData]: the bytes of a frame. *)
Definition frame (msg : NodeWireMessage) : outcome (list byte) :=
  let data := zeros (6 + zlen (wm_Data msg)) in
  let! data := sl_putUint 4 data (sl_all data) (u32 (zlen (wm_Data msg) + 2)) in
  let! s := sl_from data (sl_all data) 4 in
  let! data := sl_putUint 2 data s (wm_Code msg) in
  let! s := sl_from data (sl_all data) 6 in
  let! data := Ret (sl_copy data s (wm_Data msg)) in
  Ret data.

(** The loop of [networkSender] over the queued messages, each given as what its
    [Serialize] returned: the bytes it puts on the connection.  [disconnected k] is the reading of the node's state and
    [failed k] the outcome of [SendData], for the message with [k] messages behind it in the
    queue: [None] when it wrote everything, [Some n] when it stopped with an error
    after [n] bytes. *)
Fixpoint networkSender (disconnected : nat -> bool) (failed : nat -> option Z)
    (msgs : list NodeWireMessage) : outcome (list byte) :=
  match msgs with
  | [] => Ret []
  | msg :: msgs' =>
      if disconnected (length msgs') then networkSender disconnected failed msgs'
      else
        let! data := frame msg in
        match failed (length msgs') with
        | Some n => Ret (take (Z.to_nat n) data)
        | None =>
            let! rest := networkSender disconnected failed msgs' in
            Ret (data ++ rest)
        end
  end.

(** [ReadData(size, 0)] on what the peer will ever send: [io.ReadFull] returns
    exactly [size] bytes or an error. *)
Definition ReadFull (stream : list byte) (size : Z) : option (list byte * list byte) :=
  if size <=? zlen stream
  then Some (take (Z.to_nat size) stream, drop (Z.to_nat size) stream)
  else None.

(** One round of [networkConsumer]: the message and the rest of the stream, or
    nothing when a read fails. *)
Definition readMessage (stream : list byte) : outcome (option (NodeWireMessage * list byte)) :=
  match ReadFull stream 6 with
  | None => Ret None
  | Some (header, rest) =>
      let! len := sl_getUint 4 header (sl_all header) in
      let dataLength := u32 (len - 2) in
      let! s := sl_from header (sl_all header) 4 in
      let! msgCode := sl_getUint 2 header s in
      if dataLength >? 0 then
        match ReadFull rest dataLength with
        | None => Ret None
        | Some (data, rest) => Ret (Some (WireMessage msgCode data, rest))
        end
      else Ret (Some (WireMessage msgCode [], rest))
  end.

(** The loop of [networkConsumer]: the messages it hands to
    [queueInboundMessage].  [running fuel] is the loop's test of the node's state, read
    before each round; every round takes at least the six bytes of a header, so
    the length of the stream bounds the rounds. *)
Fixpoint networkConsumer (running : nat -> bool) (stream : list byte) (fuel : nat)
  : outcome (list NodeWireMessage) :=
  match fuel with
  | O => Stuck
  | S fuel' =>
      if running fuel' then
        let! r := readMessage stream in
        match r with
        | None => Ret []
        | Some (msg, rest) =>
            let! msgs := networkConsumer running rest fuel' in Ret (msg :: msgs)
        end
      else Ret []
  end.

(** ** Layouts *)

Definition putLayout (expiry : Z) (key : gostring) (data : list byte) : list byte :=
  le_bytes 8 expiry ++ le_bytes 2 (u16 (zlen key)) ++ key ++ data.

Definition getRspLayout (key : gostring) (data : list byte) : list byte :=
  le_bytes 2 (u16 (zlen key)) ++ key ++ data.

Definition frameLayout (msg : NodeWireMessage) : list byte :=
  le_bytes 4 (u32 (zlen (wm_Data msg) + 2)) ++ le_bytes 2 (wm_Code msg) ++ wm_Data msg.

(** A buffer that was filled to its end. *)
Ltac filled_done F :=
  f_equal; apply filled_full in F;
  [rewrite F; rewrite <- ?app_assoc; done
  |rewrite ?zlen_app, ?zlen_le_bytes; lia].

Lemma put_Serialize_Ret (pm : PutMessage) :
  PutMessage_Serialize pm = Ret (WireMessage MsgPUT (putLayout (pm_Expiry pm) (pm_Key pm) (pm_Data pm))).
Proof.
  unfold PutMessage_Serialize, putLayout. cbv zeta.
  set (key := pm_Key pm). set (d := pm_Data pm).
  pose proof (zlen_nonneg key). pose proof (zlen_nonneg d).
  set (b0 := zeros _). assert (zlen b0 = zlen key + zlen d + 2 + 8) as L0 by (apply zlen_zeros; lia).
  edestruct (filled_first (A := NodeWireMessage) b0 8 (pm_Expiry pm)) as (b1 & E1 & F1 & L1); [lia|].
  rewrite E1. clear E1. cbv beta.
  edestruct (filled_put (A := NodeWireMessage) F1 8 2 (u16 (zlen key))) as (b2 & E2 & F2 & L2); [done|lia..|].
  rewrite E2. clear E2. cbv beta.
  edestruct (filled_copy (A := NodeWireMessage) F2 key (8 + 2)) as (b3 & E3 & F3 & L3); [done|lia|].
  rewrite E3. clear E3. cbv beta.
  edestruct (filled_copy (A := NodeWireMessage) F3 d (8 + 2 + zlen key)) as (b4 & E4 & F4 & L4);
    [rewrite !zlen_app, !zlen_le_bytes; lia|lia|].
  rewrite E4. clear E4. cbv beta. f_equal. filled_done F4.
Qed.

Lemma getRsp_Serialize_Ret (gm : GetRspMessage) :
  GetRspMessage_Serialize gm = Ret (WireMessage MsgGETRsp (getRspLayout (gr_PendingKey gm) (gr_Data gm))).
Proof.
  unfold GetRspMessage_Serialize, getRspLayout. cbv zeta.
  set (key := gr_PendingKey gm). set (d := gr_Data gm).
  pose proof (zlen_nonneg key). pose proof (zlen_nonneg d).
  set (b0 := zeros _). assert (zlen b0 = zlen key + zlen d + 2) as L0 by (apply zlen_zeros; lia).
  edestruct (filled_first (A := NodeWireMessage) b0 2 (u16 (zlen key))) as (b1 & E1 & F1 & L1); [lia|].
  rewrite E1. clear E1. cbv beta.
  edestruct (filled_copy (A := NodeWireMessage) F1 key 2) as (b2 & E2 & F2 & L2); [done|lia|].
  rewrite E2. clear E2. cbv beta.
  edestruct (filled_copy (A := NodeWireMessage) F2 d (2 + zlen key)) as (b3 & E3 & F3 & L3);
    [rewrite !zlen_app, !zlen_le_bytes; lia|lia|].
  rewrite E3. clear E3. cbv beta. f_equal. filled_done F3.
Qed.

Lemma frame_Ret (msg : NodeWireMessage) : frame msg = Ret (frameLayout msg).
Proof.
  unfold frame, frameLayout. cbv zeta. set (d := wm_Data msg). pose proof (zlen_nonneg d).
  set (b0 := zeros _). assert (zlen b0 = 6 + zlen d) as L0 by (apply zlen_zeros; lia).
  edestruct (filled_first (A := list byte) b0 4 (u32 (zlen d + 2))) as (b1 & E1 & F1 & L1); [lia|].
  rewrite E1. clear E1. cbv beta.
  edestruct (filled_put (A := list byte) F1 4 2 (wm_Code msg)) as (b2 & E2 & F2 & L2); [done|lia..|].
  rewrite E2. clear E2. cbv beta.
  edestruct (filled_copy (A := list byte) F2 d 6) as (b3 & E3 & F3 & L3); [done|lia|].
  rewrite E3. clear E3. cbv beta. filled_done F3.
Qed.

(** ** Reading *)

(** Keys whose length and the fixed part of the layout fit 16 bits. *)
Definition put_key_ok (key : gostring) : Prop := 8 + 2 + zlen key < 2 ^ 16.

Definition getRsp_key_ok (key : gostring) : Prop := 2 + zlen key < 2 ^ 16.

Lemma u16_small (z : Z) : 0 <= z < 2 ^ 16 -> u16 z = z.
Proof. apply Z.mod_small. Qed.

Lemma put_DeSerialize_Ret (m0 : PutMessage) (code expiry : Z) (key : gostring) (data : list byte) :
  0 <= expiry < 2 ^ 64 -> put_key_ok key ->
  PutMessage_DeSerialize m0 (WireMessage code (putLayout expiry key data)) =
  Ret (MkPut MsgPUT key expiry data).
Proof.
  unfold put_key_ok. intros He Hk. pose proof (zlen_nonneg key). pose proof (zlen_nonneg data).
  unfold PutMessage_DeSerialize. cbn [wm_Data]. set (l := putLayout expiry key data).
  assert (zlen l = 10 + zlen key + zlen data) as Hl.
  { unfold l, putLayout. rewrite !zlen_app, !zlen_le_bytes. lia. }
  rewrite sl_getUint_Ret by (simpl; lia). cbn [obind sl_off sl_all].
  replace (region l 0 8) with (le_bytes 8 expiry)
    by (symmetry; apply (region_mid []); [done|by rewrite zlen_le_bytes]).
  rewrite le_Z_le_bytes_small by done.
  rewrite sl_from_Ret by (simpl; lia). cbn [obind sl_off sl_len sl_all].
  rewrite sl_getUint_Ret by (simpl; lia). cbn [obind sl_off].
  replace (region l (0 + 8) 2) with (le_bytes 2 (u16 (zlen key)))
    by (symmetry; apply region_mid; by rewrite zlen_le_bytes).
  rewrite (u16_small (zlen key)), le_Z_le_bytes_small, u16_small by lia.
  rewrite sl_slice_Ret by (unfold sl_cap; simpl; lia). cbn [obind].
  rewrite sl_from_Ret by (simpl; lia). cbn [obind]. unfold sl_bytes. cbn [sl_off sl_len sl_all].
  do 2 f_equal.
  - unfold l, putLayout. rewrite app_assoc. apply region_mid; [rewrite zlen_app, !zlen_le_bytes; lia|lia].
  - rewrite Hl. unfold l, putLayout. rewrite !app_assoc.
    apply region_end; [rewrite !zlen_app, !zlen_le_bytes|]; lia.
Qed.

Lemma getRsp_DeSerialize_Ret (m0 : GetRspMessage) (code : Z) (key : gostring) (data : list byte) :
  getRsp_key_ok key ->
  GetRspMessage_DeSerialize m0 (WireMessage code (getRspLayout key data)) =
  Ret (MkGetRsp MsgGETRsp key data).
Proof.
  unfold getRsp_key_ok. intros Hk. pose proof (zlen_nonneg key). pose proof (zlen_nonneg data).
  unfold GetRspMessage_DeSerialize. cbn [wm_Data]. set (l := getRspLayout key data).
  assert (zlen l = 2 + zlen key + zlen data) as Hl.
  { unfold l, getRspLayout. rewrite !zlen_app, !zlen_le_bytes. lia. }
  rewrite sl_getUint_Ret by (simpl; lia). cbn [obind sl_off sl_all].
  replace (region l 0 2) with (le_bytes 2 (u16 (zlen key)))
    by (symmetry; apply (region_mid []); [done|by rewrite zlen_le_bytes]).
  rewrite (u16_small (zlen key)), le_Z_le_bytes_small, u16_small by lia.
  rewrite sl_slice_Ret by (unfold sl_cap; simpl; lia). cbn [obind].
  rewrite sl_from_Ret by (simpl; lia). cbn [obind]. unfold sl_bytes. cbn [sl_off sl_len sl_all].
  do 2 f_equal.
  - unfold l, getRspLayout. apply region_mid; [rewrite !zlen_le_bytes|]; lia.
  - rewrite Hl. unfold l, getRspLayout. rewrite app_assoc.
    apply region_end; [rewrite !zlen_app, !zlen_le_bytes|]; lia.
Qed.

(** ** The messages keep the interface's laws *)

Definition put_wf (pm : PutMessage) : Prop := 0 <= pm_Expiry pm < 2 ^ 64 /\ put_key_ok (pm_Key pm).

Definition put_coded (pm : PutMessage) : PutMessage := MkPut MsgPUT (pm_Key pm) (pm_Expiry pm) (pm_Data pm).

#[export] Instance put_laws : NodeMessageLaws PutMessage put_wf MsgPUT put_coded.
Proof.
  split.
  - intros pm _. eexists. split; [apply put_Serialize_Ret|done].
  - intros pm m0 w [He Hk] Hw. simpl in *. rewrite put_Serialize_Ret in Hw. injection Hw as <-.
    by apply put_DeSerialize_Ret.
Qed.

Definition getRsp_wf (gm : GetRspMessage) : Prop := getRsp_key_ok (gr_PendingKey gm).

Definition getRsp_coded (gm : GetRspMessage) : GetRspMessage :=
  MkGetRsp MsgGETRsp (gr_PendingKey gm) (gr_Data gm).

#[export] Instance getRsp_laws : NodeMessageLaws GetRspMessage getRsp_wf MsgGETRsp getRsp_coded.
Proof.
  split.
  - intros gm _. eexists. split; [apply getRsp_Serialize_Ret|done].
  - intros gm m0 w Hk Hw. simpl in *. rewrite getRsp_Serialize_Ret in Hw. injection Hw as <-.
    by apply getRsp_DeSerialize_Ret.
Qed.

#[export] Instance ping_laws :
  NodeMessageLaws PingMessage (fun _ => True) MsgPING (fun _ => MkPing MsgPING).
Proof. split; [by eexists|]. by intros m m0 w _ [= <-]. Qed.

#[export] Instance pong_laws :
  NodeMessageLaws PongMessage (fun _ => True) MsgPONG (fun _ => MkPong MsgPONG).
Proof. split; [by eexists|]. by intros m m0 w _ [= <-]. Qed.

#[export] Instance verifyOK_laws :
  NodeMessageLaws VerifyOKMessage (fun _ => True) MsgVERIFYOK (fun vm => vm).
Proof. split; [by eexists|]. by intros [] [] w _ [= <-]. Qed.

(** ** Reading frames *)

(** Messages a frame can carry: the length fits 32 bits with the code, the code
    fits 16. *)
Definition wire_ok (msg : NodeWireMessage) : Prop :=
  0 <= wm_Code msg < 2 ^ 16 /\ zlen (wm_Data msg) + 2 < 2 ^ 32.

Lemma take_zlen_app (a b : list byte) (n : Z) :
  n = zlen a -> take (Z.to_nat n) (a ++ b) = a /\ drop (Z.to_nat n) (a ++ b) = b.
Proof. intros ->. unfold zlen. rewrite Nat2Z.id. by rewrite take_app_length, drop_app_length. Qed.

Lemma ReadFull_app (a b : list byte) (n : Z) : n = zlen a -> ReadFull (a ++ b) n = Some (a, b).
Proof.
  intros Hn. unfold ReadFull. rewrite zlen_app. pose proof (zlen_nonneg b).
  destruct (n <=? zlen a + zlen b) eqn:E; zbool; [|lia].
  by destruct (take_zlen_app a b n Hn) as [-> ->].
Qed.

(** A header is cut into its two fields. *)
Lemma header_fields (len code : Z) :
  0 <= len < 2 ^ 32 -> 0 <= code < 2 ^ 16 ->
  let header := le_bytes 4 len ++ le_bytes 2 code in
  sl_getUint 4 header (sl_all header) = Ret len /\
  (let! s := sl_from header (sl_all header) 4 in sl_getUint 2 header s) = Ret code.
Proof.
  intros Hl Hc header.
  assert (zlen header = 6) as Hz by (unfold header; by rewrite zlen_app, !zlen_le_bytes).
  split.
  - rewrite sl_getUint_Ret by (simpl; lia). cbn [sl_off sl_all].
    replace (region header 0 4) with (le_bytes 4 len)
      by (symmetry; apply (region_mid []); [done|by rewrite zlen_le_bytes]).
    by rewrite le_Z_le_bytes_small.
  - rewrite sl_from_Ret by (simpl; lia). cbn [obind sl_off sl_len sl_all].
    rewrite sl_getUint_Ret by (simpl; lia). cbn [sl_off].
    replace (region header (0 + 4) 2) with (le_bytes 2 code)
      by (symmetry; apply region_end; by rewrite zlen_le_bytes).
    by rewrite le_Z_le_bytes_small.
Qed.

(** What [readMessage] does after the header was read. *)
Definition readBody (len code : Z) (rest : list byte) : outcome (option (NodeWireMessage * list byte)) :=
  let dataLength := u32 (len - 2) in
  if dataLength >? 0 then
    match ReadFull rest dataLength with
    | None => Ret None
    | Some (data, rest) => Ret (Some (WireMessage code data, rest))
    end
  else Ret (Some (WireMessage code [], rest)).

Lemma readMessage_header (len code : Z) (rest : list byte) :
  0 <= len < 2 ^ 32 -> 0 <= code < 2 ^ 16 ->
  readMessage (le_bytes 4 len ++ le_bytes 2 code ++ rest) = readBody len code rest.
Proof.
  intros Hl Hc. unfold readMessage. rewrite app_assoc.
  rewrite ReadFull_app by (by rewrite zlen_app, !zlen_le_bytes).
  destruct (header_fields len code Hl Hc) as [-> H2]. cbn [obind].
  destruct (sl_from _ _ 4) as [s| |]; try discriminate H2. cbn [obind] in *. rewrite H2. done.
Qed.

(** A frame at the head of the stream is read as its message. *)
Lemma readMessage_frame (msg : NodeWireMessage) (rest : list byte) :
  wire_ok msg -> readMessage (frameLayout msg ++ rest) = Ret (Some (msg, rest)).
Proof.
  intros [Hc Hl]. destruct msg as [code d]. cbn [wm_Code wm_Data] in *. pose proof (zlen_nonneg d).
  unfold frameLayout. cbn [wm_Code wm_Data]. rewrite <- !app_assoc.
  unfold u32. rewrite Z.mod_small by lia. rewrite readMessage_header by lia.
  unfold readBody, u32. replace (zlen d + 2 - 2) with (zlen d) by lia. rewrite Z.mod_small by lia.
  destruct (zlen d >? 0) eqn:E; zbool.
  - by rewrite ReadFull_app.
  - destruct d; [done|]. rewrite zlen_cons in *. pose proof (zlen_nonneg d). lia.
Qed.

Lemma zlen_frameLayout (msg : NodeWireMessage) : zlen (frameLayout msg) = 6 + zlen (wm_Data msg).
Proof. unfold frameLayout. rewrite !zlen_app, !zlen_le_bytes. lia. Qed.

(** A message of the interface in a frame at the head of the stream. *)
Lemma message_travels {M : Type} `{!NodeMessage M} (wf : M -> Prop) (code : Z) (coded : M -> M)
    `{!NodeMessageLaws M wf code coded} (m m0 : M) (w : NodeWireMessage) (rest : list byte) :
  wf m -> Serialize m = Ret w -> 0 <= code < 2 ^ 16 -> zlen (wm_Data w) + 2 < 2 ^ 32 ->
  exists f, frame w = Ret f /\ readMessage (f ++ rest) = Ret (Some (w, rest)) /\
    wm_Code w = code /\ DeSerialize m0 w = Ret (coded m).
Proof.
  intros Hm Hw Hc Hl. destruct (msg_sends m Hm) as (w' & Hw' & Hcode).
  rewrite Hw in Hw'. injection Hw' as <-.
  exists (frameLayout w). split_and!; [apply frame_Ret| |done|by apply (msg_receives m m0 w)].
  apply readMessage_frame. split; [by rewrite Hcode|done].
Qed.

(** Every round of the consumer ends, and takes bytes when it yields a message. *)
Lemma readMessage_total (stream : list byte) :
  exists r, readMessage stream = Ret r /\
    forall msg rest, r = Some (msg, rest) -> (length rest < length stream)%nat.
Proof.
  unfold readMessage, ReadFull at 1. destruct (6 <=? zlen stream) eqn:E; zbool.
  2:{ eexists. split; [done|]. discriminate. }
  set (header := take _ stream). set (rest := drop _ stream).
  assert (zlen header = 6) as Hh by (unfold header, zlen in *; rewrite length_take; lia).
  assert (length rest < length stream)%nat as Hr by (unfold rest, zlen in *; rewrite length_drop; lia).
  rewrite sl_getUint_Ret by (simpl; lia). cbn [obind].
  rewrite sl_from_Ret by (simpl; lia). cbn [obind sl_off sl_len sl_all].
  rewrite sl_getUint_Ret by (simpl; lia). cbn [obind].
  case_if; [|eexists; split; [done|]; intros ? ? [= <- <-]; done].
  unfold ReadFull. case_if; [|eexists; split; [done|]; discriminate].
  eexists. split; [done|]. intros ? ? [= <- <-]. rewrite length_drop. lia.
Qed.

Lemma readMessage_nil : readMessage [] = Ret None.
Proof. reflexivity. Qed.

(** A frame of which only the first [n] bytes arrived: it is whole, or nothing is
    read. *)
Lemma readMessage_cut (msg : NodeWireMessage) (n : nat) :
  wire_ok msg ->
  readMessage (take n (frameLayout msg)) = Ret None \/
  readMessage (take n (frameLayout msg)) = Ret (Some (msg, [])).
Proof.
  intros Hm. pose proof (zlen_frameLayout msg) as Hl. destruct (decide (length (frameLayout msg) <= n)%nat).
  { right. rewrite take_ge by done. rewrite <- (app_nil_r (frameLayout msg)). by apply readMessage_frame. }
  left. unfold zlen in Hl. destruct Hm as [Hc Hw]. destruct msg as [code d]. cbn [wm_Code wm_Data] in *.
  destruct (decide (n < 6)%nat).
  { unfold readMessage, ReadFull. case_if; zbool; [|done].
    unfold zlen in *. rewrite length_take in *. lia. }
  pose proof (zlen_nonneg d). unfold frameLayout. cbn [wm_Code wm_Data].
  unfold u32. rewrite Z.mod_small by lia.
  rewrite !take_app, !length_le_bytes, !(take_ge (le_bytes _ _)) by (rewrite length_le_bytes; lia).
  rewrite readMessage_header by lia. unfold readBody, u32, ReadFull.
  replace (zlen d + 2 - 2) with (zlen d) by lia. rewrite Z.mod_small by lia.
  unfold zlen in *. case_if; zbool; [|lia]. case_if; zbool; [|done]. rewrite length_take in *. lia.
Qed.

Lemma consume_cut (msg : NodeWireMessage) (n : Z) (now : bool) (running : nat -> bool) (fuel : nat) :
  wire_ok msg -> (0 < fuel)%nat ->
  exists rs, (if now then
                let! r := readMessage (take (Z.to_nat n) (frameLayout msg)) in
                match r with
                | None => Ret []
                | Some (msg, rest) =>
                    let! msgs := networkConsumer running rest fuel in Ret (msg :: msgs)
                end
              else Ret []) = Ret rs /\ rs `sublist_of` [msg].
Proof.
  intros Hm Hf. destruct now; [|exists []; split; [done|apply sublist_nil_l]].
  destruct (readMessage_cut msg (Z.to_nat n) Hm) as [-> | ->]; cbn [obind].
  { exists []. split; [done|apply sublist_nil_l]. }
  destruct fuel as [|fuel]; [lia|]. cbn [networkConsumer].
  exists [msg]. split; [|done]. rewrite readMessage_nil. by destruct (running fuel).
Qed.

Lemma networkConsumer_total (running : nat -> bool) (fuel : nat) (stream : list byte) :
  (length stream < fuel)%nat -> exists msgs, networkConsumer running stream fuel = Ret msgs.
Proof.
  revert stream. induction fuel as [|fuel IH]; intros stream Hl; [lia|]. cbn [networkConsumer].
  destruct (running fuel); [|eauto].
  destruct (readMessage_total stream) as (r & -> & Hr). cbn [obind].
  destruct r as [[msg rest]|]; [|eauto].
  destruct (IH rest) as [msgs ->]; [specialize (Hr msg rest eq_refl); lia|]. cbn [obind]. eauto.
Qed.

(** ** Claims *)

(** Put messages arrive.  A put message with a key of up to 65525 bytes is
    serialized, framed, read from the head of the stream whatever follows, and
    deserialized to the same key, expiry and data. *)
Theorem put_message_travels (pm m0 : PutMessage) (rest : list byte) :
  put_wf pm -> zlen (pm_Key pm) + zlen (pm_Data pm) + 12 < 2 ^ 32 ->
  exists w f, Serialize pm = Ret w /\ frame w = Ret f /\ wm_Code w = MsgPUT /\
    readMessage (f ++ rest) = Ret (Some (w, rest)) /\
    DeSerialize m0 w = Ret (MkPut MsgPUT (pm_Key pm) (pm_Expiry pm) (pm_Data pm)).
Proof.
  intros Hw Hl. eexists. edestruct (message_travels put_wf MsgPUT put_coded pm m0) as (f & Hf & Hr & Hc & Hd);
    [done|apply put_Serialize_Ret|by vm_compute| |].
  - cbn [wm_Data]. unfold putLayout. rewrite !zlen_app, !zlen_le_bytes. lia.
  - exists f. split_and!; [apply put_Serialize_Ret|exact Hf|done|exact Hr|exact Hd].
Qed.

(** Get responses arrive: the same for the responses to remote reads, with
    pending keys of up to 65533 bytes. *)
Theorem get_response_travels (gm m0 : GetRspMessage) (rest : list byte) :
  getRsp_wf gm -> zlen (gr_PendingKey gm) + zlen (gr_Data gm) + 4 < 2 ^ 32 ->
  exists w f, Serialize gm = Ret w /\ frame w = Ret f /\ wm_Code w = MsgGETRsp /\
    readMessage (f ++ rest) = Ret (Some (w, rest)) /\
    DeSerialize m0 w = Ret (MkGetRsp MsgGETRsp (gr_PendingKey gm) (gr_Data gm)).
Proof.
  intros Hw Hl. eexists. edestruct (message_travels getRsp_wf MsgGETRsp getRsp_coded gm m0) as (f & Hf & Hr & Hc & Hd);
    [done|apply getRsp_Serialize_Ret|by vm_compute| |].
  - cbn [wm_Data]. unfold getRspLayout. rewrite !zlen_app, !zlen_le_bytes. lia.
  - exists f. split_and!; [apply getRsp_Serialize_Ret|exact Hf|done|exact Hr|exact Hd].
Qed.

(** Framing round trip.  Whatever messages a node queues, its peer's consumer cuts
    the stream back into exactly those messages, in order, as long as the
    connection holds; an incomplete frame at the end yields nothing more. *)
Theorem stream_roundtrip (msgs : list NodeWireMessage) (tail : list byte) (fuel : nat) :
  Forall wire_ok msgs -> readMessage tail = Ret None -> (length msgs < fuel)%nat ->
  exists stream, networkSender (fun _ => false) (fun _ => None) msgs = Ret stream /\
    networkConsumer (fun _ => true) (stream ++ tail) fuel = Ret msgs.
Proof.
  intros Hok Ht. revert fuel.
  induction Hok as [|msg msgs Hm _ IH]; intros fuel Hfuel; (destruct fuel as [|fuel]; [simpl in Hfuel; lia|]);
    simpl in Hfuel; cbn [networkSender networkConsumer].
  - exists []. simpl. by rewrite Ht.
  - rewrite frame_Ret. cbn [obind]. destruct (IH fuel ltac:(lia)) as (stream & -> & Hc). cbn [obind].
    eexists. split; [done|]. rewrite <- app_assoc, readMessage_frame by done. cbn [obind]. by rewrite Hc.
Qed.

(** Nothing is invented on the wire.  Wherever the state of the sending node drops
    messages, wherever sending fails in the middle of a frame, and whenever
    the receiver stops: the receiver gets a subsequence of the queued messages, each
    as it was sent. *)
Theorem wire_delivers_subsequence (disconnected running : nat -> bool) (failed : nat -> option Z)
    (msgs : list NodeWireMessage) (fuel : nat) :
  Forall wire_ok msgs -> (length msgs < fuel)%nat ->
  exists stream received, networkSender disconnected failed msgs = Ret stream /\
    networkConsumer running stream fuel = Ret received /\ received `sublist_of` msgs.
Proof.
  intros Hok. revert fuel. induction Hok as [|msg msgs Hm _ IH]; intros fuel Hfuel.
  - destruct fuel as [|fuel]; [simpl in Hfuel; lia|]. exists [], []. cbn [networkSender networkConsumer].
    split_and!; [done| |done]. by destruct (running fuel).
  - simpl in Hfuel. cbn [networkSender]. destruct (disconnected (length msgs)).
    { destruct (IH fuel) as (stream & rs & H1 & H2 & H3); [lia|]. exists stream, rs.
      split_and!; [done|done|by apply sublist_cons]. }
    rewrite frame_Ret. cbn [obind]. destruct fuel as [|fuel]; [lia|]. cbn [networkConsumer].
    destruct (failed (length msgs)) as [n|].
    + destruct (consume_cut msg n (running fuel) running fuel Hm) as (rs & Hr & Hs); [lia|].
      eexists _, rs. split_and!; [done|exact Hr|]. etrans; [exact Hs|].
      apply sublist_skip, sublist_nil_l.
    + destruct (IH fuel) as (stream & rs & -> & H2 & H3); [lia|]. cbn [obind].
      destruct (running fuel); eexists _, _; (split; [done|]).
      * rewrite readMessage_frame by done. cbn [obind]. rewrite H2. split; [done|by apply sublist_skip].
      * split; [done|apply sublist_nil_l].
Qed.

(** The consumer ends on every input.  Whatever bytes a peer sends, cutting them
    into messages neither panics nor runs for ever: the length of the stream
    bounds the rounds. *)
Theorem consume_total (running : nat -> bool) (stream : list byte) :
  exists msgs, networkConsumer running stream (S (length stream)) = Ret msgs.
Proof. apply networkConsumer_total. lia. Qed.

(** A length field of 0 or 1 makes the consumer subtract below zero: it then
    waits for about four gigabytes, and all frames that follow are lost. *)
Theorem short_length_swallows_stream (len code : Z) (rest : list byte) (running : nat -> bool) (fuel : nat) :
  0 <= len < 2 -> 0 <= code < 2 ^ 16 -> zlen rest < 2 ^ 32 - 2 ->
  networkConsumer running (le_bytes 4 len ++ le_bytes 2 code ++ rest) (S fuel) = Ret [].
Proof.
  intros Hl Hc Hr. cbn [networkConsumer]. rewrite readMessage_header by lia. unfold readBody, u32.
  assert ((len - 2) mod 2 ^ 32 = 2 ^ 32 - 2 + len) as -> by (symmetry; apply (Z.mod_unique_pos _ _ (-1)); lia).
  destruct (running fuel); [|done]. case_if; zbool; [|lia]. unfold ReadFull. case_if; zbool; [lia|done].
Qed.

(** A put message of fewer than ten bytes makes [DeSerialize] panic; nothing on
    the way from the connection checks the length. *)
Theorem short_put_panics (m0 : PutMessage) (code : Z) (data : list byte) :
  zlen data < 10 -> PutMessage_DeSerialize m0 (WireMessage code data) = Panic.
Proof.
  intros Hd. unfold PutMessage_DeSerialize. cbn [wm_Data].
  unfold sl_getUint at 1. case_if; [|done]. zbool. cbn [obind]. simpl in *.
  rewrite sl_from_Ret by (simpl; lia). cbn [obind sl_off sl_len sl_all].
  unfold sl_getUint. case_if; [|done]. zbool. simpl in *. lia.
Qed.

(** Keys of 65526 to 65535 bytes are serialized without complaint and make the
    receiver's [DeSerialize] panic: the 16 bit sum of header and key length wraps
    around. *)
Theorem long_put_key_panics (pm m0 : PutMessage) :
  2 ^ 16 - 10 <= zlen (pm_Key pm) < 2 ^ 16 ->
  exists w, Serialize pm = Ret w /\ DeSerialize m0 w = Panic.
Proof.
  intros Hk. eexists. split; [apply put_Serialize_Ret|]. simpl.
  unfold PutMessage_DeSerialize. cbn [wm_Data]. set (l := putLayout _ _ _).
  pose proof (zlen_nonneg (pm_Data pm)).
  assert (zlen l = 10 + zlen (pm_Key pm) + zlen (pm_Data pm)) as Hl.
  { unfold l, putLayout. rewrite !zlen_app, !zlen_le_bytes. lia. }
  rewrite sl_getUint_Ret by (simpl; lia). cbn [obind].
  rewrite sl_from_Ret by (simpl; lia). cbn [obind sl_off sl_len sl_all].
  rewrite sl_getUint_Ret by (simpl; lia). cbn [obind sl_off].
  replace (region l (0 + 8) 2) with (le_bytes 2 (u16 (zlen (pm_Key pm))))
    by (symmetry; apply region_mid; by rewrite zlen_le_bytes).
  rewrite (u16_small (zlen (pm_Key pm))), le_Z_le_bytes_small by lia.
  assert (u16 (8 + 2 + zlen (pm_Key pm)) = 10 + zlen (pm_Key pm) - 2 ^ 16) as ->
    by (symmetry; apply (Z.mod_unique_pos _ _ 1); lia).
  unfold sl_slice. destruct (8 + 2 <=? 10 + zlen (pm_Key pm) - 2 ^ 16) eqn:E; zbool; [lia|].
  by rewrite andb_false_r.
Qed.

(** ** Witnesses *)

Definition putK : PutMessage := MkPut 0 ["k"]%byte 105 ["v"; "w"]%byte.

Lemma put_message_travels_witness :
  exists w f, Serialize putK = Ret w /\ frame w = Ret f /\ wm_Code w = MsgPUT /\
    readMessage (f ++ []) = Ret (Some (w, [])) /\
    DeSerialize (MkPut 0 [] 0 []) w = Ret (MkPut MsgPUT ["k"]%byte 105 ["v"; "w"]%byte).
Proof.
  apply (put_message_travels putK (MkPut 0 [] 0 []) []); [|by vm_compute].
  split; [by vm_compute|by vm_compute].
Defined.

Lemma get_response_travels_witness :
  exists w f, Serialize (MkGetRsp 0 ["p"]%byte ["v"]%byte) = Ret w /\ frame w = Ret f /\
    wm_Code w = MsgGETRsp /\ readMessage (f ++ []) = Ret (Some (w, [])) /\
    DeSerialize (MkGetRsp 0 [] []) w = Ret (MkGetRsp MsgGETRsp ["p"]%byte ["v"]%byte).
Proof.
  apply (get_response_travels (MkGetRsp 0 ["p"]%byte ["v"]%byte) (MkGetRsp 0 [] []) []); by vm_compute.
Defined.

(** Two messages and half a header. *)
Definition twoMessages : list NodeWireMessage :=
  [WireMessage MsgPING []; WireMessage MsgGETRsp ["a"; "b"; "c"]%byte].

Lemma twoMessages_ok : Forall wire_ok twoMessages.
Proof. repeat constructor; by vm_compute. Qed.

Lemma stream_roundtrip_witness :
  exists stream, networkSender (fun _ => false) (fun _ => None) twoMessages = Ret stream /\
    networkConsumer (fun _ => true) (stream ++ ["x"; "y"; "z"]%byte) 3 = Ret twoMessages.
Proof.
  apply (stream_roundtrip twoMessages ["x"; "y"; "z"]%byte 3);
    [exact twoMessages_ok|vm_compute; reflexivity|simpl; lia].
Defined.

(** The second frame is cut after eight bytes. *)
Lemma wire_delivers_subsequence_witness :
  exists stream received,
    networkSender (fun _ => false) (fun k => if decide (k = 0%nat) then Some 8 else None) twoMessages = Ret stream /\
    networkConsumer (fun _ => true) stream 3 = Ret received /\ received `sublist_of` twoMessages.
Proof.
  apply (wire_delivers_subsequence (fun _ => false) (fun _ => true)
           (fun k => if decide (k = 0%nat) then Some 8 else None) twoMessages 3);
    [exact twoMessages_ok|simpl; lia].
Defined.

Lemma short_length_swallows_stream_witness :
  networkConsumer (fun _ => true)
    (le_bytes 4 0 ++ le_bytes 2 MsgPING ++ frameLayout (WireMessage MsgPING [])) (S 9) = Ret [].
Proof.
  apply (short_length_swallows_stream 0 MsgPING (frameLayout (WireMessage MsgPING [])) (fun _ => true) 9);
    by vm_compute.
Defined.

Lemma short_put_panics_witness :
  PutMessage_DeSerialize putK (WireMessage MsgPUT ["x"]%byte) = Panic.
Proof. apply (short_put_panics putK MsgPUT ["x"]%byte). by vm_compute. Defined.

Lemma long_put_key_panics_witness :
  exists w, Serialize (MkPut 0 (zeros 65526) 0 []) = Ret w /\ DeSerialize putK w = Panic.
Proof.
  apply (long_put_key_panics (MkPut 0 (zeros 65526) 0 []) putK). cbn [pm_Key].
  rewrite zlen_zeros by lia. lia.
Defined.
