(* ===== verification/SliceList.v ===== *)
(** * The list of nodes ([utils/sliceList.go])

    A concurrent map with a size counter of its own, the [int32] that callers
    read as the number of connected nodes. *)

From stdpp Require Import base decidable countable list gmap.
From Stdlib Require Import ZArith Lia.
From S2P Require Import Prelude.

Record SliceList (K V : Type) `{Countable K} : Type := MkSliceList {
  sli_items : gmap K V;
  sli_size : Z
}.

Arguments MkSliceList {K V _ _} _ _.
Arguments sli_items {K V _ _} _.
Arguments sli_size {K V _ _} _.

Section SliceListOps.
Context {K V : Type} `{Countable K}.
Implicit Types sl : SliceList K V.

Definition NewSliceList : SliceList K V := MkSliceList ∅ 0.

(** [Add]; [None] is the nil value. *)
Definition sliAdd sl (key : K) (value : option V) : SliceList K V :=
  match value with
  | None => sl
  | Some v => MkSliceList (<[key:=v]> (sli_items sl)) (i32 (sli_size sl + 1))
  end.

Definition sliContains sl (key : K) : bool := bool_decide (is_Some (sli_items sl !! key)).

Definition sliSize sl : Z := sli_size sl.

Definition sliRemove sl (key : K) : SliceList K V :=
  match sli_items sl !! key with
  | Some _ => MkSliceList (delete key (sli_items sl)) (i32 (sli_size sl - 1))
  | None => sl
  end.

Definition sliGet sl (key : K) : option V := sli_items sl !! key.

(** [Values]; the order of [Range] is the order of the map's list. *)
Definition sliValues sl : outcome (list V) :=
  if sli_size sl <? 0 then Panic else Ret (map_to_list (sli_items sl)).*2.

Definition sliKeys sl : gmap K V := sli_items sl.

(** ** Runs *)

(** Runs from a new list, with the number of times [Add] stored over a key that was
    there. *)
Inductive sli_run : SliceList K V -> nat -> Prop :=
| sli_new : sli_run NewSliceList 0
| sli_add sl n key v :
    sli_run sl n ->
    sli_run (sliAdd sl key (Some v)) (if sliContains sl key then S n else n)
| sli_remove sl n key : sli_run sl n -> sli_run (sliRemove sl key) n.

Lemma i32_plus (a b : Z) : i32 (i32 a + b) = i32 (a + b).
Proof.
  unfold i32. replace ((a + 2 ^ 31) mod 2 ^ 32 - 2 ^ 31 + b + 2 ^ 31) with ((a + 2 ^ 31) mod 2 ^ 32 + b) by lia.
  rewrite Zplus_mod_idemp_l. do 2 f_equal. lia.
Qed.

Lemma sli_run_size sl (n : nat) :
  sli_run sl n -> sli_size sl = i32 (Z.of_nat (size (sli_items sl)) + Z.of_nat n).
Proof.
  induction 1 as [|sl n key v _ IH|sl n key _ IH].
  - simpl. rewrite map_size_empty. reflexivity.
  - simpl. rewrite IH, i32_plus. unfold sliContains. case_bool_decide as Hc.
    + rewrite map_size_insert_Some by done. f_equal. lia.
    + rewrite map_size_insert_None by (by apply eq_None_not_Some). f_equal. lia.
  - unfold sliRemove. destruct (sli_items sl !! key) as [v|] eqn:E; [|done]. simpl.
    rewrite IH. replace (i32 (Z.of_nat (size (sli_items sl)) + Z.of_nat n) - 1)
      with (i32 (Z.of_nat (size (sli_items sl)) + Z.of_nat n) + -1) by lia.
    rewrite i32_plus, map_size_delete, E. f_equal.
    assert (size (sli_items sl) <> 0)%nat by (apply map_size_ne_0_lookup; eauto). simpl. lia.
Qed.

(** ** Claims *)

(** The size counter counts the keys and, for ever, every overwrite: after any run
    of [Add] and [Remove], [Size] is the number of keys plus the number of times
    [Add] stored over a key that was there. *)
Theorem size_counts_overwrites sl (n : nat) :
  sli_run sl n -> Z.of_nat (size (sli_items sl)) + Z.of_nat n < 2 ^ 31 ->
  sliSize sl = Z.of_nat (size (sliKeys sl)) + Z.of_nat n.
Proof.
  intros Hr Hb. unfold sliSize. rewrite (sli_run_size _ _ Hr). unfold i32, sliKeys.
  rewrite Z.mod_small; lia.
Qed.
End SliceListOps.

(** ** Witnesses *)

(** The same key added twice. *)
Definition addedOnce : SliceList Z Z := sliAdd NewSliceList 1 (Some 10).

Definition addedTwice : SliceList Z Z := sliAdd addedOnce 1 (Some 20).

Lemma addedTwice_run : sli_run addedTwice 1.
Proof.
  pose proof (sli_add NewSliceList 0 1 10 sli_new) as H1.
  pose proof (sli_add addedOnce 0 1 20 H1) as H2.
  by replace (sliContains addedOnce 1) with true in H2 by (vm_compute; reflexivity).
Qed.

Lemma size_counts_overwrites_witness :
  sliSize addedTwice = Z.of_nat (size (sliKeys addedTwice)) + Z.of_nat 1.
Proof. apply (size_counts_overwrites addedTwice 1); [exact addedTwice_run|by vm_compute]. Defined.
