(* ===== verification/Utf8.v ===== *)
(** * UTF-8 (Go's [unicode/utf8], as the JSON messages use it)

    [DecodeRune] with its error value, [EncodeRune], and what becomes of a string when
    every rune of it is decoded and encoded again. *)

From stdpp Require Import base decidable countable list gmap.
From Stdlib Require Import ZArith Lia Strings.Byte.
From S2P Require Import Prelude.

(** [utf8.RuneError], the replacement character. *)
Definition RuneError : Z := 65533.

(** A byte in a range, from position [i]. *)
Definition byteIn (lo hi : Z) (b : byte) : bool := (lo <=? byte_Z b) && (byte_Z b <=? hi).

(** The low six bits of a continuation byte. *)
Definition low6 (b : byte) : Z := byte_Z b - 128.

(** [utf8.DecodeRune]: the rune and how many bytes it takes; a byte that starts no rune is
    [RuneError] of one byte. *)
Definition DecodeRune (s : list byte) : Z * nat :=
  match s with
  | [] => (RuneError, 0%nat)
  | b0 :: s1 =>
      let x := byte_Z b0 in
      if x <? 128 then (x, 1%nat)
      else if x <? 194 then (RuneError, 1%nat)
      else if x <? 224 then
        match s1 with
        | b1 :: _ =>
            if byteIn 128 191 b1 then ((x - 192) * 64 + low6 b1, 2%nat) else (RuneError, 1%nat)
        | _ => (RuneError, 1%nat)
        end
      else if x <? 240 then
        match s1 with
        | b1 :: b2 :: _ =>
            if byteIn (if x =? 224 then 160 else 128) (if x =? 237 then 159 else 191) b1 && byteIn 128 191 b2
            then ((x - 224) * 4096 + low6 b1 * 64 + low6 b2, 3%nat) else (RuneError, 1%nat)
        | _ => (RuneError, 1%nat)
        end
      else if x <? 245 then
        match s1 with
        | b1 :: b2 :: b3 :: _ =>
            if byteIn (if x =? 240 then 144 else 128) (if x =? 244 then 143 else 191) b1 &&
               byteIn 128 191 b2 && byteIn 128 191 b3
            then ((x - 240) * 262144 + low6 b1 * 4096 + low6 b2 * 64 + low6 b3, 4%nat)
            else (RuneError, 1%nat)
        | _ => (RuneError, 1%nat)
        end
      else (RuneError, 1%nat)
  end.

(** The three bytes of a rune below [2^16]. *)
Definition encode3 (r : Z) : list byte :=
  [Z_byte (224 + r / 4096); Z_byte (128 + r / 64 mod 64); Z_byte (128 + r mod 64)].

(** [utf8.EncodeRune]; surrogates and numbers above the last rune are written as
    [RuneError]. *)
Definition EncodeRune (r : Z) : list byte :=
  if (0 <=? r) && (r <? 128) then [Z_byte r]
  else if (0 <=? r) && (r <? 2048) then [Z_byte (192 + r / 64); Z_byte (128 + r mod 64)]
  else if (r <? 0) || (1114111 <? r) || ((55296 <=? r) && (r <=? 57343)) then encode3 RuneError
  else if r <? 65536 then encode3 r
  else [Z_byte (240 + r / 262144); Z_byte (128 + r / 4096 mod 64);
        Z_byte (128 + r / 64 mod 64); Z_byte (128 + r mod 64)].

(** A byte that starts no rune. *)
Definition badRune (s : list byte) : bool :=
  let r := DecodeRune s in (fst r =? RuneError) && Nat.eqb (snd r) 1.

(** Every rune decoded and encoded again, at most [fuel] of them. *)
Fixpoint recodeFrom (fuel : nat) (s : list byte) : list byte :=
  match fuel with
  | O => []
  | S fuel' =>
      match s with
      | [] => []
      | _ =>
          let r := DecodeRune s in
          EncodeRune (fst r) ++ recodeFrom fuel' (drop (snd r) s)
      end
  end.

(** A string has at most as many runes as bytes. *)
Definition recode (s : list byte) : list byte := recodeFrom (length s) s.

(** [utf8.Valid] *)
Fixpoint validFrom (fuel : nat) (s : list byte) : bool :=
  match fuel with
  | O => true
  | S fuel' =>
      match s with
      | [] => true
      | _ => negb (badRune s) && validFrom fuel' (drop (snd (DecodeRune s)) s)
      end
  end.

Definition validUTF8 (s : list byte) : bool := validFrom (length s) s.

(** ** Decoding and encoding *)

Lemma byteIn_range (lo hi : Z) (b : byte) : byteIn lo hi b = true <-> lo <= byte_Z b <= hi.
Proof. unfold byteIn. rewrite andb_true_iff, !Z.leb_le. done. Qed.

Lemma Z_byte_byte_Z (b : byte) : Z_byte (byte_Z b) = b.
Proof.
  apply byte_Z_inj. rewrite byte_Z_Z_byte. pose proof (byte_Z_range b). by rewrite Z.mod_small.
Qed.

Lemma Z_byte_is (z : Z) (b : byte) : z = byte_Z b -> Z_byte z = b.
Proof. intros ->. apply Z_byte_byte_Z. Qed.

(** What a decoded rune says about the bytes it was decoded from. *)
Inductive rune_of : Z -> list byte -> Prop :=
| rune1 b0 : byte_Z b0 < 128 -> rune_of (byte_Z b0) [b0]
| rune2 b0 b1 :
    194 <= byte_Z b0 < 224 -> 128 <= byte_Z b1 <= 191 ->
    rune_of ((byte_Z b0 - 192) * 64 + low6 b1) [b0; b1]
| rune3 b0 b1 b2 :
    224 <= byte_Z b0 < 240 -> 128 <= byte_Z b1 <= 191 -> 128 <= byte_Z b2 <= 191 ->
    (byte_Z b0 = 224 -> 160 <= byte_Z b1) -> (byte_Z b0 = 237 -> byte_Z b1 <= 159) ->
    rune_of ((byte_Z b0 - 224) * 4096 + low6 b1 * 64 + low6 b2) [b0; b1; b2]
| rune4 b0 b1 b2 b3 :
    240 <= byte_Z b0 < 245 -> 128 <= byte_Z b1 <= 191 -> 128 <= byte_Z b2 <= 191 ->
    128 <= byte_Z b3 <= 191 ->
    (byte_Z b0 = 240 -> 144 <= byte_Z b1) -> (byte_Z b0 = 244 -> byte_Z b1 <= 143) ->
    rune_of ((byte_Z b0 - 240) * 262144 + low6 b1 * 4096 + low6 b2 * 64 + low6 b3) [b0; b1; b2; b3].

(** Decides the comparisons of the goal, keeping the cases that can be. *)
Ltac ztests :=
  repeat match goal with
  | |- context [?a <? ?b] => destruct (Z.ltb_spec a b); try lia
  | |- context [?a <=? ?b] => destruct (Z.leb_spec a b); try lia
  end.

Create HintDb utf8.
#[export] Hint Constructors rune_of : utf8.

(** A string starts with a rune, or with a byte that starts none. *)
Lemma DecodeRune_cases (s : list byte) :
  s <> [] ->
  (exists c rest, s = c ++ rest /\ rune_of (fst (DecodeRune s)) c /\ snd (DecodeRune s) = length c) \/
  DecodeRune s = (RuneError, 1%nat).
Proof.
  intros Hs. destruct s as [|b0 s]; [done|]. unfold DecodeRune.
  destruct (byte_Z b0 <? 128) eqn:E1; zbool.
  { left. exists [b0], s. simpl. auto with utf8. }
  destruct (byte_Z b0 <? 194) eqn:E2; zbool; [by right|].
  destruct (byte_Z b0 <? 224) eqn:E3; zbool.
  { destruct s as [|b1 s]; [by right|]. destruct (byteIn 128 191 b1) eqn:E; [|by right].
    apply byteIn_range in E. left. exists [b0; b1], s. simpl. auto with utf8. }
  destruct (byte_Z b0 <? 240) eqn:E4; zbool.
  { destruct s as [|b1 [|b2 s]]; [by right|by right|].
    match goal with |- context [if ?b then _ else _] => destruct b eqn:E; [|by right] end.
    apply andb_true_iff in E as [Ea Eb]. apply byteIn_range in Ea, Eb.
    left. exists [b0; b1; b2], s. cbn [fst snd length app]. split_and!; [done| |done].
    apply rune3; destruct (byte_Z b0 =? 224) eqn:?, (byte_Z b0 =? 237) eqn:?; zbool; lia. }
  destruct (byte_Z b0 <? 245) eqn:E5; zbool; [|by right].
  destruct s as [|b1 [|b2 [|b3 s]]]; [by right|by right|by right|].
  match goal with |- context [if ?b then _ else _] => destruct b eqn:E; [|by right] end.
  apply andb_true_iff in E as [E Ec]. apply andb_true_iff in E as [Ea Eb]. apply byteIn_range in Ea, Eb, Ec.
  left. exists [b0; b1; b2; b3], s. cbn [fst snd length app]. split_and!; [done| |done].
  apply rune4; destruct (byte_Z b0 =? 240) eqn:?, (byte_Z b0 =? 244) eqn:?; zbool; lia.
Qed.

Lemma byteIn_true (lo hi : Z) (b : byte) : lo <= byte_Z b <= hi -> byteIn lo hi b = true.
Proof. apply byteIn_range. Qed.

(** A rune is decoded whatever follows. *)
Lemma DecodeRune_rune (r : Z) (c rest : list byte) :
  rune_of r c -> DecodeRune (c ++ rest) = (r, length c).
Proof.
  intros H. destruct H; unfold DecodeRune; cbn [app length];
    ztests; try done;
    repeat (rewrite byteIn_true by (repeat case_if; zbool; lia)); done.
Qed.

(** Encoding a rune gives the bytes it was decoded from. *)
Lemma EncodeRune_rune (r : Z) (c : list byte) : rune_of r c -> EncodeRune r = c.
Proof.
  intros H. destruct H; unfold EncodeRune, encode3, low6 in *; try pose proof (byte_Z_range b0);
    ztests; cbn [andb orb]; repeat apply (f_equal2 cons);
    try apply Z_byte_is; try done; Z.div_mod_to_equations; lia.
Qed.

(** ** Recoding a string *)

Lemma badRune_spec (s : list byte) : badRune s = true -> DecodeRune s = (RuneError, 1%nat).
Proof.
  unfold badRune. destruct (DecodeRune s) as [r n]. simpl. rewrite andb_true_iff, Z.eqb_eq, Nat.eqb_eq.
  by intros [-> ->].
Qed.

(** A rune that is not bad takes at least a byte, and encodes to the bytes it took. *)
Lemma goodRune (s : list byte) :
  s <> [] -> badRune s = false ->
  exists c rest, s = c ++ rest /\ rune_of (fst (DecodeRune s)) c /\ snd (DecodeRune s) = length c.
Proof.
  intros Hs Hb. destruct (DecodeRune_cases s Hs) as [H|H]; [done|].
  unfold badRune in Hb. by rewrite H in Hb.
Qed.

Lemma rune_length (r : Z) (c : list byte) : rune_of r c -> (0 < length c)%nat.
Proof. intros []; simpl; lia. Qed.

Lemma DecodeRune_size (s : list byte) :
  s <> [] -> (0 < snd (DecodeRune s) <= length s)%nat.
Proof.
  intros Hs. destruct (DecodeRune_cases s Hs) as [(c & rest & Heq & Hr & ->)| -> ].
  - apply rune_length in Hr. rewrite Heq, length_app. lia.
  - destruct s; [done|]. simpl. lia.
Qed.

(** [recode] and [validUTF8] do not depend on their fuel. *)
Lemma recodeFrom_fuel (f : nat) (s : list byte) : (length s <= f)%nat -> recodeFrom f s = recode s.
Proof.
  unfold recode. remember (length s) as n eqn:Hn. revert f s Hn.
  induction (lt_wf n) as [n _ IH]. intros f s -> Hf. destruct s as [|b s]; [by destruct f|].
  pose proof (DecodeRune_size (b :: s) ltac:(done)) as Hsz. cbn [length] in *.
  destruct f as [|f]; [lia|]. cbn [recodeFrom]. f_equal.
  set (rest := drop _ _). assert (length rest < S (length s))%nat.
  { unfold rest. rewrite length_drop. cbn [length]. lia. }
  rewrite (IH (length rest)), <- (IH (length rest) ltac:(done) (length s) rest) by (done || lia). done.
Qed.

Lemma validFrom_fuel (f : nat) (s : list byte) : (length s <= f)%nat -> validFrom f s = validUTF8 s.
Proof.
  unfold validUTF8. remember (length s) as n eqn:Hn. revert f s Hn.
  induction (lt_wf n) as [n _ IH]. intros f s -> Hf. destruct s as [|b s]; [by destruct f|].
  pose proof (DecodeRune_size (b :: s) ltac:(done)) as Hsz. cbn [length] in *.
  destruct f as [|f]; [lia|]. cbn [validFrom]. f_equal.
  set (rest := drop _ _). assert (length rest < S (length s))%nat.
  { unfold rest. rewrite length_drop. cbn [length]. lia. }
  rewrite (IH (length rest)), <- (IH (length rest) ltac:(done) (length s) rest) by (done || lia). done.
Qed.

Lemma recode_cons (s : list byte) :
  s <> [] ->
  recode s = EncodeRune (fst (DecodeRune s)) ++ recode (drop (snd (DecodeRune s)) s).
Proof.
  intros Hs. pose proof (DecodeRune_size s Hs). unfold recode at 1. destruct s as [|b s]; [done|].
  cbn [length recodeFrom]. f_equal. apply recodeFrom_fuel. rewrite length_drop. cbn [length] in *. lia.
Qed.

Lemma valid_cons (s : list byte) :
  s <> [] -> validUTF8 s = negb (badRune s) && validUTF8 (drop (snd (DecodeRune s)) s).
Proof.
  intros Hs. pose proof (DecodeRune_size s Hs). unfold validUTF8 at 1. destruct s as [|b s]; [done|].
  cbn [length validFrom]. f_equal. apply validFrom_fuel. rewrite length_drop. cbn [length] in *. lia.
Qed.

(** Induction rune by rune. *)
Lemma rune_ind (P : list byte -> Prop) :
  P [] ->
  (forall r c rest, rune_of r c -> P rest -> P (c ++ rest)) ->
  (forall b rest, DecodeRune (b :: rest) = (RuneError, 1%nat) -> P rest -> P (b :: rest)) ->
  forall s, P s.
Proof.
  intros Hnil Hrune Hbad s. remember (length s) as n eqn:Hn. revert s Hn.
  induction (lt_wf n) as [n _ IH]. intros s ->. destruct s as [|b s]; [done|].
  destruct (DecodeRune_cases (b :: s)) as [(c & rest & Heq & Hr & Hsz)|H]; [done| |].
  - rewrite Heq. eapply Hrune; [exact Hr|]. apply (IH (length rest)); [|done].
    apply rune_length in Hr. rewrite Heq, length_app. lia.
  - apply Hbad; [done|]. apply (IH (length s)); [simpl; lia|done].
Qed.

Lemma recode_rune (r : Z) (c rest : list byte) : rune_of r c -> recode (c ++ rest) = c ++ recode rest.
Proof.
  intros H. pose proof (rune_length _ _ H). rewrite recode_cons by (destruct c; [simpl in *; lia|done]).
  rewrite (DecodeRune_rune r c rest H). cbn [fst snd]. by rewrite (EncodeRune_rune r c H), drop_app_length.
Qed.

Lemma recode_bad (b : byte) (rest : list byte) :
  DecodeRune (b :: rest) = (RuneError, 1%nat) -> recode (b :: rest) = encode3 RuneError ++ recode rest.
Proof. intros H. rewrite recode_cons, H by done. done. Qed.

Lemma badRune_rune (r : Z) (c rest : list byte) : rune_of r c -> badRune (c ++ rest) = false.
Proof.
  intros H. unfold badRune. rewrite (DecodeRune_rune r c rest H). cbn [fst snd].
  destruct H; cbn [length]; rewrite ?andb_false_r; try done. rewrite andb_true_r. apply Z.eqb_neq.
  unfold RuneError. lia.
Qed.

Lemma valid_rune (r : Z) (c rest : list byte) : rune_of r c -> validUTF8 (c ++ rest) = validUTF8 rest.
Proof.
  intros H. pose proof (rune_length _ _ H). rewrite valid_cons by (destruct c; [simpl in *; lia|done]).
  rewrite (badRune_rune r c rest H), (DecodeRune_rune r c rest H). cbn [fst snd negb andb].
  by rewrite drop_app_length.
Qed.

Lemma valid_bad (b : byte) (rest : list byte) :
  DecodeRune (b :: rest) = (RuneError, 1%nat) -> validUTF8 (b :: rest) = false.
Proof. intros H. rewrite valid_cons by done. unfold badRune. by rewrite H. Qed.

Lemma recode_length (s : list byte) :
  (length s <= length (recode s))%nat /\ (validUTF8 s = false -> length s < length (recode s))%nat.
Proof.
  induction s as [|r c rest H IH|b rest H IH] using rune_ind; [done| |].
  - rewrite (recode_rune r c rest H), (valid_rune r c rest H), !length_app. intuition lia.
  - rewrite (recode_bad b rest H), length_app. cbn [length]. simpl. lia.
Qed.

(** Recoding changes exactly the strings that are not valid UTF-8. *)
Lemma recode_valid (s : list byte) : recode s = s <-> validUTF8 s = true.
Proof.
  split.
  - intros H. destruct (validUTF8 s) eqn:E; [done|]. pose proof (proj2 (recode_length s) E).
    rewrite H in *. lia.
  - induction s as [|r c rest H IH|b rest H IH] using rune_ind; [done| |].
    + rewrite (recode_rune r c rest H), (valid_rune r c rest H). intros Hv. by rewrite IH.
    + by rewrite (valid_bad b rest H).
Qed.

(** Strings of ASCII bytes are valid. *)
Lemma valid_ascii (s : list byte) : Forall (fun b => byte_Z b < 128) s -> validUTF8 s = true.
Proof.
  induction 1 as [|b s Hb _ IH]; [done|].
  change (b :: s) with ([b] ++ s). by rewrite (valid_rune (byte_Z b) [b] s) by auto with utf8.
Qed.
