(* ===== verification/Json.v ===== *)
(** * JSON (Go's [encoding/json], as the messages use it)

    The values, how [Marshal] writes them and how [Unmarshal] reads them: strings
    with their escapes, numbers, arrays and objects, and the assignment of an object's
    members to the fields of a struct.  What [Marshal] writes reads back as the same
    value with every string recoded, for all values. *)

From Stdlib Require Import Strings.String.
From stdpp Require Import base decidable countable list gmap.
From Stdlib Require Import ZArith Lia Strings.Byte.
From S2P Require Import Prelude.
From S2P Require Import Utf8.

(** ** Values *)

(** A number is its literal. *)
#[warnings="-register-all"]
Inductive json : Type :=
| JNull
| JBool (b : bool)
| JNum (lit : list byte)
| JStr (s : gostring)
| JArr (vs : list json)
| JObj (ms : list (gostring * json)).

Definition bytesOf (s : string) : list byte := list_byte_of_string s.

(** The bytes of the syntax. *)
Abbreviation bQuote := Byte.x22.
Abbreviation bSlash := Byte.x5c.
Abbreviation bComma := Byte.x2c.
Abbreviation bColon := Byte.x3a.
Abbreviation bMinus := Byte.x2d.

(** ** Writing *)

Definition hexDigit (n : Z) : byte := if n <? 10 then Z_byte (48 + n) else Z_byte (87 + n).

(** The escape of an ASCII byte: [Marshal] also escapes the bytes HTML gives a
    meaning to. *)
Definition escapeByte (b : byte) : list byte :=
  if Byte.eqb b bQuote || Byte.eqb b bSlash then [bSlash; b]
  else if Byte.eqb b Byte.x0a then [bSlash; "n"%byte]
  else if Byte.eqb b Byte.x0d then [bSlash; "r"%byte]
  else if Byte.eqb b Byte.x09 then [bSlash; "t"%byte]
  else if (byte_Z b <? 32) || Byte.eqb b "<" || Byte.eqb b ">" || Byte.eqb b "&" then
    bytesOf "\u00" ++ [hexDigit (byte_Z b / 16); hexDigit (byte_Z b mod 16)]
  else [b].

(** [encodeState.string], at most [fuel] runes. *)
Fixpoint escapeFrom (fuel : nat) (s : list byte) : list byte :=
  match fuel, s with
  | S fuel', b :: s' =>
      if byte_Z b <? 128 then escapeByte b ++ escapeFrom fuel' s'
      else
        let r := DecodeRune s in
        let rest := escapeFrom fuel' (drop (snd r) s) in
        if badRune s then bytesOf "\ufffd" ++ rest
        else if (fst r =? 8232) || (fst r =? 8233)
        then bytesOf "\u202" ++ [hexDigit (fst r mod 16)] ++ rest
        else take (snd r) s ++ rest
  | _, _ => []
  end.

Definition quote (s : gostring) : list byte := bQuote :: escapeFrom (length s) s ++ [bQuote].

(** The decimal digits of a number, at most [fuel] of them, before [acc]. *)
Fixpoint digitsFrom (fuel : nat) (n : Z) (acc : list byte) : list byte :=
  match fuel with
  | O => acc
  | S fuel' =>
      let acc := Z_byte (48 + n mod 10) :: acc in
      if n <? 10 then acc else digitsFrom fuel' (n / 10) acc
  end.

(** [strconv.Itoa]; 20 digits are enough for 64 bits. *)
Definition itoa (n : Z) : list byte :=
  if n <? 0 then bMinus :: digitsFrom 20 (- n) [] else digitsFrom 20 n [].

Fixpoint commaSep (l : list (list byte)) : list byte :=
  match l with
  | [] => []
  | [x] => x
  | x :: l' => x ++ bComma :: commaSep l'
  end.

Fixpoint encodeJson (v : json) : list byte :=
  match v with
  | JNull => bytesOf "null"
  | JBool b => bytesOf (if b then "true" else "false")
  | JNum lit => lit
  | JStr s => quote s
  | JArr vs => "["%byte :: commaSep (map encodeJson vs) ++ ["]"%byte]
  | JObj ms =>
      "{"%byte :: commaSep (map (fun m => quote (fst m) ++ bColon :: encodeJson (snd m)) ms) ++ ["}"%byte]
  end.

(** ** Reading *)

Definition isSpace (b : byte) : bool :=
  Byte.eqb b " " || Byte.eqb b Byte.x09 || Byte.eqb b Byte.x0d || Byte.eqb b Byte.x0a.

Fixpoint skipSpace (s : list byte) : list byte :=
  match s with
  | b :: s' => if isSpace b then skipSpace s' else s
  | [] => []
  end.

Definition hexValue (b : byte) : option Z :=
  if byteIn 48 57 b then Some (byte_Z b - 48)
  else if byteIn 97 102 b then Some (byte_Z b - 87)
  else if byteIn 65 70 b then Some (byte_Z b - 55)
  else None.

(** Four hexadecimal digits. *)
Definition hex4 (s : list byte) : option (Z * list byte) :=
  match s with
  | a :: b :: c :: d :: rest =>
      a ← hexValue a; b ← hexValue b; c ← hexValue c; d ← hexValue d;
      Some (((a * 16 + b) * 16 + c) * 16 + d, rest)
  | _ => None
  end.

(** The byte behind a one-letter escape. *)
Definition simpleEscape (c : byte) : option byte :=
  if Byte.eqb c bQuote || Byte.eqb c bSlash || Byte.eqb c "/" then Some c
  else if Byte.eqb c "b" then Some Byte.x08
  else if Byte.eqb c "f" then Some Byte.x0c
  else if Byte.eqb c "n" then Some Byte.x0a
  else if Byte.eqb c "r" then Some Byte.x0d
  else if Byte.eqb c "t" then Some Byte.x09
  else None.

Definition isSurrogate (r : Z) : bool := (55296 <=? r) && (r <? 57344).

(** [utf16.DecodeRune] of a high and a low surrogate. *)
Definition surrogatePair (r1 r2 : Z) : option Z :=
  if (55296 <=? r1) && (r1 <? 56320) && (56320 <=? r2) && (r2 <? 57344)
  then Some ((r1 - 55296) * 1024 + (r2 - 56320) + 65536) else None.

(** What follows a unicode escape of [r]: the bytes it stands for and the rest; a high surrogate
    takes the escape of its low surrogate with it, any other is replaced. *)
Definition unicodeEscape (r : Z) (s : list byte) : list byte * list byte :=
  if isSurrogate r then
    match s with
    | b :: c :: s' =>
        if Byte.eqb b bSlash && Byte.eqb c "u" then
          match hex4 s' with
          | Some (r2, s'') =>
              match surrogatePair r r2 with
              | Some dec => (EncodeRune dec, s'')
              | None => (EncodeRune RuneError, s)
              end
          | None => (EncodeRune RuneError, s)
          end
        else (EncodeRune RuneError, s)
    | _ => (EncodeRune RuneError, s)
    end
  else (EncodeRune r, s).

(** One character of a string literal: its bytes and the rest. *)
Definition readChar (s : list byte) : option (list byte * list byte) :=
  match s with
  | [] => None
  | b :: s1 =>
      if Byte.eqb b bSlash then
        match s1 with
        | [] => None
        | c :: s2 =>
            if Byte.eqb c "u" then
              r ← hex4 s2; Some (unicodeEscape (fst r) (snd r))
            else x ← simpleEscape c; Some ([x], s2)
        end
      else if byte_Z b <? 32 then None
      else let r := DecodeRune s in Some (EncodeRune (fst r), drop (snd r) s)
  end.

(** A string literal after its opening quote, at most [fuel] characters. *)
Fixpoint readString (fuel : nat) (s : list byte) : option (gostring * list byte) :=
  match fuel, s with
  | S fuel', b :: s1 =>
      if Byte.eqb b bQuote then Some ([], s1)
      else
        cr ← readChar s;
        sr ← readString fuel' (snd cr);
        Some (fst cr ++ fst sr, snd sr)
  | _, _ => None
  end.

Definition isDigit (b : byte) : bool := byteIn 48 57 b.

(** The digits at the head of the input, and the rest. *)
Fixpoint spanDigits (s : list byte) : list byte * list byte :=
  match s with
  | b :: s' => if isDigit b then let r := spanDigits s' in (b :: fst r, snd r) else ([], s)
  | [] => ([], [])
  end.

(** A fraction, when there is a dot. *)
Definition scanFraction (s : list byte) : option (list byte * list byte) :=
  match s with
  | b :: s' =>
      if Byte.eqb b "." then
        let r := spanDigits s' in
        match fst r with [] => None | ds => Some (b :: ds, snd r) end
      else Some ([], s)
  | [] => Some ([], [])
  end.

(** An exponent, when there is an [e]. *)
Definition scanExponent (s : list byte) : option (list byte * list byte) :=
  match s with
  | b :: s' =>
      if Byte.eqb b "e" || Byte.eqb b "E" then
        let sg := match s' with
                  | c :: s'' => if Byte.eqb c "+" || Byte.eqb c bMinus then ([c], s'') else ([], s')
                  | [] => ([], [])
                  end in
        let r := spanDigits (snd sg) in
        match fst r with [] => None | ds => Some (b :: fst sg ++ ds, snd r) end
      else Some ([], s)
  | [] => Some ([], [])
  end.

(** The integer part: no digit follows a leading zero. *)
Definition scanInteger (s : list byte) : option (list byte * list byte) :=
  match s with
  | b :: s' =>
      if Byte.eqb b "0" then Some ([b], s')
      else if isDigit b then Some (spanDigits s)
      else None
  | [] => None
  end.

Definition scanNumber (s : list byte) : option (list byte * list byte) :=
  let sg := match s with
            | b :: s' => if Byte.eqb b bMinus then ([b], s') else ([], s)
            | [] => ([], [])
            end in
  i ← scanInteger (snd sg);
  f ← scanFraction (snd i);
  e ← scanExponent (snd f);
  Some (fst sg ++ fst i ++ fst f ++ fst e, snd e).

(** A keyword at the head of the input. *)
Fixpoint expect (word s : list byte) : option (list byte) :=
  match word, s with
  | [], _ => Some s
  | w :: word', b :: s' => if Byte.eqb w b then expect word' s' else None
  | _, [] => None
  end.

Fixpoint parseValue (fuel : nat) (s : list byte) : option (json * list byte) :=
  match fuel with
  | O => None
  | S fuel' =>
      match skipSpace s with
      | [] => None
      | b :: s1 =>
          if Byte.eqb b "{" then
            match skipSpace s1 with
            | c :: s2 =>
                if Byte.eqb c "}" then Some (JObj [], s2)
                else r ← parseMembers fuel' (c :: s2); Some (JObj (fst r), snd r)
            | [] => None
            end
          else if Byte.eqb b "[" then
            match skipSpace s1 with
            | c :: s2 =>
                if Byte.eqb c "]" then Some (JArr [], s2)
                else r ← parseElems fuel' (c :: s2); Some (JArr (fst r), snd r)
            | [] => None
            end
          else if Byte.eqb b bQuote then
            r ← readString (length s1) s1; Some (JStr (fst r), snd r)
          else if Byte.eqb b "t" then r ← expect (bytesOf "rue") s1; Some (JBool true, r)
          else if Byte.eqb b "f" then r ← expect (bytesOf "alse") s1; Some (JBool false, r)
          else if Byte.eqb b "n" then r ← expect (bytesOf "ull") s1; Some (JNull, r)
          else r ← scanNumber (b :: s1); Some (JNum (fst r), snd r)
      end
  end
with parseElems (fuel : nat) (s : list byte) : option (list json * list byte) :=
  match fuel with
  | O => None
  | S fuel' =>
      v ← parseValue fuel' s;
      match skipSpace (snd v) with
      | b :: s2 =>
          if Byte.eqb b bComma then vs ← parseElems fuel' s2; Some (fst v :: fst vs, snd vs)
          else if Byte.eqb b "]" then Some ([fst v], s2)
          else None
      | [] => None
      end
  end
with parseMembers (fuel : nat) (s : list byte) : option (list (gostring * json) * list byte) :=
  match fuel with
  | O => None
  | S fuel' =>
      match skipSpace s with
      | [] => None
      | q :: s1 =>
          if Byte.eqb q bQuote then
            k ← readString (length s1) s1;
            match skipSpace (snd k) with
            | [] => None
            | c :: s2 =>
                if Byte.eqb c bColon then
                  v ← parseValue fuel' s2;
                  match skipSpace (snd v) with
                  | b :: s3 =>
                      if Byte.eqb b bComma
                      then ms ← parseMembers fuel' s3; Some ((fst k, fst v) :: fst ms, snd ms)
                      else if Byte.eqb b "}" then Some ([(fst k, fst v)], s3)
                      else None
                  | [] => None
                  end
                else None
            end
          else None
      end
  end.

(** [checkValid] and the value: every second call takes a byte, so that twice the length of the
    input is fuel enough ([parse_fuel]); nothing but space may follow. *)
Definition parseJson (s : list byte) : option json :=
  r ← parseValue (S (2 * length s)) s;
  match skipSpace (snd r) with
  | [] => Some (fst r)
  | _ => None
  end.

(** ** Fields of a struct *)

Definition isLetter (b : byte) : bool := byteIn 65 90 b || byteIn 97 122 b.

(** Equal but for the case of a letter. *)
Definition sameLetter (b c : byte) : bool :=
  Byte.eqb b c || (isLetter b && (Z.land (byte_Z b) 223 =? Z.land (byte_Z c) 223)).

(** [equalFold] of a field's name and a member's key: letters in either case, and the two runes
    that fold to [k] and to [s]. *)
Fixpoint equalFold (name key : list byte) : bool :=
  match name with
  | [] => match key with [] => true | _ => false end
  | b :: name' =>
      match key with
      | [] => false
      | c :: key' =>
          if byte_Z c <? 128 then sameLetter b c && equalFold name' key'
          else
            let r := DecodeRune key in
            ((sameLetter "s" b && (fst r =? 383)) || (sameLetter "k" b && (fst r =? 8490))) &&
            equalFold name' (drop (snd r) key)
      end
  end.

Section Fields.
Context {M : Type}.

(** The fields of a struct: the name, and what storing a value there does. *)
Definition field : Type := (gostring * (json -> M -> M))%type.

(** The field of a key: the one of that name, or else the first that folds to it. *)
Definition findField (fields : list field) (key : gostring) : option field :=
  match list_find (fun f => fst f = key) fields with
  | Some (_, f) => Some f
  | None => snd <$> list_find (fun f => equalFold (fst f) key = true) fields
  end.

Definition storeMember (fields : list field) (m : M) (kv : gostring * json) : M :=
  match findField fields (fst kv) with
  | Some f => snd f (snd kv) m
  | None => m
  end.

(** An object is stored member by member; other values leave the struct alone. *)
Definition storeObject (fields : list field) (v : json) (m : M) : M :=
  match v with
  | JObj ms => foldl (storeMember fields) m ms
  | _ => m
  end.

(** [json.Unmarshal]; the callers ignore its error. *)
Definition Unmarshal (fields : list field) (data : list byte) (m : M) : M :=
  match parseJson data with
  | Some v => storeObject fields v m
  | None => m
  end.

(** A string field: other values leave it alone. *)
Definition stringField (set : gostring -> M -> M) (v : json) (m : M) : M :=
  match v with JStr s => set s m | _ => m end.

(** The number a literal of digits denotes. *)
Definition digitsZ (ds : list byte) : Z := foldl (fun a b => 10 * a + (byte_Z b - 48)) 0 ds.

(** [strconv.ParseUint(lit, 10, 64)] and the range of the field. *)
Definition parseUint (bits : Z) (lit : list byte) : option Z :=
  if forallb isDigit lit && (digitsZ lit <? 2 ^ bits) then Some (digitsZ lit) else None.

Definition parseInt (bits : Z) (lit : list byte) : option Z :=
  match lit with
  | b :: ds =>
      if Byte.eqb b bMinus then
        if forallb isDigit ds && (digitsZ ds <=? 2 ^ (bits - 1)) then Some (- digitsZ ds) else None
      else if forallb isDigit lit && (digitsZ lit <? 2 ^ (bits - 1)) then Some (digitsZ lit) else None
  | [] => None
  end.

Definition uintField (bits : Z) (set : Z -> M -> M) (v : json) (m : M) : M :=
  match v with
  | JNum lit => match parseUint bits lit with Some n => set n m | None => m end
  | _ => m
  end.

Definition intField (bits : Z) (set : Z -> M -> M) (v : json) (m : M) : M :=
  match v with
  | JNum lit => match parseInt bits lit with Some n => set n m | None => m end
  | _ => m
  end.
End Fields.

Arguments field : clear implicits.

(** ** Strings read back *)

(** Every string of a value recoded. *)
Fixpoint recodeJson (v : json) : json :=
  match v with
  | JStr s => JStr (recode s)
  | JArr vs => JArr (map recodeJson vs)
  | JObj ms => JObj (map (fun m => (recode (fst m), recodeJson (snd m))) ms)
  | _ => v
  end.

Lemma escapeFrom_fuel (f : nat) (s : list byte) :
  (length s <= f)%nat -> escapeFrom f s = escapeFrom (length s) s.
Proof.
  remember (length s) as n eqn:Hn. revert f s Hn. induction (lt_wf n) as [n _ IH]. intros f s -> Hf.
  destruct s as [|b s]; [by destruct f|]. pose proof (DecodeRune_size (b :: s) ltac:(done)) as Hsz.
  cbn [length] in *. destruct f as [|f]; [lia|]. cbn [escapeFrom].
  assert (forall rest, (length rest <= length s)%nat ->
    escapeFrom f rest = escapeFrom (length s) rest) as Hrest.
  { intros rest Hr. rewrite (IH (length rest)), (IH (length rest) ltac:(lia) (length s)) by (done || lia). done. }
  rewrite (Hrest s) by lia. rewrite (Hrest (drop _ _)) by (rewrite length_drop; cbn [length]; lia). done.
Qed.

(** The escape of the first rune, or of a bad byte. *)
Definition escapeRune (r : Z) (c : list byte) : list byte :=
  match c with
  | [b] => escapeByte b
  | _ => if (r =? 8232) || (r =? 8233) then bytesOf "\u202" ++ [hexDigit (r mod 16)] else c
  end.

Definition escape (s : list byte) : list byte := escapeFrom (length s) s.

Lemma escape_low (b : byte) (s : list byte) : byte_Z b < 128 -> escape (b :: s) = escapeByte b ++ escape s.
Proof. intros H. unfold escape. cbn [length escapeFrom]. by rewrite (proj2 (Z.ltb_lt _ _) H). Qed.

Lemma escape_high (b : byte) (s : list byte) (r : Z) (n : nat) :
  128 <= byte_Z b -> DecodeRune (b :: s) = (r, S n) ->
  escape (b :: s) =
  (if badRune (b :: s) then bytesOf "\ufffd"
   else if (r =? 8232) || (r =? 8233) then bytesOf "\u202" ++ [hexDigit (r mod 16)]
   else take (S n) (b :: s)) ++ escape (drop n s).
Proof.
  intros H Hd. unfold escape at 1. cbn [length escapeFrom]. rewrite (proj2 (Z.ltb_ge _ _) H), Hd. cbn [fst snd].
  rewrite (escapeFrom_fuel (length s)) by (rewrite length_drop; cbn [length]; lia). fold (escape (drop (S n) (b :: s))).
  cbn [drop]. repeat case_if; rewrite <- ?app_assoc; done.
Qed.

Lemma escape_rune (r : Z) (c rest : list byte) :
  rune_of r c -> escape (c ++ rest) = escapeRune r c ++ escape rest.
Proof.
  intros H. pose proof (DecodeRune_rune r c rest H) as Hd. pose proof (badRune_rune r c rest H) as Hb.
  destruct H; cbn [app length] in *; [by apply escape_low|..];
    rewrite (escape_high b0 _ _ _ ltac:(lia) Hd), Hb; done.
Qed.

Lemma bad_high (b : byte) (rest : list byte) :
  DecodeRune (b :: rest) = (RuneError, 1%nat) -> 128 <= byte_Z b.
Proof.
  intros H. destruct (Z.ltb_spec (byte_Z b) 128) as [Hlt|]; [|done].
  pose proof (DecodeRune_rune (byte_Z b) [b] rest ltac:(auto with utf8)) as Hd. cbn [app length] in Hd.
  rewrite Hd in H. injection H as H. unfold RuneError in H. lia.
Qed.

Lemma escape_bad (b : byte) (rest : list byte) :
  DecodeRune (b :: rest) = (RuneError, 1%nat) -> escape (b :: rest) = bytesOf "\ufffd" ++ escape rest.
Proof.
  intros H. rewrite (escape_high _ _ _ _ (bad_high _ _ H) H). unfold badRune. by rewrite H.
Qed.

(** Escapes do not start with a quote, and are read back as the rune. *)
Definition reads_as (e c : list byte) : Prop :=
  forall rest, readChar (e ++ rest) = Some (c, rest) /\
    match e with [] => False | b :: _ => Byte.eqb b bQuote = false end.

Lemma escapeByte_reads (b : byte) : byte_Z b < 128 -> reads_as (escapeByte b) [b].
Proof. intros H rest. destruct b; try (vm_compute in H; discriminate H); split; reflexivity. Qed.

Lemma bad_reads : reads_as (bytesOf "\ufffd") (encode3 RuneError).
Proof. intros rest. split; reflexivity. Qed.

Lemma byte_not (b c : byte) : byte_Z b <> byte_Z c -> Byte.eqb b c = false.
Proof.
  intros H. destruct (Byte.eqb b c) eqn:E; [|done]. apply Byte.byte_dec_bl in E. by subst.
Qed.

Lemma escapeRune_reads (r : Z) (c : list byte) : rune_of r c -> reads_as (escapeRune r c) c.
Proof.
  intros H. destruct (decide (length c = 1%nat)) as [H1|H1].
  { destruct H as [b0 Hb| | | ]; try discriminate H1. by apply escapeByte_reads. }
  assert (escapeRune r c = if (r =? 8232) || (r =? 8233) then bytesOf "\u202" ++ [hexDigit (r mod 16)] else c) as ->.
  { destruct H; done. }
  destruct ((r =? 8232) || (r =? 8233)) eqn:E.
  - rewrite <- (EncodeRune_rune r c H). apply orb_true_iff in E as [E|E]; apply Z.eqb_eq in E; subst r;
      intros rest; split; reflexivity.
  - intros rest. assert (exists b0 c', c = b0 :: c' /\ 128 <= byte_Z b0) as (b0 & c' & -> & Hb).
    { destruct H; try done; eexists _, _; (split; [done|lia]). }
    split; [|apply byte_not; change (byte_Z bQuote) with 34; lia].
    cbn [app readChar]. rewrite (byte_not b0 bSlash) by (change (byte_Z bSlash) with 92; lia).
    destruct (Z.ltb_spec (byte_Z b0) 32); [lia|].
    change (b0 :: c' ++ rest) with ((b0 :: c') ++ rest).
    rewrite (DecodeRune_rune r _ rest H). cbn [fst snd]. by rewrite (EncodeRune_rune r _ H), drop_app_length.
Qed.

Lemma readString_char (f : nat) (e c : list byte) (s : list byte) :
  reads_as e c ->
  readString (S f) (e ++ s) = (sr ← readString f s; Some (c ++ fst sr, snd sr)).
Proof.
  intros H. destruct (H s) as [Hr Hq]. destruct e as [|b e]; [done|].
  cbn [readString app] in *. rewrite Hq, Hr. done.
Qed.

Lemma reads_as_length (e c : list byte) : reads_as e c -> (0 < length e)%nat.
Proof. intros H. destruct (H []) as [_ Hq]. destruct e; [done|simpl; lia]. Qed.

(** A quoted string reads back recoded, with any fuel its length allows. *)
Lemma readString_escape (s rest : list byte) (f : nat) :
  (length (escape s) < f)%nat ->
  readString f (escape s ++ bQuote :: rest) = Some (recode s, rest).
Proof.
  revert f. induction s as [|r c s H IH|b s H IH] using rune_ind; intros f Hf.
  - destruct f; [simpl in Hf; lia|]. done.
  - rewrite (escape_rune r c s H) in Hf |- *. rewrite length_app in Hf. pose proof (escapeRune_reads r c H) as Hrd.
    pose proof (reads_as_length _ _ Hrd). destruct f as [|f]; [lia|].
    rewrite <- app_assoc, (readString_char f _ c _ Hrd), IH by lia. by rewrite (recode_rune r c s H).
  - rewrite (escape_bad b s H) in Hf |- *. rewrite length_app in Hf.
    destruct f as [|f]; [lia|].
    rewrite <- app_assoc, (readString_char f _ _ _ bad_reads), IH by (simpl in Hf; lia).
    by rewrite (recode_bad b s H).
Qed.

(** ** Numbers read back *)

Lemma digitsZ_snoc (ds : list byte) (b : byte) : digitsZ (ds ++ [b]) = 10 * digitsZ ds + (byte_Z b - 48).
Proof. unfold digitsZ. by rewrite foldl_app. Qed.

Lemma digit_Z (n : Z) : byte_Z (Z_byte (48 + n mod 10)) = 48 + n mod 10.
Proof. rewrite byte_Z_Z_byte. apply Z.mod_small. pose proof (Z.mod_pos_bound n 10). lia. Qed.

Lemma digit_isDigit (n : Z) : isDigit (Z_byte (48 + n mod 10)) = true.
Proof. apply byteIn_range. rewrite digit_Z. pose proof (Z.mod_pos_bound n 10). lia. Qed.

(** The digits of a number: not empty, the number in base ten, and no leading zero. *)
Record digits_of (n : Z) (ds : list byte) : Prop := {
  dg_digits : Forall (fun b => isDigit b = true) ds;
  dg_value : digitsZ ds = n;
  dg_head : match ds with [] => False | b :: ds' => byte_Z b = 48 -> ds' = [] end
}.

Lemma digitsFrom_ok (f : nat) (n : Z) (acc : list byte) :
  0 <= n < 10 ^ Z.of_nat f -> (0 < f)%nat -> exists ds, digitsFrom f n acc = ds ++ acc /\ digits_of n ds.
Proof.
  revert n acc. induction f as [|f IH]; intros n acc Hn Hf; [lia|]. cbn [digitsFrom]. cbv zeta.
  destruct (Z.ltb_spec n 10) as [Hlt|Hge].
  - exists [Z_byte (48 + n mod 10)]. split; [done|]. split; [repeat constructor; apply digit_isDigit| |done].
    unfold digitsZ. cbn [foldl]. rewrite digit_Z, Z.mod_small by lia. lia.
  - rewrite Nat2Z.inj_succ, Z.pow_succ_r in Hn by lia.
    destruct (IH (n / 10) (Z_byte (48 + n mod 10) :: acc)) as (ds & -> & [Hd Hv Hh]).
    { split; [apply Z.div_pos; lia|apply Z.div_lt_upper_bound; lia]. }
    { destruct f; [simpl in Hn; lia|lia]. }
    exists (ds ++ [Z_byte (48 + n mod 10)]). split; [by rewrite <- app_assoc|]. split.
    + apply Forall_app. split; [done|]. repeat constructor. apply digit_isDigit.
    + rewrite digitsZ_snoc, Hv, digit_Z. pose proof (Z.div_mod n 10). lia.
    + destruct ds as [|b ds]; [done|]. cbn [app]. intros Hb. specialize (Hh Hb). subst ds.
      unfold digitsZ in Hv. cbn [foldl] in Hv. assert (1 <= n / 10) by (apply Z.div_le_lower_bound; lia). lia.
Qed.

Lemma digits20 (n : Z) (acc : list byte) :
  0 <= n < 2 ^ 64 -> exists ds, digitsFrom 20 n acc = ds ++ acc /\ digits_of n ds.
Proof. intros Hn. apply digitsFrom_ok; [|lia]. assert (2 ^ 64 < 10 ^ Z.of_nat 20) by reflexivity. lia. Qed.

(** Where a number ends: the next byte continues none. *)
Definition stops (rest : list byte) : Prop :=
  match rest with
  | [] => True
  | b :: _ => isDigit b = false /\ Byte.eqb b "." = false /\ Byte.eqb b "e" || Byte.eqb b "E" = false
  end.

Lemma spanDigits_app (ds rest : list byte) :
  Forall (fun b => isDigit b = true) ds -> stops rest -> spanDigits (ds ++ rest) = (ds, rest).
Proof.
  intros H Hs. induction H as [|b ds Hb _ IH]; cbn [app].
  - destruct rest as [|b rest]; [done|]. destruct Hs as (Hd & _). cbn [spanDigits]. by rewrite Hd.
  - cbn [spanDigits]. by rewrite Hb, IH.
Qed.

Lemma digit_eqb (b c : byte) : isDigit b = true -> isDigit c = false -> Byte.eqb b c = false.
Proof. intros Hb Hc. destruct (Byte.eqb b c) eqn:E; [|done]. apply Byte.byte_dec_bl in E. congruence. Qed.

Lemma scanInteger_digits (n : Z) (ds rest : list byte) :
  digits_of n ds -> stops rest -> scanInteger (ds ++ rest) = Some (ds, rest).
Proof.
  intros [Hd _ Hh] Hs. destruct ds as [|b ds]; [done|]. cbn [app scanInteger].
  destruct (Byte.eqb b "0") eqn:E.
  - apply Byte.byte_dec_bl in E. subst b. rewrite (Hh eq_refl). done.
  - inversion Hd as [|? ? Hb _]; subst. rewrite Hb. f_equal.
    change (b :: ds ++ rest) with ((b :: ds) ++ rest). by apply spanDigits_app.
Qed.

Lemma scan_stop (rest : list byte) :
  stops rest -> scanFraction rest = Some ([], rest) /\ scanExponent rest = Some ([], rest).
Proof.
  destruct rest as [|b rest]; [done|]. intros (_ & Hf & He). unfold scanFraction, scanExponent.
  by rewrite Hf, He.
Qed.

(** Literals that [itoa] writes for 64 bit integers, signed or not. *)
Definition intLit (n : Z) : Prop := - 2 ^ 63 <= n < 2 ^ 64.

Lemma itoa_digits (n : Z) :
  intLit n ->
  exists ds, digits_of (Z.abs n) ds /\ itoa n = if n <? 0 then bMinus :: ds else ds.
Proof.
  unfold intLit. intros Hn. unfold itoa. destruct (Z.ltb_spec n 0).
  - destruct (digits20 (- n) []) as (ds & -> & Hd); [lia|]. exists ds. rewrite app_nil_r.
    by replace (Z.abs n) with (- n) by lia.
  - destruct (digits20 n []) as (ds & -> & Hd); [lia|]. exists ds. rewrite app_nil_r.
    by replace (Z.abs n) with n by lia.
Qed.

Lemma digits_head (n : Z) (ds rest : list byte) :
  digits_of n ds -> exists b ds', ds = b :: ds' /\ isDigit b = true.
Proof.
  intros [Hd _ Hh]. destruct ds as [|b ds]; [done|]. inversion Hd; subst. eauto.
Qed.

Lemma scanNumber_itoa (n : Z) (rest : list byte) :
  intLit n -> stops rest -> scanNumber (itoa n ++ rest) = Some (itoa n, rest).
Proof.
  intros Hn Hs. destruct (itoa_digits n Hn) as (ds & Hd & ->). destruct (scan_stop rest Hs) as [Hf He].
  destruct (n <? 0); unfold scanNumber; cbn [app].
  - rewrite (Byte.byte_dec_lb eq_refl). cbn [snd fst]. rewrite (scanInteger_digits _ _ _ Hd Hs). cbn.
    rewrite Hf. cbn. rewrite He. cbn. by rewrite !app_nil_r.
  - destruct (digits_head _ _ rest Hd) as (b & ds' & -> & Hb). cbn [app].
    rewrite (digit_eqb b bMinus Hb eq_refl). cbn [snd fst].
    change (b :: ds' ++ rest) with ((b :: ds') ++ rest). rewrite (scanInteger_digits _ _ _ Hd Hs). cbn.
    rewrite Hf. cbn. rewrite He. cbn. by rewrite !app_nil_r.
Qed.

Lemma forallb_digits (ds : list byte) : Forall (fun b => isDigit b = true) ds -> forallb isDigit ds = true.
Proof. intros H. apply forallb_forall. by apply List.Forall_forall. Qed.

Lemma parseUint_itoa (bits n : Z) :
  0 <= n < 2 ^ bits -> bits <= 64 -> parseUint bits (itoa n) = Some n.
Proof.
  intros Hn Hb. assert (n < 2 ^ 64). { pose proof (Z.pow_le_mono_r 2 bits 64). lia. }
  destruct (itoa_digits n) as (ds & [Hd Hv _] & ->); [unfold intLit; lia|].
  destruct (Z.ltb_spec n 0); [lia|]. unfold parseUint. rewrite forallb_digits by done. rewrite Hv.
  destruct (Z.ltb_spec (Z.abs n) (2 ^ bits)); [|lia]. simpl. f_equal. lia.
Qed.

Lemma parseInt_itoa (n : Z) : - 2 ^ 63 <= n < 2 ^ 63 -> parseInt 64 (itoa n) = Some n.
Proof.
  intros Hn. destruct (itoa_digits n) as (ds & Hds & ->); [unfold intLit; lia|].
  pose proof (digits_head _ _ [] Hds) as (b & ds' & Heq & Hb). destruct Hds as [Hd Hv _].
  unfold parseInt. destruct (Z.ltb_spec n 0).
  - rewrite (Byte.byte_dec_lb eq_refl), forallb_digits by done. rewrite Hv.
    destruct (Z.leb_spec (Z.abs n) (2 ^ (64 - 1))); [|lia]. simpl. f_equal. lia.
  - rewrite Heq. rewrite (digit_eqb b bMinus Hb eq_refl), <- Heq, forallb_digits by done. rewrite Hv.
    destruct (Z.ltb_spec (Z.abs n) (2 ^ (64 - 1))); [|lia]. simpl. f_equal. lia.
Qed.

(** ** Values read back *)

(** Induction on values, with the members of arrays and objects. *)
Lemma json_induction (P : json -> Prop) :
  P JNull -> (forall b, P (JBool b)) -> (forall lit, P (JNum lit)) -> (forall s, P (JStr s)) ->
  (forall vs, Forall P vs -> P (JArr vs)) ->
  (forall ms, Forall (fun m => P (snd m)) ms -> P (JObj ms)) ->
  forall v, P v.
Proof.
  intros Hnull Hbool Hnum Hstr Harr Hobj. fix IH 1. intros [|b|lit|s|vs|ms]; [done..| |].
  - apply Harr. induction vs; constructor; auto.
  - apply Hobj. induction ms; constructor; auto.
Qed.

(** Values whose numbers are integers of 64 bits. *)
#[warnings="-register-all"]
Inductive json_wf : json -> Prop :=
| wf_null : json_wf JNull
| wf_bool b : json_wf (JBool b)
| wf_num n : intLit n -> json_wf (JNum (itoa n))
| wf_str s : json_wf (JStr s)
| wf_arr vs : Forall json_wf vs -> json_wf (JArr vs)
| wf_obj ms : Forall (fun m => json_wf (snd m)) ms -> json_wf (JObj ms).

(** How the text of a value starts: not with space, not with the end of an array or object. *)
Definition starts (b : byte) : Prop :=
  isSpace b = false /\ Byte.eqb b "]" = false /\ Byte.eqb b "}" = false.

Lemma digit_starts (b : byte) : isDigit b = true -> starts b.
Proof. intros H. destruct b; try discriminate H; split_and!; reflexivity. Qed.

Lemma encode_starts (v : json) : json_wf v -> exists b s, encodeJson v = b :: s /\ starts b.
Proof.
  intros Hv. destruct Hv as [|[]|n Hn|s|vs _|ms _]; cbn [encodeJson];
    try (eexists _, _; split; [reflexivity|split_and!; reflexivity]).
  destruct (itoa_digits n Hn) as (ds & Hd & ->). destruct (n <? 0).
  - eexists _, _. split; [done|split_and!; reflexivity].
  - destruct (digits_head _ _ [] Hd) as (b & ds' & -> & Hb). eexists _, _. split; [done|by apply digit_starts].
Qed.

Lemma skipSpace_starts (b : byte) (s : list byte) : starts b -> skipSpace (b :: s) = b :: s.
Proof. intros (Hb & _). simpl. by rewrite Hb. Qed.

Lemma skipSpace_tok (b : byte) (s : list byte) : isSpace b = false -> skipSpace (b :: s) = b :: s.
Proof. intros H. simpl. by rewrite H. Qed.

(** What a parser of the right fuel does on the text of a value. *)
Definition parses (v : json) : Prop :=
  forall f rest, (length (encodeJson v) < f)%nat -> stops rest ->
    parseValue f (encodeJson v ++ rest) = Some (recodeJson v, rest).

Lemma encode_length (v : json) : json_wf v -> (0 < length (encodeJson v))%nat.
Proof. intros Hv. destruct (encode_starts v Hv) as (b & s & -> & _). simpl. lia. Qed.

Lemma commaSep_cons (x y : list byte) (l : list (list byte)) :
  commaSep (x :: y :: l) = x ++ bComma :: commaSep (y :: l).
Proof. done. Qed.

Lemma parseElems_ok (vs : list json) :
  Forall (fun v => json_wf v /\ parses v) vs -> vs <> [] ->
  forall f rest, (S (length (commaSep (map encodeJson vs))) < f)%nat ->
    parseElems f (commaSep (map encodeJson vs) ++ "]"%byte :: rest) = Some (map recodeJson vs, rest).
Proof.
  induction 1 as [|v vs [Hwf Hv] _ IH]; [done|]. intros _ f rest Hf.
  destruct f as [|f]; [lia|]. destruct vs as [|v' vs].
  - cbn [map commaSep] in *. cbn [parseElems]. rewrite Hv by (done || lia). reflexivity.
  - cbn [map] in Hf |- *. rewrite commaSep_cons in Hf |- *. rewrite length_app in Hf. cbn [length] in Hf.
    pose proof (encode_length v Hwf). rewrite <- app_assoc. cbn [app parseElems].
    rewrite Hv by (done || lia). cbn [mbind option_bind snd fst].
    rewrite skipSpace_tok by reflexivity. change (Byte.eqb bComma bComma) with true. cbv iota.
    cbn [map] in IH. rewrite (IH ltac:(done) f rest) by lia. reflexivity.
Qed.

Definition encodeMember (m : gostring * json) : list byte := quote (fst m) ++ bColon :: encodeJson (snd m).

Definition recodeMember (m : gostring * json) : gostring * json := (recode (fst m), recodeJson (snd m)).

Lemma quote_eq (s rest : list byte) : quote s ++ rest = bQuote :: escape s ++ bQuote :: rest.
Proof. unfold quote. fold (escape s). cbn [app]. by rewrite <- app_assoc. Qed.

Lemma readString_quoted (s rest : list byte) :
  readString (length (escape s ++ bQuote :: rest)) (escape s ++ bQuote :: rest) = Some (recode s, rest).
Proof. apply readString_escape. rewrite length_app. simpl. lia. Qed.

Lemma encodeMember_length (m : gostring * json) :
  (length (encodeJson (snd m)) + 3 <= length (encodeMember m))%nat.
Proof. unfold encodeMember. rewrite quote_eq. cbn [length]. rewrite length_app. cbn [length]. lia. Qed.

Lemma encodeMember_eq (m : gostring * json) (rest : list byte) :
  encodeMember m ++ rest = bQuote :: escape (fst m) ++ bQuote :: bColon :: encodeJson (snd m) ++ rest.
Proof. unfold encodeMember. rewrite <- app_assoc, quote_eq. done. Qed.

(** The member at the head of the input, up to what follows its value. *)
Lemma parseMembers_head (f : nat) (m : gostring * json) (rest : list byte) :
  parses (snd m) -> (length (encodeMember m) <= f)%nat -> stops rest ->
  parseMembers (S f) (encodeMember m ++ rest) =
  match skipSpace rest with
  | b :: s3 =>
      if Byte.eqb b bComma
      then ms ← parseMembers f s3; Some (recodeMember m :: fst ms, snd ms)
      else if Byte.eqb b "}" then Some ([recodeMember m], s3)
      else None
  | [] => None
  end.
Proof.
  intros Hv Hf Hs. pose proof (encodeMember_length m). rewrite encodeMember_eq.
  cbn [parseMembers]. rewrite skipSpace_tok by reflexivity. change (Byte.eqb bQuote bQuote) with true. cbv iota.
  rewrite readString_quoted. cbn [mbind option_bind snd fst]. rewrite skipSpace_tok by reflexivity.
  change (Byte.eqb bColon bColon) with true. cbv iota. rewrite Hv by (done || lia). reflexivity.
Qed.

Lemma parseMembers_ok (ms : list (gostring * json)) :
  Forall (fun m => json_wf (snd m) /\ parses (snd m)) ms -> ms <> [] ->
  forall f rest, (S (length (commaSep (map encodeMember ms))) < f)%nat ->
    parseMembers f (commaSep (map encodeMember ms) ++ "}"%byte :: rest) = Some (map recodeMember ms, rest).
Proof.
  induction 1 as [|m ms [Hwf Hv] _ IH]; [done|]. intros _ f rest Hf.
  destruct f as [|f]; [lia|]. destruct ms as [|m' ms].
  - cbn [map commaSep] in *. rewrite parseMembers_head by (done || lia). reflexivity.
  - cbn [map] in Hf |- *. rewrite commaSep_cons in Hf |- *. rewrite length_app in Hf. cbn [length] in Hf.
    pose proof (encodeMember_length m). rewrite <- app_assoc, parseMembers_head by (done || lia).
    cbn [app]. rewrite skipSpace_tok by reflexivity. change (Byte.eqb bComma bComma) with true. cbv iota.
    cbn [map] in IH. rewrite (IH ltac:(done) f rest) by lia. reflexivity.
Qed.

Lemma commaSep_starts (x : list byte) (l : list (list byte)) (b : byte) (s rest : list byte) :
  x = b :: s -> exists s', commaSep (x :: l) ++ rest = b :: s'.
Proof. intros ->. destruct l; [by eexists|]. rewrite commaSep_cons. by eexists. Qed.

(** An array or an object, past its opening byte. *)
Lemma parse_bracket (f : nat) (s : list byte) (b : byte) (s' : list byte) :
  s = b :: s' -> starts b ->
  parseValue (S f) ("["%byte :: s) = (r ← parseElems f s; Some (JArr (fst r), snd r)) /\
  parseValue (S f) ("{"%byte :: s) = (r ← parseMembers f s; Some (JObj (fst r), snd r)).
Proof.
  intros -> (H0 & H1 & H2). split; cbn [parseValue]; rewrite skipSpace_tok by reflexivity.
  - change (Byte.eqb "[" "{") with false. change (Byte.eqb "[" "[") with true. cbv iota.
    by rewrite skipSpace_tok, H1 by done.
  - change (Byte.eqb "{" "{") with true. cbv iota. by rewrite skipSpace_tok, H2 by done.
Qed.

Lemma parse_num (n : Z) : intLit n -> parses (JNum (itoa n)).
Proof.
  intros Hn f rest Hf Hs. destruct f as [|f]; [lia|]. cbn [encodeJson recodeJson].
  pose proof (scanNumber_itoa n rest Hn Hs) as Hscan.
  destruct (encode_starts _ (wf_num n Hn)) as (b & s & Heq & Hb). cbn [encodeJson] in Heq.
  destruct (itoa_digits n Hn) as (ds & Hd & Hi). cbn [parseValue].
  rewrite Heq in Hscan |- *. cbn [app] in Hscan |- *. rewrite skipSpace_starts by done. rewrite Hscan.
  assert (Byte.eqb b bMinus || isDigit b = true) as Hor.
  { rewrite Heq in Hi. destruct (n <? 0); [by injection Hi as -> _|].
    destruct (digits_head _ _ [] Hd) as (b' & ds' & -> & Hb'). injection Hi as -> _. by rewrite Hb', orb_true_r. }
  clear - Hor. destruct b; try discriminate Hor; reflexivity.
Qed.

Lemma parse_arr (v : json) (vs : list json) :
  Forall (fun v => json_wf v /\ parses v) (v :: vs) -> parses (JArr (v :: vs)).
Proof.
  intros Hall f rest Hf Hs. destruct f as [|f]; [lia|].
  inversion Hall as [|? ? [Hv _] _]; subst. destruct (encode_starts v Hv) as (b & s & Heq & Hb).
  cbn [encodeJson recodeJson app] in *. cbn [length] in Hf. rewrite length_app in Hf.
  rewrite <- app_assoc. cbn [app].
  destruct (commaSep_starts _ (map encodeJson vs) b s ("]"%byte :: rest) Heq) as [s' Hs'].
  cbn [map] in *. rewrite (proj1 (parse_bracket f _ b s' Hs' Hb)).
  pose proof (parseElems_ok _ Hall ltac:(done) f rest) as Hp. cbn [map] in Hp.
  rewrite Hp by (cbn [length] in *; lia). reflexivity.
Qed.

Lemma parse_obj (m : gostring * json) (ms : list (gostring * json)) :
  Forall (fun m => json_wf (snd m) /\ parses (snd m)) (m :: ms) -> parses (JObj (m :: ms)).
Proof.
  intros Hall f rest Hf Hs. destruct f as [|f]; [lia|].
  cbn [encodeJson recodeJson app] in *. fold encodeMember in *. fold recodeMember.
  cbn [length] in Hf. rewrite length_app in Hf. rewrite <- app_assoc. cbn [app].
  destruct (commaSep_starts (encodeMember m) (map encodeMember ms) bQuote _ ("}"%byte :: rest) eq_refl) as [s' Hs'].
  cbn [map] in *. rewrite (proj2 (parse_bracket f _ bQuote s' Hs' ltac:(split_and!; reflexivity))).
  pose proof (parseMembers_ok _ Hall ltac:(done) f rest) as Hp. cbn [map] in Hp.
  rewrite Hp by (cbn [length] in *; lia). reflexivity.
Qed.

Lemma parse_encode (v : json) : json_wf v -> parses v.
Proof.
  induction v as [|b|lit|s|vs IH|ms IH] using json_induction; intros Hwf.
  - intros [|f] rest Hf Hs; [lia|]. reflexivity.
  - intros [|f] rest Hf Hs; [lia|]. destruct b; reflexivity.
  - inversion Hwf; subst. by apply parse_num.
  - intros [|f] rest Hf Hs; [lia|]. cbn [encodeJson recodeJson]. rewrite quote_eq. cbn [parseValue].
    cbn -[readString length escape]. by rewrite readString_quoted.
  - inversion Hwf as [| | | |? Hvs|]; subst. destruct vs as [|v vs].
    { intros [|f] rest Hf Hs; [lia|]. reflexivity. }
    apply parse_arr, Forall_and. split; [done|]. rewrite Forall_forall in *. auto.
  - inversion Hwf as [| | | | |? Hms]; subst. destruct ms as [|m ms].
    { intros [|f] rest Hf Hs; [lia|]. reflexivity. }
    apply parse_obj, Forall_and. split; [done|]. rewrite Forall_forall in *. auto.
Qed.

(** What [Marshal] writes is valid and reads back. *)
Lemma parseJson_encode (v : json) : json_wf v -> parseJson (encodeJson v) = Some (recodeJson v).
Proof.
  intros Hwf. unfold parseJson. pose proof (parse_encode v Hwf (S (2 * length (encodeJson v))) []) as H.
  rewrite app_nil_r in H. by rewrite H by (done || lia).
Qed.

(** ** The fuel is enough *)

Lemma skipSpace_length (s : list byte) : (length (skipSpace s) <= length s)%nat.
Proof. induction s as [|b s IH]; [done|]. simpl. case_if; simpl; lia. Qed.

Lemma hex4_length (s rest : list byte) (r : Z) : hex4 s = Some (r, rest) -> (length rest < length s)%nat.
Proof.
  destruct s as [|a [|b [|c [|d s]]]]; try discriminate. unfold hex4.
  destruct (hexValue a), (hexValue b), (hexValue c), (hexValue d); try discriminate.
  intros [= _ <-]. simpl. lia.
Qed.

Lemma unicodeEscape_length (r : Z) (s : list byte) : (length (snd (unicodeEscape r s)) <= length s)%nat.
Proof.
  unfold unicodeEscape. destruct (isSurrogate r); [|done]. destruct s as [|b [|c s]]; try done.
  case_if; [|done]. destruct (hex4 s) as [[r2 s2]|] eqn:E; [|done]. apply hex4_length in E.
  destruct (surrogatePair r r2); simpl; lia.
Qed.

Lemma readChar_length (s c rest : list byte) : readChar s = Some (c, rest) -> (length rest < length s)%nat.
Proof.
  destruct s as [|b s]; [done|]. unfold readChar. case_if.
  - destruct s as [|c' s]; [done|]. case_if.
    + destruct (hex4 s) as [[r s2]|] eqn:E; [|done]. apply hex4_length in E. simpl.
      pose proof (unicodeEscape_length r s2). destruct (unicodeEscape r s2). intros [= _ <-]. simpl in *. lia.
    + destruct (simpleEscape c'); [|done]. simpl. intros [= _ <-]. lia.
  - case_if; [done|]. pose proof (DecodeRune_size (b :: s) ltac:(done)) as Hsz.
    destruct (DecodeRune (b :: s)) as [r n]. cbn [fst snd] in *. intros [= _ <-]. rewrite length_drop.
    cbn [length] in *. lia.
Qed.

Lemma readString_length (f : nat) (s x rest : list byte) :
  readString f s = Some (x, rest) -> (length rest < length s)%nat.
Proof.
  revert s x. induction f as [|f IH]; intros s x; [done|]. destruct s as [|b s]; [done|]. cbn [readString].
  case_if; [intros [= _ <-]; simpl; lia|]. destruct (readChar (b :: s)) as [[c s2]|] eqn:E; [|done].
  apply readChar_length in E. cbn. destruct (readString f s2) as [[y s3]|] eqn:E2; [|done]. cbn.
  intros [= _ <-]. apply IH in E2. simpl in *. lia.
Qed.

Lemma spanDigits_length (s : list byte) : (length (snd (spanDigits s)) <= length s)%nat.
Proof. induction s as [|b s IH]; [done|]. simpl. case_if; simpl; lia. Qed.

Lemma scanInteger_length (s ds rest : list byte) :
  scanInteger s = Some (ds, rest) -> (length rest < length s)%nat.
Proof.
  destruct s as [|b s]; [done|]. unfold scanInteger. case_if; [intros [= _ <-]; simpl; lia|].
  destruct (isDigit b) eqn:E; [|done]. cbn [spanDigits]. rewrite E. intros [= _ <-].
  pose proof (spanDigits_length s). simpl. lia.
Qed.

Lemma scanFraction_length (s ds rest : list byte) :
  scanFraction s = Some (ds, rest) -> (length rest <= length s)%nat.
Proof.
  destruct s as [|b s]; [by intros [= _ <-]|]. unfold scanFraction. case_if; [|by intros [= _ <-]].
  pose proof (spanDigits_length s). destruct (spanDigits s) as [[|d ds'] r]; [done|].
  intros [= _ <-]. simpl in *. lia.
Qed.

Lemma scanExponent_length (s ds rest : list byte) :
  scanExponent s = Some (ds, rest) -> (length rest <= length s)%nat.
Proof.
  destruct s as [|b s]; [by intros [= _ <-]|]. unfold scanExponent. case_if; [|by intros [= _ <-]].
  set (sg := match s with [] => _ | _ => _ end).
  assert (length (snd sg) <= length s)%nat as Hsg.
  { unfold sg. destruct s as [|c s]; [done|]. case_if; simpl; lia. }
  pose proof (spanDigits_length (snd sg)). destruct (spanDigits (snd sg)) as [[|d ds'] r]; [done|].
  intros [= _ <-]. simpl in *. lia.
Qed.

Lemma scanNumber_length (s lit rest : list byte) :
  scanNumber s = Some (lit, rest) -> (length rest < length s)%nat.
Proof.
  unfold scanNumber. set (sg := match s with [] => _ | _ => _ end).
  assert (length (snd sg) <= length s)%nat as Hsg.
  { unfold sg. destruct s as [|c s]; [done|]. case_if; simpl; lia. }
  destruct (scanInteger (snd sg)) as [[i si]|] eqn:Ei; [|done]. cbn.
  destruct (scanFraction si) as [[fr sf]|] eqn:Ef; [|done]. cbn.
  destruct (scanExponent sf) as [[ex se]|] eqn:Ee; [|done]. cbn. intros [= _ <-].
  apply scanInteger_length in Ei. apply scanFraction_length in Ef. apply scanExponent_length in Ee. lia.
Qed.

Lemma expect_length (w s rest : list byte) : expect w s = Some rest -> (length rest <= length s)%nat.
Proof.
  revert s. induction w as [|c w IH]; intros s; [by intros [= <-]|]. destruct s as [|b s]; [done|].
  cbn [expect]. case_if; [|done]. intros H%IH. simpl. lia.
Qed.

(** The rest of the input after each kind of token is shorter. *)
Ltac json_lengths :=
  repeat match goal with
  | H : readString _ _ = Some (_, _) |- _ => apply readString_length in H
  | H : scanNumber _ = Some (_, _) |- _ => apply scanNumber_length in H
  | H : expect _ _ = Some _ |- _ => apply expect_length in H
  | H : skipSpace ?s = ?r |- _ => pose proof (skipSpace_length s); rewrite H in *; clear H
  end; simpl in *; lia.

(** Splits a parser's run on its next test or call. *)
Ltac json_split :=
  match goal with
  | |- context [match skipSpace ?s with _ => _ end] => destruct (skipSpace s) as [|? ?] eqn:?
  | |- context [if ?b then _ else _] => destruct b
  | |- context [mbind _ (readString ?f ?s)] => destruct (readString f s) as [[? ?]|] eqn:?
  | |- context [mbind _ (scanNumber ?s)] => destruct (scanNumber s) as [[? ?]|] eqn:?
  | |- context [mbind _ (expect ?w ?s)] => destruct (expect w s) eqn:?
  | |- context [mbind _ (parseValue ?f ?s)] => destruct (parseValue f s) as [[? ?]|] eqn:?
  | |- context [mbind _ (parseElems ?f ?s)] => destruct (parseElems f s) as [[? ?]|] eqn:?
  | |- context [mbind _ (parseMembers ?f ?s)] => destruct (parseMembers f s) as [[? ?]|] eqn:?
  end; cbn [mbind option_bind fst snd] in *; try (intros ?; discriminate).

Lemma parse_length (f : nat) :
  (forall s v rest, parseValue f s = Some (v, rest) -> (length rest < length s)%nat) /\
  (forall s v rest, parseElems f s = Some (v, rest) -> (length rest < length s)%nat) /\
  (forall s v rest, parseMembers f s = Some (v, rest) -> (length rest < length s)%nat).
Proof.
  induction f as [|f (IHv & IHe & IHm)]; [split_and!; done|].
  split_and!; intros s v rest; cbn [parseValue parseElems parseMembers]; repeat json_split;
    intros [= _ <-];
    repeat match goal with
    | H : parseValue f _ = Some (_, _) |- _ => apply IHv in H
    | H : parseElems f _ = Some (_, _) |- _ => apply IHe in H
    | H : parseMembers f _ = Some (_, _) |- _ => apply IHm in H
    end; json_lengths.
Qed.

(** With twice as much fuel as bytes, the result does not depend on the fuel. *)
Lemma parse_fuel (f : nat) :
  forall g,
  (forall s, (2 * length s < f)%nat -> (2 * length s < g)%nat -> parseValue f s = parseValue g s) /\
  (forall s, (2 * length s + 1 < f)%nat -> (2 * length s + 1 < g)%nat -> parseElems f s = parseElems g s) /\
  (forall s, (2 * length s + 1 < f)%nat -> (2 * length s + 1 < g)%nat -> parseMembers f s = parseMembers g s).
Proof.
  induction f as [|f IH]; intros g; [split_and!; lia|].
  destruct g as [|g]; [split_and!; lia|]. destruct (IH g) as (IHv & IHe & IHm).
  split_and!; intros s Hf Hg; cbn [parseValue parseElems parseMembers].
  - pose proof (skipSpace_length s) as H1. destruct (skipSpace s) as [|b s1]; [done|].
    pose proof (skipSpace_length s1) as H2. destruct (skipSpace s1) as [|c s2]; cbn [length] in *; [done|].
    rewrite (IHe (c :: s2)), (IHm (c :: s2)) by (cbn [length]; lia). done.
  - rewrite (IHv s) by lia. destruct (parseValue g s) as [[v r]|] eqn:E; [|done].
    apply (parse_length g) in E. cbn [mbind option_bind fst snd].
    pose proof (skipSpace_length r). destruct (skipSpace r) as [|b s2]; cbn [length] in *; [done|].
    by rewrite (IHe s2) by lia.
  - pose proof (skipSpace_length s) as H1. destruct (skipSpace s) as [|q s1]; [done|]. case_if; [|done].
    destruct (readString (length s1) s1) as [[k r]|] eqn:Ek; [|done]. apply readString_length in Ek.
    cbn [mbind option_bind fst snd length] in *.
    pose proof (skipSpace_length r). destruct (skipSpace r) as [|c s2]; cbn [length] in *; [done|]. case_if; [|done].
    rewrite (IHv s2) by lia. destruct (parseValue g s2) as [[v r2]|] eqn:E; [|done].
    apply (parse_length g) in E. cbn [mbind option_bind fst snd].
    pose proof (skipSpace_length r2). destruct (skipSpace r2) as [|b s3]; cbn [length] in *; [done|].
    by rewrite (IHm s3) by lia.
Qed.
