(* ===== verification/JsonMessage.v ===== *)
(** * Messages sent as JSON ([message/verifyMessge.go], [getReqMessage.go],
      [deleteMessage.go], [syncReqMessage.go], [syncRspMessage.go])

    Each message is a struct that [Marshal] writes field by field and [Unmarshal] reads
    back; the sum [message] of all ten kinds is what the queues of a node hold. *)

From Stdlib Require Import Strings.String.
From stdpp Require Import base decidable countable list gmap.
From Stdlib Require Import ZArith Lia Strings.Byte.
From S2P Require Import Prelude.
From S2P Require Import Utf8.
From S2P Require Import Json.
From S2P Require Import Message.

(** A field as [json.Marshal] writes it. *)
Definition member (name : string) (v : json) : gostring * json := (bytesOf name, v).

(** [json.Marshal] of a struct, from its fields in order. *)
Definition jsonObject (fields : list (gostring * json)) : list byte := encodeJson (JObj fields).

(** ** Verification *)

Record VerifyMessage : Type := MkVerify {
  vm_Id : gostring;
  vm_Version : gostring;
  vm_ServicePort : gostring;
  vm_Mode : Z
}.

Definition VerifyMessage_Serialize (vm : VerifyMessage) : outcome NodeWireMessage :=
  Ret (WireMessage MsgVERIFY (jsonObject
    [member "id" (JStr (vm_Id vm)); member "version" (JStr (vm_Version vm));
     member "service_port" (JStr (vm_ServicePort vm)); member "mode" (JNum (itoa (vm_Mode vm)))])).

Definition VerifyMessage_fields : list (field VerifyMessage) :=
  [(bytesOf "id", stringField (fun s m => MkVerify s (vm_Version m) (vm_ServicePort m) (vm_Mode m)));
   (bytesOf "version", stringField (fun s m => MkVerify (vm_Id m) s (vm_ServicePort m) (vm_Mode m)));
   (bytesOf "service_port", stringField (fun s m => MkVerify (vm_Id m) (vm_Version m) s (vm_Mode m)));
   (bytesOf "mode", uintField 8 (fun n m => MkVerify (vm_Id m) (vm_Version m) (vm_ServicePort m) n))].

Definition VerifyMessage_DeSerialize (vm : VerifyMessage) (msg : NodeWireMessage) : outcome VerifyMessage :=
  Ret (Unmarshal VerifyMessage_fields (wm_Data msg) vm).

#[export] Instance VerifyMessage_msg : NodeMessage VerifyMessage :=
  {| Serialize := VerifyMessage_Serialize; DeSerialize := VerifyMessage_DeSerialize |}.

(** ** Requests for a key *)

Record GetReqMessage : Type := MkGetReq {
  gq_Code : Z;
  gq_Key : gostring;
  gq_PendingKey : gostring
}.

Definition GetReqMessage_Serialize (gm : GetReqMessage) : outcome NodeWireMessage :=
  Ret (WireMessage MsgGETReq (jsonObject
    [member "code" (JNum (itoa MsgGETReq)); member "key" (JStr (gq_Key gm)); member "pending_key" (JStr (gq_PendingKey gm))])).

Definition GetReqMessage_fields : list (field GetReqMessage) :=
  [(bytesOf "code", uintField 16 (fun n m => MkGetReq n (gq_Key m) (gq_PendingKey m)));
   (bytesOf "key", stringField (fun s m => MkGetReq (gq_Code m) s (gq_PendingKey m)));
   (bytesOf "pending_key", stringField (fun s m => MkGetReq (gq_Code m) (gq_Key m) s))].

Definition GetReqMessage_DeSerialize (gm : GetReqMessage) (msg : NodeWireMessage) : outcome GetReqMessage :=
  Ret (Unmarshal GetReqMessage_fields (wm_Data msg) gm).

#[export] Instance GetReqMessage_msg : NodeMessage GetReqMessage :=
  {| Serialize := GetReqMessage_Serialize; DeSerialize := GetReqMessage_DeSerialize |}.

(** ** Deletion *)

Record DeleteMessage : Type := MkDelete { dm_Code : Z; dm_Key : gostring }.

Definition DeleteMessage_Serialize (dm : DeleteMessage) : outcome NodeWireMessage :=
  Ret (WireMessage MsgDEL (jsonObject [member "code" (JNum (itoa MsgDEL)); member "key" (JStr (dm_Key dm))])).

Definition DeleteMessage_fields : list (field DeleteMessage) :=
  [(bytesOf "code", uintField 16 (fun n m => MkDelete n (dm_Key m)));
   (bytesOf "key", stringField (fun s m => MkDelete (dm_Code m) s))].

Definition DeleteMessage_DeSerialize (dm : DeleteMessage) (msg : NodeWireMessage) : outcome DeleteMessage :=
  Ret (Unmarshal DeleteMessage_fields (wm_Data msg) dm).

#[export] Instance DeleteMessage_msg : NodeMessage DeleteMessage :=
  {| Serialize := DeleteMessage_Serialize; DeSerialize := DeleteMessage_DeSerialize |}.

(** ** Synchronization *)

Record SyncReqMessage : Type := MkSyncReq { sq_Code : Z; sq_Mode : Z }.

(** The code field is sent as it is. *)
Definition SyncReqMessage_Serialize (sc : SyncReqMessage) : outcome NodeWireMessage :=
  Ret (WireMessage MsgSyncReq (jsonObject
    [member "code" (JNum (itoa (sq_Code sc))); member "mode" (JNum (itoa (sq_Mode sc)))])).

Definition SyncReqMessage_fields : list (field SyncReqMessage) :=
  [(bytesOf "code", uintField 16 (fun n m => MkSyncReq n (sq_Mode m)));
   (bytesOf "mode", uintField 8 (fun n m => MkSyncReq (sq_Code m) n))].

Definition SyncReqMessage_DeSerialize (sc : SyncReqMessage) (msg : NodeWireMessage) : outcome SyncReqMessage :=
  Ret (Unmarshal SyncReqMessage_fields (wm_Data msg) sc).

#[export] Instance SyncReqMessage_msg : NodeMessage SyncReqMessage :=
  {| Serialize := SyncReqMessage_Serialize; DeSerialize := SyncReqMessage_DeSerialize |}.

Record ProposedPeer : Type := MkPeer { pp_Id : gostring; pp_IpAddress : gostring }.

(** [None] is a nil list; [sr_spare] is what the list's array holds behind its end, which
    decoding a longer list into it shows again. *)
Record SyncRspMessage : Type := MkSyncRsp {
  sr_Code : Z;
  sr_ReplicationFactor : Z;
  sr_List : option (list ProposedPeer);
  sr_spare : list ProposedPeer
}.

Definition peerJson (p : ProposedPeer) : json :=
  JObj [member "Id" (JStr (pp_Id p)); member "IpAddress" (JStr (pp_IpAddress p))].

Definition SyncRspMessage_Serialize (sc : SyncRspMessage) : outcome NodeWireMessage :=
  Ret (WireMessage MsgSyncRsp (jsonObject
    [member "code" (JNum (itoa MsgSyncRsp)); member "replication_factor" (JNum (itoa (sr_ReplicationFactor sc)));
     member "list" (match sr_List sc with None => JNull | Some l => JArr (map peerJson l) end)])).

Definition ProposedPeer_fields : list (field ProposedPeer) :=
  [(bytesOf "Id", stringField (fun s p => MkPeer s (pp_IpAddress p)));
   (bytesOf "IpAddress", stringField (fun s p => MkPeer (pp_Id p) s))].

Definition zeroPeer : ProposedPeer := MkPeer [] [].

(** Decoding an array into a list: each element into what its place in the array held. *)
Definition peersField (v : json) (m : SyncRspMessage) : SyncRspMessage :=
  match v with
  | JNull => MkSyncRsp (sr_Code m) (sr_ReplicationFactor m) None []
  | JArr [] => MkSyncRsp (sr_Code m) (sr_ReplicationFactor m) (Some []) []
  | JArr vs =>
      let old := default [] (sr_List m) ++ sr_spare m in
      MkSyncRsp (sr_Code m) (sr_ReplicationFactor m)
        (Some (imap (fun i v => storeObject ProposedPeer_fields v (default zeroPeer (old !! i))) vs))
        (drop (length vs) old)
  | _ => m
  end.

Definition SyncRspMessage_fields : list (field SyncRspMessage) :=
  [(bytesOf "code", uintField 64 (fun n m => MkSyncRsp n (sr_ReplicationFactor m) (sr_List m) (sr_spare m)));
   (bytesOf "replication_factor", intField 64 (fun n m => MkSyncRsp (sr_Code m) n (sr_List m) (sr_spare m)));
   (bytesOf "list", peersField)].

Definition SyncRspMessage_DeSerialize (sc : SyncRspMessage) (msg : NodeWireMessage) : outcome SyncRspMessage :=
  Ret (Unmarshal SyncRspMessage_fields (wm_Data msg) sc).

#[export] Instance SyncRspMessage_msg : NodeMessage SyncRspMessage :=
  {| Serialize := SyncRspMessage_Serialize; DeSerialize := SyncRspMessage_DeSerialize |}.

(** ** What the fields become *)

(** Members with names of ASCII letters, whose numbers are integers. *)
Definition member_ok (m : gostring * json) : Prop := json_wf (snd m) /\ validUTF8 (fst m) = true.

(** An object reads back as the fold of its members. *)
Lemma Unmarshal_object {M : Type} (fields : list (field M)) (ms : list (gostring * json)) (m : M) :
  Forall member_ok ms ->
  Unmarshal fields (jsonObject ms) m =
  foldl (storeMember fields) m (map (fun f => (fst f, recodeJson (snd f))) ms).
Proof.
  intros Hok. unfold Unmarshal, jsonObject. rewrite parseJson_encode.
  - cbn [recodeJson storeObject]. f_equal. apply map_ext_in. intros [n v] Hin.
    cbn [fst snd]. f_equal. apply recode_valid. rewrite List.Forall_forall in Hok. by apply (Hok (n, v)).
  - constructor. eapply Forall_impl; [exact Hok|]. by intros ? [? _].
Qed.

Lemma intLit_bits (bits n : Z) : 0 <= n < 2 ^ bits -> bits <= 64 -> intLit n.
Proof. intros Hn Hb. pose proof (Z.pow_le_mono_r 2 bits 64). unfold intLit. lia. Qed.

Lemma str_member (name : string) (s : gostring) :
  validUTF8 (bytesOf name) = true -> member_ok (member name (JStr s)).
Proof. split; [constructor|done]. Qed.

Lemma num_member (name : string) (n : Z) :
  validUTF8 (bytesOf name) = true -> intLit n -> member_ok (member name (JNum (itoa n))).
Proof. split; [by constructor|done]. Qed.

(** A member whose key is the name of a field. *)
Lemma storeMember_at {M : Type} (fields : list (field M)) (m : M) (k : gostring) (v : json) (set : json -> M -> M) :
  findField fields k = Some (k, set) -> storeMember fields m (k, v) = set v m.
Proof. intros H. unfold storeMember. cbn [fst]. by rewrite H. Qed.

(** Stores the members of the goal one after the other. *)
Ltac store_members :=
  cbn [map fst snd recodeJson foldl member];
  repeat (erewrite storeMember_at by reflexivity; cbn [stringField uintField intField]).

Create HintDb json.
#[export] Hint Resolve str_member num_member List.Forall_cons List.Forall_nil eq_refl : json.

Lemma verify_DeSerialize (vm m0 : VerifyMessage) (w : NodeWireMessage) :
  0 <= vm_Mode vm < 2 ^ 8 -> VerifyMessage_Serialize vm = Ret w ->
  VerifyMessage_DeSerialize m0 w =
  Ret (MkVerify (recode (vm_Id vm)) (recode (vm_Version vm)) (recode (vm_ServicePort vm)) (vm_Mode vm)).
Proof.
  intros Hm [= <-]. pose proof (intLit_bits 8 _ Hm ltac:(lia)).
  unfold VerifyMessage_DeSerialize. cbn [wm_Data]. rewrite Unmarshal_object by auto 10 with json.
  store_members. by rewrite parseUint_itoa by lia.
Qed.

Lemma getReq_DeSerialize (gm m0 : GetReqMessage) (w : NodeWireMessage) :
  GetReqMessage_Serialize gm = Ret w ->
  GetReqMessage_DeSerialize m0 w = Ret (MkGetReq MsgGETReq (recode (gq_Key gm)) (recode (gq_PendingKey gm))).
Proof.
  intros [= <-]. assert (intLit MsgGETReq) by done.
  unfold GetReqMessage_DeSerialize. cbn [wm_Data]. rewrite Unmarshal_object by auto 10 with json.
  store_members. by rewrite parseUint_itoa by done.
Qed.

Lemma delete_DeSerialize (dm m0 : DeleteMessage) (w : NodeWireMessage) :
  DeleteMessage_Serialize dm = Ret w ->
  DeleteMessage_DeSerialize m0 w = Ret (MkDelete MsgDEL (recode (dm_Key dm))).
Proof.
  intros [= <-]. assert (intLit MsgDEL) by done.
  unfold DeleteMessage_DeSerialize. cbn [wm_Data]. rewrite Unmarshal_object by auto 10 with json.
  store_members. by rewrite parseUint_itoa by done.
Qed.

Lemma syncReq_DeSerialize (sc m0 : SyncReqMessage) (w : NodeWireMessage) :
  0 <= sq_Code sc < 2 ^ 16 -> 0 <= sq_Mode sc < 2 ^ 8 -> SyncReqMessage_Serialize sc = Ret w ->
  SyncReqMessage_DeSerialize m0 w = Ret sc.
Proof.
  intros Hc Hm [= <-].
  pose proof (intLit_bits 16 _ Hc ltac:(lia)). pose proof (intLit_bits 8 _ Hm ltac:(lia)).
  unfold SyncReqMessage_DeSerialize. cbn [wm_Data]. rewrite Unmarshal_object by auto 10 with json.
  store_members. rewrite !parseUint_itoa by lia. by destruct sc.
Qed.

Definition recodePeer (p : ProposedPeer) : ProposedPeer := MkPeer (recode (pp_Id p)) (recode (pp_IpAddress p)).

Lemma peer_wf (p : ProposedPeer) : json_wf (peerJson p).
Proof. repeat constructor. Qed.

Lemma peer_store (p p0 : ProposedPeer) :
  storeObject ProposedPeer_fields (recodeJson (peerJson p)) p0 = recodePeer p.
Proof.
  unfold peerJson. cbn [recodeJson storeObject map fst snd member foldl].
  erewrite !storeMember_at by reflexivity. done.
Qed.

Lemma imap_map {A B C : Type} (f : nat -> A -> B) (g : C -> A) (h : C -> B) (l : list C) :
  (forall i c, f i (g c) = h c) -> imap f (map g l) = map h l.
Proof.
  revert f. induction l as [|c l IH]; intros f Hf; [done|]. cbn [map imap]. f_equal; [apply Hf|].
  apply IH. intros i c'. apply (Hf (S i)).
Qed.

Lemma peersField_store (l : list ProposedPeer) (m : SyncRspMessage) :
  l <> [] ->
  peersField (JArr (map recodeJson (map peerJson l))) m =
  MkSyncRsp (sr_Code m) (sr_ReplicationFactor m) (Some (map recodePeer l))
    (drop (length l) (default [] (sr_List m) ++ sr_spare m)).
Proof.
  intros Hl. rewrite map_map. set (old := default [] (sr_List m) ++ sr_spare m).
  assert (imap (fun i v => storeObject ProposedPeer_fields v (default zeroPeer (old !! i)))
    (map (fun p => recodeJson (peerJson p)) l) = map recodePeer l) as Hi.
  { apply imap_map. intros i p. apply peer_store. }
  destruct l as [|p l]; [done|]. unfold peersField. cbn [map] in *. fold old. rewrite Hi. f_equal.
  cbn [length]. by rewrite length_map.
Qed.

Lemma syncRsp_DeSerialize (c f : Z) (l spare : list ProposedPeer) (w : NodeWireMessage) :
  - 2 ^ 63 <= f < 2 ^ 63 -> SyncRspMessage_Serialize (MkSyncRsp c f (Some l) spare) = Ret w ->
  SyncRspMessage_DeSerialize (MkSyncRsp 0 0 None []) w = Ret (MkSyncRsp MsgSyncRsp f (Some (map recodePeer l)) []).
Proof.
  intros Hf [= <-]. unfold SyncRspMessage_DeSerialize. cbn [wm_Data sr_List sr_ReplicationFactor].
  assert (intLit MsgSyncRsp) by done. assert (intLit f) by (unfold intLit; lia).
  assert (member_ok (member "list" (JArr (map peerJson l)))).
  { split; [|done]. constructor. apply Forall_map, Forall_true, peer_wf. }
  rewrite Unmarshal_object by auto 10 with json. store_members.
  rewrite parseUint_itoa, parseInt_itoa by done. cbn [sr_Code sr_List sr_spare].
  destruct l as [|p l]; [done|]. rewrite peersField_store by done. by destruct l.
Qed.

(** ** All messages *)

(** The values that the queues of a node hold as [message.NodeMessage]. *)
Inductive message : Type :=
| NVerify (m : VerifyMessage)
| NVerifyOK (m : VerifyOKMessage)
| NPing (m : PingMessage)
| NPong (m : PongMessage)
| NPut (m : PutMessage)
| NGetReq (m : GetReqMessage)
| NGetRsp (m : GetRspMessage)
| NDelete (m : DeleteMessage)
| NSyncReq (m : SyncReqMessage)
| NSyncRsp (m : SyncRspMessage).

(** [m.Serialize()] on a value of the interface. *)
Definition serializeMessage (m : message) : outcome NodeWireMessage :=
  match m with
  | NVerify m => Serialize m
  | NVerifyOK m => Serialize m
  | NPing m => Serialize m
  | NPong m => Serialize m
  | NPut m => Serialize m
  | NGetReq m => Serialize m
  | NGetRsp m => Serialize m
  | NDelete m => Serialize m
  | NSyncReq m => Serialize m
  | NSyncRsp m => Serialize m
  end.

(** The zero values the handlers read into. *)
Definition zeroVerify : VerifyMessage := MkVerify [] [] [] 0.
Definition zeroPut : PutMessage := MkPut 0 [] 0 [].
Definition zeroGetReq : GetReqMessage := MkGetReq 0 [] [].
Definition zeroGetRsp : GetRspMessage := MkGetRsp 0 [] [].
Definition zeroDelete : DeleteMessage := MkDelete 0 [].
Definition zeroSyncReq : SyncReqMessage := MkSyncReq 0 0.
Definition zeroSyncRsp : SyncRspMessage := MkSyncRsp 0 0 None [].

(** What the message of a code is read as: the type [handleMessage] chooses by the code. *)
Definition received (w : NodeWireMessage) : outcome (option message) :=
  let c := wm_Code w in
  if c =? MsgVERIFY then let! m := DeSerialize zeroVerify w in Ret (Some (NVerify m))
  else if c =? MsgVERIFYOK then let! m := DeSerialize MkVerifyOK w in Ret (Some (NVerifyOK m))
  else if c =? MsgPING then let! m := DeSerialize (MkPing 0) w in Ret (Some (NPing m))
  else if c =? MsgPONG then let! m := DeSerialize (MkPong 0) w in Ret (Some (NPong m))
  else if c =? MsgPUT then let! m := DeSerialize zeroPut w in Ret (Some (NPut m))
  else if c =? MsgGETReq then let! m := DeSerialize zeroGetReq w in Ret (Some (NGetReq m))
  else if c =? MsgGETRsp then let! m := DeSerialize zeroGetRsp w in Ret (Some (NGetRsp m))
  else if c =? MsgDEL then let! m := DeSerialize zeroDelete w in Ret (Some (NDelete m))
  else if c =? MsgSyncReq then let! m := DeSerialize zeroSyncReq w in Ret (Some (NSyncReq m))
  else if c =? MsgSyncRsp then let! m := DeSerialize zeroSyncRsp w in Ret (Some (NSyncRsp m))
  else Ret None.

(** Messages whose fields fit: key lengths for the 16 bit sums of the binary layouts, fields in
    the range of their types, lists that are not nil. *)
Definition message_ok (m : message) : Prop :=
  match m with
  | NVerify m => 0 <= vm_Mode m < 2 ^ 8
  | NPut m => put_wf m
  | NGetRsp m => getRsp_wf m
  | NSyncReq m => 0 <= sq_Code m < 2 ^ 16 /\ 0 <= sq_Mode m < 2 ^ 8
  | NSyncRsp m => - 2 ^ 63 <= sr_ReplicationFactor m < 2 ^ 63 /\ is_Some (sr_List m)
  | _ => True
  end.

(** The message with its code filled in and its JSON texts mapped by [t]. *)
Definition stamp (t : gostring -> gostring) (m : message) : message :=
  match m with
  | NVerify m => NVerify (MkVerify (t (vm_Id m)) (t (vm_Version m)) (t (vm_ServicePort m)) (vm_Mode m))
  | NVerifyOK m => NVerifyOK m
  | NPing _ => NPing (MkPing MsgPING)
  | NPong _ => NPong (MkPong MsgPONG)
  | NPut m => NPut (put_coded m)
  | NGetReq m => NGetReq (MkGetReq MsgGETReq (t (gq_Key m)) (t (gq_PendingKey m)))
  | NGetRsp m => NGetRsp (getRsp_coded m)
  | NDelete m => NDelete (MkDelete MsgDEL (t (dm_Key m)))
  | NSyncReq m => NSyncReq m
  | NSyncRsp m =>
      NSyncRsp (MkSyncRsp MsgSyncRsp (sr_ReplicationFactor m)
        (map (fun p => MkPeer (t (pp_Id p)) (t (pp_IpAddress p))) <$> sr_List m) [])
  end.

(** What arrives: JSON texts are recoded. *)
Definition arrives : message -> message := stamp recode.

(** The texts that are sent as JSON. *)
Definition texts (m : message) : list gostring :=
  match m with
  | NVerify m => [vm_Id m; vm_Version m; vm_ServicePort m]
  | NGetReq m => [gq_Key m; gq_PendingKey m]
  | NDelete m => [dm_Key m]
  | NSyncRsp m => flat_map (fun p => [pp_Id p; pp_IpAddress p]) (default [] (sr_List m))
  | _ => []
  end.

Lemma stamp_valid (m : message) :
  Forall (fun s => validUTF8 s = true) (texts m) -> arrives m = stamp id m.
Proof.
  unfold arrives. destruct m as [m|m|m|m|m|m|m|m|m|m]; cbn [texts stamp]; intros H; try done;
    repeat match goal with H : Forall _ (_ :: _) |- _ => inversion H; clear H; subst end;
    rewrite ?(proj2 (recode_valid _)) by done; try done.
  do 2 f_equal. destruct (sr_List m) as [l|]; [|done]. cbn in *. f_equal.
  induction l as [|p l IH]; [done|]. cbn in *.
  inversion H as [|? ? H1 H2]; subst. inversion H2 as [|? ? H3 H4]; subst.
  rewrite !(proj2 (recode_valid _)), IH by done. done.
Qed.

Lemma received_as {M : Type} `{!NodeMessage M} (wrap : M -> message) (m0 x : M) (w : NodeWireMessage) :
  received w = (let! m := DeSerialize m0 w in Ret (Some (wrap m))) -> DeSerialize m0 w = Ret x ->
  received w = Ret (Some (wrap x)).
Proof. intros -> ->. done. Qed.

Lemma received_ok (m : message) :
  message_ok m -> exists w, serializeMessage m = Ret w /\ 0 <= wm_Code w < 2 ^ 16 /\
    received w = Ret (Some (arrives m)).
Proof.
  destruct m as [m|m|m|m|m|m|m|m|m|m]; cbn [message_ok serializeMessage]; intros Hm.
  - eexists. split_and!; [reflexivity|done..|]. apply (received_as NVerify zeroVerify); [done|].
    by apply (verify_DeSerialize m zeroVerify).
  - destruct m. by eexists.
  - by eexists.
  - by eexists.
  - eexists. split_and!; [apply put_Serialize_Ret|done..|]. apply (received_as NPut zeroPut); [done|].
    destruct Hm as [He Hk]. by apply put_DeSerialize_Ret.
  - eexists. split_and!; [reflexivity|done..|]. apply (received_as NGetReq zeroGetReq); [done|].
    by apply (getReq_DeSerialize m zeroGetReq).
  - eexists. split_and!; [apply getRsp_Serialize_Ret|done..|]. apply (received_as NGetRsp zeroGetRsp); [done|].
    by apply getRsp_DeSerialize_Ret.
  - eexists. split_and!; [reflexivity|done..|]. apply (received_as NDelete zeroDelete); [done|].
    by apply (delete_DeSerialize m zeroDelete).
  - eexists. split_and!; [reflexivity|done..|]. apply (received_as NSyncReq zeroSyncReq); [done|].
    by apply (syncReq_DeSerialize m zeroSyncReq _ (proj1 Hm) (proj2 Hm)).
  - destruct Hm as [Hf [l Hl]]. destruct m as [c f l0 spare]. cbn in Hf, Hl. subst l0.
    eexists. split_and!; [reflexivity|done..|]. apply (received_as NSyncRsp zeroSyncRsp); [done|].
    by apply (syncRsp_DeSerialize c f l spare).
Qed.

(** ** Claims *)

(** C11. Every message arrives.  A message of any of the ten kinds, with keys the 16 bit sums can
    handle and lists that are not nil, is serialized; its frame is read from the head of
    the stream whatever follows; and the handler's message is the one that was sent, with its code
    filled in, whenever the texts that travel as JSON are valid UTF-8. *)
Theorem message_roundtrip (m : message) (rest : list byte) :
  message_ok m ->
  exists w, serializeMessage m = Ret w /\ received w = Ret (Some (arrives m)) /\
    (Forall (fun s => validUTF8 s = true) (texts m) -> received w = Ret (Some (stamp id m))) /\
    (zlen (wm_Data w) + 2 < 2 ^ 32 ->
     exists f, frame w = Ret f /\ readMessage (f ++ rest) = Ret (Some (w, rest))).
Proof.
  intros Hm. destruct (received_ok m Hm) as (w & Hw & Hc & Hr). exists w. split_and!; [done|done| |].
  - intros Hv. by rewrite <- stamp_valid.
  - intros Hl. exists (frameLayout w). split; [apply frame_Ret|]. by apply readMessage_frame.
Qed.

(** A key that is not valid UTF-8 is deleted under another name: the message that asks
    for its deletion arrives with a different key, and so does the one that asks for its
    value, while a put message carries the key as it is. *)
Theorem invalid_key_is_altered (key pending : gostring) (expiry : Z) (data : list byte) :
  validUTF8 key = false ->
  (exists w key', serializeMessage (NDelete (MkDelete 0 key)) = Ret w /\
     received w = Ret (Some (NDelete (MkDelete MsgDEL key'))) /\ key' <> key) /\
  (exists w key' p, serializeMessage (NGetReq (MkGetReq 0 key pending)) = Ret w /\
     received w = Ret (Some (NGetReq (MkGetReq MsgGETReq key' p))) /\ key' <> key) /\
  (put_wf (MkPut 0 key expiry data) ->
   exists w, serializeMessage (NPut (MkPut 0 key expiry data)) = Ret w /\
     received w = Ret (Some (NPut (MkPut MsgPUT key expiry data)))).
Proof.
  intros Hk. assert (recode key <> key) as Hne.
  { intros H. apply recode_valid in H. congruence. }
  split_and!.
  - destruct (received_ok (NDelete (MkDelete 0 key)) I) as (w & Hw & _ & Hr). eauto 10.
  - destruct (received_ok (NGetReq (MkGetReq 0 key pending)) I) as (w & Hw & _ & Hr). eauto 10.
  - intros Hp. destruct (received_ok (NPut (MkPut 0 key expiry data)) Hp) as (w & Hw & _ & Hr). eauto.
Qed.

(** ** Witnesses *)

(** A peer with a name of two letters, one of them not ASCII. *)
Definition peerMessage : message :=
  NSyncRsp (MkSyncRsp 0 1 (Some [MkPeer (bytesOf "nó") (bytesOf "10.0.0.7:9911")]) []).

Lemma peerMessage_ok : message_ok peerMessage.
Proof. split; [by vm_compute|by eexists]. Qed.

Lemma peerMessage_texts : Forall (fun s => validUTF8 s = true) (texts peerMessage).
Proof. repeat constructor. Qed.

Lemma message_roundtrip_witness :
  exists w, serializeMessage peerMessage = Ret w /\ received w = Ret (Some (stamp id peerMessage)) /\
    exists f, frame w = Ret f /\ readMessage (f ++ []) = Ret (Some (w, [])).
Proof.
  destruct (message_roundtrip peerMessage [] peerMessage_ok) as (w & Hw & _ & Hr & Hf).
  exists w. split; [exact Hw|]. split; [exact (Hr peerMessage_texts)|]. apply Hf.
  injection Hw as <-. vm_compute. reflexivity.
Defined.

(** The byte [0xff] starts no rune. *)
Lemma invalid_key_is_altered_witness :
  exists w key', serializeMessage (NDelete (MkDelete 0 [Byte.xff])) = Ret w /\
    received w = Ret (Some (NDelete (MkDelete MsgDEL key'))) /\ key' <> [Byte.xff].
Proof. exact (proj1 (invalid_key_is_altered [Byte.xff] [] 0 [] eq_refl)). Defined.
