(* ===== verification/NodeId.v ===== *)
(** * Random identifiers ([utils/utils.go])

    [GenerateNodeId] cuts the 63 bits of each random number into ten indices of six bits
    and keeps those that name a letter, filling the string from its end.  The source of
    random numbers is a sequence [src]; a position in it is the state of the generator. *)

From Stdlib Require Import Strings.String.
From stdpp Require Import base decidable countable list gmap.
From Stdlib Require Import ZArith Lia Strings.Byte.
From S2P Require Import Prelude.
From S2P Require Import GoTime.

Definition letterBytes : list byte :=
  list_byte_of_string "abcdefghijklmnopqrstuvwxyzABCDEFGHIJKLMNOPQRSTUVWXYZ".

Definition letterIdxBits : Z := 6.

Definition letterIdxMask : Z := Z.shiftl 1 letterIdxBits - 1.

Definition letterIdxMax : Z := 63 / letterIdxBits.

(** The loop: [i] is the place to fill, [cache] the bits that are left of the last number and
    [remain] how many indices they hold.  A source that never names a letter keeps the loop
    running: out of fuel is [Stuck]. *)
Fixpoint idLoop (src : nat -> Z) (fuel : nat) (b : list byte) (i : Z) (pos : nat) (cache remain : Z)
  : outcome (list byte * nat) :=
  match fuel with
  | O => Stuck
  | S fuel' =>
      if i >=? 0 then
        let '(cache, remain, pos) :=
          if remain =? 0 then (src pos, letterIdxMax, S pos) else (cache, remain, pos) in
        let idx := Z.land cache letterIdxMask in
        if idx <? zlen letterBytes then
          match letterBytes !! Z.to_nat idx with
          | Some c =>
              idLoop src fuel' (<[Z.to_nat i := c]> b) (i - 1) pos (Z.shiftr cache letterIdxBits) (remain - 1)
          | None => Panic
          end
        else idLoop src fuel' b i pos (Z.shiftr cache letterIdxBits) (remain - 1)
      else Ret (b, pos)
  end.

(** The generator: its position and its lock. *)
Record source : Type := Source { rs_pos : nat; rs_lock : bool }.

Definition GenerateNodeId (src : nat -> Z) (fuel : nat) (st : source) (n : Z) : outcome (source * gostring) :=
  if n <? 0 then Panic
  else
    let b := zeros n in
    let! lock := mutexLock (rs_lock st) in
    let! r := idLoop src fuel b (n - 1) (S (rs_pos st)) (src (rs_pos st)) letterIdxMax in
    let! lock := mutexUnlock lock in
    Ret (Source (snd r) lock, fst r).

(** ** The reference: indices, then letters *)

(** The [t]-th index that the source yields from position [p] on. *)
Definition index (src : nat -> Z) (p t : nat) : Z :=
  Z.land (Z.shiftr (src (p + t / 10)%nat) (6 * Z.of_nat (t mod 10))) 63.

(** The letters that the first [t] indices name. *)
Definition lettersOf (src : nat -> Z) (p t : nat) : list byte :=
  omap (fun j => letterBytes !! Z.to_nat (index src p j)) (seq 0 t).

Lemma index_range (src : nat -> Z) (p t : nat) : 0 <= index src p t < 64.
Proof.
  unfold index. change 63 with (Z.ones 6). rewrite Z.land_ones by lia. apply Z.mod_pos_bound. lia.
Qed.

Lemma lettersOf_S (src : nat -> Z) (p t : nat) :
  lettersOf src p (S t) =
  lettersOf src p t ++ match letterBytes !! Z.to_nat (index src p t) with Some c => [c] | None => [] end.
Proof.
  unfold lettersOf. rewrite seq_S, omap_app. cbn. by destruct (letterBytes !! Z.to_nat (index src p t)).
Qed.

(** The state of the loop after [t] indices: what is left of the last number. *)
Definition loop_at (src : nat -> Z) (p t : nat) (pos : nat) (cache remain : Z) : Prop :=
  let q := (t / 10)%nat in
  let k := (t mod 10)%nat in
  (pos = S (p + q) /\ cache = Z.shiftr (src (p + q)%nat) (6 * Z.of_nat k) /\ remain = 10 - Z.of_nat k) \/
  (k = 0%nat /\ remain = 0 /\ pos = (p + q)%nat).

Lemma loop_at_next (src : nat -> Z) (p t pos : nat) (cache remain : Z) :
  loop_at src p t pos cache remain ->
  let '(c, r, po) := if remain =? 0 then (src pos, letterIdxMax, S pos) else (cache, remain, pos) in
  Z.land c letterIdxMask = index src p t /\ loop_at src p (S t) po (Z.shiftr c letterIdxBits) (r - 1).
Proof.
  assert (forall c, c = Z.shiftr (src (p + t / 10)%nat) (6 * Z.of_nat (t mod 10)) ->
    Z.land c letterIdxMask = index src p t /\
    loop_at src p (S t) (S (p + t / 10)) (Z.shiftr c letterIdxBits) (10 - Z.of_nat (t mod 10) - 1)) as H.
  { intros c ->. split; [done|]. unfold loop_at, letterIdxBits.
    pose proof (Nat.div_mod t 10 ltac:(lia)) as Ht. pose proof (Nat.mod_upper_bound t 10 ltac:(lia)).
    destruct (decide (t mod 10 = 9)%nat) as [H9|H9].
    - right. assert (S t = 10 * S (t / 10) + 0)%nat as E by lia.
      rewrite <- (Nat.div_unique (S t) 10 (S (t / 10)) 0), <- (Nat.mod_unique (S t) 10 (S (t / 10)) 0) by lia.
      split_and!; lia.
    - left. assert (S t = 10 * (t / 10) + S (t mod 10))%nat as E by lia.
      rewrite <- (Nat.div_unique (S t) 10 (t / 10) (S (t mod 10))),
        <- (Nat.mod_unique (S t) 10 (t / 10) (S (t mod 10))) by lia.
      split_and!; [done| |lia]. rewrite Z.shiftr_shiftr by lia. f_equal. lia. }
  intros [(-> & -> & ->)|(Hk & -> & ->)].
  - pose proof (Nat.mod_upper_bound t 10 ltac:(lia)). destruct (Z.eqb_spec (10 - Z.of_nat (t mod 10)) 0); [lia|].
    by apply H.
  - cbn. destruct (H (src (p + t / 10)%nat)) as [H1 H2].
    { rewrite Hk. cbn. by rewrite Z.shiftr_0_r. }
    rewrite Hk in H2. done.
Qed.

Lemma lettersOf_length (src : nat -> Z) (p t : nat) : (length (lettersOf src p t) <= t)%nat.
Proof. induction t; [done|]. rewrite lettersOf_S, length_app. destruct (letterBytes !! Z.to_nat (index src p t)); simpl; lia. Qed.

Lemma letterBytes_lookup (idx : Z) :
  0 <= idx -> ((idx <? zlen letterBytes) = true <-> is_Some (letterBytes !! Z.to_nat idx)).
Proof. intros H. rewrite Z.ltb_lt, lookup_lt_is_Some. unfold zlen. lia. Qed.

(** Filling place [i] from the right. *)
Lemma fill_left (n k : nat) (c : byte) (l : list byte) :
  (k < n)%nat -> <[(n - 1 - k)%nat := c]> (replicate (n - k) Byte.x00 ++ l) = replicate (n - S k) Byte.x00 ++ c :: l.
Proof.
  intros Hk. replace (n - k)%nat with (n - S k + 1)%nat by lia. rewrite replicate_add, <- app_assoc.
  rewrite insert_app_r_alt by (rewrite length_replicate; lia). rewrite length_replicate.
  by replace (n - 1 - k - (n - S k))%nat with 0%nat by lia.
Qed.

(** The loop from index [t] on, when the letters so far are [l] and the first [t + d] indices name
    at least [n] letters. *)
Lemma idLoop_ok (src : nat -> Z) (p n d t pos fuel : nat) (cache remain : Z) :
  let l := lettersOf src p t in
  loop_at src p t pos cache remain -> (length l <= n)%nat ->
  (n <= length (lettersOf src p (t + d)))%nat -> (d < fuel)%nat ->
  exists pos', idLoop src fuel (replicate (n - length l) Byte.x00 ++ rev l) (Z.of_nat n - 1 - zlen l) pos cache remain =
    Ret (rev (take n (lettersOf src p (t + d))), pos').
Proof.
  revert t pos fuel cache remain. induction d as [|d IH]; intros t pos fuel cache remain l Hat Hl Hn Hf;
    (destruct fuel as [|fuel]; [lia|]); cbn [idLoop]; rewrite Z.geb_leb.
  - rewrite Nat.add_0_r in *. fold l in Hn |- *. unfold zlen. destruct (Z.leb_spec 0 (Z.of_nat n - 1 - Z.of_nat (length l))); [lia|].
    exists pos. replace (n - length l)%nat with 0%nat by lia. by rewrite take_ge by lia.
  - destruct (Z.leb_spec 0 (Z.of_nat n - 1 - zlen l)) as [Hi|Hi].
    2:{ exists pos. unfold zlen in Hi. replace (n - length l)%nat with 0%nat by lia. simpl.
        assert (exists l', lettersOf src p (t + S d) = l ++ l') as [l' ->].
        { unfold l, lettersOf. rewrite seq_app, omap_app. eauto. }
        rewrite take_app_le, take_ge by lia. done. }
    pose proof (loop_at_next src p t pos cache remain Hat) as Hnext.
    destruct (if remain =? 0 then _ else _) as [[c r] po]. destruct Hnext as [-> Hat'].
    pose proof (index_range src p t) as Hr.
    rewrite <- Nat.add_succ_comm in Hn |- *. specialize (IH (S t) po fuel (Z.shiftr c letterIdxBits) (r - 1)).
    rewrite (lettersOf_S src p t) in IH. fold l in IH. unfold zlen in Hi.
    destruct (letterBytes !! Z.to_nat (index src p t)) as [ch|] eqn:E.
    + rewrite (proj2 (letterBytes_lookup _ (proj1 Hr)) ltac:(by rewrite E)).
      cbn zeta in IH. rewrite length_app, rev_app_distr, zlen_app in IH. cbn [length rev app] in IH.
      replace (Z.to_nat (Z.of_nat n - 1 - zlen l)) with (n - 1 - length l)%nat by (unfold zlen; lia).
      rewrite fill_left by lia.
      replace (Z.of_nat n - 1 - zlen l - 1) with (Z.of_nat n - 1 - (zlen l + zlen [ch])) by (unfold zlen; simpl; lia).
      replace (n - S (length l))%nat with (n - (length l + 1))%nat by lia.
      apply IH; [done|lia|done|lia].
    + destruct (index src p t <? zlen letterBytes) eqn:E2.
      { apply letterBytes_lookup in E2; [|lia]. rewrite E in E2. by destruct E2. }
      cbn zeta in IH. rewrite app_nil_r in IH. apply IH; [done|done|done|lia].
Qed.

Lemma zeros_replicate (n : nat) : zeros (Z.of_nat n) = replicate n Byte.x00.
Proof. unfold zeros. by rewrite Nat2Z.id. Qed.

Lemma loop_at_start (src : nat -> Z) (p : nat) : loop_at src p 0 (S p) (src p) letterIdxMax.
Proof.
  left. change (0 / 10)%nat with 0%nat. change (0 mod 10)%nat with 0%nat. rewrite Nat.add_0_r.
  split_and!; [done| |done]. symmetry. apply Z.shiftr_0_r.
Qed.

Lemma GenerateNodeId_ok (src : nat -> Z) (p n t fuel : nat) :
  (n <= length (lettersOf src p t))%nat -> (t < fuel)%nat ->
  exists pos, GenerateNodeId src fuel (Source p false) (Z.of_nat n) =
    Ret (Source pos false, rev (take n (lettersOf src p t))).
Proof.
  intros Hn Hf. destruct (idLoop_ok src p n t 0 (S p) fuel (src p) letterIdxMax (loop_at_start src p)) as [pos Hr];
    [simpl; lia|done|done|].
  change (lettersOf src p 0) with (@nil byte) in Hr. cbn [length rev] in Hr.
  rewrite zlen_nil, Nat.sub_0_r, app_nil_r, Z.sub_0_r in Hr.
  unfold GenerateNodeId. destruct (Z.ltb_spec (Z.of_nat n) 0); [lia|].
  cbn [mutexLock obind rs_lock rs_pos]. rewrite zeros_replicate, Hr. cbn. eauto.
Qed.

Definition isAlpha (c : byte) : Prop := c ∈ letterBytes.

Lemma lettersOf_alpha (src : nat -> Z) (p t : nat) : Forall isAlpha (lettersOf src p t).
Proof.
  apply Forall_forall. intros c Hc. unfold lettersOf in Hc. apply list_elem_of_omap in Hc as (j & _ & Hj).
  by apply list_elem_of_lookup_2 in Hj.
Qed.

(** Every number names at least one letter. *)
Definition productive (src : nat -> Z) : Prop :=
  forall q, exists k, (k < 10)%nat /\ Z.land (Z.shiftr (src q) (6 * Z.of_nat k)) 63 < zlen letterBytes.

Lemma productive_letters (src : nat -> Z) (p n : nat) :
  productive src -> (n <= length (lettersOf src p (10 * n)))%nat.
Proof.
  intros Hp. induction n as [|n IH]; [lia|].
  assert (exists k, k < 10 /\ is_Some (letterBytes !! Z.to_nat (index src p (10 * n + k))))%nat as (k & Hk & [c Hc]).
  { destruct (Hp (p + n)%nat) as (k & Hk & Hlt). exists k. split; [done|].
    apply letterBytes_lookup; [apply index_range|]. apply Z.ltb_lt. unfold index.
    rewrite <- (Nat.div_unique (10 * n + k) 10 n k), <- (Nat.mod_unique (10 * n + k) 10 n k) by lia. done. }
  replace (10 * S n)%nat with ((10 * n + S k) + (9 - k))%nat by lia.
  unfold lettersOf in *. rewrite seq_app, omap_app, length_app. rewrite Nat.add_succ_r.
  fold (lettersOf src p (S (10 * n + k))). rewrite lettersOf_S, Hc, length_app. cbn [length].
  unfold lettersOf. rewrite seq_app, omap_app, length_app. lia.
Qed.

(** ** Claims *)

(** C26. The optimised generator is the simple one.  [GenerateNodeId] is the string of the
    first [n] letters that the six bit indices of the random numbers name, last letter first:
    [n] bytes long, all letters, and the lock of the generator is free again. *)
Theorem nodeId_is_reference (src : nat -> Z) (p n t fuel : nat) :
  (n <= length (lettersOf src p t))%nat -> (t < fuel)%nat ->
  exists pos id, GenerateNodeId src fuel (Source p false) (Z.of_nat n) = Ret (Source pos false, id) /\
    id = rev (take n (lettersOf src p t)) /\ length id = n /\ Forall isAlpha id.
Proof.
  intros Hn Hf. destruct (GenerateNodeId_ok src p n t fuel Hn Hf) as [pos Hr].
  eexists pos, _. split; [exact Hr|]. split; [done|]. rewrite length_rev, length_take. split; [lia|].
  apply Forall_rev, Forall_take, lettersOf_alpha.
Qed.

(** The generator ends.  When every random number names a letter, ten rounds for each
    byte of the identifier are enough. *)
Theorem nodeId_terminates (src : nat -> Z) (p n : nat) :
  productive src ->
  exists pos id, GenerateNodeId src (S (10 * n)) (Source p false) (Z.of_nat n) = Ret (Source pos false, id) /\
    length id = n.
Proof.
  intros Hp. pose proof (productive_letters src p n Hp) as Hn.
  destruct (GenerateNodeId_ok src p n (10 * n) (S (10 * n)) Hn) as [pos Hr]; [lia|].
  eexists pos, _. split; [exact Hr|]. rewrite length_rev, length_take. lia.
Qed.

(** ** Witnesses *)

(** Bits that name the letters b, c, then no letter. *)
Definition src123 : nat -> Z := fun _ => 1 + 2 * 64 + 63 * 4096.

Lemma nodeId_is_reference_witness :
  exists pos id, GenerateNodeId src123 13 (Source 4 false) 8 = Ret (Source pos false, id) /\
    id = rev (take 8 (lettersOf src123 4 12)) /\ length id = 8%nat /\ Forall isAlpha id.
Proof. apply (nodeId_is_reference src123 4 8 12 13); vm_compute; lia. Defined.

Lemma src123_productive : productive src123.
Proof. intros q. exists 0%nat. split; [lia|by vm_compute]. Qed.

Lemma nodeId_terminates_witness :
  exists pos id, GenerateNodeId src123 (S (10 * 8)) (Source 0 false) (Z.of_nat 8) = Ret (Source pos false, id) /\
    length id = 8%nat.
Proof. exact (nodeId_terminates src123 0 8 src123_productive). Defined.
