(* ===== verification/Chan.v ===== *)
(** * Channels

    What the nodes use of Go's channels: buffered queues that can be closed, and channels
    that are only ever closed to wake those who wait on them.  A send on a closed channel
    panics, a send on a full one blocks, a receive from a closed and empty channel reports
    the close. *)

From stdpp Require Import base decidable countable list gmap.
From Stdlib Require Import ZArith Lia.
From S2P Require Import Prelude.

Record chan (A : Type) : Type := Chan {
  ch_buf : list A;
  ch_cap : Z;
  ch_closed : bool
}.

Arguments Chan {A} _ _ _.
Arguments ch_buf {A} _.
Arguments ch_cap {A} _.
Arguments ch_closed {A} _.

Section Chan.
Context {A : Type}.
Implicit Types c : chan A.

(** [make(chan A, cap)] *)
Definition makeChan (cap : Z) : chan A := Chan [] cap false.

Definition chanFull c : bool := ch_cap c <=? zlen (ch_buf c).

(** [c <- x] *)
Definition chanSend c (x : A) : outcome (chan A) :=
  if ch_closed c then Panic
  else if chanFull c then Stuck
  else Ret (Chan (ch_buf c ++ [x]) (ch_cap c) false).

(** [x, ok := <-c]: [None] when the channel is closed and empty. *)
Definition chanRecv c : outcome (chan A * option A) :=
  match ch_buf c with
  | x :: b => Ret (Chan b (ch_cap c) (ch_closed c), Some x)
  | [] => if ch_closed c then Ret (c, None) else Stuck
  end.

(** [close(c)] *)
Definition chanClose c : outcome (chan A) :=
  if ch_closed c then Panic else Ret (Chan (ch_buf c) (ch_cap c) true).

(** Sending a list, one value after the other. *)
Fixpoint chanSendAll c (xs : list A) : outcome (chan A) :=
  match xs with
  | [] => Ret c
  | x :: xs' => let! c := chanSend c x in chanSendAll c xs'
  end.

Lemma chanSend_Ret c (x : A) :
  ch_closed c = false -> zlen (ch_buf c) < ch_cap c ->
  chanSend c x = Ret (Chan (ch_buf c ++ [x]) (ch_cap c) false).
Proof.
  intros Hc Hl. unfold chanSend, chanFull. rewrite Hc. destruct (Z.leb_spec (ch_cap c) (zlen (ch_buf c))); [lia|done].
Qed.

Lemma chanSendAll_Ret c (xs : list A) :
  ch_closed c = false -> zlen (ch_buf c) + zlen xs <= ch_cap c ->
  chanSendAll c xs = Ret (Chan (ch_buf c ++ xs) (ch_cap c) false).
Proof.
  revert c. induction xs as [|x xs IH]; intros c Hc Hl; cbn [chanSendAll].
  - rewrite app_nil_r. destruct c as [b n cl]. simpl in *. by subst.
  - rewrite zlen_cons in Hl. pose proof (zlen_nonneg xs).
    rewrite chanSend_Ret by (done || lia). cbn [obind].
    rewrite IH; [|done|]; cbn [ch_buf ch_cap]; rewrite <- ?app_assoc; [done|].
    rewrite zlen_app, zlen_cons, zlen_nil. lia.
Qed.

(** First in, first out. *)
Lemma chanSend_recv c c' (x : A) :
  ch_buf c = [] -> chanSend c x = Ret c' -> chanRecv c' = Ret (c, Some x) \/ ch_closed c = true.
Proof.
  intros Hb. unfold chanSend. destruct (ch_closed c) eqn:E; [by right|].
  destruct (chanFull c); [discriminate|]. intros [= <-]. left. rewrite Hb. unfold chanRecv. cbn.
  destruct c as [b n cl]. simpl in *. by subst.
Qed.
End Chan.
