(* ===== verification/Connection.v ===== *)
(** * Connections ([comms/connection.go])

    A connection wraps a TCP socket with a buffered reader.  What arrives on the socket is a
    list of segments, cut anywhere; how much of the bytes a write offers the socket takes is an
    oracle.  Reading through the buffer is shown to be reading from the concatenation of
    the segments ([ReadFull] of [Message.v]), and sending to write exactly the data. *)

From Stdlib Require Import Strings.String.
From stdpp Require Import base decidable countable list gmap.
From Stdlib Require Import ZArith Lia Strings.Byte.
From S2P Require Import Prelude.
From S2P Require Import GoTime.
From S2P Require Import Chan.
From S2P Require Import Message.

(** ** Errors *)

Inductive ioError : Type :=
| EOF
| ErrUnexpectedEOF
| errConnectionUnusable
| errTimeout
| NetError (text : gostring).

Fixpoint hasPrefix (p s : list byte) : bool :=
  match p, s with
  | [], _ => true
  | a :: p', b :: s' => Byte.eqb a b && hasPrefix p' s'
  | _, [] => false
  end.

(** [strings.Contains] *)
Fixpoint contains (s sub : list byte) : bool :=
  hasPrefix sub s || match s with [] => false | _ :: s' => contains s' sub end.

(** [err.Error()] *)
Definition errorText (e : ioError) : gostring :=
  match e with
  | EOF => list_byte_of_string "EOF"
  | ErrUnexpectedEOF => list_byte_of_string "unexpected EOF"
  | errConnectionUnusable => list_byte_of_string "connection is not usable"
  | errTimeout => list_byte_of_string "i/o timeout"
  | NetError text => text
  end.

(** ** The socket *)

(** What a read finds: bytes, or an error. *)
Inductive arrival : Type :=
| Segment (bs : list byte)
| Fails (e : ioError).

(** A [net.TCPConn]: its addresses, what will arrive (then the end of the stream), what was written. *)
Record tcpConn : Type := TcpConn {
  tc_local : gostring;
  tc_remote : gostring;
  tc_arrivals : list arrival;
  tc_sent : list byte;
  tc_open : bool;
  tc_deadline : option Z
}.

Definition tcpRead (t : tcpConn) (size : Z) : tcpConn * (list byte * option ioError) :=
  let set arr := TcpConn (tc_local t) (tc_remote t) arr (tc_sent t) (tc_open t) (tc_deadline t) in
  if tc_open t then
    match tc_arrivals t with
    | [] => (t, ([], Some EOF))
    | Segment bs :: arr =>
        if zlen bs <=? size then (set arr, (bs, None))
        else (set (Segment (drop (Z.to_nat size) bs) :: arr), (take (Z.to_nat size) bs, None))
    | Fails e :: arr => (set arr, ([], Some e))
    end
  else (t, ([], Some (NetError (list_byte_of_string "use of closed network connection")))).

Definition tcpSent (t : tcpConn) (bs : list byte) : tcpConn :=
  TcpConn (tc_local t) (tc_remote t) (tc_arrivals t) (tc_sent t ++ bs) (tc_open t) (tc_deadline t).

Definition tcpDeadline (t : tcpConn) (d : Z) : tcpConn :=
  TcpConn (tc_local t) (tc_remote t) (tc_arrivals t) (tc_sent t) (tc_open t) (Some d).

Definition tcpClose (t : tcpConn) : tcpConn :=
  TcpConn (tc_local t) (tc_remote t) (tc_arrivals t) (tc_sent t) false (tc_deadline t).

(** A [bufio.Reader]: the bytes it holds and the error it has not yet reported. *)
Record bufReader : Type := BufReader { br_buf : list byte; br_err : option ioError }.

Record Connection : Type := MkConnection {
  cn_Remote : gostring;
  cn_Uid : gostring;
  cn_conn : tcpConn;
  cn_buffReader : option bufReader;
  cn_readTimeout : Z;
  cn_Usable : bool;
  cn_writeLock : bool
}.

Definition set_conn (c : Connection) (t : tcpConn) : Connection :=
  MkConnection (cn_Remote c) (cn_Uid c) t (cn_buffReader c) (cn_readTimeout c) (cn_Usable c) (cn_writeLock c).

Definition set_Usable (c : Connection) (u : bool) : Connection :=
  MkConnection (cn_Remote c) (cn_Uid c) (cn_conn c) (cn_buffReader c) (cn_readTimeout c) u (cn_writeLock c).

Definition set_writeLock (c : Connection) (l : bool) : Connection :=
  MkConnection (cn_Remote c) (cn_Uid c) (cn_conn c) (cn_buffReader c) (cn_readTimeout c) (cn_Usable c) l.

Definition set_buffReader (c : Connection) (b : option bufReader) : Connection :=
  MkConnection (cn_Remote c) (cn_Uid c) (cn_conn c) b (cn_readTimeout c) (cn_Usable c) (cn_writeLock c).

(** ** Operations *)

(** What [NewConnection] and [WrapConnection] set up. *)
Definition freshConnection (conn : tcpConn) (remote : gostring) : Connection :=
  MkConnection remote (tc_local conn) conn (Some (BufReader [] None)) 0 true false.

(** [dialled] is the outcome of [net.DialTimeout]. *)
Definition NewConnection (endpoint : gostring) (dialled : tcpConn + ioError) : Connection + ioError :=
  match dialled with
  | inr err => inr err
  | inl conn => inl (freshConnection conn endpoint)
  end.

Definition WrapConnection (conn : tcpConn) : Connection := freshConnection conn (tc_remote conn).

Definition SetReadTimeout (c : Connection) (timeout : Z) : Connection :=
  MkConnection (cn_Remote c) (cn_Uid c) (cn_conn c) (cn_buffReader c) timeout (cn_Usable c) (cn_writeLock c).

(** [Read] into a slice of [size] bytes: what it stored, and its error. *)
Definition connRead (c : Connection) (now size : Z) : Connection * (list byte * option ioError) :=
  if negb (cn_Usable c) then (c, ([], Some errConnectionUnusable))
  else
    let c := if cn_readTimeout c =? 0 then c
             else set_conn c (tcpDeadline (cn_conn c) (now + cn_readTimeout c)) in
    let '(t, (bs, err)) := tcpRead (cn_conn c) size in
    let c := set_conn c t in
    match err with
    | None => (c, (bs, None))
    | Some EOF => (set_Usable c false, (bs, Some EOF))
    | Some e =>
        (c, (bs, Some (if contains (errorText e) (list_byte_of_string "timeout")
                       then NetError (list_byte_of_string "i/o timeout") else e)))
    end.

(** The loop that [Write] and [SendData] share.  [wr k len] is the outcome of the [k]-th call of the
    socket's write with [len] bytes: how many it took, and its error. *)
Fixpoint writeLoop (wr : nat -> Z -> Z * option ioError) (fuel k : nat) (c : Connection) (data : list byte) (count : Z)
  : outcome (Connection * (Z * option ioError)) :=
  match fuel with
  | O => Stuck
  | S fuel' =>
      if count <? zlen data then
        let rest := drop (Z.to_nat count) data in
        let '(n, err) := wr k (zlen rest) in
        let c := set_conn c (tcpSent (cn_conn c) (take (Z.to_nat n) rest)) in
        match err with
        | Some e =>
            let c := match e with EOF => set_Usable c false | _ => c end in
            Ret (c, (count, Some e))
        | None => writeLoop wr fuel' (S k) c data (count + n)
        end
      else Ret (c, (count, None))
  end.

Definition Write (wr : nat -> Z -> Z * option ioError) (fuel : nat) (c : Connection) (data : list byte)
  : outcome (Connection * (Z * option ioError)) :=
  if negb (cn_Usable c) then Ret (c, (0, Some errConnectionUnusable))
  else
    let! lock := mutexLock (cn_writeLock c) in
    let! r := writeLoop wr fuel 0 (set_writeLock c lock) data 0 in
    let! lock := mutexUnlock (cn_writeLock (fst r)) in
    Ret (set_writeLock (fst r) lock, snd r).

Definition SendData (wr : nat -> Z -> Z * option ioError) (fuel : nat) (c : Connection) (data : list byte)
  : outcome (Connection * option ioError) :=
  if negb (cn_Usable c) then Ret (c, Some errConnectionUnusable)
  else
    let! lock := mutexLock (cn_writeLock c) in
    let! r := writeLoop wr fuel 0 (set_writeLock c lock) data 0 in
    let! lock := mutexUnlock (cn_writeLock (fst r)) in
    Ret (set_writeLock (fst r) lock, snd (snd r)).

(** [bufio.NewReader]'s buffer. *)
Definition bufSize : Z := 4096.

(** [bufio.Reader.Read] of at most [size > 0] bytes; large reads bypass the empty buffer. *)
Definition bufRead (c : Connection) (b : bufReader) (now size : Z)
  : Connection * bufReader * (list byte * option ioError) :=
  match br_buf b with
  | [] =>
      match br_err b with
      | Some e => (c, BufReader [] None, ([], Some e))
      | None =>
          if bufSize <=? size then
            let '(c, (bs, err)) := connRead c now size in (c, BufReader [] None, (bs, err))
          else
            let '(c, (bs, err)) := connRead c now bufSize in
            match bs with
            | [] => (c, BufReader [] None, ([], err))
            | _ => (c, BufReader (drop (Z.to_nat size) bs) err, (take (Z.to_nat size) bs, None))
            end
      end
  | bs => (c, BufReader (drop (Z.to_nat size) bs) (br_err b), (take (Z.to_nat size) bs, None))
  end.

(** [io.ReadFull]: reads until [size] bytes are there or an error comes; [got] is what is there. *)
Fixpoint readFull (fuel : nat) (c : Connection) (b : bufReader) (now size : Z) (got : list byte)
  : outcome (Connection * bufReader * (list byte * option ioError)) :=
  match fuel with
  | O => Stuck
  | S fuel' =>
      if zlen got <? size then
        let '(c, b, (bs, err)) := bufRead c b now (size - zlen got) in
        let got := got ++ bs in
        match err with
        | None => readFull fuel' c b now size got
        | Some e =>
            if size <=? zlen got then Ret (c, b, (got, None))
            else Ret (c, b, (got, Some (match e with EOF => if 0 <? zlen got then ErrUnexpectedEOF else EOF | _ => e end)))
        end
      else Ret (c, b, (got, None))
  end.

(** [ReadData] when the read ends before the timeout, if there is one; the slice it returns is filled
    with zeros behind what was read. *)
Definition ReadData (fuel : nat) (c : Connection) (now size timeout : Z)
  : outcome (Connection * (list byte * option ioError)) :=
  let tmp := cn_readTimeout c in
  let c := SetReadTimeout c timeout in
  match cn_buffReader c with
  | None => if size =? 0 then Ret (SetReadTimeout c tmp, ([], None)) else Panic
  | Some b =>
      let! r := readFull fuel c b now size [] in
      let '(c, b, (got, err)) := r in
      Ret (SetReadTimeout (set_buffReader c (Some b)) tmp, (got ++ zeros (size - zlen got), err))
  end.

(** [ReadData] when the timeout ends first: it returns an error and, on its way out, closes the
    channel [done] that the goroutine it started still holds. *)
Definition ReadDataTimedOut (c : Connection) (timeout : Z)
  : outcome (Connection * chan bool * (list byte * option ioError)) :=
  let tmp := cn_readTimeout c in
  let c := SetReadTimeout c timeout in
  let! done := chanClose (makeChan 0) in
  Ret (SetReadTimeout c tmp, done, ([], Some errTimeout)).

(** The last statement of that goroutine, [done <- true]. *)
Definition readerFinishes (done : chan bool) : outcome (chan bool) := chanSend done true.

Definition Shutdown (c : Connection) : Connection :=
  set_Usable (set_buffReader (set_conn c (tcpClose (cn_conn c))) None) false.

Definition Close (c : Connection) : Connection := Shutdown c.

(** ** Reading is reading the stream *)

(** The bytes that are still to come. *)
Definition arrivalBytes (a : arrival) : list byte := match a with Segment bs => bs | Fails _ => [] end.

Definition stream (c : Connection) (b : bufReader) : list byte :=
  br_buf b ++ concat (map arrivalBytes (tc_arrivals (cn_conn c))).

Definition segment_ok (a : arrival) : Prop := match a with Segment bs => bs <> [] | Fails _ => False end.

(** A connection that works: what arrives are segments, cut anywhere, up to the end of the stream. *)
Record live (c : Connection) (b : bufReader) : Prop := {
  lv_usable : cn_Usable c = true;
  lv_open : tc_open (cn_conn c) = true;
  lv_segments : Forall segment_ok (tc_arrivals (cn_conn c));
  lv_err : br_err b = None
}.

Lemma connRead_live (c : Connection) (b : bufReader) (now size : Z) (a : arrival) (arr : list arrival) :
  live c b -> 0 < size -> tc_arrivals (cn_conn c) = a :: arr ->
  exists c' bs, connRead c now size = (c', (bs, None)) /\ bs <> [] /\ zlen bs <= size /\
    live c' (BufReader [] None) /\ bs ++ stream c' (BufReader [] None) = stream c (BufReader [] None) /\
    cn_readTimeout c' = cn_readTimeout c /\ cn_buffReader c' = cn_buffReader c /\ cn_writeLock c' = cn_writeLock c.
Proof.
  intros [Hu Ho Hs _] Hsz Ha. rewrite Ha in Hs. inversion Hs as [|? ? Hbs Hs']; subst.
  destruct a as [bs|e]; [|done]. cbn [segment_ok] in Hbs.
  assert (zlen bs <> 0) as Hz.
  { destruct bs; [done|]. rewrite zlen_cons. pose proof (zlen_nonneg bs). lia. }
  unfold connRead. rewrite Hu. cbn [negb].
  assert (exists t, tc_arrivals t = Segment bs :: arr /\ tc_open t = true /\
    cn_conn (if cn_readTimeout c =? 0 then c else set_conn c (tcpDeadline (cn_conn c) (now + cn_readTimeout c))) = t) as (t & Ht & Hto & Hc).
  { destruct (cn_readTimeout c =? 0); eexists; (split_and!; [| |reflexivity]); done. }
  set (c1 := if cn_readTimeout c =? 0 then c else _) in *.
  assert (cn_Usable c1 = true /\ cn_readTimeout c1 = cn_readTimeout c /\ cn_buffReader c1 = cn_buffReader c /\
    cn_writeLock c1 = cn_writeLock c) as (Hu1 & Hr1 & Hb1 & Hl1) by (unfold c1; case_if; done).
  rewrite Hc. unfold tcpRead. rewrite Hto, Ht. unfold stream. rewrite Ha. cbn [map concat arrivalBytes].
  destruct (Z.leb_spec (zlen bs) size).
  - eexists _, bs. split; [reflexivity|]. split_and!; [done|lia|split; cbn; done|done|done|done|done].
  - eexists _, _. split; [reflexivity|]. split_and!; try done.
    + intros E. apply (f_equal length) in E. rewrite length_take in E. unfold zlen in *. simpl in E. lia.
    + unfold zlen in *. rewrite length_take. lia.
    + split; cbn; try done. constructor; [|done]. intros E. apply (f_equal length) in E.
      rewrite length_drop in E. unfold zlen in *. simpl in E. lia.
    + cbn. by rewrite app_assoc, take_drop.
Qed.

(** The fields a read leaves alone. *)
Definition same_setup (c' c : Connection) : Prop :=
  cn_readTimeout c' = cn_readTimeout c /\ cn_buffReader c' = cn_buffReader c /\ cn_writeLock c' = cn_writeLock c.

Lemma take_nonempty (n : Z) (bs : list byte) : 0 < n -> bs <> [] -> take (Z.to_nat n) bs <> [].
Proof. intros Hn Hb. destruct bs; [done|]. by destruct (Z.to_nat n) eqn:E; [lia|]. Qed.

Lemma zlen_take (n : Z) (bs : list byte) : 0 <= n -> zlen (take (Z.to_nat n) bs) <= n.
Proof. intros Hn. unfold zlen. rewrite length_take. lia. Qed.

(** A read of the buffer takes a part of the stream, as long as there is one. *)
Lemma bufRead_live (c : Connection) (b : bufReader) (now size : Z) :
  live c b -> 0 < size -> stream c b <> [] ->
  exists c' b' bs, bufRead c b now size = (c', b', (bs, None)) /\ bs <> [] /\ zlen bs <= size /\
    live c' b' /\ bs ++ stream c' b' = stream c b /\ same_setup c' c.
Proof.
  intros H Hsz Hst. unfold bufRead. destruct (br_buf b) as [|x buf] eqn:Eb.
  - rewrite (lv_err _ _ H). unfold stream in Hst |- *. rewrite Eb in Hst |- *. cbn [app] in *.
    destruct (tc_arrivals (cn_conn c)) as [|a arr] eqn:Ea; [done|].
    destruct (Z.leb_spec bufSize size).
    + destruct (connRead_live c b now size a arr H Hsz Ea) as (c' & bs & -> & ? & ? & ? & Heq & ?).
      eexists c', _, bs. split_and!; try done. unfold stream in Heq. cbn [br_buf app] in *. by rewrite Heq, Ea.
    + destruct (connRead_live c b now bufSize a arr H ltac:(done) Ea) as (c' & bs & -> & Hbs & ? & Hl & Heq & ?).
      unfold stream in Heq. cbn [br_buf app] in Heq. rewrite Ea in Heq.
      destruct bs as [|y bs]; [done|].
      eexists c', _, _. split; [reflexivity|]. split_and!; [by apply take_nonempty|apply zlen_take; lia| | |done].
      * destruct Hl. by split.
      * cbn [br_buf]. by rewrite app_assoc, take_drop.
  - eexists c, _, _. split; [reflexivity|]. split_and!; try done; [by apply take_nonempty|apply zlen_take; lia| |].
    + destruct H as [? ? ? ?]. by split.
    + unfold stream. cbn [br_buf]. by rewrite app_assoc, take_drop, Eb.
Qed.

(** At the end of the stream the read fails and the connection is given up. *)
Lemma bufRead_end (c : Connection) (b : bufReader) (now size : Z) :
  live c b -> stream c b = [] ->
  exists c' b', bufRead c b now size = (c', b', ([], Some EOF)) /\ cn_Usable c' = false /\ same_setup c' c.
Proof.
  intros [Hu Ho Hs He] Hst. unfold stream in Hst. apply app_eq_nil in Hst as [Hb Ha].
  assert (tc_arrivals (cn_conn c) = []) as Hnil.
  { destruct (tc_arrivals (cn_conn c)) as [|[[|x bs]|e] arr]; [done|by inversion Hs|done|by inversion Hs]. }
  unfold bufRead. rewrite Hb, He.
  assert (forall n, exists c', connRead c now n = (c', ([], Some EOF)) /\ cn_Usable c' = false /\ same_setup c' c) as Hr.
  { intros n. unfold connRead, tcpRead. rewrite Hu. cbn [negb].
    destruct (cn_readTimeout c =? 0); cbn; rewrite Ho, Hnil; eexists; split_and!; done. }
  case_if; [destruct (Hr size) as (c' & -> & ? & ?)|destruct (Hr bufSize) as (c' & -> & ? & ?)]; eauto.
Qed.

Lemma same_setup_trans (c1 c2 c3 : Connection) : same_setup c1 c2 -> same_setup c2 c3 -> same_setup c1 c3.
Proof. unfold same_setup. intuition congruence. Qed.

Lemma readFull_ok (fuel : nat) (c : Connection) (b : bufReader) (now size : Z) (got : list byte) :
  live c b -> zlen got <= size -> (Z.to_nat (size - zlen got) < fuel)%nat ->
  exists c' b' data err, readFull fuel c b now size got = Ret (c', b', (data, err)) /\ same_setup c' c /\
    match ReadFull (stream c b) (size - zlen got) with
    | Some (bs, rest) => data = got ++ bs /\ err = None /\ live c' b' /\ stream c' b' = rest
    | None => err <> None /\ cn_Usable c' = false
    end.
Proof.
  revert c b got. induction fuel as [|fuel IH]; intros c b got H Hg Hf; [lia|]. cbn [readFull].
  destruct (Z.ltb_spec (zlen got) size) as [Hlt|Hge].
  2:{ eexists c, b, got, None. split_and!; try done. replace (size - zlen got) with 0 by lia.
      unfold ReadFull. pose proof (zlen_nonneg (stream c b)). destruct (Z.leb_spec 0 (zlen (stream c b))); [|lia].
      simpl. by rewrite take_0, drop_0, app_nil_r. }
  destruct (decide (stream c b = [])) as [Hnil|Hne].
  - destruct (bufRead_end c b now (size - zlen got) H Hnil) as (c' & b' & -> & Hu & Hss).
    rewrite app_nil_r. destruct (Z.leb_spec size (zlen got)); [lia|].
    eexists _, _, _, _. split_and!; [reflexivity|by destruct Hss as (? & ? & ?)..|]. rewrite Hnil. unfold ReadFull.
    rewrite zlen_nil. destruct (Z.leb_spec (size - zlen got) 0); [lia|]. split; [by case_if|done].
  - destruct (bufRead_live c b now (size - zlen got) H ltac:(lia) Hne) as (c' & b' & bs & -> & Hbs & Hlen & Hl & Heq & Hss).
    assert (0 < zlen bs) as Hpos.
    { destruct bs; [done|]. rewrite zlen_cons. pose proof (zlen_nonneg bs). lia. }
    destruct (IH c' b' (got ++ bs) Hl) as (c2 & b2 & data & err & Hr & Hss2 & Hres); [rewrite zlen_app; lia..|].
    eexists _, _, _, _. split; [exact Hr|]. split; [by eapply same_setup_trans|].
    rewrite <- Heq. rewrite zlen_app in Hres. unfold ReadFull in Hres |- *. rewrite zlen_app.
    destruct (Z.leb_spec (size - (zlen got + zlen bs)) (zlen (stream c' b')));
      destruct (Z.leb_spec (size - zlen got) (zlen bs + zlen (stream c' b'))); try lia; [|done].
    destruct Hres as (-> & -> & Hl2 & Hrest).
    assert (Z.to_nat (size - zlen got) = length bs + Z.to_nat (size - (zlen got + zlen bs)))%nat as Hn
      by (unfold zlen in *; lia).
    rewrite Hn, take_app_add, drop_app_add, <- app_assoc. done.
Qed.

(** ** Writing *)

(** What the socket promises of a write: it takes no more than it was offered, and something
    unless it fails. *)
Definition writer_ok (wr : nat -> Z -> Z * option ioError) : Prop :=
  forall k len, 0 < len -> 0 <= fst (wr k len) <= len /\ (snd (wr k len) = None -> 0 < fst (wr k len)).

Lemma writeLoop_ok (wr : nat -> Z -> Z * option ioError) (fuel k : nat) (c : Connection) (data : list byte) (count : Z) :
  writer_ok wr -> 0 <= count <= zlen data -> (Z.to_nat (zlen data - count) < fuel)%nat ->
  exists c' n err, writeLoop wr fuel k c data count = Ret (c', (n, err)) /\ cn_writeLock c' = cn_writeLock c /\
    exists m, tc_sent (cn_conn c') = tc_sent (cn_conn c) ++ take m (drop (Z.to_nat count) data) /\
      (err = None -> n = zlen data /\ (Z.to_nat (zlen data - count) <= m)%nat) /\
      ((forall i len, snd (wr i len) = None) -> err = None).
Proof.
  intros Hw. revert k c count. induction fuel as [|fuel IH]; intros k c count Hc Hf; [lia|]. cbn [writeLoop].
  destruct (Z.ltb_spec count (zlen data)) as [Hlt|Hge].
  2:{ eexists c, count, None. split_and!; [done|done|]. exists 0%nat.
      split_and!; [by rewrite take_0, app_nil_r|intros _; lia|done]. }
  set (rest := drop (Z.to_nat count) data).
  assert (zlen rest = zlen data - count) as Hr by (unfold rest, zlen in *; rewrite length_drop; lia).
  destruct (Hw k (zlen rest) ltac:(lia)) as [Hn Hp]. destruct (wr k (zlen rest)) as [n err] eqn:Ew. cbn [fst snd] in *.
  destruct err as [e|].
  - eexists _, count, (Some e). split; [reflexivity|]. split; [by destruct e|]. exists (Z.to_nat n).
    split_and!; [by destruct e|done|]. intros Hnone. specialize (Hnone k (zlen rest)). by rewrite Ew in Hnone.
  - specialize (Hp eq_refl). edestruct (IH (S k)) as (c' & n' & err & Hl & Hlk & m & Hs & Hd & Hnone); [| |].
    3:{ eexists c', n', err. split; [exact Hl|]. split; [done|]. exists (Z.to_nat n + m)%nat. split_and!.
        - rewrite Hs. cbn. unfold rest. rewrite <- app_assoc. f_equal.
          replace (Z.to_nat (count + n)) with (Z.to_nat count + Z.to_nat n)%nat by lia.
          by rewrite <- drop_drop, <- take_take_drop.
        - intros ->. destruct (Hd eq_refl). split; [done|lia].
        - done. }
    all: lia.
Qed.

Lemma ReadData_ok (fuel : nat) (c : Connection) (b : bufReader) (now size timeout : Z) :
  cn_buffReader c = Some b -> live c b -> 0 <= size -> (Z.to_nat size < fuel)%nat ->
  exists c' data err, ReadData fuel c now size timeout = Ret (c', (data, err)) /\
    cn_readTimeout c' = cn_readTimeout c /\
    match ReadFull (stream c b) size with
    | Some (bs, rest) =>
        data = bs /\ err = None /\ exists b', cn_buffReader c' = Some b' /\ live c' b' /\ stream c' b' = rest
    | None => err <> None /\ cn_Usable c' = false
    end.
Proof.
  intros Hb Hl Hs Hf. unfold ReadData. cbn [SetReadTimeout cn_buffReader]. rewrite Hb.
  destruct (readFull_ok fuel (SetReadTimeout c timeout) b now size []) as (c' & b' & data & err & Hr & Hss & Hres).
  { destruct Hl. by split. }
  { rewrite zlen_nil. lia. }
  { rewrite zlen_nil, Z.sub_0_r. done. }
  rewrite Hr. cbn [obind]. eexists _, _, _. split; [reflexivity|]. split; [done|].
  rewrite zlen_nil, Z.sub_0_r in Hres. change (stream (SetReadTimeout c timeout) b) with (stream c b) in Hres.
  unfold ReadFull in *. destruct (Z.leb_spec size (zlen (stream c b))) as [Hle|Hgt]; [|done].
  destruct Hres as (-> & -> & Hl' & Hrest). cbn [app]. split_and!; [|done|].
  - assert (zlen (take (Z.to_nat size) (stream c b)) = size) as -> by (unfold zlen in *; rewrite length_take; lia).
    rewrite Z.sub_diag. apply app_nil_r.
  - exists b'. split; [done|]. split; [|done]. destruct Hl'. by split.
Qed.

Lemma SendData_ok (wr : nat -> Z -> Z * option ioError) (c : Connection) (data : list byte) :
  writer_ok wr -> cn_Usable c = true -> cn_writeLock c = false ->
  exists c' err n, SendData wr (S (length data)) c data = Ret (c', err) /\ cn_writeLock c' = false /\
    tc_sent (cn_conn c') = tc_sent (cn_conn c) ++ take n data /\ (err = None -> take n data = data) /\
    ((forall i len, snd (wr i len) = None) -> err = None).
Proof.
  intros Hw Hu Hlk. unfold SendData. rewrite Hu, Hlk. cbn [negb mutexLock obind].
  pose proof (zlen_nonneg data).
  destruct (writeLoop_ok wr (S (length data)) 0 (set_writeLock c true) data 0 Hw)
    as (c' & n & err & -> & Hlk' & m & Hs & Hd & Hnone); [lia|unfold zlen; lia|].
  cbn [obind fst snd]. rewrite Hlk'. cbn. eexists _, err, m. split_and!; [reflexivity|done|exact Hs| |done].
  intros ->. destruct (Hd eq_refl) as [_ Hm]. apply take_ge. unfold zlen in Hm. lia.
Qed.

(** ** Claims *)

(** C12. Reading a connection is reading the stream.  Wherever TCP cuts the bytes into
    segments and whatever the buffer of the reader does with them, [ReadData] returns the next
    [size] bytes of the stream and leaves the rest; at the end of the stream it returns an
    error and the connection is unusable. *)
Theorem readData_refines_stream (fuel : nat) (c : Connection) (b : bufReader) (now size timeout : Z) :
  cn_buffReader c = Some b -> live c b -> 0 <= size -> (Z.to_nat size < fuel)%nat ->
  exists c' data err, ReadData fuel c now size timeout = Ret (c', (data, err)) /\
    cn_readTimeout c' = cn_readTimeout c /\
    match ReadFull (stream c b) size with
    | Some (bs, rest) =>
        data = bs /\ err = None /\ exists b', cn_buffReader c' = Some b' /\ live c' b' /\ stream c' b' = rest
    | None => err <> None /\ cn_Usable c' = false
    end.
Proof. apply ReadData_ok. Qed.

(** Sending writes the data and nothing else.  However much of it the socket takes at a
    time, [SendData] ends and releases its lock; what it wrote is a prefix of the data, the
    whole of it when it reports no error. *)
Theorem sendData_writes_data (wr : nat -> Z -> Z * option ioError) (c : Connection) (data : list byte) :
  writer_ok wr -> cn_Usable c = true -> cn_writeLock c = false ->
  exists c' err n, SendData wr (S (length data)) c data = Ret (c', err) /\ cn_writeLock c' = false /\
    tc_sent (cn_conn c') = tc_sent (cn_conn c) ++ take n data /\ (err = None -> take n data = data).
Proof.
  intros Hw Hu Hl. destruct (SendData_ok wr c data Hw Hu Hl) as (c' & err & n & Hs & Hl' & Ht & Hd & _). by exists c', err, n.
Qed.

(** A connection that was shut down must not be read: [Shutdown] drops the reader, and
    [ReadData] dereferences it without looking. *)
Theorem read_after_shutdown_panics (fuel : nat) (c : Connection) (now size timeout : Z) :
  0 < size -> ReadData fuel (Shutdown c) now size timeout = Panic.
Proof. intros H. unfold ReadData. cbn. destruct (Z.eqb_spec size 0); [lia|done]. Qed.

(** A read with a timeout that passes leaves a goroutine behind that panics as soon as its data
    arrives: it sends on the channel that [ReadData] closed. *)
Theorem timed_out_read_panics (c : Connection) (timeout : Z) :
  exists done, ReadDataTimedOut c timeout = Ret (c, done, ([], Some errTimeout)) /\
    readerFinishes done = Panic.
Proof. exists (Chan [] 0 true). split; [|reflexivity]. by destruct c. Qed.

(** ** Witnesses *)

Definition word (s : string) : list byte := list_byte_of_string s.

(** Seven bytes in three segments. *)
Definition conn7 : Connection :=
  freshConnection (TcpConn (word "l") (word "r")
    [Segment (word "ab"); Segment (word "cde"); Segment (word "fg")] [] true None) (word "r").

Lemma conn7_live : live conn7 (BufReader [] None).
Proof. split; try done. repeat constructor; discriminate. Qed.

Lemma readData_refines_stream_witness :
  exists c' data err, ReadData 7 conn7 0 6 0 = Ret (c', (data, err)) /\
    cn_readTimeout c' = cn_readTimeout conn7 /\
    match ReadFull (word "abcdefg") 6 with
    | Some (bs, rest) =>
        data = bs /\ err = None /\ exists b', cn_buffReader c' = Some b' /\ live c' b' /\ stream c' b' = rest
    | None => err <> None /\ cn_Usable c' = false
    end.
Proof.
  apply (readData_refines_stream 7 conn7 (BufReader [] None) 0 6 0 eq_refl conn7_live); vm_compute; [discriminate|lia].
Defined.

(** A socket that takes two bytes at a time. *)
Definition two (k : nat) (len : Z) : Z * option ioError := (Z.min 2 len, None).

Lemma two_ok : writer_ok two.
Proof. intros k len H. unfold two. cbn. lia. Qed.

Lemma sendData_writes_data_witness :
  exists c' err n, SendData two (S (length (word "hello"))) conn7 (word "hello") = Ret (c', err) /\ cn_writeLock c' = false /\
    tc_sent (cn_conn c') = tc_sent (cn_conn conn7) ++ take n (word "hello") /\ (err = None -> take n (word "hello") = word "hello").
Proof. exact (sendData_writes_data two conn7 (word "hello") two_ok eq_refl eq_refl). Defined.

Lemma read_after_shutdown_panics_witness : ReadData 10 (Shutdown conn7) 0 6 0 = Panic.
Proof. apply (read_after_shutdown_panics 10 conn7 0 6 0). reflexivity. Defined.
