(* ===== verification/Node.v ===== *)
(** * The data of a node ([Cluster/clusteredBigCache.go], [remoteNode.go], [config.go])

    The structs and constants of package [clusteredBigCache].  Remote nodes and requests are
    pointers that the lists and queues of the node share: they live in heaps of the node,
    by location.  Goroutines that a handler starts are tasks of the node, each a
    value that says how far it is.  The local cache is reached through an interface. *)

From Stdlib Require Import Strings.String.
From stdpp Require Import base decidable countable list gmap.
From Stdlib Require Import ZArith Lia Strings.Byte.
From S2P Require Import Prelude.
From S2P Require Import GoLib.
From S2P Require Import FreeList.
From S2P Require Import Hash.
From S2P Require Import Config.
From S2P Require Import GoTime.
From S2P Require Import Ttl.
From S2P Require Import Shard.
From S2P Require Import BigCache.
From S2P Require Import Message.
From S2P Require Import JsonMessage.
From S2P Require Import SliceList.
From S2P Require Import Chan.
From S2P Require Import Connection.

(** ** Constants *)

Definition REPLICATION_MODE_FULL_REPLICATE : Z := 0.
Definition REPLICATION_MODE_SHARD : Z := 1.

(** [iota] counts on from the constants above. *)
Definition clusterStateStarting : Z := 2.
Definition clusterStateStarted : Z := 3.
Definition clusterStateEnded : Z := 4.
Definition clusterModeACTIVE : Z := 5.
Definition clusterModePASSIVE : Z := 6.

Definition CHAN_SIZE : Z := 1024 * 64.

Definition nodeStateConnecting : Z := 0.
Definition nodeStateConnected : Z := 1.
Definition nodeStateDisconnected : Z := 2.
Definition nodeStateHandshake : Z := 3.

(** The errors a client sees. *)
Inductive clusterError : Type :=
| ErrNotEnoughReplica
| ErrNotFound
| ErrTimedOut
| ErrNotStarted
| ErrCache (e : cacheError)
| ErrListen (text : gostring)
| ErrNoJoinIp.

(** ** Configurations *)

Record ClusteredBigCacheConfig : Type := MkClusterConfig {
  cc_Id : gostring;
  cc_Join : bool;
  cc_JoinIp : gostring;
  cc_LocalAddresses : list gostring;
  cc_LocalPort : Z;
  cc_BindAll : bool;
  cc_ConnectRetries : Z;
  cc_TerminateOnListenerExit : bool;
  cc_ReplicationMode : Z;
  cc_ReplicationFactor : Z;
  cc_WriteAck : bool;
  cc_DebugMode : bool;
  cc_DebugPort : Z;
  cc_ReconnectOnDisconnect : bool;
  cc_PingFailureThreshHold : Z;
  cc_PingInterval : Z;
  cc_PingTimeout : Z;
  cc_ShardSize : Z
}.

Definition DefaultClusterConfig : ClusteredBigCacheConfig :=
  MkClusterConfig [] false [] [] 9911 true 5 false REPLICATION_MODE_FULL_REPLICATE 1 true false 0 false 0 0 0 0.

Record remoteNodeConfig : Type := MkNodeConfig {
  rc_Id : gostring;
  rc_IpAddress : gostring;
  rc_PingFailureThreshHold : Z;
  rc_PingInterval : Z;
  rc_PingTimeout : Z;
  rc_ConnectRetries : Z;
  rc_ServicePort : gostring;
  rc_Sync : bool;
  rc_ReconnectOnDisconnect : bool
}.

(** Counters are [uint64]. *)
Record nodeMetrics : Type := MkMetrics {
  nm_pingSent : Z;
  nm_pingRecieved : Z;
  nm_pongSent : Z;
  nm_pongRecieved : Z;
  nm_dropedMsg : Z
}.

Definition zeroMetrics : nodeMetrics := MkMetrics 0 0 0 0 0.

Section Setters.
Implicit Types cc : ClusteredBigCacheConfig.
Implicit Types rc : remoteNodeConfig.
Implicit Types nm : nodeMetrics.

Definition set_cc_Id cc (x : gostring) : ClusteredBigCacheConfig :=
  MkClusterConfig x (cc_Join cc) (cc_JoinIp cc) (cc_LocalAddresses cc) (cc_LocalPort cc) (cc_BindAll cc)
    (cc_ConnectRetries cc) (cc_TerminateOnListenerExit cc) (cc_ReplicationMode cc)
    (cc_ReplicationFactor cc) (cc_WriteAck cc) (cc_DebugMode cc) (cc_DebugPort cc)
    (cc_ReconnectOnDisconnect cc) (cc_PingFailureThreshHold cc) (cc_PingInterval cc)
    (cc_PingTimeout cc) (cc_ShardSize cc).

Definition set_cc_Join cc (x : bool) : ClusteredBigCacheConfig :=
  MkClusterConfig (cc_Id cc) x (cc_JoinIp cc) (cc_LocalAddresses cc) (cc_LocalPort cc) (cc_BindAll cc)
    (cc_ConnectRetries cc) (cc_TerminateOnListenerExit cc) (cc_ReplicationMode cc)
    (cc_ReplicationFactor cc) (cc_WriteAck cc) (cc_DebugMode cc) (cc_DebugPort cc)
    (cc_ReconnectOnDisconnect cc) (cc_PingFailureThreshHold cc) (cc_PingInterval cc)
    (cc_PingTimeout cc) (cc_ShardSize cc).

Definition set_cc_JoinIp cc (x : gostring) : ClusteredBigCacheConfig :=
  MkClusterConfig (cc_Id cc) (cc_Join cc) x (cc_LocalAddresses cc) (cc_LocalPort cc) (cc_BindAll cc)
    (cc_ConnectRetries cc) (cc_TerminateOnListenerExit cc) (cc_ReplicationMode cc)
    (cc_ReplicationFactor cc) (cc_WriteAck cc) (cc_DebugMode cc) (cc_DebugPort cc)
    (cc_ReconnectOnDisconnect cc) (cc_PingFailureThreshHold cc) (cc_PingInterval cc)
    (cc_PingTimeout cc) (cc_ShardSize cc).

Definition set_cc_LocalPort cc (x : Z) : ClusteredBigCacheConfig :=
  MkClusterConfig (cc_Id cc) (cc_Join cc) (cc_JoinIp cc) (cc_LocalAddresses cc) x (cc_BindAll cc)
    (cc_ConnectRetries cc) (cc_TerminateOnListenerExit cc) (cc_ReplicationMode cc)
    (cc_ReplicationFactor cc) (cc_WriteAck cc) (cc_DebugMode cc) (cc_DebugPort cc)
    (cc_ReconnectOnDisconnect cc) (cc_PingFailureThreshHold cc) (cc_PingInterval cc)
    (cc_PingTimeout cc) (cc_ShardSize cc).

Definition set_cc_ConnectRetries cc (x : Z) : ClusteredBigCacheConfig :=
  MkClusterConfig (cc_Id cc) (cc_Join cc) (cc_JoinIp cc) (cc_LocalAddresses cc) (cc_LocalPort cc)
    (cc_BindAll cc) x (cc_TerminateOnListenerExit cc) (cc_ReplicationMode cc)
    (cc_ReplicationFactor cc) (cc_WriteAck cc) (cc_DebugMode cc) (cc_DebugPort cc)
    (cc_ReconnectOnDisconnect cc) (cc_PingFailureThreshHold cc) (cc_PingInterval cc)
    (cc_PingTimeout cc) (cc_ShardSize cc).

Definition set_cc_ReplicationMode cc (x : Z) : ClusteredBigCacheConfig :=
  MkClusterConfig (cc_Id cc) (cc_Join cc) (cc_JoinIp cc) (cc_LocalAddresses cc) (cc_LocalPort cc)
    (cc_BindAll cc) (cc_ConnectRetries cc) (cc_TerminateOnListenerExit cc) x
    (cc_ReplicationFactor cc) (cc_WriteAck cc) (cc_DebugMode cc) (cc_DebugPort cc)
    (cc_ReconnectOnDisconnect cc) (cc_PingFailureThreshHold cc) (cc_PingInterval cc)
    (cc_PingTimeout cc) (cc_ShardSize cc).

Definition set_cc_ReplicationFactor cc (x : Z) : ClusteredBigCacheConfig :=
  MkClusterConfig (cc_Id cc) (cc_Join cc) (cc_JoinIp cc) (cc_LocalAddresses cc) (cc_LocalPort cc)
    (cc_BindAll cc) (cc_ConnectRetries cc) (cc_TerminateOnListenerExit cc)
    (cc_ReplicationMode cc) x (cc_WriteAck cc) (cc_DebugMode cc) (cc_DebugPort cc)
    (cc_ReconnectOnDisconnect cc) (cc_PingFailureThreshHold cc) (cc_PingInterval cc)
    (cc_PingTimeout cc) (cc_ShardSize cc).

Definition set_cc_ReconnectOnDisconnect cc (x : bool) : ClusteredBigCacheConfig :=
  MkClusterConfig (cc_Id cc) (cc_Join cc) (cc_JoinIp cc) (cc_LocalAddresses cc) (cc_LocalPort cc)
    (cc_BindAll cc) (cc_ConnectRetries cc) (cc_TerminateOnListenerExit cc)
    (cc_ReplicationMode cc) (cc_ReplicationFactor cc) (cc_WriteAck cc) (cc_DebugMode cc)
    (cc_DebugPort cc) x (cc_PingFailureThreshHold cc) (cc_PingInterval cc) (cc_PingTimeout cc)
    (cc_ShardSize cc).

Definition set_cc_PingFailureThreshHold cc (x : Z) : ClusteredBigCacheConfig :=
  MkClusterConfig (cc_Id cc) (cc_Join cc) (cc_JoinIp cc) (cc_LocalAddresses cc) (cc_LocalPort cc)
    (cc_BindAll cc) (cc_ConnectRetries cc) (cc_TerminateOnListenerExit cc)
    (cc_ReplicationMode cc) (cc_ReplicationFactor cc) (cc_WriteAck cc) (cc_DebugMode cc)
    (cc_DebugPort cc) (cc_ReconnectOnDisconnect cc) x (cc_PingInterval cc) (cc_PingTimeout cc)
    (cc_ShardSize cc).

Definition set_cc_PingInterval cc (x : Z) : ClusteredBigCacheConfig :=
  MkClusterConfig (cc_Id cc) (cc_Join cc) (cc_JoinIp cc) (cc_LocalAddresses cc) (cc_LocalPort cc)
    (cc_BindAll cc) (cc_ConnectRetries cc) (cc_TerminateOnListenerExit cc)
    (cc_ReplicationMode cc) (cc_ReplicationFactor cc) (cc_WriteAck cc) (cc_DebugMode cc)
    (cc_DebugPort cc) (cc_ReconnectOnDisconnect cc) (cc_PingFailureThreshHold cc) x
    (cc_PingTimeout cc) (cc_ShardSize cc).

Definition set_cc_PingTimeout cc (x : Z) : ClusteredBigCacheConfig :=
  MkClusterConfig (cc_Id cc) (cc_Join cc) (cc_JoinIp cc) (cc_LocalAddresses cc) (cc_LocalPort cc)
    (cc_BindAll cc) (cc_ConnectRetries cc) (cc_TerminateOnListenerExit cc)
    (cc_ReplicationMode cc) (cc_ReplicationFactor cc) (cc_WriteAck cc) (cc_DebugMode cc)
    (cc_DebugPort cc) (cc_ReconnectOnDisconnect cc) (cc_PingFailureThreshHold cc)
    (cc_PingInterval cc) x (cc_ShardSize cc).

Definition set_rc_Id rc (x : gostring) : remoteNodeConfig :=
  MkNodeConfig x (rc_IpAddress rc) (rc_PingFailureThreshHold rc) (rc_PingInterval rc) (rc_PingTimeout rc)
    (rc_ConnectRetries rc) (rc_ServicePort rc) (rc_Sync rc) (rc_ReconnectOnDisconnect rc).

Definition set_rc_PingFailureThreshHold rc (x : Z) : remoteNodeConfig :=
  MkNodeConfig (rc_Id rc) (rc_IpAddress rc) x (rc_PingInterval rc) (rc_PingTimeout rc)
    (rc_ConnectRetries rc) (rc_ServicePort rc) (rc_Sync rc) (rc_ReconnectOnDisconnect rc).

Definition set_rc_PingInterval rc (x : Z) : remoteNodeConfig :=
  MkNodeConfig (rc_Id rc) (rc_IpAddress rc) (rc_PingFailureThreshHold rc) x (rc_PingTimeout rc)
    (rc_ConnectRetries rc) (rc_ServicePort rc) (rc_Sync rc) (rc_ReconnectOnDisconnect rc).

Definition set_rc_PingTimeout rc (x : Z) : remoteNodeConfig :=
  MkNodeConfig (rc_Id rc) (rc_IpAddress rc) (rc_PingFailureThreshHold rc) (rc_PingInterval rc) x
    (rc_ConnectRetries rc) (rc_ServicePort rc) (rc_Sync rc) (rc_ReconnectOnDisconnect rc).

Definition set_rc_ServicePort rc (x : gostring) : remoteNodeConfig :=
  MkNodeConfig (rc_Id rc) (rc_IpAddress rc) (rc_PingFailureThreshHold rc) (rc_PingInterval rc)
    (rc_PingTimeout rc) (rc_ConnectRetries rc) x (rc_Sync rc) (rc_ReconnectOnDisconnect rc).

Definition set_rc_ReconnectOnDisconnect rc (x : bool) : remoteNodeConfig :=
  MkNodeConfig (rc_Id rc) (rc_IpAddress rc) (rc_PingFailureThreshHold rc) (rc_PingInterval rc)
    (rc_PingTimeout rc) (rc_ConnectRetries rc) (rc_ServicePort rc) (rc_Sync rc) x.

Definition set_nm_pingSent nm (x : Z) : nodeMetrics :=
  MkMetrics x (nm_pingRecieved nm) (nm_pongSent nm) (nm_pongRecieved nm) (nm_dropedMsg nm).

Definition set_nm_pingRecieved nm (x : Z) : nodeMetrics :=
  MkMetrics (nm_pingSent nm) x (nm_pongSent nm) (nm_pongRecieved nm) (nm_dropedMsg nm).

Definition set_nm_pongSent nm (x : Z) : nodeMetrics :=
  MkMetrics (nm_pingSent nm) (nm_pingRecieved nm) x (nm_pongRecieved nm) (nm_dropedMsg nm).

Definition set_nm_pongRecieved nm (x : Z) : nodeMetrics :=
  MkMetrics (nm_pingSent nm) (nm_pingRecieved nm) (nm_pongSent nm) x (nm_dropedMsg nm).

Definition set_nm_dropedMsg nm (x : Z) : nodeMetrics :=
  MkMetrics (nm_pingSent nm) (nm_pingRecieved nm) (nm_pongSent nm) (nm_pongRecieved nm) x.

End Setters.

(** ** Remote nodes *)

(** A [time.Ticker]: its period, and whether it was stopped. *)
Record ticker : Type := Ticker { tk_period : Z; tk_running : bool }.

(** The waiting of a [Get] for its reply: before the [select], in it, with what it received,
    or gone with a timeout. *)
Inductive getWait : Type :=
| NotYet
| Waiting
| Replied (data : list byte)
| GaveUp.

(** A pending request: [replyChan] has no buffer, so that a send succeeds only while the request
    waits; [gd_done] is the channel that [Get] closes once it has its reply. *)
Record getRequestData : Type := MkGetRequest {
  gd_key : gostring;
  gd_randStr : gostring;
  gd_reply : getWait;
  gd_done : chan unit
}.

(** A goroutine on its own: the joining of a remote node, new or after some failed tries, or
    the wait of [handleVerifyOK] after some seconds. *)
Inductive task : Type :=
| JoinStart (r : loc)
| JoinTask (r : loc) (tries : Z)
| VerifyOKTask (r : loc) (count : Z).

Record remoteNode : Type := MkRemoteNode {
  rn_config : remoteNodeConfig;
  rn_metrics : nodeMetrics;
  rn_connection : option Connection;
  rn_inbound : chan NodeWireMessage;
  rn_outbound : chan message;
  rn_state : Z;
  rn_stateLock : bool;
  rn_done : chan unit;
  rn_pingTimer : option ticker;
  rn_pingTimeout : option timer;
  rn_pingFailure : Z;
  rn_pendingGet : option (gmap gostring loc);
  rn_mode : Z;
  rn_wg : Z
}.

Section RemoteSetters.
Implicit Types r : remoteNode.

Definition set_rn_config r (x : remoteNodeConfig) : remoteNode :=
  MkRemoteNode x (rn_metrics r) (rn_connection r) (rn_inbound r) (rn_outbound r) (rn_state r)
    (rn_stateLock r) (rn_done r) (rn_pingTimer r) (rn_pingTimeout r) (rn_pingFailure r)
    (rn_pendingGet r) (rn_mode r) (rn_wg r).

Definition set_rn_metrics r (x : nodeMetrics) : remoteNode :=
  MkRemoteNode (rn_config r) x (rn_connection r) (rn_inbound r) (rn_outbound r) (rn_state r)
    (rn_stateLock r) (rn_done r) (rn_pingTimer r) (rn_pingTimeout r) (rn_pingFailure r)
    (rn_pendingGet r) (rn_mode r) (rn_wg r).

Definition set_rn_connection r (x : option Connection) : remoteNode :=
  MkRemoteNode (rn_config r) (rn_metrics r) x (rn_inbound r) (rn_outbound r) (rn_state r) (rn_stateLock r)
    (rn_done r) (rn_pingTimer r) (rn_pingTimeout r) (rn_pingFailure r) (rn_pendingGet r)
    (rn_mode r) (rn_wg r).

Definition set_rn_inbound r (x : chan NodeWireMessage) : remoteNode :=
  MkRemoteNode (rn_config r) (rn_metrics r) (rn_connection r) x (rn_outbound r) (rn_state r)
    (rn_stateLock r) (rn_done r) (rn_pingTimer r) (rn_pingTimeout r) (rn_pingFailure r)
    (rn_pendingGet r) (rn_mode r) (rn_wg r).

Definition set_rn_outbound r (x : chan message) : remoteNode :=
  MkRemoteNode (rn_config r) (rn_metrics r) (rn_connection r) (rn_inbound r) x (rn_state r)
    (rn_stateLock r) (rn_done r) (rn_pingTimer r) (rn_pingTimeout r) (rn_pingFailure r)
    (rn_pendingGet r) (rn_mode r) (rn_wg r).

Definition set_rn_state r (x : Z) : remoteNode :=
  MkRemoteNode (rn_config r) (rn_metrics r) (rn_connection r) (rn_inbound r) (rn_outbound r) x
    (rn_stateLock r) (rn_done r) (rn_pingTimer r) (rn_pingTimeout r) (rn_pingFailure r)
    (rn_pendingGet r) (rn_mode r) (rn_wg r).

Definition set_rn_stateLock r (x : bool) : remoteNode :=
  MkRemoteNode (rn_config r) (rn_metrics r) (rn_connection r) (rn_inbound r) (rn_outbound r) (rn_state r) x
    (rn_done r) (rn_pingTimer r) (rn_pingTimeout r) (rn_pingFailure r) (rn_pendingGet r)
    (rn_mode r) (rn_wg r).

Definition set_rn_done r (x : chan unit) : remoteNode :=
  MkRemoteNode (rn_config r) (rn_metrics r) (rn_connection r) (rn_inbound r) (rn_outbound r) (rn_state r)
    (rn_stateLock r) x (rn_pingTimer r) (rn_pingTimeout r) (rn_pingFailure r) (rn_pendingGet r)
    (rn_mode r) (rn_wg r).

Definition set_rn_pingTimer r (x : option ticker) : remoteNode :=
  MkRemoteNode (rn_config r) (rn_metrics r) (rn_connection r) (rn_inbound r) (rn_outbound r) (rn_state r)
    (rn_stateLock r) (rn_done r) x (rn_pingTimeout r) (rn_pingFailure r) (rn_pendingGet r)
    (rn_mode r) (rn_wg r).

Definition set_rn_pingTimeout r (x : option timer) : remoteNode :=
  MkRemoteNode (rn_config r) (rn_metrics r) (rn_connection r) (rn_inbound r) (rn_outbound r) (rn_state r)
    (rn_stateLock r) (rn_done r) (rn_pingTimer r) x (rn_pingFailure r) (rn_pendingGet r)
    (rn_mode r) (rn_wg r).

Definition set_rn_pingFailure r (x : Z) : remoteNode :=
  MkRemoteNode (rn_config r) (rn_metrics r) (rn_connection r) (rn_inbound r) (rn_outbound r) (rn_state r)
    (rn_stateLock r) (rn_done r) (rn_pingTimer r) (rn_pingTimeout r) x (rn_pendingGet r)
    (rn_mode r) (rn_wg r).

Definition set_rn_pendingGet r (x : option (gmap gostring loc)) : remoteNode :=
  MkRemoteNode (rn_config r) (rn_metrics r) (rn_connection r) (rn_inbound r) (rn_outbound r) (rn_state r)
    (rn_stateLock r) (rn_done r) (rn_pingTimer r) (rn_pingTimeout r) (rn_pingFailure r) x
    (rn_mode r) (rn_wg r).

Definition set_rn_mode r (x : Z) : remoteNode :=
  MkRemoteNode (rn_config r) (rn_metrics r) (rn_connection r) (rn_inbound r) (rn_outbound r) (rn_state r)
    (rn_stateLock r) (rn_done r) (rn_pingTimer r) (rn_pingTimeout r) (rn_pingFailure r)
    (rn_pendingGet r) x (rn_wg r).

Definition set_rn_wg r (x : Z) : remoteNode :=
  MkRemoteNode (rn_config r) (rn_metrics r) (rn_connection r) (rn_inbound r) (rn_outbound r) (rn_state r)
    (rn_stateLock r) (rn_done r) (rn_pingTimer r) (rn_pingTimeout r) (rn_pingFailure r)
    (rn_pendingGet r) (rn_mode r) x.

End RemoteSetters.

(** ** The node *)

(** The fields of the struct, then the heaps its pointers point into and the tasks;
    [Some true] is a listener that accepts. *)
Record ClusteredBigCache (C : Type) : Type := MkNode {
  nd_config : ClusteredBigCacheConfig;
  nd_cache : option C;
  nd_remoteNodes : SliceList gostring loc;
  nd_serverEndpoint : option bool;
  nd_joinQueue : chan ProposedPeer;
  nd_pendingConn : gmap gostring gostring;
  nd_nodeIndex : Z;
  nd_getRequestChan : chan (loc * loc);
  nd_replicationChan : chan (loc * message);
  nd_state : Z;
  nd_mode : Z;
  nd_nodes : gmap loc remoteNode;
  nd_requests : gmap loc getRequestData;
  nd_tasks : list task
}.

Arguments MkNode {C} _ _ _ _ _ _ _ _ _ _ _ _ _ _.
Arguments nd_config {C} _.
Arguments nd_cache {C} _.
Arguments nd_remoteNodes {C} _.
Arguments nd_serverEndpoint {C} _.
Arguments nd_joinQueue {C} _.
Arguments nd_pendingConn {C} _.
Arguments nd_nodeIndex {C} _.
Arguments nd_getRequestChan {C} _.
Arguments nd_replicationChan {C} _.
Arguments nd_state {C} _.
Arguments nd_mode {C} _.
Arguments nd_nodes {C} _.
Arguments nd_requests {C} _.
Arguments nd_tasks {C} _.

Section NodeSetters.
Context {C : Type}.
Implicit Types w : ClusteredBigCache C.

Definition set_nd_config w (x : ClusteredBigCacheConfig) : ClusteredBigCache C :=
  MkNode x (nd_cache w) (nd_remoteNodes w) (nd_serverEndpoint w) (nd_joinQueue w) (nd_pendingConn w)
    (nd_nodeIndex w) (nd_getRequestChan w) (nd_replicationChan w) (nd_state w) (nd_mode w)
    (nd_nodes w) (nd_requests w) (nd_tasks w).

Definition set_nd_cache w (x : option C) : ClusteredBigCache C :=
  MkNode (nd_config w) x (nd_remoteNodes w) (nd_serverEndpoint w) (nd_joinQueue w) (nd_pendingConn w)
    (nd_nodeIndex w) (nd_getRequestChan w) (nd_replicationChan w) (nd_state w) (nd_mode w)
    (nd_nodes w) (nd_requests w) (nd_tasks w).

Definition set_nd_remoteNodes w (x : SliceList gostring loc) : ClusteredBigCache C :=
  MkNode (nd_config w) (nd_cache w) x (nd_serverEndpoint w) (nd_joinQueue w) (nd_pendingConn w)
    (nd_nodeIndex w) (nd_getRequestChan w) (nd_replicationChan w) (nd_state w) (nd_mode w)
    (nd_nodes w) (nd_requests w) (nd_tasks w).

Definition set_nd_serverEndpoint w (x : option bool) : ClusteredBigCache C :=
  MkNode (nd_config w) (nd_cache w) (nd_remoteNodes w) x (nd_joinQueue w) (nd_pendingConn w)
    (nd_nodeIndex w) (nd_getRequestChan w) (nd_replicationChan w) (nd_state w) (nd_mode w)
    (nd_nodes w) (nd_requests w) (nd_tasks w).

Definition set_nd_joinQueue w (x : chan ProposedPeer) : ClusteredBigCache C :=
  MkNode (nd_config w) (nd_cache w) (nd_remoteNodes w) (nd_serverEndpoint w) x (nd_pendingConn w)
    (nd_nodeIndex w) (nd_getRequestChan w) (nd_replicationChan w) (nd_state w) (nd_mode w)
    (nd_nodes w) (nd_requests w) (nd_tasks w).

Definition set_nd_pendingConn w (x : gmap gostring gostring) : ClusteredBigCache C :=
  MkNode (nd_config w) (nd_cache w) (nd_remoteNodes w) (nd_serverEndpoint w) (nd_joinQueue w) x
    (nd_nodeIndex w) (nd_getRequestChan w) (nd_replicationChan w) (nd_state w) (nd_mode w)
    (nd_nodes w) (nd_requests w) (nd_tasks w).

Definition set_nd_getRequestChan w (x : chan (loc * loc)) : ClusteredBigCache C :=
  MkNode (nd_config w) (nd_cache w) (nd_remoteNodes w) (nd_serverEndpoint w) (nd_joinQueue w)
    (nd_pendingConn w) (nd_nodeIndex w) x (nd_replicationChan w) (nd_state w) (nd_mode w)
    (nd_nodes w) (nd_requests w) (nd_tasks w).

Definition set_nd_replicationChan w (x : chan (loc * message)) : ClusteredBigCache C :=
  MkNode (nd_config w) (nd_cache w) (nd_remoteNodes w) (nd_serverEndpoint w) (nd_joinQueue w)
    (nd_pendingConn w) (nd_nodeIndex w) (nd_getRequestChan w) x (nd_state w) (nd_mode w)
    (nd_nodes w) (nd_requests w) (nd_tasks w).

Definition set_nd_state w (x : Z) : ClusteredBigCache C :=
  MkNode (nd_config w) (nd_cache w) (nd_remoteNodes w) (nd_serverEndpoint w) (nd_joinQueue w)
    (nd_pendingConn w) (nd_nodeIndex w) (nd_getRequestChan w) (nd_replicationChan w) x
    (nd_mode w) (nd_nodes w) (nd_requests w) (nd_tasks w).

Definition set_nd_nodes w (x : gmap loc remoteNode) : ClusteredBigCache C :=
  MkNode (nd_config w) (nd_cache w) (nd_remoteNodes w) (nd_serverEndpoint w) (nd_joinQueue w)
    (nd_pendingConn w) (nd_nodeIndex w) (nd_getRequestChan w) (nd_replicationChan w)
    (nd_state w) (nd_mode w) x (nd_requests w) (nd_tasks w).

Definition set_nd_requests w (x : gmap loc getRequestData) : ClusteredBigCache C :=
  MkNode (nd_config w) (nd_cache w) (nd_remoteNodes w) (nd_serverEndpoint w) (nd_joinQueue w)
    (nd_pendingConn w) (nd_nodeIndex w) (nd_getRequestChan w) (nd_replicationChan w)
    (nd_state w) (nd_mode w) (nd_nodes w) x (nd_tasks w).

Definition set_nd_tasks w (x : list task) : ClusteredBigCache C :=
  MkNode (nd_config w) (nd_cache w) (nd_remoteNodes w) (nd_serverEndpoint w) (nd_joinQueue w)
    (nd_pendingConn w) (nd_nodeIndex w) (nd_getRequestChan w) (nd_replicationChan w)
    (nd_state w) (nd_mode w) (nd_nodes w) (nd_requests w) x.

End NodeSetters.

(** ** The interface of the local cache *)

(** What a node calls of its cache; clock readings are arguments as in [BigCache.v]. *)
Class LocalCache (C : Type) : Type := {
  lcNew : Config -> (nat -> Z) -> outcome (C + configError);
  lcGet : C -> gostring -> outcome (C * (list byte + cacheError));
  lcSet : C -> gostring -> list byte -> Z -> Z -> Z -> outcome (C * (Z * option cacheError));
  lcDelete : C -> gostring -> Z -> outcome (C * option cacheError);
  lcStats : C -> Stats
}.

(** What a node relies on: [rep] relates a cache to the map of its items; [can_set] and
    [can_delete] are what the operations need of keys, sizes and clocks; [settled] says
    that no operation left a lock behind. *)
Class LocalCacheLaws (C : Type) `{!LocalCache C} {hasher : Hasher} {platform : Platform}
    (rep : C -> gmap Z item -> Prop) (can_set : C -> gostring -> list byte -> Z -> Z -> Z -> Prop)
    (can_delete : C -> Z -> Prop) (settled : C -> Prop) : Prop := {
  lc_get : forall c m key, rep c m ->
    exists c', lcGet c key = Ret (c', getAnswer m key (Sum64 key)) /\ rep c' m;
  lc_set : forall c m key entry d epoch now, rep c m -> can_set c key entry d epoch now ->
    exists c' r, lcSet c key entry d epoch now = Ret (c', (r, None)) /\
      (settled c' ->
       r = expiryOf epoch d /\ rep c' (<[Sum64 key := Item (expiryOf epoch d) key entry]> m));
  lc_delete : forall c m key now, rep c m -> can_delete c now ->
    exists c' e, lcDelete c key now = Ret (c', e) /\ rep c' (delete (Sum64 key) m)
}.

(** ** The cache of package [bigcache] keeps the interface *)

Section BigCacheLocal.
Context {T HS TT : Type} `{!AvlTree loc T} `{!HashSet HS} `{!AvlTree HS TT}.
Context `{!AvlTreeLaws loc T} `{!HashSetLaws HS} `{!AvlTreeLaws HS TT}.
Context {hasher : Hasher} {platform : Platform}.

#[export] Instance BigCache_local : LocalCache (BigCache T TT) := {|
  lcNew := NewBigCache;
  lcGet := Get;
  lcSet := Set_;
  lcDelete := Delete;
  lcStats := cacheStats
|}.

Definition bigcache_rep (c : BigCache T TT) (m : gmap Z item) : Prop := exists k, cache_rep c k m.

#[export] Instance BigCache_laws :
  LocalCacheLaws (BigCache T TT) bigcache_rep set_ok cache_clock_ok unlocked.
Proof.
  split.
  - intros c m key [k H]. destruct (Get_ok c k m key H) as (c' & Hg & H'). exists c'. split; [done|by exists k].
  - intros c m key entry d epoch now [k H] Hs.
    destruct (Set_ok c k m key entry d epoch now H Hs) as (c' & r & Hr & [[-> H']|(-> & Hu & _)]);
      eexists _, _; (split; [exact Hr|]); intros Hset; [|done]. split; [done|by exists k].
  - intros c m key now [k H] Hc. destruct (Delete_ok c k m key now H Hc) as (c' & Hd & H').
    eexists _, _. split; [exact Hd|by exists k].
Qed.
End BigCacheLocal.
