(* ===== verification/MapCache.v ===== *)
(** * The contract of the local cache as a cache

    The smallest cache that keeps the interface of [Node.v]: a map from hashes to items.  The theorems
    on nodes hold for it as for the cache of package [bigcache]; the runs that
    the development evaluates use it where the layout of the entries does not matter. *)

From stdpp Require Import base decidable countable list gmap.
From Stdlib Require Import ZArith Lia Strings.Byte.
From S2P Require Import Prelude.
From S2P Require Import Hash.
From S2P Require Import GoTime.
From S2P Require Import Shard.
From S2P Require Import Node.

Section MapCache.
Context {hasher : Hasher} {platform : Platform}.

#[export] Instance Map_local : LocalCache (gmap Z item) := {|
  lcNew := fun _ _ => Ret (inl ∅);
  lcGet := fun m key => Ret (m, getAnswer m key (Sum64 key));
  lcSet := fun m key entry d epoch _ =>
    Ret (<[Sum64 key := Item (expiryOf epoch d) key entry]> m, (expiryOf epoch d, None));
  lcDelete := fun m key _ =>
    Ret (delete (Sum64 key) m, match m !! Sum64 key with Some _ => None | None => Some (notFound key) end);
  lcStats := fun _ => noStats
|}.

Definition anySet (m : gmap Z item) (key : gostring) (entry : list byte) (d epoch now : Z) : Prop := True.

Definition anyClock (m : gmap Z item) (now : Z) : Prop := True.

Definition anyState (m : gmap Z item) : Prop := True.

#[export] Instance Map_laws : LocalCacheLaws (gmap Z item) eq anySet anyClock anyState.
Proof.
  split.
  - intros c m key ->. by exists m.
  - intros c m key entry d epoch now -> _. by eexists _, _.
  - intros c m key now -> _. by eexists _, _.
Qed.
End MapCache.
