(* ===== verification/RemoteNode.v ===== *)
(** * Remote nodes ([Cluster/remoteNode.go])

    A remote node is the end of a connection to a peer: a state, two queues, the timers
    of its failure detector, and handlers for the messages of the peer.  Its goroutines are
    loops; a definition is one round of a loop, on the remote node alone or on the node it
    belongs to.  [ev_pick] decides a [select] of which both cases are ready. *)

From Stdlib Require Import Strings.String.
From stdpp Require Import base decidable countable list gmap.
From Stdlib Require Import ZArith Lia Strings.Byte.
From S2P Require Import Prelude.
From S2P Require Import FreeList.
From S2P Require Import Json.
From S2P Require Import GoTime.
From S2P Require Import Shard.
From S2P Require Import Message.
From S2P Require Import JsonMessage.
From S2P Require Import SliceList.
From S2P Require Import Chan.
From S2P Require Import Connection.
From S2P Require Import Node.

(** What a round finds outside: the clock of the handler, those of the cache, and the choice of
    its [select]. *)
Record env : Type := Env { ev_time : Z; ev_epoch : Z; ev_now : Z; ev_pick : bool }.

(** [defer func() { recover() }()]: a panic ends the function with what was done so far. *)
Definition recovered {A : Type} (a : A) (m : outcome A) : outcome A :=
  match m with Panic => Ret a | _ => m end.

(** ** Host and port (Go's [net]) *)

Fixpoint indexByte (s : list byte) (b : byte) : option nat :=
  match s with
  | [] => None
  | c :: s' => if Byte.eqb c b then Some 0%nat else S <$> indexByte s' b
  end.

(** The last occurrence. *)
Definition lastByte (s : list byte) (b : byte) : option nat :=
  (fun i => length s - 1 - i)%nat <$> indexByte (rev s) b.

Definition hasByte (s : list byte) (b : byte) : bool :=
  match indexByte s b with Some _ => true | None => false end.

(** [net.SplitHostPort]; [None] is an error, with empty results. *)
Definition SplitHostPort (hostport : list byte) : option (list byte * list byte) :=
  i ← lastByte hostport ":";
  let port := drop (S i) hostport in
  let bracketed := match hostport with b :: _ => Byte.eqb b "[" | [] => false end in
  if bracketed then
    e ← indexByte hostport "]";
    if negb (Nat.eqb (S e) i) then None
    else if hasByte (drop 1 hostport) "[" || hasByte (drop (S e) hostport) "]" then None
    else Some (take (e - 1) (drop 1 hostport), port)
  else
    let host := take i hostport in
    if hasByte host ":" || hasByte hostport "[" || hasByte hostport "]" then None
    else Some (host, port).

(** [net.JoinHostPort] *)
Definition JoinHostPort (host port : list byte) : list byte :=
  if hasByte host ":" then "["%byte :: host ++ "]"%byte :: ":"%byte :: port
  else host ++ ":"%byte :: port.

(** ** A remote node alone *)

Definition checkConfig (rc : remoteNodeConfig) : remoteNodeConfig :=
  let rc := if rc_PingInterval rc <? 1 then set_rc_PingInterval rc 5 else rc in
  let rc := if rc_PingTimeout rc <? 1 then set_rc_PingTimeout rc 3 else rc in
  if rc_PingFailureThreshHold rc =? 0 then set_rc_PingFailureThreshHold rc 5 else rc.

Definition newRemoteNode (config : remoteNodeConfig) : remoteNode :=
  MkRemoteNode (checkConfig config) zeroMetrics None (makeChan CHAN_SIZE) (makeChan CHAN_SIZE)
    nodeStateDisconnected false (makeChan 0) None None 0 (Some ∅) 0 0.

Section Remote.
Implicit Types r : remoteNode.

Definition setState r (state : Z) : outcome remoteNode :=
  let! lock := mutexLock (rn_stateLock r) in
  let r := set_rn_state (set_rn_stateLock r lock) state in
  let! lock := mutexUnlock (rn_stateLock r) in
  Ret (set_rn_stateLock r lock).

Definition setConnection r (conn : Connection) : remoteNode := set_rn_connection r (Some conn).

(** [shutDown]: [waiting] says whether the first actor of [start] is at its receive; the result, whether it
    was woken. *)
Definition shutDown r (waiting : bool) : outcome bool :=
  recovered false (if ch_closed (rn_done r) then Panic else Ret waiting).

(** [select { case <-done: case ch <- x: }] *)
Definition selectSend {A : Type} (done : chan unit) (ch : chan A) (x : A) (pick : bool) : outcome (chan A) :=
  let sendReady := ch_closed ch || negb (chanFull ch) in
  if ch_closed done && (pick || negb sendReady) then Ret ch else chanSend ch x.

Definition sendMessage r (msg : message) (pick : bool) : outcome remoteNode :=
  recovered r
    (if rn_state r =? nodeStateDisconnected then Ret r
     else let! ch := selectSend (rn_done r) (rn_outbound r) msg pick in Ret (set_rn_outbound r ch)).

(** In the handshake only the two verification messages pass. *)
Definition queueInboundMessage r (msg : NodeWireMessage) (pick : bool) : outcome remoteNode :=
  recovered r
    (let code := wm_Code msg in
     if (rn_state r =? nodeStateHandshake) && (negb (code =? MsgVERIFY) && negb (code =? MsgVERIFYOK)) then
       Ret (set_rn_metrics r (set_nm_dropedMsg (rn_metrics r) (u64 (nm_dropedMsg (rn_metrics r) + 1))))
     else if negb (rn_state r =? nodeStateDisconnected) then
       let! ch := selectSend (rn_done r) (rn_inbound r) msg pick in Ret (set_rn_inbound r ch)
     else Ret r).

Definition handlePing r (pick : bool) : outcome remoteNode :=
  let m := rn_metrics r in
  let r := set_rn_metrics r (set_nm_pingRecieved m (u64 (nm_pingRecieved m + 1))) in
  let! r := sendMessage r (NPong (MkPong 0)) pick in
  let m := rn_metrics r in
  Ret (set_rn_metrics r (set_nm_pongSent m (u64 (nm_pongSent m + 1)))).

Definition handlePong r : outcome remoteNode :=
  let m := rn_metrics r in
  let r := set_rn_metrics r (set_nm_pongRecieved m (u64 (nm_pongRecieved m + 1))) in
  match rn_pingTimeout r with
  | None => Panic
  | Some t => Ret (set_rn_pingFailure (set_rn_pingTimeout r (Some (stopAndDrain t))) 0)
  end.

(** ** The actors of [start] *)

Definition wgAdd r (n : Z) : outcome remoteNode :=
  if rn_wg r + n <? 0 then Panic else Ret (set_rn_wg r (rn_wg r + n)).

(** The ping actor before its loop. *)
Definition pingActorStart r (pick : bool) : outcome remoteNode :=
  let r := set_rn_pingTimer r (Some (Ticker (Second * rc_PingInterval (rn_config r)) true)) in
  let! r := sendMessage r (NPing (MkPing 0)) pick in
  wgAdd r 1.

(** A round of its loop on a tick. *)
Definition pingTick r (now : Z) (pick : bool) : outcome remoteNode :=
  let m := rn_metrics r in
  let r := set_rn_metrics r (set_nm_pingSent m (u64 (nm_pingSent m + 1))) in
  match rn_pingTimeout r with
  | None => Panic
  | Some t =>
      let t := timerReset (stopAndDrain t) now (Second * rc_PingTimeout (rn_config r)) in
      sendMessage (set_rn_pingTimeout r (Some t)) (NPing (MkPing 0)) pick
  end.

(** The actor that watches the pongs, before its loop. *)
Definition pongActorStart r (now : Z) : outcome remoteNode :=
  let r := set_rn_pingTimeout r (Some (newTimer now (Second * rc_PingTimeout (rn_config r)))) in
  wgAdd r 1.

(** A round of its loop on a tick of the timeout; the result says whether the peer is given up. *)
Definition pongTimeout r : outcome (remoteNode * bool) :=
  match rn_pingTimeout r with
  | None => Panic
  | Some t =>
      if tm_chan t then
        let r := set_rn_pingTimeout r (Some (timerRecv t)) in
        let r := set_rn_pingFailure r (i32 (rn_pingFailure r + 1)) in
        if rn_pingFailure r >=? rc_PingFailureThreshHold (rn_config r) then
          Ret (set_rn_pingTimeout r (Some (Timer None (tm_chan (timerRecv t)))), true)
        else Ret (r, false)
      else Stuck
  end.

(** The three actors that run a loop of their own, and the end of an actor. *)
Definition loopActorStart r : outcome remoteNode := wgAdd r 1.

Definition actorEnd r : outcome remoteNode := wgAdd r (-1).

(** The interrupt functions of the actors, in the order in which they are added; the channels of the
    two ping actors are local to [start]. *)
Definition interruptDone r : outcome remoteNode :=
  let! ch := chanClose (rn_done r) in Ret (set_rn_done r ch).

Definition interruptConsumer r : outcome remoteNode := setState r nodeStateDisconnected.

Definition interruptHandler r : outcome remoteNode :=
  let! ch := chanClose (rn_inbound r) in setState (set_rn_inbound r ch) nodeStateDisconnected.

Definition interruptSender r : outcome remoteNode :=
  let! ch := chanClose (rn_outbound r) in setState (set_rn_outbound r ch) nodeStateDisconnected.

Definition interruptTearDown r : outcome remoteNode :=
  match rn_connection r with
  | None => Panic
  | Some c =>
      let! r := setState (set_rn_connection r (Some (Close c))) nodeStateDisconnected in
      wgAdd r (-1)
  end.

Definition interrupts : list (remoteNode -> outcome remoteNode) :=
  [interruptDone; interruptConsumer; interruptHandler; interruptSender; interruptTearDown].

(** What [run.Group] does when the first actor returns: the interrupt functions, in some order. *)
Fixpoint runInterrupts r (fs : list (remoteNode -> outcome remoteNode)) : outcome remoteNode :=
  match fs with
  | [] => Ret r
  | f :: fs' => let! r := f r in runInterrupts r fs'
  end.

(** ** The network loops *)

(** A round of [networkSender]; [false] ends the loop.  [wr] is the socket's write. *)
Definition senderStep r (wr : nat -> Z -> Z * option ioError) (fuel : nat) : outcome (remoteNode * bool) :=
  let! cm := chanRecv (rn_outbound r) in
  let r := set_rn_outbound r (fst cm) in
  match snd cm with
  | None => Ret (r, false)
  | Some m =>
      if rn_state r =? nodeStateDisconnected then Ret (r, true)
      else
        let! msg := serializeMessage m in
        let! data := frame msg in
        match rn_connection r with
        | None => Panic
        | Some c =>
            let! ce := SendData wr fuel c data in
            let r := set_rn_connection r (Some (fst ce)) in
            match snd ce with
            | Some _ => Ret (r, false)
            | None => Ret (r, true)
            end
        end
  end.

(** [r.connection.ReadData(size, 0)] *)
Definition readConnection r (fuel : nat) (now size : Z) : outcome (remoteNode * (list byte * option ioError)) :=
  match rn_connection r with
  | None => Panic
  | Some c =>
      let! cd := ReadData fuel c now size 0 in
      Ret (set_rn_connection r (Some (fst cd)), snd cd)
  end.

(** A round of [networkConsumer]. *)
Definition consumerStep r (fuel : nat) (now : Z) (pick : bool) : outcome (remoteNode * bool) :=
  if (rn_state r =? nodeStateConnected) || (rn_state r =? nodeStateHandshake) then
    let! rh := readConnection r fuel now 6 in
    let '(r, (header, err)) := rh in
    match err with
    | Some _ => Ret (r, false)
    | None =>
        let! len := sl_getUint 4 header (sl_all header) in
        let dataLength := u32 (len - 2) in
        let! s := sl_from header (sl_all header) 4 in
        let! msgCode := sl_getUint 2 header s in
        if dataLength >? 0 then
          let! rd := readConnection r fuel now dataLength in
          let '(r, (data, err)) := rd in
          match err with
          | Some _ => Ret (r, false)
          | None => let! r := queueInboundMessage r (WireMessage msgCode data) pick in Ret (r, true)
          end
        else let! r := queueInboundMessage r (WireMessage msgCode []) pick in Ret (r, true)
    end
  else Ret (r, false).
End Remote.

(** ** A remote node in its node *)

(** [t1.Sub(time.Now())] for [t1 = time.Unix(sec, 0)]: seconds since the year 1 as an [int64], and a
    difference that saturates. *)
Definition unixToInternal : Z := 62135596800.

Definition timeSub (sec now : Z) : Z :=
  let d := (i64 (sec + unixToInternal) - (unix now + unixToInternal)) * Second - now mod Second in
  if d <? - 2 ^ 63 then - 2 ^ 63 else if d <? 2 ^ 63 then d else 2 ^ 63 - 1.

Section Handlers.
Context {C : Type} `{!LocalCache C}.
Implicit Types w : ClusteredBigCache C.

Definition getNode w (l : loc) : outcome remoteNode :=
  match nd_nodes w !! l with Some r => Ret r | None => Panic end.

Definition putNode w (l : loc) (r : remoteNode) : ClusteredBigCache C := set_nd_nodes w (<[l:=r]> (nd_nodes w)).

(** A method of the remote node at [l]. *)
Definition onNode w (l : loc) (f : remoteNode -> outcome remoteNode) : outcome (ClusteredBigCache C) :=
  let! r := getNode w l in
  let! r := f r in
  Ret (putNode w l r).

Definition sendTo w (l : loc) (msg : message) (ev : env) : outcome (ClusteredBigCache C) :=
  onNode w l (fun r => sendMessage r msg (ev_pick ev)).

(** *** What a remote node asks of its parent *)

Definition eventRemoteNodeDisconneced w (r : remoteNode) : ClusteredBigCache C :=
  set_nd_remoteNodes w (sliRemove (nd_remoteNodes w) (rc_Id (rn_config r))).

Definition getRemoteNodes w : outcome (list loc) := sliValues (nd_remoteNodes w).

Definition eventVerifyRemoteNode w (l : loc) (r : remoteNode) : ClusteredBigCache C * bool :=
  let id := rc_Id (rn_config r) in
  if sliContains (nd_remoteNodes w) id then (w, false)
  else
    let w := set_nd_remoteNodes w (sliAdd (nd_remoteNodes w) id (Some l)) in
    (set_nd_pendingConn w (delete id (nd_pendingConn w)), true).

Definition eventUnableToConnect w (config : remoteNodeConfig) : ClusteredBigCache C :=
  set_nd_pendingConn w (delete (rc_Id config) (nd_pendingConn w)).

Definition setReplicationFactor w (rf : Z) : ClusteredBigCache C :=
  let rf := if rf <? 1 then 1 else rf in
  set_nd_config w (set_cc_ReplicationFactor (nd_config w) rf).

(** *** Handlers *)

Definition sendVerify w (l : loc) (ev : env) : outcome (ClusteredBigCache C) :=
  sendTo w l (NVerify (MkVerify (cc_Id (nd_config w)) [] (itoa (cc_LocalPort (nd_config w))) (nd_mode w))) ev.

(** [false] ends the handler loop, and with it the remote node. *)
Definition handleVerify w (l : loc) (msg : NodeWireMessage) (ev : env) : outcome (ClusteredBigCache C * bool) :=
  let! vm := DeSerialize zeroVerify msg in
  let! r := getNode w l in
  let r := set_rn_config r (set_rc_ServicePort (set_rc_Id (rn_config r) (vm_Id vm)) (vm_ServicePort vm)) in
  let r := set_rn_mode r (vm_Mode vm) in
  let w := putNode w l r in
  if (vm_Mode vm =? clusterModePASSIVE) && (nd_mode w =? clusterModePASSIVE) then Ret (w, false)
  else
    let '(w, approved) := eventVerifyRemoteNode w l r in
    if negb approved then Ret (w, false)
    else
      let r := if vm_Mode vm =? clusterModePASSIVE
               then set_rn_config r (set_rc_ReconnectOnDisconnect (rn_config r) false) else r in
      let! r := setState r nodeStateConnected in
      let! w := sendTo (putNode w l r) l (NVerifyOK MkVerifyOK) ev in
      Ret (w, true).

Definition handleVerifyOK w (l : loc) : ClusteredBigCache C :=
  set_nd_tasks w (nd_tasks w ++ [VerifyOKTask l 0]).

(** The goroutine of [handleVerifyOK], from one test of its loop to the next, which is a second
    later; it goes on with a count, or ends. *)
Definition verifyOKStep w (l : loc) (count : Z) (ev : env) : outcome (ClusteredBigCache C * option Z) :=
  let! r := getNode w l in
  if rn_state r =? nodeStateHandshake then
    if count + 1 >=? 5 then Ret (w, None) else Ret (w, Some (count + 1))
  else if (count <? 5) && rc_Sync (rn_config r) then
    let! w := sendTo w l (NSyncReq (MkSyncReq 0 (nd_mode w))) ev in Ret (w, None)
  else Ret (w, None).

(** The peers that [sendSyncResponse] proposes to the peer at [l]. *)
Fixpoint proposedPeers w (r : remoteNode) (mode : Z) (values : list loc) : outcome (list ProposedPeer) :=
  match values with
  | [] => Ret []
  | v :: values' =>
      let! n := getNode w v in
      let! rest := proposedPeers w r mode values' in
      if bool_decide (rc_Id (rn_config n) = rc_Id (rn_config r)) then Ret rest
      else if (rn_mode n =? clusterModePASSIVE) && (mode =? clusterModePASSIVE) then Ret rest
      else
        let host := match SplitHostPort (rc_IpAddress (rn_config n)) with Some hp => fst hp | None => [] end in
        Ret (MkPeer (rc_Id (rn_config n)) (JoinHostPort host (rc_ServicePort (rn_config n))) :: rest)
  end.

Definition sendSyncResponse w (l : loc) (msg : SyncReqMessage) (ev : env) : outcome (ClusteredBigCache C) :=
  let! values := getRemoteNodes w in
  let! r := getNode w l in
  let! nodeList := proposedPeers w r (sq_Mode msg) values in
  match nodeList with
  | [] => Ret w
  | _ => sendTo w l (NSyncRsp (MkSyncRsp 0 (cc_ReplicationFactor (nd_config w)) (Some nodeList) [])) ev
  end.

Definition handleSyncRequest w (l : loc) (msg : NodeWireMessage) (ev : env) : outcome (ClusteredBigCache C) :=
  let! m := DeSerialize zeroSyncReq msg in
  sendSyncResponse w l m ev.

Definition handleSyncResponse w (msg : NodeWireMessage) : outcome (ClusteredBigCache C) :=
  let! m := DeSerialize zeroSyncRsp msg in
  let w := setReplicationFactor w (sr_ReplicationFactor m) in
  let! q := chanSendAll (nd_joinQueue w) (default [] (sr_List m)) in
  Ret (set_nd_joinQueue w q).

Definition getRequest w (q : loc) : outcome getRequestData :=
  match nd_requests w !! q with Some g => Ret g | None => Panic end.

Definition putRequest w (q : loc) (g : getRequestData) : ClusteredBigCache C :=
  set_nd_requests w (<[q:=g]> (nd_requests w)).

Definition set_gd_reply (g : getRequestData) (x : getWait) : getRequestData :=
  MkGetRequest (gd_key g) (gd_randStr g) x (gd_done g).

Definition getData w (l q : loc) (ev : env) : outcome (ClusteredBigCache C) :=
  let! r := getNode w l in
  if rn_state r =? nodeStateDisconnected then Ret w
  else
    let! g := getRequest w q in
    let pending := gd_key g ++ gd_randStr g in
    match rn_pendingGet r with
    | None => Panic
    | Some m =>
        let w := putNode w l (set_rn_pendingGet r (Some (<[pending:=q]> m))) in
        sendTo w l (NGetReq (MkGetReq 0 (gd_key g) pending)) ev
    end.

(** The cache of a passive node is nil. *)
Definition withCache {A : Type} w (f : C -> outcome (C * A)) : outcome (ClusteredBigCache C * A) :=
  match nd_cache w with
  | None => Panic
  | Some c => let! ca := f c in Ret (set_nd_cache w (Some (fst ca)), snd ca)
  end.

Definition handleGetRequest w (l : loc) (msg : NodeWireMessage) (ev : env) : outcome (ClusteredBigCache C) :=
  let! m := DeSerialize zeroGetReq msg in
  let! wd := withCache w (fun c => lcGet c (gq_Key m)) in
  let data := match snd wd with inl d => d | inr _ => [] end in
  sendTo (fst wd) l (NGetRsp (MkGetRsp 0 (gq_PendingKey m) data)) ev.

(** [select { case <-reqData.done: case reqData.replyChan <- reply: default: }] *)
Definition deliver (g : getRequestData) (data : list byte) : getRequestData :=
  if ch_closed (gd_done g) then g
  else match gd_reply g with Waiting => set_gd_reply g (Replied data) | _ => g end.

Definition handleGetResponse w (l : loc) (msg : NodeWireMessage) : outcome (ClusteredBigCache C) :=
  let! m := DeSerialize zeroGetRsp msg in
  let! r := getNode w l in
  match rn_pendingGet r with
  | None => Panic
  | Some pending =>
      match pending !! gr_PendingKey m with
      | None => Ret w
      | Some q =>
          let w := putNode w l (set_rn_pendingGet r (Some (delete (gr_PendingKey m) pending))) in
          if zlen (gr_Data m) <? 1 then Ret w
          else let! g := getRequest w q in Ret (putRequest w q (deliver g (gr_Data m)))
      end
  end.

Definition handlePut w (msg : NodeWireMessage) (ev : env) : outcome (ClusteredBigCache C) :=
  let! m := DeSerialize zeroPut msg in
  let d := if pm_Expiry m =? 0 then 0 else timeSub (i64 (pm_Expiry m)) (ev_time ev) in
  let! wr := withCache w (fun c => lcSet c (pm_Key m) (pm_Data m) d (ev_epoch ev) (ev_now ev)) in
  Ret (fst wr).

Definition handleDelete w (msg : NodeWireMessage) (ev : env) : outcome (ClusteredBigCache C) :=
  let! m := DeSerialize zeroDelete msg in
  let! wr := withCache w (fun c => lcDelete c (dm_Key m) (ev_now ev)) in
  Ret (fst wr).

(** The body of [handleMessage]'s loop. *)
Definition handleOne w (l : loc) (msg : NodeWireMessage) (ev : env) : outcome (ClusteredBigCache C * bool) :=
  let! r := getNode w l in
  let code := wm_Code msg in
  let go m := let! w := m in Ret (w, true) in
  if rn_state r =? nodeStateDisconnected then Ret (w, true)
  else if code =? MsgVERIFY then handleVerify w l msg ev
  else if code =? MsgVERIFYOK then Ret (handleVerifyOK w l, true)
  else if code =? MsgPING then go (onNode w l (fun r => handlePing r (ev_pick ev)))
  else if code =? MsgPONG then go (onNode w l handlePong)
  else if code =? MsgSyncRsp then go (handleSyncResponse w msg)
  else if code =? MsgSyncReq then go (handleSyncRequest w l msg ev)
  else if code =? MsgGETReq then go (handleGetRequest w l msg ev)
  else if code =? MsgGETRsp then go (handleGetResponse w l msg)
  else if code =? MsgPUT then go (handlePut w msg ev)
  else if code =? MsgDEL then go (handleDelete w msg ev)
  else Ret (w, true).

(** A round of [handleMessage]; [false] ends the loop. *)
Definition handleMessage w (l : loc) (ev : env) : outcome (ClusteredBigCache C * bool) :=
  let! r := getNode w l in
  let! cm := chanRecv (rn_inbound r) in
  let w := putNode w l (set_rn_inbound r (fst cm)) in
  match snd cm with
  | None => Ret (w, false)
  | Some msg => handleOne w l msg ev
  end.

(** *** Joining, starting and ending *)

Definition join w (l : loc) : ClusteredBigCache C := set_nd_tasks w (nd_tasks w ++ [JoinStart l]).

(** [dialled] is the outcome of dialling the address. *)
Definition connect (r : remoteNode) (dialled : tcpConn + ioError) : outcome (remoteNode * option ioError) :=
  match NewConnection (rc_IpAddress (rn_config r)) dialled with
  | inr err => Ret (set_rn_connection r None, Some err)
  | inl conn =>
      let! r := setState (setConnection r conn) nodeStateHandshake in
      Ret (r, None)
  end.

(** [start] itself; its actors begin on their own. *)
Definition start w (l : loc) (ev : env) : outcome (ClusteredBigCache C) :=
  let! w := onNode w l (fun r => wgAdd r 1) in
  sendVerify w l ev.

(** A try of the joining goroutine, the three seconds of its sleep included: it goes on with a count
    of tries, or ends. *)
Definition joinStep w (l : loc) (tries : Z) (dialled : tcpConn + ioError) (ev : env)
  : outcome (ClusteredBigCache C * option Z) :=
  let! r := getNode w l in
  let! re := connect r dialled in
  let w := putNode w l (fst re) in
  match snd re with
  | None => let! w := start w l ev in Ret (w, None)
  | Some _ =>
      let rc := rn_config (fst re) in
      if rc_ConnectRetries rc >? 0 then
        if tries + 1 >=? rc_ConnectRetries rc then Ret (eventUnableToConnect w rc, None)
        else Ret (w, Some (tries + 1))
      else Ret (w, Some tries)
  end.

Definition stopTimers (r : remoteNode) : remoteNode :=
  let r := match rn_pingTimeout r with
           | Some t => set_rn_pingTimeout r (Some (Timer None (tm_chan t)))
           | None => r
           end in
  match rn_pingTimer r with
  | Some t => set_rn_pingTimer r (Some (Ticker (tk_period t) false))
  | None => r
  end.

Definition tearDown w (l : loc) : outcome (ClusteredBigCache C) :=
  let! r := getNode w l in
  let w := eventRemoteNodeDisconneced w r in
  let rc := rn_config r in
  let! w :=
    (if rc_ReconnectOnDisconnect rc then
       let! q := chanSend (nd_joinQueue w) (MkPeer (rc_Id rc) (rc_IpAddress rc)) in
       Ret (set_nd_joinQueue w q)
     else Ret w) in
  Ret (putNode w l (set_rn_pendingGet (stopTimers r) None)).

(** The last actor of [start]: it waits for the others to end. *)
Definition tearDownActor w (l : loc) : outcome (ClusteredBigCache C) :=
  let! r := getNode w l in
  if rn_wg r =? 0 then tearDown w l else Stuck.
End Handlers.
