(* ===== verification/Cluster.v ===== *)
(** * The clustered cache ([Cluster/clusteredBigCache.go])

    A node stores entries in its local cache and queues a message for every peer; goroutines
    hand the queued messages to the remote nodes.  [Get] is cut where it waits for a reply; the other
    functions run to their end, and each round of a goroutine's loop is a definition. *)

From Stdlib Require Import Strings.String.
From stdpp Require Import base decidable countable list gmap.
From Stdlib Require Import ZArith Lia Strings.Byte.
From S2P Require Import Prelude.
From S2P Require Import FreeList.
From S2P Require Import Config.
From S2P Require Import GoTime.
From S2P Require Import Shard.
From S2P Require Import BigCache.
From S2P Require Import Message.
From S2P Require Import JsonMessage.
From S2P Require Import SliceList.
From S2P Require Import Chan.
From S2P Require Import Connection.
From S2P Require Import Node.
From S2P Require Import RemoteNode.

(** A location that no entry of a heap has. *)
Definition nextLoc {A : Type} (m : gmap loc A) : loc :=
  Pos.succ (map_fold (fun k _ n => Pos.max k n) 1%positive m).

Section Cluster.
Context {C : Type} `{!LocalCache C} {platform : Platform}.
Implicit Types w : ClusteredBigCache C.

(** ** Creation *)

Definition newNode (config : ClusteredBigCacheConfig) (cache : option C) (mode : Z) : ClusteredBigCache C :=
  MkNode config cache NewSliceList None (makeChan 512) ∅ 0 (makeChan CHAN_SIZE) (makeChan CHAN_SIZE)
    clusterStateStarting mode ∅ ∅ [].

(** [New]; [clk] are the clock readings of the shards' timers. *)
Definition New (config : ClusteredBigCacheConfig) (clk : nat -> Z) : outcome (ClusteredBigCache C) :=
  let cfg := SetShard DefaultConfig (if cc_ShardSize config <? 16 then 16 else cc_ShardSize config) in
  let! cache := lcNew cfg clk in
  match cache with
  | inr _ => Panic
  | inl cache => Ret (newNode config (Some cache) clusterModeACTIVE)
  end.

Definition NewPassiveClient (id serverEndpoint : gostring)
    (localPort pingInterval pingTimeout pingFailureThreashold : Z) : ClusteredBigCache C :=
  let config := set_cc_Id DefaultClusterConfig id in
  let config := set_cc_JoinIp (set_cc_Join config true) serverEndpoint in
  let config := set_cc_LocalPort (set_cc_ReconnectOnDisconnect config true) localPort in
  let config := set_cc_PingTimeout (set_cc_PingInterval config pingInterval) pingTimeout in
  newNode (set_cc_PingFailureThreshHold config pingFailureThreashold) None clusterModePASSIVE.

(** ** Starting *)

Definition checkNodeConfig w : outcome (ClusteredBigCache C) :=
  let cc := nd_config w in
  if cc_LocalPort cc <? 1 then Panic
  else
    let cc := if cc_ConnectRetries cc <? 1 then set_cc_ConnectRetries cc 5 else cc in
    Ret (set_nd_config w (set_cc_ReplicationMode cc REPLICATION_MODE_FULL_REPLICATE)).

(** [listening] is the error of [net.Listen], if any. *)
Definition bringNodeUp w (listening : option gostring) : ClusteredBigCache C * option clusterError :=
  match listening with
  | Some text => (set_nd_serverEndpoint w None, Some (ErrListen text))
  | None => (set_nd_serverEndpoint w (Some true), None)
  end.

(** A new remote node in the heap, with its location. *)
Definition addNode w (config : remoteNodeConfig) : ClusteredBigCache C * loc :=
  let l := nextLoc (nd_nodes w) in
  (putNode w l (newRemoteNode config), l).

Definition joinCluster w : ClusteredBigCache C * option clusterError :=
  let cc := nd_config w in
  match cc_JoinIp cc with
  | [] => (w, Some ErrNoJoinIp)
  | _ =>
      let '(w, l) := addNode w
        (MkNodeConfig [] (cc_JoinIp cc) (cc_PingFailureThreshHold cc) (cc_PingInterval cc) (cc_PingTimeout cc)
           (cc_ConnectRetries cc) [] true (cc_ReconnectOnDisconnect cc)) in
      (join w l, None)
  end.

(** [Start]; [id] is what [utils.GenerateNodeId(32)] returns. *)
Definition Start w (id : gostring) (listening : option gostring) : outcome (ClusteredBigCache C * option clusterError) :=
  let! w := checkNodeConfig w in
  let w := match cc_Id (nd_config w) with [] => set_nd_config w (set_cc_Id (nd_config w) id) | _ => w end in
  let '(w, err) := bringNodeUp w listening in
  match err with
  | Some e => Ret (w, Some e)
  | None =>
      let '(w, err) := if cc_Join (nd_config w) then joinCluster w else (w, None) in
      match err with
      | Some e => Ret (w, Some e)
      | None => Ret (set_nd_state w clusterStateStarted, None)
      end
  end.

(** ** Ending *)

Fixpoint tearDownAll w (peers : list loc) : outcome (ClusteredBigCache C) :=
  match peers with
  | [] => Ret w
  | l :: peers' =>
      let! w := onNode w l (fun r => Ret (set_rn_config r (set_rc_ReconnectOnDisconnect (rn_config r) false))) in
      let! w := tearDown w l in
      tearDownAll w peers'
  end.

Definition ShutDown w : outcome (ClusteredBigCache C) :=
  let w := set_nd_state w clusterStateEnded in
  let! peers := sliValues (nd_remoteNodes w) in
  let! w := tearDownAll w peers in
  let! q := chanClose (nd_joinQueue w) in
  let w := set_nd_joinQueue w q in
  let! q := chanClose (nd_getRequestChan w) in
  let w := set_nd_getRequestChan w q in
  let! q := chanClose (nd_replicationChan w) in
  let w := set_nd_replicationChan w q in
  match nd_serverEndpoint w with
  | Some _ => Ret (set_nd_serverEndpoint w (Some false))
  | None => Ret w
  end.

(** ** New peers *)

(** A round of [listen]: the outcome of [Accept], and the count of errors the loop goes on with. *)
Definition listenStep w (accepted : tcpConn + ioError) (errCount : Z) (ev : env)
  : outcome (ClusteredBigCache C * option Z) :=
  match accepted with
  | inr _ =>
      if errCount + 1 >=? 5 then
        if cc_TerminateOnListenerExit (nd_config w) then Panic else Ret (w, None)
      else Ret (w, Some (errCount + 1))
  | inl tcp =>
      let cc := nd_config w in
      let '(w, l) := addNode w
        (MkNodeConfig [] (tc_remote tcp) (cc_PingFailureThreshHold cc) (cc_PingInterval cc) (cc_PingTimeout cc)
           (cc_ConnectRetries cc) [] false false) in
      let! w := onNode w l (fun r => setState r nodeStateHandshake) in
      let! w := onNode w l (fun r => Ret (setConnection r (WrapConnection tcp))) in
      let! w := start w l ev in
      Ret (w, Some 0)
  end.

(** A round of [connectToExistingNodes]; [false] ends the loop. *)
Definition connectStep w : outcome (ClusteredBigCache C * bool) :=
  let! cv := chanRecv (nd_joinQueue w) in
  let w := set_nd_joinQueue w (fst cv) in
  match snd cv with
  | None => Ret (w, false)
  | Some value =>
      if negb (nd_state w =? clusterStateStarted) then Ret (w, true)
      else if bool_decide (is_Some (nd_pendingConn w !! pp_Id value)) then Ret (w, true)
      else if bool_decide (is_Some (sliKeys (nd_remoteNodes w) !! pp_Id value)) then Ret (w, true)
      else
        let cc := nd_config w in
        let '(w, l) := addNode w
          (MkNodeConfig (pp_Id value) (pp_IpAddress value) 0 0 0 (cc_ConnectRetries cc) [] false
             (cc_ReconnectOnDisconnect cc)) in
        let w := join w l in
        Ret (set_nd_pendingConn w (<[pp_Id value := pp_IpAddress value]> (nd_pendingConn w)), true)
  end.

(** ** Data *)

(** The loops of [Put] and [Delete] over the peers: passive ones store nothing. *)
Fixpoint replicate_ w (msg : message) (peers : list loc) : outcome (ClusteredBigCache C) :=
  match peers with
  | [] => Ret w
  | l :: peers' =>
      let! r := getNode w l in
      if rn_mode r =? clusterModePASSIVE then replicate_ w msg peers'
      else
        let! q := chanSend (nd_replicationChan w) (l, msg) in
        replicate_ (set_nd_replicationChan w q) msg peers'
  end.

Definition Put w (key : gostring) (data : list byte) (duration : Z) (ev : env)
  : outcome (ClusteredBigCache C * option clusterError) :=
  if negb (nd_state w =? clusterStateStarted) then Ret (w, Some ErrNotStarted)
  else
    let! stored :=
      (if nd_mode w =? clusterModeACTIVE then
         withCache w (fun c => lcSet c key data duration (ev_epoch ev) (ev_now ev))
       else if nd_mode w =? clusterModePASSIVE then
         Ret (w, (if duration =? NO_EXPIRY then NO_EXPIRY
                  else u64 (u64 (unix (ev_time ev)) + durationSeconds duration), None))
       else Ret (w, (NO_EXPIRY, None))) in
    let '(w, (expiryTime, err)) := stored in
    match err with
    | Some e => Ret (w, Some (ErrCache e))
    | None =>
        let! peers := sliValues (nd_remoteNodes w) in
        let! w := replicate_ w (NPut (MkPut 0 key expiryTime data)) peers in
        Ret (w, None)
    end.

Definition DeleteKey w (key : gostring) (ev : env) : outcome (ClusteredBigCache C * option clusterError) :=
  if negb (nd_state w =? clusterStateStarted) then Ret (w, Some ErrNotStarted)
  else
    let! w :=
      (if nd_mode w =? clusterModeACTIVE then
         let! r := withCache w (fun c => lcDelete c key (ev_now ev)) in Ret (fst r)
       else Ret w) in
    let! peers := sliValues (nd_remoteNodes w) in
    let! w := replicate_ w (NDelete (MkDelete 0 key)) peers in
    Ret (w, None).

(** How [Get] goes on: it has its answer, or a request that waits. *)
Inductive getResult : Type :=
| GetAnswer (r : list byte + clusterError)
| GetPending (q : loc).

Fixpoint requestFrom w (q : loc) (peers : list loc) : outcome (ClusteredBigCache C) :=
  match peers with
  | [] => Ret w
  | l :: peers' =>
      let! r := getNode w l in
      if rn_mode r =? clusterModePASSIVE then requestFrom w q peers'
      else
        let! c := chanSend (nd_getRequestChan w) (l, q) in
        requestFrom (set_nd_getRequestChan w c) q peers'
  end.

(** The part of [Get] after the local cache: [randStr] is what [utils.GenerateNodeId(8)] returns. *)
Definition getRemote w (key randStr : gostring) : outcome (ClusteredBigCache C * getResult) :=
  let! peers := getRemoteNodes w in
  match peers with
  | [] => Ret (w, GetAnswer (inr ErrNotFound))
  | _ =>
      let q := nextLoc (nd_requests w) in
      let w := putRequest w q (MkGetRequest key randStr NotYet (makeChan 0)) in
      let! w := requestFrom w q peers in
      Ret (w, GetPending q)
  end.

(** [Get] up to its [select]. *)
Definition GetKey w (key randStr : gostring) : outcome (ClusteredBigCache C * getResult) :=
  if negb (nd_state w =? clusterStateStarted) then Ret (w, GetAnswer (inr ErrNotStarted))
  else if nd_mode w =? clusterModeACTIVE then
    let! wd := withCache w (fun c => lcGet c key) in
    match snd wd with
    | inl data => Ret (fst wd, GetAnswer (inl data))
    | inr _ => getRemote (fst wd) key randStr
    end
  else getRemote w key randStr.

(** The [select]: it is reached, it times out, or it has a reply. *)
Definition getArrives w (q : loc) : outcome (ClusteredBigCache C) :=
  let! g := getRequest w q in
  match gd_reply g with
  | NotYet => Ret (putRequest w q (set_gd_reply g Waiting))
  | _ => Stuck
  end.

Definition getTimesOut w (q : loc) : outcome (ClusteredBigCache C * (list byte + clusterError)) :=
  let! g := getRequest w q in
  match gd_reply g with
  | Waiting => Ret (putRequest w q (set_gd_reply g GaveUp), inr ErrTimedOut)
  | _ => Stuck
  end.

Definition getReturns w (q : loc) : outcome (ClusteredBigCache C * (list byte + clusterError)) :=
  let! g := getRequest w q in
  match gd_reply g with
  | Replied data =>
      let! done := chanClose (gd_done g) in
      Ret (putRequest w q (MkGetRequest (gd_key g) (gd_randStr g) (gd_reply g) done), inl data)
  | _ => Stuck
  end.

(** [Statistics]: the statistics, or that there are none; the text made of them is not modelled. *)
Definition Statistics w : outcome (option Stats) :=
  if nd_mode w =? clusterModeACTIVE then
    match nd_cache w with None => Panic | Some c => Ret (Some (lcStats c)) end
  else Ret None.

(** ** The goroutines of the queues *)

(** A round of [requestSenderForGET]; [false] ends the loop. *)
Definition requestSenderForGET w (ev : env) : outcome (ClusteredBigCache C * bool) :=
  let! cv := chanRecv (nd_getRequestChan w) in
  let w := set_nd_getRequestChan w (fst cv) in
  match snd cv with
  | None => Ret (w, false)
  | Some (l, q) => let! w := getData w l q ev in Ret (w, true)
  end.

(** A round of [replication]. *)
Definition replication w (ev : env) : outcome (ClusteredBigCache C * bool) :=
  let! cv := chanRecv (nd_replicationChan w) in
  let w := set_nd_replicationChan w (fst cv) in
  match snd cv with
  | None => Ret (w, false)
  | Some (l, m) => let! w := sendTo w l m ev in Ret (w, true)
  end.
End Cluster.
