(* ===== verification/ClusterRun.v ===== *)
(** * Runs of a node

    [node_step] lists what a node can do next, in any interleaving of its goroutines and of the
    calls of its clients; [reachable] are the states it can be in.  [node_inv] holds in all of them:
    queues within their capacity, counters within their types, locks free, no pointer to a remote
    node or request that does not exist, and nothing but verification messages
    queued from a peer in the handshake. *)

From Stdlib Require Import Strings.String.
From stdpp Require Import base decidable countable list gmap.
From Stdlib Require Import ZArith Lia Strings.Byte.
From S2P Require Import Prelude.
From S2P Require Import FreeList.
From S2P Require Import Hash.
From S2P Require Import Config.
From S2P Require Import GoTime.
From S2P Require Import Shard.
From S2P Require Import BigCache.
From S2P Require Import Message.
From S2P Require Import JsonMessage.
From S2P Require Import SliceList.
From S2P Require Import Chan.
From S2P Require Import Connection.
From S2P Require Import Node.
From S2P Require Import MapCache.
From S2P Require Import RemoteNode.
From S2P Require Import Cluster.

(** ** Steps *)

Section Steps.
Context {C : Type} `{!LocalCache C} {platform : Platform}.
Implicit Types w : ClusteredBigCache C.

(** A round of a goroutine that works on one remote node alone. *)
Inductive remote_step : remoteNode -> remoteNode -> Prop :=
| rs_consume r r' fuel now pick go : consumerStep r fuel now pick = Ret (r', go) -> remote_step r r'
| rs_send r r' wr fuel go : senderStep r wr fuel = Ret (r', go) -> remote_step r r'
| rs_pingStart r r' pick : pingActorStart r pick = Ret r' -> remote_step r r'
| rs_pingTick r r' now pick : pingTick r now pick = Ret r' -> remote_step r r'
| rs_pongStart r r' now : pongActorStart r now = Ret r' -> remote_step r r'
| rs_pongTimeout r r' fault : pongTimeout r = Ret (r', fault) -> remote_step r r'
| rs_fire r t : rn_pingTimeout r = Some t -> remote_step r (set_rn_pingTimeout r (Some (timerFire t)))
| rs_loopStart r r' : loopActorStart r = Ret r' -> remote_step r r'
| rs_actorEnd r r' : actorEnd r = Ret r' -> remote_step r r'
| rs_interrupt r r' f : f ∈ interrupts -> f r = Ret r' -> remote_step r r'.

Inductive node_step : ClusteredBigCache C -> ClusteredBigCache C -> Prop :=
| st_start w w' id listening e : Start w id listening = Ret (w', e) -> node_step w w'
| st_shutdown w w' : ShutDown w = Ret w' -> node_step w w'
| st_put w w' key data d ev e : Put w key data d ev = Ret (w', e) -> node_step w w'
| st_delete w w' key ev e : DeleteKey w key ev = Ret (w', e) -> node_step w w'
| st_get w w' key randStr r : GetKey w key randStr = Ret (w', r) -> node_step w w'
| st_getArrives w w' q : getArrives w q = Ret w' -> node_step w w'
| st_getTimesOut w w' q r : getTimesOut w q = Ret (w', r) -> node_step w w'
| st_getReturns w w' q r : getReturns w q = Ret (w', r) -> node_step w w'
| st_request w w' ev go : requestSenderForGET w ev = Ret (w', go) -> node_step w w'
| st_replicate w w' ev go : replication w ev = Ret (w', go) -> node_step w w'
| st_listen w w' acc n ev n' : listenStep w acc n ev = Ret (w', n') -> node_step w w'
| st_connect w w' go : connectStep w = Ret (w', go) -> node_step w w'
| st_handle w w' l ev go : handleMessage w l ev = Ret (w', go) -> node_step w w'
| st_tearDown w w' l : tearDownActor w l = Ret w' -> node_step w w'
| st_remote w l r r' : nd_nodes w !! l = Some r -> remote_step r r' -> node_step w (putNode w l r')
| st_joinStart w w' l before after :
    nd_tasks w = before ++ JoinStart l :: after ->
    onNode (set_nd_tasks w (before ++ JoinTask l 0 :: after)) l (fun r => setState r nodeStateConnecting) = Ret w' ->
    node_step w w'
| st_join w w' l tries dialled ev go before after :
    nd_tasks w = before ++ JoinTask l tries :: after ->
    joinStep (set_nd_tasks w (before ++ match go with Some n => [JoinTask l n] | None => [] end ++ after))
      l tries dialled ev = Ret (w', go) ->
    node_step w w'
| st_verifyOK w w' l count ev go before after :
    nd_tasks w = before ++ VerifyOKTask l count :: after ->
    verifyOKStep (set_nd_tasks w (before ++ match go with Some n => [VerifyOKTask l n] | None => [] end ++ after))
      l count ev = Ret (w', go) ->
    node_step w w'.

Inductive reachable : ClusteredBigCache C -> Prop :=
| reach_new config clk w : New config clk = Ret w -> reachable w
| reach_passive id server port interval timeout threshold :
    reachable (NewPassiveClient id server port interval timeout threshold)
| reach_step w w' : reachable w -> node_step w w' -> reachable w'.
End Steps.

(** ** Remote nodes *)

Definition verification (msg : NodeWireMessage) : Prop := wm_Code msg = MsgVERIFY \/ wm_Code msg = MsgVERIFYOK.

Definition chan_ok {A : Type} (c : chan A) (cap : Z) : Prop := ch_cap c = cap /\ zlen (ch_buf c) <= cap.

Abbreviation is_u64 z := (0 <= z < 2 ^ 64).

Record metrics_ok (m : nodeMetrics) : Prop := {
  mo_pingSent : is_u64 (nm_pingSent m);
  mo_pingRecieved : is_u64 (nm_pingRecieved m);
  mo_pongSent : is_u64 (nm_pongSent m);
  mo_pongRecieved : is_u64 (nm_pongRecieved m);
  mo_dropedMsg : is_u64 (nm_dropedMsg m)
}.

Record remote_ok (r : remoteNode) : Prop := {
  ro_lock : rn_stateLock r = false;
  ro_in : chan_ok (rn_inbound r) CHAN_SIZE;
  ro_out : chan_ok (rn_outbound r) CHAN_SIZE;
  ro_metrics : metrics_ok (rn_metrics r);
  ro_failure : - 2 ^ 31 <= rn_pingFailure r < 2 ^ 31;
  ro_wg : 0 <= rn_wg r;
  ro_handshake : rn_state r = nodeStateHandshake -> Forall verification (ch_buf (rn_inbound r))
}.

(** A remote node that has not been connected yet. *)
Definition idle (r : remoteNode) : Prop :=
  ch_buf (rn_inbound r) = [] /\ (rn_state r = nodeStateConnecting \/ rn_state r = nodeStateDisconnected).

(** A remote node that was verified: connected, or disconnected since. *)
Definition verified (r : remoteNode) : Prop :=
  rn_state r = nodeStateConnected \/ rn_state r = nodeStateDisconnected.

(** The requests a remote node points to. *)
Definition pending (r : remoteNode) : list loc :=
  match rn_pendingGet r with None => [] | Some m => (map_to_list m).*2 end.

(** What every operation on a remote node keeps. *)
Record evolves (r r' : remoteNode) : Prop := {
  ev_ok : remote_ok r';
  ev_idle : idle r -> idle r';
  ev_verified : verified r -> verified r';
  ev_pending : pending r' ⊆ pending r
}.

Lemma evolves_refl r : remote_ok r -> evolves r r.
Proof. by split. Qed.

Lemma evolves_trans r1 r2 r3 : evolves r1 r2 -> evolves r2 r3 -> evolves r1 r3.
Proof. intros [] []. split; [done|auto|auto|]. set_solver. Qed.

Lemma i32_range (z : Z) : - 2 ^ 31 <= i32 z < 2 ^ 31.
Proof. unfold i32. pose proof (Z.mod_pos_bound (z + 2 ^ 31) (2 ^ 32)). lia. Qed.

(** Splits on the first conditional of a hypothesis. *)
Ltac case_in H :=
  match type of H with
  | context [if ?b then _ else _] => destruct b eqn:?
  end; try discriminate H.

Create HintDb node.
#[export] Hint Resolve u64_range i32_range evolves_refl : node.

(** An operation that changes neither queues, state nor requests. *)
Lemma evolves_same r r' :
  remote_ok r -> rn_stateLock r' = false -> rn_inbound r' = rn_inbound r -> rn_outbound r' = rn_outbound r ->
  rn_state r' = rn_state r -> rn_pendingGet r' = rn_pendingGet r ->
  metrics_ok (rn_metrics r') -> - 2 ^ 31 <= rn_pingFailure r' < 2 ^ 31 -> 0 <= rn_wg r' ->
  evolves r r'.
Proof.
  intros [] Hl Hi Ho Hs Hp Hm Hf Hw. split.
  - split; rewrite ?Hi, ?Ho, ?Hs; done.
  - unfold idle. by rewrite Hi, Hs.
  - unfold verified. by rewrite Hs.
  - unfold pending. by rewrite Hp.
Qed.

Lemma recovered_Ret {A : Type} (a a' : A) (m : outcome A) : recovered a m = Ret a' -> m = Ret a' \/ a' = a.
Proof. destruct m; simpl; intros [= ->]; auto. Qed.

Lemma chanSend_ok {A : Type} (c c' : chan A) (x : A) (cap : Z) :
  chan_ok c cap -> chanSend c x = Ret c' -> chan_ok c' cap /\ ch_buf c' = ch_buf c ++ [x].
Proof.
  intros [Hc Hl]. unfold chanSend, chanFull. destruct (ch_closed c); [discriminate|].
  destruct (Z.leb_spec (ch_cap c) (zlen (ch_buf c))); [discriminate|]. intros [= <-]. unfold chan_ok. cbn.
  split; [|done]. split; [done|]. rewrite zlen_app, zlen_cons, zlen_nil. lia.
Qed.

Lemma chanClose_ok {A : Type} (c c' : chan A) (cap : Z) :
  chan_ok c cap -> chanClose c = Ret c' -> chan_ok c' cap /\ ch_buf c' = ch_buf c.
Proof. unfold chanClose. intros H. destruct (ch_closed c); [discriminate|]. by intros [= <-]. Qed.

Lemma chanRecv_ok {A : Type} (c c' : chan A) (x : option A) (cap : Z) :
  chan_ok c cap -> chanRecv c = Ret (c', x) ->
  chan_ok c' cap /\ ch_buf c = match x with Some v => v :: ch_buf c' | None => ch_buf c' end.
Proof.
  intros [Hc Hl]. unfold chanRecv. destruct (ch_buf c) as [|v b] eqn:E.
  - destruct (ch_closed c); [|discriminate]. intros [= <- <-]. unfold chan_ok. by rewrite E.
  - intros [= <- <-]. unfold chan_ok. cbn. rewrite zlen_cons in Hl. split; [split; [done|lia]|done].
Qed.

Lemma selectSend_ok {A : Type} (done : chan unit) (c c' : chan A) (x : A) (pick : bool) (cap : Z) :
  chan_ok c cap -> selectSend done c x pick = Ret c' ->
  chan_ok c' cap /\ (ch_buf c' = ch_buf c \/ ch_buf c' = ch_buf c ++ [x]).
Proof.
  intros Hc. unfold selectSend. case_if; [intros [= <-]; auto|]. intros H.
  destruct (chanSend_ok c c' x cap Hc H). auto.
Qed.

Lemma setState_ok r r' (st : Z) :
  remote_ok r -> setState r st = Ret r' -> r' = set_rn_state r st.
Proof.
  intros [Hl _ _ _ _ _ _]. unfold setState. rewrite Hl. cbn. intros [= <-].
  destruct r. cbn in *. by subst.
Qed.

(** Leaving the handshake or the connection. *)
Lemma setState_evolves r r' (st : Z) :
  remote_ok r -> st = nodeStateDisconnected -> setState r st = Ret r' -> evolves r r'.
Proof.
  intros H -> Hs. rewrite (setState_ok r r' _ H Hs). destruct H. split.
  - by split.
  - intros [Hi _]. split; [done|by right].
  - intros _. by right.
  - done.
Qed.

(** A queue that grew or was closed. *)
Lemma outbound_evolves r (c : chan message) :
  remote_ok r -> chan_ok c CHAN_SIZE -> evolves r (set_rn_outbound r c).
Proof. intros [] Hc. split; [by split|done|done|done]. Qed.

Lemma connection_evolves r (c : option Connection) : remote_ok r -> evolves r (set_rn_connection r c).
Proof. intros []. split; [by split|done|done|done]. Qed.

Lemma sendMessage_evolves r r' (msg : message) (pick : bool) :
  remote_ok r -> sendMessage r msg pick = Ret r' -> evolves r r'.
Proof.
  intros H Hr. unfold sendMessage in Hr. apply recovered_Ret in Hr as [Hr| ->]; [|auto with node].
  case_in Hr; [injection Hr as <-; auto with node|]. inv_outcome.
  apply outbound_evolves; [done|]. by apply (selectSend_ok _ _ _ _ _ _ (ro_out _ H) E).
Qed.

(** The filter of the handshake. *)
Lemma queueInbound_evolves r r' (msg : NodeWireMessage) (pick : bool) :
  remote_ok r -> rn_state r = nodeStateConnected \/ rn_state r = nodeStateHandshake ->
  queueInboundMessage r msg pick = Ret r' -> evolves r r'.
Proof.
  intros H Hst Hr. unfold queueInboundMessage in Hr. apply recovered_Ret in Hr as [Hr| ->]; [|auto with node].
  cbv zeta in Hr. case_in Hr.
  { injection Hr as <-. apply evolves_same; try done; try apply H. destruct (ro_metrics _ H). split; cbn; auto with node. }
  case_in Hr; [|injection Hr as <-; auto with node]. inv_outcome.
  destruct (selectSend_ok _ _ _ _ _ _ (ro_in _ H) E) as [Hc Hb]. destruct H. split.
  - split; try done. cbn [rn_state rn_inbound set_rn_inbound]. intros Hh. specialize (ro_handshake0 Hh). rewrite Hh in Heqb.
    destruct Hb as [-> | ->]; [done|]. apply Forall_app. split; [done|]. apply Forall_singleton. unfold verification.
    apply andb_false_iff in Heqb as [Hf|Hf]; [done|]. apply andb_false_iff in Hf as [Hf|Hf]; apply negb_false_iff, Z.eqb_eq in Hf; auto.
  - intros [_ Hi]. exfalso. destruct Hst as [Hst|Hst], Hi as [Hi|Hi]; rewrite Hst in Hi; discriminate Hi.
  - done.
  - done.
Qed.

Lemma wgAdd_evolves r r' (n : Z) : remote_ok r -> wgAdd r n = Ret r' -> evolves r r'.
Proof.
  intros H Hr. unfold wgAdd in Hr. case_in Hr. injection Hr as <-. zbool. apply evolves_same; try done; apply H.
Qed.

Lemma handlePing_evolves r r' (pick : bool) : remote_ok r -> handlePing r pick = Ret r' -> evolves r r'.
Proof.
  intros H Hr. unfold handlePing in Hr. cbv zeta in Hr. inv_outcome.
  assert (evolves r (set_rn_metrics r (set_nm_pingRecieved (rn_metrics r) (u64 (nm_pingRecieved (rn_metrics r) + 1))))) as H1.
  { apply evolves_same; try done; try apply H. destruct (ro_metrics _ H). split; cbn; auto with node. }
  pose proof (sendMessage_evolves _ _ _ _ (ev_ok _ _ H1) E) as H2.
  eapply evolves_trans; [exact H1|]. eapply evolves_trans; [exact H2|].
  pose proof (ev_ok _ _ H2) as H3. apply evolves_same; try done; try apply H3.
  destruct (ro_metrics _ H3). split; cbn; auto with node.
Qed.

Lemma handlePong_evolves r r' : remote_ok r -> handlePong r = Ret r' -> evolves r r'.
Proof.
  intros H Hr. unfold handlePong in Hr. cbn in Hr. destruct (rn_pingTimeout r); [|discriminate Hr].
  injection Hr as <-. apply evolves_same; try done; try apply H.
  destruct (ro_metrics _ H). split; cbn; auto with node.
Qed.

(** An operation that only sets a timer. *)
Lemma timer_evolves r (t : option timer) : remote_ok r -> evolves r (set_rn_pingTimeout r t).
Proof. intros H. apply evolves_same; try done; apply H. Qed.

Lemma ping_evolves r r' (now : Z) (pick : bool) : remote_ok r -> pingTick r now pick = Ret r' -> evolves r r'.
Proof.
  intros H Hr. unfold pingTick in Hr. cbn in Hr. destruct (rn_pingTimeout r) as [t|]; [|discriminate Hr].
  eapply evolves_trans; [|eapply sendMessage_evolves; [|exact Hr]].
  - apply evolves_same; try done; try apply H. destruct (ro_metrics _ H). split; cbn; auto with node.
  - eapply ev_ok, evolves_same; try done; try apply H. destruct (ro_metrics _ H). split; cbn; auto with node.
Qed.

Lemma pingStart_evolves r r' (pick : bool) : remote_ok r -> pingActorStart r pick = Ret r' -> evolves r r'.
Proof.
  intros H Hr. unfold pingActorStart in Hr. cbv zeta in Hr. inv_outcome.
  set (r1 := set_rn_pingTimer r _) in *. assert (evolves r r1) as H1 by (apply evolves_same; try done; apply H).
  pose proof (sendMessage_evolves _ _ _ _ (ev_ok _ _ H1) E) as H2.
  eapply evolves_trans; [exact H1|]. eapply evolves_trans; [exact H2|]. eapply wgAdd_evolves; [apply H2|done].
Qed.

Lemma pongTimeout_evolves r r' (fault : bool) : remote_ok r -> pongTimeout r = Ret (r', fault) -> evolves r r'.
Proof.
  intros H Hr. unfold pongTimeout in Hr. destruct (rn_pingTimeout r) as [t|]; [|discriminate Hr].
  case_in Hr. cbv zeta in Hr. case_in Hr; injection Hr as <- _;
    (apply evolves_same; try done; try apply H; apply i32_range).
Qed.

Lemma senderStep_evolves r r' (wr : nat -> Z -> Z * option ioError) (fuel : nat) (go : bool) :
  remote_ok r -> senderStep r wr fuel = Ret (r', go) -> evolves r r'.
Proof.
  intros H Hr. unfold senderStep in Hr. destruct (chanRecv (rn_outbound r)) as [[c m]| |] eqn:E; try discriminate Hr.
  destruct (chanRecv_ok _ _ _ _ (ro_out _ H) E) as [Hc _]. pose proof (outbound_evolves r c H Hc) as H1.
  cbn [obind fst snd] in Hr. destruct m as [m|]; [|by injection Hr as <- _].
  case_in Hr; [by injection Hr as <- _|]. inv_outcome.
  destruct (rn_connection r) as [conn|]; [|discriminate Hr].
  destruct (SendData wr fuel conn _) as [[conn' e]| |]; try discriminate Hr. cbn [obind fst snd] in Hr.
  eapply evolves_trans; [exact H1|]. destruct e; injection Hr as <- _; apply connection_evolves, H1.
Qed.

Lemma readConnection_ok r r' (fuel : nat) (now size : Z) d :
  readConnection r fuel now size = Ret (r', d) -> exists c, r' = set_rn_connection r c.
Proof.
  unfold readConnection. destruct (rn_connection r) as [c|]; [|discriminate]. intros Hr. inv_outcome. eauto.
Qed.

Lemma consumerStep_evolves r r' (fuel : nat) (now : Z) (pick go : bool) :
  remote_ok r -> consumerStep r fuel now pick = Ret (r', go) -> evolves r r'.
Proof.
  intros H Hr. unfold consumerStep in Hr. destruct ((rn_state r =? nodeStateConnected) || _) eqn:Est.
  2:{ injection Hr as <- _. auto with node. }
  assert (rn_state r = nodeStateConnected \/ rn_state r = nodeStateHandshake) as Hst.
  { apply orb_true_iff in Est as [Est|Est]; apply Z.eqb_eq in Est; auto. }
  destruct (readConnection r fuel now 6) as [[r1 [header err]]| |] eqn:E1; try discriminate Hr.
  apply readConnection_ok in E1 as [c1 ->]. pose proof (connection_evolves r c1 H) as H1. cbn [obind] in Hr.
  destruct err; [by injection Hr as <- _|].
  destruct (sl_getUint 4 header _) as [len| |]; try discriminate Hr. cbn [obind] in Hr.
  destruct (sl_from header _ 4) as [s| |]; try discriminate Hr. cbn [obind] in Hr.
  destruct (sl_getUint 2 header s) as [code| |]; try discriminate Hr. cbn [obind] in Hr.
  assert (forall rr msg, evolves r rr -> rn_state rr = rn_state r ->
    (let! x := queueInboundMessage rr msg pick in Ret (x, true)) = Ret (r', go) -> evolves r r') as Hq.
  { intros rr msg H2 Hs Hq. destruct (queueInboundMessage rr msg pick) as [x| |] eqn:E; try discriminate Hq.
    cbn [obind] in Hq. injection Hq as <- _. eapply evolves_trans; [exact H2|].
    eapply queueInbound_evolves; [apply H2|by rewrite Hs|exact E]. }
  destruct (u32 (len - 2) >? 0); [|by apply (Hq _ _ H1 eq_refl Hr)].
  destruct (readConnection _ fuel now _) as [[r2 [data err]]| |] eqn:E2; try discriminate Hr.
  apply readConnection_ok in E2 as [c2 ->].
  pose proof (evolves_trans _ _ _ H1 (connection_evolves _ c2 (ev_ok _ _ H1))) as H2. cbn [obind] in Hr.
  destruct err; [by injection Hr as <- _|]. by apply (Hq _ _ H2 eq_refl Hr).
Qed.

Lemma interrupt_evolves r r' (f : remoteNode -> outcome remoteNode) :
  remote_ok r -> f ∈ interrupts -> f r = Ret r' -> evolves r r'.
Proof.
  intros H Hf Hr. unfold interrupts in Hf. rewrite !elem_of_cons in Hf.
  destruct Hf as [-> |[-> |[-> |[-> |[-> |Hf]]]]]; [..|by apply not_elem_of_nil in Hf].
  - unfold interruptDone in Hr. inv_outcome. apply evolves_same; try done; apply H.
  - by apply (setState_evolves r r' nodeStateDisconnected).
  - unfold interruptHandler in Hr. inv_outcome. destruct (chanClose_ok _ _ _ (ro_in _ H) E) as [Hc Hb].
    assert (evolves r (set_rn_inbound r a)) as H1.
    { destruct H. split; [split; try done; cbn; by rewrite Hb|unfold idle; cbn; by rewrite Hb|done|done]. }
    eapply evolves_trans; [exact H1|]. by apply (setState_evolves _ _ _ (ev_ok _ _ H1) eq_refl Hr).
  - unfold interruptSender in Hr. inv_outcome. destruct (chanClose_ok _ _ _ (ro_out _ H) E) as [Hc Hb].
    pose proof (outbound_evolves r a H Hc) as H1.
    eapply evolves_trans; [exact H1|]. by apply (setState_evolves _ _ _ (ev_ok _ _ H1) eq_refl Hr).
  - unfold interruptTearDown in Hr. destruct (rn_connection r) as [c|]; [|discriminate Hr]. inv_outcome.
    pose proof (connection_evolves r (Some (Close c)) H) as H1.
    pose proof (setState_evolves _ _ _ (ev_ok _ _ H1) eq_refl E) as H2.
    eapply evolves_trans; [exact H1|]. eapply evolves_trans; [exact H2|]. eapply wgAdd_evolves; [apply H2|done].
Qed.

(** Every round of a goroutine of a remote node. *)
Lemma remote_step_evolves r r' : remote_ok r -> remote_step r r' -> evolves r r'.
Proof.
  intros H Hs. destruct Hs.
  - by eapply consumerStep_evolves.
  - by eapply senderStep_evolves.
  - by eapply pingStart_evolves.
  - by eapply ping_evolves.
  - unfold pongActorStart in H0. cbv zeta in H0. eapply evolves_trans; [by apply (timer_evolves r)|].
    eapply wgAdd_evolves; [|exact H0]. by apply (ev_ok r), timer_evolves.
  - by eapply pongTimeout_evolves.
  - by apply timer_evolves.
  - by eapply wgAdd_evolves.
  - by eapply wgAdd_evolves.
  - by eapply interrupt_evolves.
Qed.

(** Taking a message off the queue. *)
Lemma dequeue_evolves r (c : chan NodeWireMessage) (m : option NodeWireMessage) :
  remote_ok r -> chanRecv (rn_inbound r) = Ret (c, m) ->
  evolves r (set_rn_inbound r c) /\ (idle r -> m = None) /\
  forall msg, m = Some msg -> rn_state r = nodeStateHandshake -> verification msg.
Proof.
  intros H E. destruct (chanRecv_ok _ _ _ _ (ro_in _ H) E) as [Hc Hb]. destruct H. split_and!.
  - split; try done.
    + split; try done. cbn [rn_state rn_inbound set_rn_inbound]. intros Hh. specialize (ro_handshake0 Hh).
      rewrite Hb in ro_handshake0. destruct m; [by inversion ro_handshake0|done].
    + intros [Hi Hst]. split; [|done]. cbn [rn_inbound set_rn_inbound]. rewrite Hi in Hb. by destruct m.
  - intros [Hi _]. rewrite Hi in Hb. by destruct m.
  - intros msg -> Hh. specialize (ro_handshake0 Hh). rewrite Hb in ro_handshake0. by inversion ro_handshake0.
Qed.

(** ** The node *)

Definition joinLoc (t : task) : option loc :=
  match t with JoinStart l | JoinTask l _ => Some l | VerifyOKTask _ _ => None end.

Section Invariant.
Context {C : Type} `{!LocalCache C} {platform : Platform}.
Implicit Types w : ClusteredBigCache C.

(** The remote nodes that are being joined. *)
Definition joins w : list loc := omap joinLoc (nd_tasks w).

Definition registered w (l : loc) : Prop := exists id, sli_items (nd_remoteNodes w) !! id = Some l.

Definition has_node w (l : loc) : Prop := is_Some (nd_nodes w !! l).

Definition has_request w (q : loc) : Prop := is_Some (nd_requests w !! q).

Record node_inv w : Prop := {
  iv_nodes : forall l r, nd_nodes w !! l = Some r -> remote_ok r;
  iv_requests : forall l r q, nd_nodes w !! l = Some r -> q ∈ pending r -> has_request w q;
  iv_registered : forall l, registered w l -> (l ∉ joins w) /\ exists r, nd_nodes w !! l = Some r /\ verified r;
  iv_size : sli_size (nd_remoteNodes w) = i32 (Z.of_nat (size (sli_items (nd_remoteNodes w))));
  iv_joins : NoDup (joins w) /\ forall l, l ∈ joins w -> exists r, nd_nodes w !! l = Some r /\ idle r;
  iv_verifyOK : forall l n, VerifyOKTask l n ∈ nd_tasks w -> has_node w l;
  iv_replication : chan_ok (nd_replicationChan w) CHAN_SIZE /\
    Forall (fun p => has_node w (fst p)) (ch_buf (nd_replicationChan w));
  iv_gets : chan_ok (nd_getRequestChan w) CHAN_SIZE /\
    Forall (fun p => has_node w (fst p) /\ has_request w (snd p)) (ch_buf (nd_getRequestChan w));
  iv_joinQueue : chan_ok (nd_joinQueue w) 512
}.

(** *** Updates of the heaps *)

Lemma has_node_put w (l l' : loc) (r : remoteNode) : has_node w l' -> has_node (putNode w l r) l'.
Proof. unfold has_node, putNode. cbn. intros. apply lookup_insert_is_Some. destruct (decide (l = l')); auto. Qed.

Lemma putNode_inv w (l : loc) (r' : remoteNode) :
  node_inv w -> remote_ok r' -> (registered w l -> verified r') -> (l ∈ joins w -> idle r') ->
  (forall q, q ∈ pending r' -> has_request w q) -> node_inv (putNode w l r').
Proof.
  intros [] Hok Hreg Hjoin Hpend. split; try done.
  - intros l' r. cbn. rewrite lookup_insert_Some. intros [[<- <-]|[_ Hl]]; eauto.
  - intros l' r q. cbn. rewrite lookup_insert_Some. intros [[<- <-]|[_ Hl]] Hq; [by apply Hpend|].
    by eapply iv_requests0.
  - intros l' Hl'. destruct (iv_registered0 l' Hl') as [Hj (r & Hr & Hv)]. split; [done|].
    unfold putNode. cbn. destruct (decide (l = l')) as [<-|Hne].
    + exists r'. rewrite lookup_insert_eq. split; [done|by apply Hreg].
    + exists r. by rewrite lookup_insert_ne.
  - destruct iv_joins0 as [Hnd Hj]. split; [done|]. intros l' Hl'.
    unfold putNode. cbn. destruct (decide (l = l')) as [<-|Hne].
    + exists r'. rewrite lookup_insert_eq. split; [done|by apply Hjoin].
    + destruct (Hj l' Hl') as (r & Hr & Hi). exists r. by rewrite lookup_insert_ne.
  - intros l' n Hl'. apply has_node_put. eauto.
  - split; [apply iv_replication0|]. eapply Forall_impl; [apply iv_replication0|]. intros p. apply has_node_put.
  - split; [apply iv_gets0|]. eapply Forall_impl; [apply iv_gets0|]. intros p [? ?]. split; [by apply has_node_put|done].
Qed.

Lemma evolve_inv w (l : loc) (r r' : remoteNode) :
  node_inv w -> nd_nodes w !! l = Some r -> evolves r r' -> node_inv (putNode w l r').
Proof.
  intros H Hl [Hok Hi Hv Hp]. apply putNode_inv; [done|done| | |].
  - intros Hr. destruct (iv_registered _ H l Hr) as [_ (r0 & Hr0 & Hv0)]. rewrite Hl in Hr0. injection Hr0 as <-. auto.
  - intros Hj. destruct (proj2 (iv_joins _ H) l Hj) as (r0 & Hr0 & Hi0). rewrite Hl in Hr0. injection Hr0 as <-. auto.
  - intros q Hq. eapply (iv_requests _ H l); [done|set_solver].
Qed.

Lemma getNode_Some w (l : loc) (r : remoteNode) : getNode w l = Ret r -> nd_nodes w !! l = Some r.
Proof. unfold getNode. destruct (nd_nodes w !! l); [by intros [= ->]|discriminate]. Qed.

Lemma onNode_inv w w' (l : loc) (f : remoteNode -> outcome remoteNode) :
  (forall r r', remote_ok r -> f r = Ret r' -> evolves r r') ->
  node_inv w -> onNode w l f = Ret w' -> node_inv w'.
Proof.
  intros Hf H Hw. unfold onNode in Hw. inv_outcome. apply getNode_Some in E.
  eapply evolve_inv; [done|done|]. eapply Hf; [|done]. by eapply iv_nodes.
Qed.

Lemma sendTo_inv w w' (l : loc) (msg : message) (ev : env) :
  node_inv w -> sendTo w l msg ev = Ret w' -> node_inv w'.
Proof. intros H. apply onNode_inv; [|done]. intros r r' Hr. by apply sendMessage_evolves. Qed.

(** Two nodes that the invariant cannot tell apart. *)
Lemma same_inv w w' :
  node_inv w -> nd_nodes w' = nd_nodes w -> nd_requests w' = nd_requests w -> nd_remoteNodes w' = nd_remoteNodes w ->
  nd_tasks w' = nd_tasks w -> nd_replicationChan w' = nd_replicationChan w ->
  nd_getRequestChan w' = nd_getRequestChan w -> chan_ok (nd_joinQueue w') 512 -> node_inv w'.
Proof.
  destruct w, w'. cbn. intros [] -> -> -> -> -> -> ?. by split.
Qed.

Lemma withCache_inv {A : Type} w w' (f : C -> outcome (C * A)) (a : A) :
  node_inv w -> withCache w f = Ret (w', a) -> node_inv w'.
Proof.
  intros H Hw. unfold withCache in Hw. destruct (nd_cache w); [|discriminate Hw]. inv_outcome.
  apply (same_inv w); try done. apply H.
Qed.

Lemma putRequest_inv w (q : loc) (g : getRequestData) : node_inv w -> node_inv (putRequest w q g).
Proof.
  assert (forall q', has_request w q' -> has_request (putRequest w q g) q') as Hq.
  { intros q'. unfold has_request, putRequest. cbn. intros. apply lookup_insert_is_Some. destruct (decide (q = q')); auto. }
  intros []. split; try done.
  - intros l r q' Hl Hp. apply Hq. by eapply iv_requests0.
  - split; [apply iv_gets0|]. eapply Forall_impl; [apply iv_gets0|]. intros p [? ?]. auto.
Qed.

Lemma nextLoc_fresh {A : Type} (m : gmap loc A) : m !! nextLoc m = None.
Proof.
  unfold nextLoc. set (b := map_fold _ _ m).
  assert (forall k x, m !! k = Some x -> (k <= b)%positive) as Hb.
  { unfold b. apply (map_fold_weak_ind (fun n m => forall k x, m !! k = Some x -> (k <= n)%positive)).
    - intros k x. by rewrite lookup_empty.
    - intros k x m' n Hk IH k' x'. rewrite lookup_insert_Some. intros [[<- _]|[_ Hl]]; [lia|].
      specialize (IH _ _ Hl). lia. }
  destruct (m !! Pos.succ b) eqn:E; [|done]. apply Hb in E. lia.
Qed.

(** *** The registry *)

Lemma remove_inv w (r : remoteNode) : node_inv w -> node_inv (eventRemoteNodeDisconneced w r).
Proof.
  intros H. unfold eventRemoteNodeDisconneced. set (id := rc_Id (rn_config r)).
  assert (forall l, registered (set_nd_remoteNodes w (sliRemove (nd_remoteNodes w) id)) l -> registered w l) as Hreg.
  { intros l [id' Hl]. exists id'. cbn in Hl. unfold sliRemove in Hl.
    destruct (sli_items (nd_remoteNodes w) !! id); [|done]. cbn in Hl. by apply lookup_delete_Some in Hl as [_ ?]. }
  destruct H. split; try done.
  - intros l Hl. by apply iv_registered0, Hreg.
  - cbn. unfold sliRemove. destruct (sli_items (nd_remoteNodes w) !! id) as [l|] eqn:E; [|done]. cbn [sli_size sli_items].
    rewrite iv_size0. replace (i32 _ - 1) with (i32 (Z.of_nat (size (sli_items (nd_remoteNodes w)))) + -1) by lia.
    rewrite i32_plus, map_size_delete, E.
    assert (size (sli_items (nd_remoteNodes w)) <> 0)%nat by (apply map_size_ne_0_lookup; eauto). f_equal. lia.
Qed.

Lemma register_inv w w' (l : loc) (r : remoteNode) (ok : bool) :
  node_inv w -> nd_nodes w !! l = Some r -> l ∉ joins w -> verified r ->
  eventVerifyRemoteNode w l r = (w', ok) -> node_inv w'.
Proof.
  intros H Hl Hj Hv Hw. unfold eventVerifyRemoteNode in Hw. set (id := rc_Id (rn_config r)) in *.
  destruct (sliContains (nd_remoteNodes w) id) eqn:Ec; [by injection Hw as <- _|]. injection Hw as <- _.
  unfold sliContains in Ec. apply bool_decide_eq_false in Ec.
  destruct H. split; try done.
  - intros l' [id' Hl']. cbn in Hl'. apply lookup_insert_Some in Hl' as [[<- <-]|[_ Hl']]; [by eauto|].
    apply iv_registered0. by exists id'.
  - cbn. rewrite iv_size0, i32_plus, map_size_insert_None by (by apply eq_None_not_Some). f_equal. lia.
Qed.

Lemma sliValues_registered w (peers : list loc) (l : loc) :
  sliValues (nd_remoteNodes w) = Ret peers -> l ∈ peers -> registered w l.
Proof.
  unfold sliValues. case_if; [discriminate|]. intros [= <-] Hl. apply list_elem_of_fmap in Hl as ([id l'] & -> & Hin).
  apply elem_of_map_to_list in Hin. by exists id.
Qed.

(** *** Handlers *)

Lemma config_evolves (r : remoteNode) (rc : remoteNodeConfig) (mode : Z) :
  remote_ok r -> evolves r (set_rn_mode (set_rn_config r rc) mode).
Proof. intros H. apply evolves_same; try done; apply H. Qed.

(** Registering and storing the remote node commute. *)
Lemma eventVerify_put w (l : loc) (r r' : remoteNode) :
  rc_Id (rn_config r') = rc_Id (rn_config r) ->
  eventVerifyRemoteNode (putNode w l r') l r' =
  (putNode (fst (eventVerifyRemoteNode w l r)) l r', snd (eventVerifyRemoteNode w l r)).
Proof. intros E. unfold eventVerifyRemoteNode. rewrite E. cbn. by destruct (sliContains _ _). Qed.

Lemma putNode_put w (l : loc) (r r' : remoteNode) : putNode (putNode w l r) l r' = putNode w l r'.
Proof. unfold putNode. destruct w. cbn. by rewrite insert_insert_eq. Qed.

Lemma eventVerify_nodes w (l : loc) (r : remoteNode) :
  nd_nodes (fst (eventVerifyRemoteNode w l r)) = nd_nodes w.
Proof. unfold eventVerifyRemoteNode. by destruct (sliContains _ _). Qed.

Lemma handleVerify_inv w w' (l : loc) (msg : NodeWireMessage) (ev : env) (go : bool) :
  node_inv w -> l ∉ joins w -> handleVerify w l msg ev = Ret (w', go) -> node_inv w'.
Proof.
  intros H Hj Hw. unfold handleVerify in Hw.
  destruct (DeSerialize zeroVerify msg) as [vm| |]; try discriminate Hw. cbn [obind] in Hw.
  destruct (getNode w l) as [r| |] eqn:Er; try discriminate Hw. apply getNode_Some in Er. cbn [obind] in Hw.
  set (rc := set_rc_ServicePort _ _) in Hw. set (r1 := set_rn_mode (set_rn_config r rc) (vm_Mode vm)) in Hw.
  pose proof (iv_nodes _ H l r Er) as Hr. pose proof (config_evolves r rc (vm_Mode vm) Hr) as He.
  pose proof (evolve_inv w l r r1 H Er He) as H1.
  case_in Hw; [by injection Hw as <- _|].
  destruct (eventVerifyRemoteNode (putNode w l r1) l r1) as [w2 ok] eqn:Ev.
  destruct ok; cbn [negb] in Hw.
  2:{ injection Hw as <- _. unfold eventVerifyRemoteNode in Ev. by case_in Ev; injection Ev as <-. }
  set (r2 := if vm_Mode vm =? clusterModePASSIVE then _ else r1) in Hw.
  assert (remote_ok r2 /\ rc_Id (rn_config r2) = rc_Id (rn_config r1) /\ pending r2 = pending r1) as (Hr2 & Hid & Hp).
  { unfold r2. destruct (vm_Mode vm =? _); [|split; [apply He|done]]. split; [|done].
    exact (ev_ok _ _ (config_evolves r1 (set_rc_ReconnectOnDisconnect (rn_config r1) false) (rn_mode r1) (ev_ok _ _ He))). }
  destruct (setState r2 nodeStateConnected) as [r3| |] eqn:Es; try discriminate Hw. cbn [obind] in Hw.
  apply (setState_ok _ _ _ Hr2) in Es. subst r3. set (r3 := set_rn_state r2 nodeStateConnected) in Hw.
  destruct (sendTo (putNode w2 l r3) l _ ev) as [w3| |] eqn:Esend; try discriminate Hw. injection Hw as <- _.
  eapply sendTo_inv; [|exact Esend].
  pose proof (eventVerify_put (putNode w l r1) l r1 r3 Hid) as Hcomm. rewrite Ev, putNode_put in Hcomm. cbn [fst snd] in Hcomm.
  eapply (register_inv (putNode w l r3) _ l r3); [| |done|by left|exact Hcomm].
  - apply putNode_inv; [done| |by left|done|].
    + destruct Hr2. by split.
    + intros q Hq. eapply (iv_requests _ H l r); [done|]. unfold r3, pending in *. cbn in Hq, Hp. by rewrite Hp in Hq.
  - unfold putNode. cbn. apply lookup_insert_eq.
Qed.

Lemma getData_inv w w' (l q : loc) (ev : env) :
  node_inv w -> has_request w q -> getData w l q ev = Ret w' -> node_inv w'.
Proof.
  intros H Hq Hw. unfold getData in Hw. destruct (getNode w l) as [r| |] eqn:Er; try discriminate Hw.
  apply getNode_Some in Er. cbn [obind] in Hw. case_in Hw; [by injection Hw as <-|].
  destruct (getRequest w q) as [g| |]; try discriminate Hw. cbn [obind] in Hw.
  destruct (rn_pendingGet r) as [m|] eqn:Ep; [|discriminate Hw].
  eapply sendTo_inv; [|exact Hw]. pose proof (iv_nodes _ H l r Er) as Hr.
  apply putNode_inv; [done| | | |].
  - destruct Hr. by split.
  - intros Hreg. destruct (iv_registered _ H l Hreg) as [_ (r0 & Hr0 & Hv)]. by simplify_eq.
  - intros Hj. destruct (proj2 (iv_joins _ H) l Hj) as (r0 & Hr0 & Hi). by simplify_eq.
  - intros q' Hq'. unfold pending in Hq'. cbn in Hq'. apply list_elem_of_fmap in Hq' as ([k q0] & -> & Hin).
    apply elem_of_map_to_list, lookup_insert_Some in Hin as [[_ <-]|[_ Hin]]; [done|].
    apply (iv_requests _ H l r); [done|]. unfold pending. rewrite Ep. apply list_elem_of_fmap. exists (k, q0).
    split; [done|]. by apply elem_of_map_to_list.
Qed.

Lemma handleGetResponse_inv w w' (l : loc) (msg : NodeWireMessage) :
  node_inv w -> handleGetResponse w l msg = Ret w' -> node_inv w'.
Proof.
  intros H Hw. unfold handleGetResponse in Hw.
  destruct (DeSerialize zeroGetRsp msg) as [m| |]; try discriminate Hw. cbn [obind] in Hw.
  destruct (getNode w l) as [r| |] eqn:Er; try discriminate Hw. apply getNode_Some in Er. cbn [obind] in Hw.
  destruct (rn_pendingGet r) as [p|] eqn:Ep; [|discriminate Hw].
  destruct (p !! gr_PendingKey m) as [q|]; [|by injection Hw as <-].
  assert (evolves r (set_rn_pendingGet r (Some (delete (gr_PendingKey m) p)))) as He.
  { pose proof (iv_nodes _ H l r Er) as []. split; [by split|done|done|]. unfold pending. rewrite Ep. cbn.
    intros q'. rewrite !list_elem_of_fmap. intros ([k q0] & -> & Hin). exists (k, q0). split; [done|].
    rewrite elem_of_map_to_list in Hin |- *. by apply lookup_delete_Some in Hin as [_ ?]. }
  pose proof (evolve_inv w l r _ H Er He) as H1. cbv zeta in Hw. case_in Hw; [by injection Hw as <-|].
  destruct (getRequest _ q) as [g| |]; try discriminate Hw. injection Hw as <-. by apply putRequest_inv.
Qed.

Lemma handleSyncResponse_inv w w' (msg : NodeWireMessage) :
  node_inv w -> handleSyncResponse w msg = Ret w' -> node_inv w'.
Proof.
  intros H Hw. unfold handleSyncResponse in Hw.
  destruct (DeSerialize zeroSyncRsp msg) as [m| |]; try discriminate Hw. cbn [obind] in Hw. inv_outcome.
  apply (same_inv w); try done. cbn. cbn in E. pose proof (iv_joinQueue _ H) as Hq. clear H. revert E Hq.
  generalize (nd_joinQueue w) (default [] (sr_List m)). intros q l. revert q.
  induction l as [|p l IH]; intros q E Hq; cbn [chanSendAll] in E; [by injection E as <-|].
  destruct (chanSend q p) as [q'| |] eqn:Es; try discriminate E. apply (IH q' E).
  by apply (chanSend_ok _ _ _ _ Hq Es).
Qed.

Lemma tearDown_inv w w' (l : loc) : node_inv w -> tearDown w l = Ret w' -> node_inv w'.
Proof.
  intros H Hw. unfold tearDown in Hw. destruct (getNode w l) as [r| |] eqn:Er; try discriminate Hw.
  apply getNode_Some in Er. cbn [obind] in Hw. pose proof (remove_inv w r H) as H1.
  set (w1 := eventRemoteNodeDisconneced w r) in *.
  assert (exists w2, (if rc_ReconnectOnDisconnect (rn_config r) then
     let! q := chanSend (nd_joinQueue w1) (MkPeer (rc_Id (rn_config r)) (rc_IpAddress (rn_config r))) in
     Ret (set_nd_joinQueue w1 q) else Ret w1) = Ret w2 /\ node_inv w2 /\ nd_nodes w2 = nd_nodes w /\
     w' = putNode w2 l (set_rn_pendingGet (stopTimers r) None)) as (w2 & _ & H2 & Hn & ->).
  { destruct (rc_ReconnectOnDisconnect (rn_config r)).
    - destruct (chanSend (nd_joinQueue w1) _) as [q| |] eqn:Es; try discriminate Hw. injection Hw as <-.
      eexists. split_and!; [reflexivity| |done|done]. apply (same_inv w1); try done.
      by apply (chanSend_ok _ _ _ _ (iv_joinQueue _ H1) Es).
    - injection Hw as <-. by exists w1. }
  eapply (evolve_inv w2 l r); [done|by rewrite Hn|]. pose proof (iv_nodes _ H l r Er) as Hr.
  assert (evolves r (stopTimers r)) as Hst.
  { unfold stopTimers. destruct (rn_pingTimeout r); cbn [rn_pingTimer set_rn_pingTimeout];
      destruct (rn_pingTimer r); (apply evolves_same; try done; apply Hr). }
  eapply evolves_trans; [exact Hst|]. destruct (ev_ok _ _ Hst). split; [by split|done|done|]. unfold pending. cbn. set_solver.
Qed.

Lemma verifyOKTask_inv w (l : loc) : node_inv w -> has_node w l -> node_inv (handleVerifyOK w l).
Proof.
  intros [] Hl. unfold handleVerifyOK.
  assert (forall x, joins (set_nd_tasks w (nd_tasks w ++ [VerifyOKTask l x])) = joins w) as Hj.
  { intros x. unfold joins. cbn. rewrite omap_app. cbn. apply app_nil_r. }
  split; rewrite ?Hj; try done.
  intros l' n Hin. cbn in Hin. apply elem_of_app in Hin as [Hin|Hin]; [by eapply iv_verifyOK0|].
  apply list_elem_of_singleton in Hin. by injection Hin as -> _.
Qed.

Lemma handleSyncRequest_inv w w' (l : loc) (msg : NodeWireMessage) (ev : env) :
  node_inv w -> handleSyncRequest w l msg ev = Ret w' -> node_inv w'.
Proof.
  intros H Hw. unfold handleSyncRequest in Hw. destruct (DeSerialize zeroSyncReq msg) as [m| |]; try discriminate Hw.
  cbn [obind] in Hw. unfold sendSyncResponse in Hw. destruct (getRemoteNodes w) as [vs| |]; try discriminate Hw.
  cbn [obind] in Hw. destruct (getNode w l) as [r| |]; try discriminate Hw. cbn [obind] in Hw.
  destruct (proposedPeers w r (sq_Mode m) vs) as [[|p ps]| |]; try discriminate Hw; cbn [obind] in Hw;
    [by injection Hw as <-|by eapply sendTo_inv].
Qed.

Lemma handleGetRequest_inv w w' (l : loc) (msg : NodeWireMessage) (ev : env) :
  node_inv w -> handleGetRequest w l msg ev = Ret w' -> node_inv w'.
Proof.
  intros H Hw. unfold handleGetRequest in Hw. destruct (DeSerialize zeroGetReq msg) as [m| |]; try discriminate Hw.
  cbn [obind] in Hw. destruct (withCache w _) as [[w1 d]| |] eqn:E; try discriminate Hw.
  eapply sendTo_inv; [|exact Hw]. by eapply withCache_inv.
Qed.

Lemma handlePut_inv w w' (msg : NodeWireMessage) (ev : env) :
  node_inv w -> handlePut w msg ev = Ret w' -> node_inv w'.
Proof.
  intros H Hw. unfold handlePut in Hw. destruct (DeSerialize zeroPut msg) as [m| |]; try discriminate Hw.
  cbn [obind] in Hw. destruct (withCache w _) as [[w1 d]| |] eqn:E; try discriminate Hw.
  injection Hw as <-. by eapply withCache_inv.
Qed.

Lemma handleDelete_inv w w' (msg : NodeWireMessage) (ev : env) :
  node_inv w -> handleDelete w msg ev = Ret w' -> node_inv w'.
Proof.
  intros H Hw. unfold handleDelete in Hw. destruct (DeSerialize zeroDelete msg) as [m| |]; try discriminate Hw.
  cbn [obind] in Hw. destruct (withCache w _) as [[w1 d]| |] eqn:E; try discriminate Hw.
  injection Hw as <-. by eapply withCache_inv.
Qed.

Lemma handleOne_inv w w' (l : loc) (msg : NodeWireMessage) (ev : env) (go : bool) :
  node_inv w -> l ∉ joins w -> handleOne w l msg ev = Ret (w', go) -> node_inv w'.
Proof.
  intros H Hj Hw. unfold handleOne in Hw. destruct (getNode w l) as [r| |] eqn:Er; try discriminate Hw.
  apply getNode_Some in Er. cbn [obind] in Hw.
  repeat (case_in Hw; [clear Heqb|clear Heqb]).
  - by injection Hw as <- _.
  - by eapply handleVerify_inv.
  - injection Hw as <- _. apply verifyOKTask_inv; [done|by exists r].
  - inv_outcome. eapply onNode_inv; [|done|exact E]. intros r0 r1 ? ?. by apply (handlePing_evolves r0 r1 (ev_pick ev)).
  - inv_outcome. eapply onNode_inv; [|done|exact E]. intros r0 r1 ? ?. by apply (handlePong_evolves r0 r1).
  - inv_outcome. by eapply handleSyncResponse_inv.
  - inv_outcome. by eapply handleSyncRequest_inv.
  - inv_outcome. by eapply handleGetRequest_inv.
  - inv_outcome. by eapply handleGetResponse_inv.
  - inv_outcome. by eapply handlePut_inv.
  - inv_outcome. by eapply handleDelete_inv.
  - by injection Hw as <- _.
Qed.

Lemma handleMessage_inv w w' (l : loc) (ev : env) (go : bool) :
  node_inv w -> handleMessage w l ev = Ret (w', go) -> node_inv w'.
Proof.
  intros H Hw. unfold handleMessage in Hw. destruct (getNode w l) as [r| |] eqn:Er; try discriminate Hw.
  apply getNode_Some in Er. cbn [obind] in Hw.
  destruct (chanRecv (rn_inbound r)) as [[c m]| |] eqn:E; try discriminate Hw. cbn [obind fst snd] in Hw.
  destruct (dequeue_evolves r c m (iv_nodes _ H l r Er) E) as (He & Hi & _).
  pose proof (evolve_inv w l r _ H Er He) as H1. destruct m as [msg|]; [|by injection Hw as <- _].
  eapply handleOne_inv; [exact H1| |exact Hw]. intros Hj.
  destruct (proj2 (iv_joins _ H) l Hj) as (r0 & Hr0 & Hi0). simplify_eq. by discriminate (Hi Hi0).
Qed.

(** *** Clients *)

Lemma replicate_inv w w' (msg : message) (peers : list loc) :
  node_inv w -> Forall (has_node w) peers -> replicate_ w msg peers = Ret w' -> node_inv w'.
Proof.
  revert w. induction peers as [|l peers IH]; intros w H Hp Hw; cbn [replicate_] in Hw; [by injection Hw as <-|].
  inversion Hp as [|? ? Hl Hp']; subst. destruct (getNode w l) as [r| |]; try discriminate Hw. cbn [obind] in Hw.
  case_in Hw; [by apply (IH w)|]. destruct (chanSend (nd_replicationChan w) (l, msg)) as [q| |] eqn:Es; try discriminate Hw.
  cbn [obind] in Hw. apply (IH (set_nd_replicationChan w q)); [|done|done].
  destruct (chanSend_ok _ _ _ _ (proj1 (iv_replication _ H)) Es) as [Hq Hb].
  destruct H. split; try done. split; [done|]. cbn. rewrite Hb. apply Forall_app. split; [apply iv_replication0|].
  by apply Forall_singleton.
Qed.

Lemma registered_nodes w (peers : list loc) :
  node_inv w -> sliValues (nd_remoteNodes w) = Ret peers -> Forall (has_node w) peers.
Proof.
  intros H Hv. apply Forall_forall. intros l Hl.
  destruct (iv_registered _ H l (sliValues_registered w peers l Hv Hl)) as [_ (r & Hr & _)]. by exists r.
Qed.

Lemma Put_inv w w' (key : gostring) (data : list byte) (d : Z) (ev : env) (e : option clusterError) :
  node_inv w -> Put w key data d ev = Ret (w', e) -> node_inv w'.
Proof.
  intros H Hw. unfold Put in Hw. case_in Hw; [by injection Hw as <- _|].
  set (m := if nd_mode w =? clusterModeACTIVE then _ else _) in Hw.
  destruct m as [[w1 [x err]]| |] eqn:Em; try discriminate Hw. cbn [obind] in Hw.
  assert (node_inv w1) as H1.
  { unfold m in Em. case_in Em; [by eapply withCache_inv|]. case_in Em; by injection Em as <- _ _. }
  destruct err; [by injection Hw as <- _|].
  destruct (sliValues (nd_remoteNodes w1)) as [peers| |] eqn:Ev; try discriminate Hw. cbn [obind] in Hw.
  destruct (replicate_ w1 _ peers) as [w2| |] eqn:Er; try discriminate Hw. injection Hw as <- _.
  eapply replicate_inv; [exact H1|by eapply registered_nodes|exact Er].
Qed.

Lemma DeleteKey_inv w w' (key : gostring) (ev : env) (e : option clusterError) :
  node_inv w -> DeleteKey w key ev = Ret (w', e) -> node_inv w'.
Proof.
  intros H Hw. unfold DeleteKey in Hw. case_in Hw; [by injection Hw as <- _|].
  set (m := if nd_mode w =? clusterModeACTIVE then _ else _) in Hw.
  destruct m as [w1| |] eqn:Em; try discriminate Hw. cbn [obind] in Hw.
  assert (node_inv w1) as H1.
  { unfold m in Em. case_in Em; [|by injection Em as <-].
    destruct (withCache w _) as [[w2 x]| |] eqn:Ec; try discriminate Em. injection Em as <-. by eapply withCache_inv. }
  destruct (sliValues (nd_remoteNodes w1)) as [peers| |] eqn:Ev; try discriminate Hw. cbn [obind] in Hw.
  destruct (replicate_ w1 _ peers) as [w2| |] eqn:Er; try discriminate Hw. injection Hw as <- _.
  eapply replicate_inv; [exact H1|by eapply registered_nodes|exact Er].
Qed.

Lemma requestFrom_inv w w' (q : loc) (peers : list loc) :
  node_inv w -> has_request w q -> Forall (has_node w) peers -> requestFrom w q peers = Ret w' -> node_inv w'.
Proof.
  revert w. induction peers as [|l peers IH]; intros w H Hq Hp Hw; cbn [requestFrom] in Hw; [by injection Hw as <-|].
  inversion Hp as [|? ? Hl Hp']; subst. destruct (getNode w l) as [r| |]; try discriminate Hw. cbn [obind] in Hw.
  case_in Hw; [by apply (IH w)|]. destruct (chanSend (nd_getRequestChan w) (l, q)) as [c| |] eqn:Es; try discriminate Hw.
  cbn [obind] in Hw. apply (IH (set_nd_getRequestChan w c)); [|done|done|done].
  destruct (chanSend_ok _ _ _ _ (proj1 (iv_gets _ H)) Es) as [Hc Hb].
  destruct H. split; try done. split; [done|]. cbn. rewrite Hb. apply Forall_app. split; [apply iv_gets0|].
  by apply Forall_singleton.
Qed.

Lemma GetKey_inv w w' (key randStr : gostring) (g : getResult) :
  node_inv w -> GetKey w key randStr = Ret (w', g) -> node_inv w'.
Proof.
  assert (forall w, node_inv w -> getRemote w key randStr = Ret (w', g) -> node_inv w') as Hrem.
  { clear w. intros w H Hw. unfold getRemote in Hw. destruct (getRemoteNodes w) as [peers| |] eqn:Ev; try discriminate Hw.
    cbn [obind] in Hw. destruct peers as [|l peers]; [by injection Hw as <- _|].
    set (q := nextLoc (nd_requests w)) in Hw. set (w1 := putRequest w q _) in Hw.
    destruct (requestFrom w1 q (l :: peers)) as [w2| |] eqn:Er; try discriminate Hw. injection Hw as <- _.
    eapply (requestFrom_inv w1); [by apply putRequest_inv| | |exact Er].
    - unfold has_request, w1, putRequest. cbn. rewrite lookup_insert_eq. done.
    - by apply (registered_nodes w). }
  intros H Hw. unfold GetKey in Hw. case_in Hw; [by injection Hw as <- _|].
  case_in Hw; [|by apply (Hrem w)].
  destruct (withCache w _) as [[w1 x]| |] eqn:Ec; try discriminate Hw. cbn [obind fst snd] in Hw.
  pose proof (withCache_inv _ _ _ _ H Ec) as H1. destruct x; [by injection Hw as <- _|by apply (Hrem w1)].
Qed.

Lemma request_inv w w' (ev : env) (go : bool) :
  node_inv w -> requestSenderForGET w ev = Ret (w', go) -> node_inv w'.
Proof.
  intros H Hw. unfold requestSenderForGET in Hw.
  destruct (chanRecv (nd_getRequestChan w)) as [[c v]| |] eqn:E; try discriminate Hw. cbn [obind fst snd] in Hw.
  destruct (iv_gets _ H) as [Hc Hf]. destruct (chanRecv_ok _ _ _ _ Hc E) as [Hc' Hb]. rewrite Hb in Hf.
  assert (node_inv (set_nd_getRequestChan w c)) as H1.
  { destruct H. split; try done. split; [done|]. cbn. destruct v; [by inversion Hf|done]. }
  destruct v as [[l q]|]; [|by injection Hw as <- _].
  destruct (getData _ l q ev) as [w1| |] eqn:Eg; try discriminate Hw. injection Hw as <- _.
  inversion Hf as [|? ? [_ Hq] _]; subst. by eapply getData_inv.
Qed.

Lemma replication_inv w w' (ev : env) (go : bool) :
  node_inv w -> replication w ev = Ret (w', go) -> node_inv w'.
Proof.
  intros H Hw. unfold replication in Hw.
  destruct (chanRecv (nd_replicationChan w)) as [[c v]| |] eqn:E; try discriminate Hw. cbn [obind fst snd] in Hw.
  destruct (iv_replication _ H) as [Hc Hf]. destruct (chanRecv_ok _ _ _ _ Hc E) as [Hc' Hb]. rewrite Hb in Hf.
  assert (node_inv (set_nd_replicationChan w c)) as H1.
  { destruct H. split; try done. split; [done|]. cbn. destruct v; [by inversion Hf|done]. }
  destruct v as [[l m]|]; [|by injection Hw as <- _].
  destruct (sendTo _ l m ev) as [w1| |] eqn:Eg; try discriminate Hw. injection Hw as <- _. by eapply sendTo_inv.
Qed.

(** *** Tasks and new remote nodes *)

Lemma newRemoteNode_ok (config : remoteNodeConfig) :
  remote_ok (newRemoteNode config) /\ idle (newRemoteNode config) /\ pending (newRemoteNode config) = [].
Proof. split_and!; [|split; [done|by right]|done]. split; try done; split; done. Qed.

(** Fewer tasks. *)
Lemma tasks_inv w (ts : list task) :
  node_inv w -> omap joinLoc ts `sublist_of` joins w ->
  (forall l n, VerifyOKTask l n ∈ ts -> has_node w l) -> node_inv (set_nd_tasks w ts).
Proof.
  intros [] Hs Hv. assert (forall l, l ∈ omap joinLoc ts -> l ∈ joins w) as Hin.
  { intros l. by apply sublist_subseteq. }
  split; try done.
  - intros l Hl. destruct (iv_registered0 l Hl) as [Hj Hr]. split; [|done]. intros Hj'. by apply Hj, Hin.
  - destruct iv_joins0 as [Hnd Hj]. split; [by eapply sublist_NoDup|]. intros l Hl. by apply Hj, Hin.
Qed.

(** A remote node under a location that nothing knows. *)
Lemma addNode_inv w w' (config : remoteNodeConfig) (l : loc) :
  node_inv w -> addNode w config = (w', l) ->
  node_inv w' /\ nd_nodes w' !! l = Some (newRemoteNode config) /\ ~ registered w' l /\ l ∉ joins w'.
Proof.
  intros H [= <- <-]. set (l := nextLoc (nd_nodes w)). pose proof (nextLoc_fresh (nd_nodes w)) as Hf. fold l in Hf.
  destruct (newRemoteNode_ok config) as (Hok & Hi & Hp).
  assert (~ registered w l) as Hr.
  { intros Hr. destruct (iv_registered _ H l Hr) as [_ (r & Hl & _)]. congruence. }
  assert (l ∉ joins w) as Hj.
  { intros Hj. destruct (proj2 (iv_joins _ H) l Hj) as (r & Hl & _). congruence. }
  split_and!; [|by apply lookup_insert_eq|done|done].
  apply putNode_inv; [done|done|done|done|]. intros q. rewrite Hp. by intros ?%not_elem_of_nil.
Qed.

Lemma join_inv w (l : loc) (r : remoteNode) :
  node_inv w -> nd_nodes w !! l = Some r -> idle r -> l ∉ joins w -> ~ registered w l -> node_inv (join w l).
Proof.
  intros H Hl Hi Hj Hr. unfold join.
  assert (joins (set_nd_tasks w (nd_tasks w ++ [JoinStart l])) = joins w ++ [l]) as Ej.
  { unfold joins. cbn. by rewrite omap_app. }
  destruct H. split; rewrite ?Ej; try done.
  - intros l' Hl'. destruct (iv_registered0 l' Hl') as [Hn Hr']. split; [|done].
    rewrite elem_of_app, list_elem_of_singleton. intros [?| ->]; [done|]. by apply Hr.
  - destruct iv_joins0 as [Hnd Hjs]. split.
    + apply NoDup_app. split_and!; [done| |apply NoDup_singleton].
      intros l' Hl' ->%list_elem_of_singleton. done.
    + intros l'. rewrite elem_of_app, list_elem_of_singleton. intros [?| ->]; [by apply Hjs|by exists r].
  - intros l' n Hin. cbn in Hin. apply elem_of_app in Hin as [Hin|Hin]; [by eapply iv_verifyOK0|].
    by apply list_elem_of_singleton in Hin.
Qed.

Lemma addJoin_inv w w' (config : remoteNodeConfig) (l : loc) :
  node_inv w -> addNode w config = (w', l) -> node_inv (join w' l).
Proof.
  intros H E. destruct (addNode_inv w w' config l H E) as (H1 & Hl & Hr & Hj).
  eapply join_inv; [done|exact Hl|apply newRemoteNode_ok|done|done].
Qed.

Lemma start_inv w w' (l : loc) (ev : env) : node_inv w -> start w l ev = Ret w' -> node_inv w'.
Proof.
  intros H Hw. unfold start in Hw. destruct (onNode w l _) as [w1| |] eqn:E; try discriminate Hw.
  eapply sendTo_inv; [|exact Hw]. eapply onNode_inv; [|exact H|exact E].
  intros r r' Hr Hr'. by apply (wgAdd_evolves r r' 1).
Qed.

(** Entering the handshake with nothing queued. *)
Lemma handshake_inv w w' (l : loc) (r : remoteNode) (f : remoteNode -> outcome remoteNode) :
  node_inv w -> nd_nodes w !! l = Some r -> idle r -> ~ registered w l -> l ∉ joins w ->
  (forall r', f r = Ret r' -> exists c, r' = set_rn_state (set_rn_connection r c) nodeStateHandshake) ->
  onNode w l f = Ret w' -> node_inv w'.
Proof.
  intros H Hl Hi Hr Hj Hf Hw. unfold onNode, getNode in Hw. rewrite Hl in Hw. cbn [obind] in Hw. inv_outcome.
  destruct (Hf _ eq_refl) as [c ->]. pose proof (iv_nodes _ H l r Hl) as Hok.
  apply putNode_inv; [done| |done|done|].
  - destruct Hok. split; try done. intros _. cbn [rn_inbound set_rn_state set_rn_connection].
    rewrite (proj1 Hi). constructor.
  - intros q Hq. by apply (iv_requests _ H l r).
Qed.

Lemma listenStep_inv w w' (acc : tcpConn + ioError) (n : Z) (ev : env) (n' : option Z) :
  node_inv w -> listenStep w acc n ev = Ret (w', n') -> node_inv w'.
Proof.
  intros H Hw. unfold listenStep in Hw. destruct acc as [tcp|e].
  2:{ case_in Hw; [case_in Hw|]; by injection Hw as <- _. }
  destruct (addNode w _) as [w1 l] eqn:Ea. destruct (addNode_inv _ _ _ _ H Ea) as (H1 & Hl & Hr & Hj).
  destruct (newRemoteNode_ok (MkNodeConfig [] (tc_remote tcp) (cc_PingFailureThreshHold (nd_config w))
    (cc_PingInterval (nd_config w)) (cc_PingTimeout (nd_config w)) (cc_ConnectRetries (nd_config w)) [] false false)) as (Hok & Hi & _).
  destruct (onNode w1 l _) as [w2| |] eqn:E1; try discriminate Hw. cbn [obind] in Hw.
  destruct (onNode w2 l _) as [w3| |] eqn:E2; try discriminate Hw. cbn [obind] in Hw.
  destruct (start w3 l ev) as [w4| |] eqn:E3; try discriminate Hw. injection Hw as <- _.
  eapply start_inv; [|exact E3]. eapply onNode_inv; [| |exact E2].
  - intros r r' Hrok [= <-]. by apply connection_evolves.
  - eapply (handshake_inv w1 w2 l); [done|exact Hl|done|done|done| |exact E1].
    intros r' Hs. apply (setState_ok _ _ _ Hok) in Hs. by exists None.
Qed.

Lemma connectStep_inv w w' (go : bool) : node_inv w -> connectStep w = Ret (w', go) -> node_inv w'.
Proof.
  intros H Hw. unfold connectStep in Hw.
  destruct (chanRecv (nd_joinQueue w)) as [[c v]| |] eqn:E; try discriminate Hw. cbn [obind fst snd] in Hw.
  destruct (chanRecv_ok _ _ _ _ (iv_joinQueue _ H) E) as [Hc _].
  assert (node_inv (set_nd_joinQueue w c)) as H1 by (by apply (same_inv w)).
  destruct v as [p|]; [|by injection Hw as <- _].
  case_in Hw; [by injection Hw as <- _|]. case_in Hw; [by injection Hw as <- _|]. case_in Hw; [by injection Hw as <- _|].
  destruct (addNode (set_nd_joinQueue w c) _) as [w1 l] eqn:Ea. injection Hw as <- _.
  pose proof (addJoin_inv _ _ _ _ H1 Ea) as H2. apply (same_inv (join w1 l)); try done. apply H2.
Qed.

Lemma Start_inv w w' (id : gostring) (listening : option gostring) (e : option clusterError) :
  node_inv w -> Start w id listening = Ret (w', e) -> node_inv w'.
Proof.
  intros H Hw. unfold Start in Hw. destruct (checkNodeConfig w) as [w1| |] eqn:Ec; try discriminate Hw. cbn [obind] in Hw.
  assert (node_inv w1) as H1.
  { unfold checkNodeConfig in Ec. case_in Ec. injection Ec as <-. apply (same_inv w); try done. apply H. }
  set (w2 := match cc_Id _ with [] => _ | _ => _ end) in Hw.
  assert (node_inv w2) as H2.
  { unfold w2. destruct (cc_Id (nd_config w1)); [|done]. apply (same_inv w1); try done. apply H1. }
  unfold bringNodeUp in Hw. destruct listening as [text|].
  { injection Hw as <- _. apply (same_inv w2); try done. apply H2. }
  set (w3 := set_nd_serverEndpoint w2 (Some true)) in Hw.
  assert (node_inv w3) as H3 by (apply (same_inv w2); try done; apply H2).
  assert (forall w4 e4, (if cc_Join (nd_config w3) then joinCluster w3 else (w3, None)) = (w4, e4) -> node_inv w4) as Hj.
  { intros w4 e4. destruct (cc_Join (nd_config w3)); [|by intros [= <- _]]. unfold joinCluster.
    destruct (cc_JoinIp (nd_config w3)) as [|b0 ip]; [by intros [= <- _]|].
    destruct (addNode w3 _) as [w5 l] eqn:Ea. intros [= <- _]. by eapply addJoin_inv. }
  destruct (if cc_Join (nd_config w3) then _ else _) as [w4 e4] eqn:E4. specialize (Hj _ _ eq_refl).
  destruct e4; injection Hw as <- _; [done|]. apply (same_inv w4); try done. apply Hj.
Qed.

Lemma tearDownAll_inv w w' (peers : list loc) : node_inv w -> tearDownAll w peers = Ret w' -> node_inv w'.
Proof.
  revert w. induction peers as [|l peers IH]; intros w H Hw; cbn [tearDownAll] in Hw; [by injection Hw as <-|].
  destruct (onNode w l _) as [w1| |] eqn:E1; try discriminate Hw. cbn [obind] in Hw.
  destruct (tearDown w1 l) as [w2| |] eqn:E2; try discriminate Hw. cbn [obind] in Hw.
  apply (IH w2); [|done]. eapply tearDown_inv; [|exact E2]. eapply onNode_inv; [|exact H|exact E1].
  intros r r' Hr [= <-]. apply evolves_same; try done; apply Hr.
Qed.

Lemma ShutDown_inv w w' : node_inv w -> ShutDown w = Ret w' -> node_inv w'.
Proof.
  intros H Hw. unfold ShutDown in Hw. set (w0 := set_nd_state w clusterStateEnded) in Hw.
  assert (node_inv w0) as H0 by (apply (same_inv w); try done; apply H).
  destruct (sliValues (nd_remoteNodes w0)) as [peers| |]; try discriminate Hw. cbn [obind] in Hw.
  destruct (tearDownAll w0 peers) as [w1| |] eqn:E1; try discriminate Hw. cbn [obind] in Hw.
  pose proof (tearDownAll_inv _ _ _ H0 E1) as H1.
  destruct (chanClose (nd_joinQueue w1)) as [q1| |] eqn:C1; try discriminate Hw. cbn [obind] in Hw.
  destruct (chanClose (nd_getRequestChan _)) as [q2| |] eqn:C2; try discriminate Hw. cbn [obind] in Hw.
  destruct (chanClose (nd_replicationChan _)) as [q3| |] eqn:C3; try discriminate Hw. cbn [obind] in Hw.
  destruct (chanClose_ok _ _ _ (iv_joinQueue _ H1) C1) as [Hq1 _].
  destruct (chanClose_ok _ _ _ (proj1 (iv_gets _ H1)) C2) as [Hq2 Hb2].
  destruct (chanClose_ok _ _ _ (proj1 (iv_replication _ H1)) C3) as [Hq3 Hb3].
  set (w2 := set_nd_replicationChan _ q3) in Hw. assert (node_inv w2) as H2.
  { destruct H1. unfold w2. split; try done; (split; [done|]); cbn; rewrite ?Hb2, ?Hb3;
      [apply iv_replication0|apply iv_gets0]. }
  destruct (nd_serverEndpoint w2); injection Hw as <-; [|done]. by apply (same_inv w2); try done.
Qed.

Lemma connect_ok (r r' : remoteNode) (dialled : tcpConn + ioError) (e : option ioError) :
  remote_ok r -> connect r dialled = Ret (r', e) ->
  match e with
  | Some _ => evolves r r' /\ rn_config r' = rn_config r
  | None => exists c, r' = set_rn_state (set_rn_connection r c) nodeStateHandshake
  end.
Proof.
  intros H Hr. unfold connect, NewConnection in Hr. destruct dialled as [tcp|err].
  - destruct (setState _ nodeStateHandshake) as [r1| |] eqn:Es; try discriminate Hr. injection Hr as <- <-.
    unfold setConnection in Es. eapply setState_ok in Es; [by eexists|]. by eapply ev_ok, connection_evolves.
  - injection Hr as <- <-. split; [by apply connection_evolves|done].
Qed.

Lemma joinStart_inv w w' (l : loc) (before after : list task) :
  node_inv w -> nd_tasks w = before ++ JoinStart l :: after ->
  onNode (set_nd_tasks w (before ++ JoinTask l 0 :: after)) l (fun r => setState r nodeStateConnecting) = Ret w' ->
  node_inv w'.
Proof.
  intros H Ht Hw. set (w1 := set_nd_tasks w _) in Hw.
  assert (joins w1 = joins w) as Ej by (unfold joins; cbn; rewrite Ht, !omap_app; done).
  assert (node_inv w1) as H1.
  { apply tasks_inv; [done|by rewrite <- Ej|]. intros l' n Hin. apply (iv_verifyOK _ H l' n). rewrite Ht.
    apply elem_of_app in Hin as [Hin|Hin]; apply elem_of_app; [by left|right].
    apply elem_of_cons in Hin as [Hin|Hin]; [done|]. by apply elem_of_cons; right. }
  assert (l ∈ joins w) as Hin.
  { unfold joins. rewrite Ht, omap_app. apply elem_of_app. right. cbn. apply elem_of_cons. by left. }
  destruct (proj2 (iv_joins _ H) l Hin) as (r & Hl & Hi). pose proof (iv_nodes _ H l r Hl) as Hok.
  unfold onNode, getNode in Hw. change (nd_nodes w1) with (nd_nodes w) in Hw. rewrite Hl in Hw. cbn [obind] in Hw.
  destruct (setState r nodeStateConnecting) as [r'| |] eqn:Es; try discriminate Hw. injection Hw as <-.
  apply (setState_ok _ _ _ Hok) in Es. subst r'. apply putNode_inv; [done| | | |].
  - destruct Hok. by split.
  - intros Hr. by destruct (iv_registered _ H1 l Hr) as [[] _]; rewrite Ej.
  - intros _. split; [apply Hi|by left].
  - intros q Hq. by apply (iv_requests _ H l r).
Qed.

Lemma join_step_inv w w' (l : loc) (tries : Z) (dialled : tcpConn + ioError) (ev : env) (go : option Z)
    (before after : list task) :
  node_inv w -> nd_tasks w = before ++ JoinTask l tries :: after ->
  joinStep (set_nd_tasks w (before ++ match go with Some n => [JoinTask l n] | None => [] end ++ after))
    l tries dialled ev = Ret (w', go) -> node_inv w'.
Proof.
  intros H Ht Hw. set (ts := before ++ _ ++ after) in Hw. set (w1 := set_nd_tasks w ts) in Hw.
  assert (joins w = omap joinLoc before ++ l :: omap joinLoc after) as Ej by (unfold joins; by rewrite Ht, omap_app).
  assert (joins w1 = omap joinLoc before ++ match go with Some _ => [l] | None => [] end ++ omap joinLoc after) as Ej1.
  { unfold joins, w1, ts. cbn. rewrite !omap_app. by destruct go. }
  assert (node_inv w1) as H1.
  { apply tasks_inv; [done| |].
    - change (omap joinLoc ts) with (joins w1). rewrite Ej1, Ej. destruct go; [done|]. cbn.
      apply sublist_app; [done|]. by apply sublist_cons.
    - intros l' n Hin. apply (iv_verifyOK _ H l' n). rewrite Ht. unfold ts in Hin.
      rewrite !elem_of_app in Hin. apply elem_of_app. destruct Hin as [Hin|[Hin|Hin]]; [by left| |].
      + destruct go; [by apply list_elem_of_singleton in Hin|by apply not_elem_of_nil in Hin].
      + right. by apply elem_of_cons; right. }
  assert (l ∈ joins w) as Hin by (rewrite Ej; apply elem_of_app; right; by apply elem_of_cons; left).
  destruct (proj2 (iv_joins _ H) l Hin) as (r & Hl & Hi). pose proof (iv_nodes _ H l r Hl) as Hok.
  assert (~ registered w1 l) as Hreg by (intros Hr; by destruct (iv_registered _ H l Hr) as [[] _]).
  unfold joinStep in Hw. unfold getNode in Hw. change (nd_nodes w1) with (nd_nodes w) in Hw. rewrite Hl in Hw.
  cbn [obind] in Hw. destruct (connect r dialled) as [[r' e]| |] eqn:Ec; try discriminate Hw. cbn [obind fst snd] in Hw.
  pose proof (connect_ok r r' dialled e Hok Ec) as Hc. destruct e as [err|].
  - destruct Hc as [He _]. pose proof (evolve_inv w1 l r r' H1 Hl He) as H2. case_in Hw; [case_in Hw|];
      injection Hw as <- _; [|done|done]. apply (same_inv (putNode w1 l r')); try done. apply H2.
  - destruct (start _ l ev) as [w2| |] eqn:Es; try discriminate Hw. cbn [obind] in Hw. injection Hw as <- <-.
    eapply start_inv; [|exact Es]. destruct Hc as [c ->].
    apply (handshake_inv w1 _ l r (fun _ => Ret (set_rn_state (set_rn_connection r c) nodeStateHandshake)));
      [done|done|done|done| |by intros r' [= <-]; exists c|unfold onNode, getNode; cbn; by rewrite Hl].
    rewrite Ej1. destruct (iv_joins _ H) as [Hnd _]. rewrite Ej in Hnd. cbn.
    apply NoDup_app in Hnd as (Hnb & Hd & Hna). apply NoDup_cons in Hna as [Hna _].
    rewrite elem_of_app. intros [Hb|Ha]; [|done]. apply (Hd l Hb). by apply elem_of_cons; left.
Qed.

Lemma verifyOK_step_inv w w' (l : loc) (count : Z) (ev : env) (go : option Z) (before after : list task) :
  node_inv w -> nd_tasks w = before ++ VerifyOKTask l count :: after ->
  verifyOKStep (set_nd_tasks w (before ++ match go with Some n => [VerifyOKTask l n] | None => [] end ++ after))
    l count ev = Ret (w', go) -> node_inv w'.
Proof.
  intros H Ht Hw. set (ts := before ++ _ ++ after) in Hw. set (w1 := set_nd_tasks w ts) in Hw.
  assert (has_node w l) as Hn.
  { apply (iv_verifyOK _ H l count). rewrite Ht. apply elem_of_app. right. by apply elem_of_cons; left. }
  assert (node_inv w1) as H1.
  { apply tasks_inv; [done| |].
    - unfold joins, ts. rewrite Ht, !omap_app. cbn. by destruct go.
    - intros l' n Hin. unfold ts in Hin. rewrite !elem_of_app in Hin. destruct Hin as [Hin|[Hin|Hin]].
      + apply (iv_verifyOK _ H l' n). rewrite Ht. apply elem_of_app. by left.
      + destruct go; [|by apply not_elem_of_nil in Hin]. apply list_elem_of_singleton in Hin. by injection Hin as -> _.
      + apply (iv_verifyOK _ H l' n). rewrite Ht. apply elem_of_app. right. by apply elem_of_cons; right. }
  unfold verifyOKStep in Hw. destruct (getNode w1 l) as [r| |]; try discriminate Hw. cbn [obind] in Hw.
  case_in Hw; [case_in Hw; by injection Hw as <- _|]. case_in Hw; [|by injection Hw as <- _].
  destruct (sendTo w1 l _ ev) as [w2| |] eqn:Es; try discriminate Hw. injection Hw as <- _. by eapply sendTo_inv.
Qed.

Lemma node_step_inv w w' : node_inv w -> node_step w w' -> node_inv w'.
Proof.
  intros H Hs. destruct Hs as [w w' id li e Hw|w w' Hw|w w' key data d ev e Hw|w w' key ev e Hw|w w' key rs g Hw
    |w w' q Hw|w w' q g Hw|w w' q g Hw|w w' ev go Hw|w w' ev go Hw|w w' acc n ev n' Hw|w w' go Hw|w w' l ev go Hw
    |w w' l Hw|w l r r' Hl Hr|w w' l b a Ht Hw|w w' l tries dl ev go b a Ht Hw|w w' l c ev go b a Ht Hw].
  - by eapply Start_inv.
  - by eapply ShutDown_inv.
  - by eapply Put_inv.
  - by eapply DeleteKey_inv.
  - by eapply GetKey_inv.
  - unfold getArrives in Hw. destruct (getRequest w q) as [g| |]; try discriminate Hw. cbn [obind] in Hw.
    destruct (gd_reply g); try discriminate Hw. injection Hw as <-. by apply putRequest_inv.
  - unfold getTimesOut in Hw. destruct (getRequest w q) as [g'| |]; try discriminate Hw. cbn [obind] in Hw.
    destruct (gd_reply g'); try discriminate Hw. injection Hw as <- _. by apply putRequest_inv.
  - unfold getReturns in Hw. destruct (getRequest w q) as [g'| |]; try discriminate Hw. cbn [obind] in Hw.
    destruct (gd_reply g'); try discriminate Hw. destruct (chanClose (gd_done g')); try discriminate Hw.
    injection Hw as <- _. by apply putRequest_inv.
  - by eapply request_inv.
  - by eapply replication_inv.
  - by eapply listenStep_inv.
  - by eapply connectStep_inv.
  - by eapply handleMessage_inv.
  - unfold tearDownActor in Hw. destruct (getNode w l) as [r| |]; try discriminate Hw. cbn [obind] in Hw.
    case_in Hw. by eapply tearDown_inv.
  - eapply evolve_inv; [done|done|]. eapply remote_step_evolves; [by eapply iv_nodes|done].
  - by eapply joinStart_inv.
  - by eapply join_step_inv.
  - by eapply verifyOK_step_inv.
Qed.

Lemma newNode_inv (config : ClusteredBigCacheConfig) (cache : option C) (mode : Z) :
  node_inv (newNode config cache mode).
Proof.
  split; cbn.
  - intros l r. by rewrite lookup_empty.
  - intros l r q. by rewrite lookup_empty.
  - intros l [id Hl]. cbn in Hl. by rewrite lookup_empty in Hl.
  - done.
  - split; [constructor|]. intros l Hl. by apply not_elem_of_nil in Hl.
  - intros l n Hl. by apply not_elem_of_nil in Hl.
  - split; [by split|constructor].
  - split; [by split|constructor].
  - by split.
Qed.

Lemma reachable_inv w : reachable w -> node_inv w.
Proof.
  induction 1 as [config clk w Hw|id server port interval timeout threshold|w w' _ IH Hs].
  - unfold New in Hw. destruct (lcNew _ clk) as [[c|e]| |]; try discriminate Hw. injection Hw as <-. apply newNode_inv.
  - apply newNode_inv.
  - by eapply node_step_inv.
Qed.

(** *** What the handshake lets through *)

(** Nothing changed but the remote node at [l], the registry, the pending connections and the tasks;
    names that were registered stay so. *)
Record only_at w w' (l : loc) : Prop := {
  oa_cache : nd_cache w' = nd_cache w;
  oa_config : nd_config w' = nd_config w;
  oa_requests : nd_requests w' = nd_requests w;
  oa_replication : nd_replicationChan w' = nd_replicationChan w;
  oa_gets : nd_getRequestChan w' = nd_getRequestChan w;
  oa_joinQueue : nd_joinQueue w' = nd_joinQueue w;
  oa_nodes : forall l', l' <> l -> nd_nodes w' !! l' = nd_nodes w !! l';
  oa_registry : sli_items (nd_remoteNodes w) ⊆ sli_items (nd_remoteNodes w')
}.

Lemma only_at_refl w (l : loc) : only_at w w l.
Proof. by split. Qed.

Lemma only_at_trans w1 w2 w3 (l : loc) : only_at w1 w2 l -> only_at w2 w3 l -> only_at w1 w3 l.
Proof.
  intros [] []. split; try congruence; [|by etrans].
  intros l' Hl. rewrite oa_nodes1, oa_nodes0; done.
Qed.

Lemma only_at_put w (l : loc) (r : remoteNode) : only_at w (putNode w l r) l.
Proof. split; try done. intros l' Hl. cbn. by rewrite lookup_insert_ne. Qed.

Lemma only_at_sendTo w w' (l : loc) (msg : message) (ev : env) : sendTo w l msg ev = Ret w' -> only_at w w' l.
Proof. intros Hw. unfold sendTo, onNode in Hw. inv_outcome. apply only_at_put. Qed.

Lemma only_at_verify w (l : loc) (r : remoteNode) : only_at w (fst (eventVerifyRemoteNode w l r)) l.
Proof.
  unfold eventVerifyRemoteNode. destruct (sliContains _ _) eqn:E; [apply only_at_refl|]. split; try done. cbn.
  apply insert_subseteq. unfold sliContains in E. apply bool_decide_eq_false in E. by apply eq_None_not_Some.
Qed.

Lemma only_at_handleVerify w w' (l : loc) (msg : NodeWireMessage) (ev : env) (go : bool) :
  handleVerify w l msg ev = Ret (w', go) -> only_at w w' l.
Proof.
  intros Hw. unfold handleVerify in Hw. destruct (DeSerialize zeroVerify msg) as [vm| |]; try discriminate Hw.
  cbn [obind] in Hw. destruct (getNode w l) as [r| |]; try discriminate Hw. cbn [obind] in Hw. cbv zeta in Hw.
  set (r1 := set_rn_mode _ _) in Hw. pose proof (only_at_put w l r1) as H1.
  case_in Hw; [by injection Hw as <- _|]. pose proof (only_at_verify (putNode w l r1) l r1) as H2.
  destruct (eventVerifyRemoteNode _ l r1) as [w2 ok]. cbn [fst] in H2. pose proof (only_at_trans _ _ _ _ H1 H2) as H3.
  case_in Hw; [by injection Hw as <- _|]. destruct (setState _ _) as [r3| |]; try discriminate Hw. cbn [obind] in Hw.
  destruct (sendTo _ l _ ev) as [w3| |] eqn:Es; try discriminate Hw. injection Hw as <- _.
  eapply only_at_trans; [exact H3|]. eapply only_at_trans; [apply only_at_put|by eapply only_at_sendTo].
Qed.

(** ** Claims *)

(** C4. The invariant of a node.  In whatever order the rounds of the goroutines of a node and the calls of its clients
    follow each other, each of them taken as one step, and whatever its peers send: locks are free between rounds, queues hold at most
    their capacity, counters stay within their types, every remote node and request that a list, queue,
    task or other remote node points to exists, a registered peer has passed the verification and is not being
    joined, no remote node is joined twice at a time, the size counter of the registry is right,
    and a peer in the handshake has nothing queued but verification messages. *)
Theorem reachable_node_inv w : reachable w -> node_inv w.
Proof. exact (reachable_inv w). Qed.

(** C10. An unverified peer cannot act.  While a remote node is in the handshake, a round of its
    message handler leaves cache, configuration, requests, queues and all other remote nodes
    as they are, and takes no name from the registry. *)
Theorem unverified_peer_cannot_act w w' (l : loc) (r : remoteNode) (ev : env) (go : bool) :
  reachable w -> nd_nodes w !! l = Some r -> rn_state r = nodeStateHandshake ->
  handleMessage w l ev = Ret (w', go) -> only_at w w' l.
Proof.
  intros Hre Hl Hst Hw. pose proof (reachable_inv w Hre) as H.
  unfold handleMessage, getNode in Hw. rewrite Hl in Hw. cbn [obind] in Hw.
  destruct (chanRecv (rn_inbound r)) as [[c m]| |] eqn:E; try discriminate Hw. cbn [obind fst snd] in Hw.
  destruct (dequeue_evolves r c m (iv_nodes _ H l r Hl) E) as (_ & _ & Hver).
  pose proof (only_at_put w l (set_rn_inbound r c)) as H1. destruct m as [msg|]; [|by injection Hw as <- _].
  eapply only_at_trans; [exact H1|]. unfold handleOne, getNode in Hw. cbn [nd_nodes putNode set_nd_nodes] in Hw.
  rewrite lookup_insert_eq in Hw. cbn [obind rn_state set_rn_inbound] in Hw. rewrite Hst in Hw.
  destruct (Hver msg eq_refl Hst) as [Hc|Hc]; rewrite Hc in Hw; cbn -[handleVerify] in Hw.
  - by eapply only_at_handleVerify.
  - injection Hw as <- _. by split.
Qed.
End Invariant.

(** ** Witnesses and runs of interest *)

(** The state after an operation. *)
Definition afterwards {S A : Type} (s : S) (m : outcome (S * A)) : S :=
  match m with Ret (s', _) => s' | _ => s end.

Definition thereafter {S : Type} (s : S) (m : outcome S) : S :=
  match m with Ret s' => s' | _ => s end.

(** A round at 100 seconds; when both cases of a [select] are ready, the message is sent. *)
Definition at100 : env := Env (100 * Second) 100 (100 * Second) false.

(** The bytes of messages on the wire. *)
Definition wire (m : message) : list byte :=
  match serializeMessage m with Ret w => frameLayout w | _ => [] end.

Definition socket (remote : string) (ms : list message) : tcpConn :=
  TcpConn (word "10.0.0.1:9911") (word remote) (map (fun m => Segment (wire m)) ms) [] true None.

(** The greeting of a node. *)
Definition greeting (id : string) (mode : Z) : message := NVerify (MkVerify (word id) [] (word "9911") mode).

Section Runs.
Context {C : Type} `{!LocalCache C} {platform : Platform}.
Implicit Types w : ClusteredBigCache C.

(** A peer connects. *)
Definition accept w (remote : string) (ms : list message) : ClusteredBigCache C :=
  afterwards w (listenStep w (inl (socket remote ms)) 0 at100).

(** A round of a goroutine of the remote node at [l]. *)
Definition round {A : Type} w (l : loc) (f : remoteNode -> outcome (remoteNode * A)) : ClusteredBigCache C :=
  match nd_nodes w !! l with Some r => putNode w l (afterwards r (f r)) | None => w end.

(** Its consumer reads a message, its handler handles one, its sender writes one. *)
Definition consume w (l : loc) : ClusteredBigCache C := round w l (fun r => consumerStep r 200 0 false).

Definition handle w (l : loc) : ClusteredBigCache C := afterwards w (handleMessage w l at100).

Definition transmit w (l : loc) : ClusteredBigCache C := round w l (fun r => senderStep r two 200).

Lemma reach_after {A : Type} w (m : outcome (ClusteredBigCache C * A)) :
  reachable w -> (forall w' a, m = Ret (w', a) -> node_step w w') -> reachable (afterwards w m).
Proof. intros H Hs. destruct m as [[w' a]| |] eqn:E; [|done|done]. eapply reach_step; [exact H|by eapply Hs]. Qed.

Lemma reach_start w (id : gostring) (li : option gostring) : reachable w -> reachable (afterwards w (Start w id li)).
Proof. intros H. apply reach_after; [done|]. intros w' a. apply st_start. Qed.

Lemma reach_accept w (remote : string) (ms : list message) : reachable w -> reachable (accept w remote ms).
Proof. intros H. apply reach_after; [done|]. intros w' a. apply st_listen. Qed.

Lemma reach_handle w (l : loc) : reachable w -> reachable (handle w l).
Proof. intros H. apply reach_after; [done|]. intros w' a. apply st_handle. Qed.

Lemma reach_round {A : Type} w (l : loc) (f : remoteNode -> outcome (remoteNode * A)) :
  (forall r r' a, f r = Ret (r', a) -> remote_step r r') -> reachable w -> reachable (round w l f).
Proof.
  intros Hf H. unfold round. destruct (nd_nodes w !! l) as [r|] eqn:E; [|done].
  assert (putNode w l r = w) as Hid.
  { destruct w. unfold putNode. cbn in *. f_equal. by rewrite insert_id. }
  destruct (f r) as [[r' a]| |] eqn:Ec; cbn [afterwards]; [|by rewrite Hid..].
  eapply reach_step; [exact H|]. eapply st_remote; [exact E|by eapply Hf].
Qed.

Lemma reach_consume w (l : loc) : reachable w -> reachable (consume w l).
Proof. apply reach_round. intros r r' go. apply rs_consume. Qed.

Lemma reach_transmit w (l : loc) : reachable w -> reachable (transmit w l).
Proof. apply reach_round. intros r r' go. apply rs_send. Qed.
End Runs.

Section Example.
Abbreviation node := (ClusteredBigCache (gmap Z item)).

Definition configA : ClusteredBigCacheConfig := set_cc_Id DefaultClusterConfig (word "A").

Definition nodeA : node := newNode configA (Some ∅) clusterModeACTIVE.

Definition startedA : node := afterwards nodeA (Start nodeA [] None).

Lemma nodeA_reachable : reachable nodeA.
Proof. by apply (reach_new configA clk100). Qed.

(** The location of the first peer. *)
Definition locB : loc := 2%positive.

(** [A] with the greeting of [B] in its queue, and with [B] verified. *)
Definition greetedA : node := consume (accept startedA "10.0.0.2:4711" [greeting "B" clusterModeACTIVE]) locB.

Definition pairedA : node := handle greetedA locB.

Lemma greetedA_reachable : reachable greetedA.
Proof. apply reach_consume, reach_accept, reach_start, nodeA_reachable. Qed.

Lemma pairedA_reachable : reachable pairedA.
Proof. apply reach_handle, greetedA_reachable. Qed.

(** [B] is registered in the end. *)
Lemma reachable_node_inv_witness :
  node_inv pairedA /\ sli_items (nd_remoteNodes pairedA) !! word "B" = Some locB.
Proof. split; [exact (reachable_node_inv pairedA pairedA_reachable)|vm_compute; reflexivity]. Defined.

Lemma unverified_peer_cannot_act_witness : only_at greetedA pairedA locB.
Proof.
  refine (unverified_peer_cannot_act greetedA pairedA locB _ at100 true greetedA_reachable _ _ _).
  1: vm_compute; reflexivity.
  all: vm_compute; reflexivity.
Defined.
End Example.
