(* ===== verification/Replication.v ===== *)
(** * Replication

    What the parts of a node do together: [Put] and [Delete] queue a message for every active peer, the
    queue's goroutine hands it to the remote node, the sender writes its frame, the
    consumer of the peer cuts it out of whatever segments TCP delivers, and the handler stores it in the
    cache of the peer.  The theorems are on any cache that keeps the interface of [Node.v]. *)

From Stdlib Require Import Strings.String.
From stdpp Require Import base decidable countable list gmap.
From Stdlib Require Import ZArith Lia Strings.Byte.
From S2P Require Import Prelude.
From S2P Require Import GoLib.
From S2P Require Import FreeList.
From S2P Require Import Hash.
From S2P Require Import Config.
From S2P Require Import GoTime.
From S2P Require Import Shard.
From S2P Require Import BigCache.
From S2P Require Import Utf8.
From S2P Require Import Message.
From S2P Require Import JsonMessage.
From S2P Require Import SliceList.
From S2P Require Import Chan.
From S2P Require Import Connection.
From S2P Require Import Node.
From S2P Require Import MapCache.
From S2P Require Import RemoteNode.
From S2P Require Import Cluster.
From S2P Require Import ClusterRun.

(** ** The network loops on a connection that works *)

Lemma ReadFull_Some (bs data rest : list byte) (n : Z) :
  0 <= n -> ReadFull bs n = Some (data, rest) -> zlen data = n /\ bs = data ++ rest.
Proof.
  intros Hn. unfold ReadFull. destruct (Z.leb_spec n (zlen bs)); [|discriminate]. intros [= <- <-].
  split; [unfold zlen in *; rewrite length_take; lia|by rewrite take_drop].
Qed.

(** [live] through the fields of a remote node. *)
Definition reads (r : remoteNode) (bs : list byte) : Prop :=
  exists c b, rn_connection r = Some c /\ cn_buffReader c = Some b /\ live c b /\ stream c b = bs.

Lemma readConnection_reads (r : remoteNode) (fuel : nat) (now size : Z) (bs data rest : list byte) :
  reads r bs -> 0 <= size -> ReadFull bs size = Some (data, rest) -> (length bs < fuel)%nat ->
  exists c', readConnection r fuel now size = Ret (set_rn_connection r (Some c'), (data, None)) /\
    reads (set_rn_connection r (Some c')) rest.
Proof.
  intros (c & b & Hc & Hb & Hl & Hs) Hsz Hr Hf. destruct (ReadFull_Some bs data rest size Hsz Hr) as [Hd ->].
  rewrite length_app in Hf. unfold zlen in Hd.
  destruct (ReadData_ok fuel c b now size 0 Hb Hl Hsz) as (c' & d & err & Hrd & _ & Hres); [lia|].
  rewrite Hs, Hr in Hres. destruct Hres as (-> & -> & b' & Hb' & Hl' & Hs').
  exists c'. unfold readConnection. rewrite Hc, Hrd. split; [done|]. by exists c', b'.
Qed.

Lemma readMessage_inv (bs : list byte) (msg : NodeWireMessage) (rest : list byte) :
  readMessage bs = Ret (Some (msg, rest)) ->
  exists header body len s, ReadFull bs 6 = Some (header, body) /\
    sl_getUint 4 header (sl_all header) = Ret len /\ sl_from header (sl_all header) 4 = Ret s /\
    sl_getUint 2 header s = Ret (wm_Code msg) /\
    if u32 (len - 2) >? 0 then ReadFull body (u32 (len - 2)) = Some (wm_Data msg, rest)
    else wm_Data msg = [] /\ rest = body.
Proof.
  unfold readMessage. destruct (ReadFull bs 6) as [[header body]|]; [|discriminate]. intros H.
  destruct (sl_getUint 4 header (sl_all header)) as [len| |] eqn:E1; try discriminate H. cbn [obind] in H.
  destruct (sl_from header (sl_all header) 4) as [s| |] eqn:E2; try discriminate H. cbn [obind] in H.
  destruct (sl_getUint 2 header s) as [code| |] eqn:E3; try discriminate H. cbn [obind] in H.
  exists header, body, len, s. split_and!; try done.
  - destruct (u32 (len - 2) >? 0); [destruct (ReadFull body _) as [[d r]|]; [|discriminate H]|]; injection H as <- _; done.
  - destruct (u32 (len - 2) >? 0); [destruct (ReadFull body _) as [[d r]|]; [|discriminate H]|]; by injection H as <- <-.
Qed.

(** A round of the consumer reads the next message of the stream. *)
Lemma consumerStep_reads (r : remoteNode) (fuel : nat) (now : Z) (pick : bool) (bs : list byte)
    (msg : NodeWireMessage) (rest : list byte) :
  rn_state r = nodeStateConnected \/ rn_state r = nodeStateHandshake ->
  reads r bs -> readMessage bs = Ret (Some (msg, rest)) -> (length bs < fuel)%nat ->
  exists c', reads (set_rn_connection r (Some c')) rest /\
    consumerStep r fuel now pick =
    let! r' := queueInboundMessage (set_rn_connection r (Some c')) msg pick in Ret (r', true).
Proof.
  intros Hst Hrd Hm Hf. destruct (readMessage_inv bs msg rest Hm) as (header & body & len & s & Hh & H1 & H2 & H3 & Hb).
  destruct (readConnection_reads r fuel now 6 bs header body Hrd ltac:(lia) Hh Hf) as (c1 & Hr1 & Hrd1).
  unfold consumerStep. replace ((rn_state r =? nodeStateConnected) || (rn_state r =? nodeStateHandshake)) with true
    by (destruct Hst as [-> | ->]; done).
  rewrite Hr1. cbn [obind]. rewrite H1. cbn [obind]. rewrite H2. cbn [obind]. rewrite H3. cbn [obind].
  destruct (u32 (len - 2) >? 0) eqn:Eu.
  - assert (length body < fuel)%nat as Hf'.
    { destruct (ReadFull_Some bs header body 6 ltac:(lia) Hh) as [_ ->]. rewrite length_app in Hf. lia. }
    destruct (readConnection_reads (set_rn_connection r (Some c1)) fuel now (u32 (len - 2)) body (wm_Data msg) rest Hrd1)
      as (c2 & Hr2 & Hrd2); [zbool; lia|done|done|].
    rewrite Hr2. cbn [obind]. exists c2. split; [exact Hrd2|]. by destruct msg.
  - destruct Hb as [Hd ->]. exists c1. split; [exact Hrd1|]. destruct msg. cbn in *. by rewrite Hd.
Qed.

(** A remote node that takes messages from its peer. *)
Record receiving (r : remoteNode) : Prop := {
  rv_done : ch_closed (rn_done r) = false;
  rv_open : ch_closed (rn_inbound r) = false;
  rv_room : zlen (ch_buf (rn_inbound r)) < ch_cap (rn_inbound r)
}.

Lemma queueInbound_receiving (r : remoteNode) (msg : NodeWireMessage) (pick : bool) :
  receiving r -> rn_state r = nodeStateConnected ->
  queueInboundMessage r msg pick =
  Ret (set_rn_inbound r (Chan (ch_buf (rn_inbound r) ++ [msg]) (ch_cap (rn_inbound r)) false)).
Proof.
  intros [Hd Ho Hr] Hst. unfold queueInboundMessage, selectSend. rewrite Hst, Hd.
  cbn -[chanSend set_rn_inbound]. by rewrite chanSend_Ret.
Qed.

(** A remote node that sends. *)
Record sending (r : remoteNode) : Prop := {
  sg_state : rn_state r <> nodeStateDisconnected;
  sg_done : ch_closed (rn_done r) = false;
  sg_open : ch_closed (rn_outbound r) = false;
  sg_room : zlen (ch_buf (rn_outbound r)) < ch_cap (rn_outbound r)
}.

Lemma sendMessage_sending (r : remoteNode) (m : message) (pick : bool) :
  sending r ->
  sendMessage r m pick = Ret (set_rn_outbound r (Chan (ch_buf (rn_outbound r) ++ [m]) (ch_cap (rn_outbound r)) false)).
Proof.
  intros [Hst Hd Ho Hr]. unfold sendMessage, selectSend. rewrite (proj2 (Z.eqb_neq _ _) Hst), Hd.
  cbn -[chanSend set_rn_outbound]. by rewrite chanSend_Ret.
Qed.

(** A round of the sender writes the frame of the first message of the queue. *)
Lemma senderStep_writes (r : remoteNode) (c : Connection) (m : message) (q : list message) (w : NodeWireMessage)
    (wr : nat -> Z -> Z * option ioError) :
  rn_state r <> nodeStateDisconnected -> ch_buf (rn_outbound r) = m :: q ->
  rn_connection r = Some c -> cn_Usable c = true -> cn_writeLock c = false ->
  writer_ok wr -> (forall i len, snd (wr i len) = None) -> serializeMessage m = Ret w ->
  exists c', senderStep r wr (S (length (frameLayout w))) =
      Ret (set_rn_connection (set_rn_outbound r (Chan q (ch_cap (rn_outbound r)) (ch_closed (rn_outbound r)))) (Some c'), true) /\
    tc_sent (cn_conn c') = tc_sent (cn_conn c) ++ frameLayout w.
Proof.
  intros Hst Hb Hc Hu Hl Hw Hnone Hs. unfold senderStep, chanRecv. rewrite Hb. cbn [obind fst snd].
  cbn [rn_state set_rn_outbound]. rewrite (proj2 (Z.eqb_neq _ _) Hst), Hs. cbn [obind]. rewrite frame_Ret. cbn [obind].
  cbn [rn_connection set_rn_outbound]. rewrite Hc.
  destruct (SendData_ok wr c (frameLayout w) Hw Hu Hl) as (c' & err & n & -> & _ & Ht & Hd & He).
  specialize (He Hnone). subst err. cbn [obind fst snd]. exists c'. split; [done|]. by rewrite Ht, (Hd eq_refl).
Qed.

(** ** Queues *)

Section Queues.
Context {C : Type} `{!LocalCache C} {hasher : Hasher} {platform : Platform}.
Implicit Types w : ClusteredBigCache C.

Definition isActive w (l : loc) : bool :=
  match nd_nodes w !! l with Some r => negb (rn_mode r =? clusterModePASSIVE) | None => false end.

(** The peers that store data, as the registry lists them. *)
Definition activePeers w : list loc :=
  List.filter (isActive w) (map_to_list (sli_items (nd_remoteNodes w))).*2.

Lemma replicate_Ret w (msg : message) (peers : list loc) :
  Forall (has_node w) peers -> ch_closed (nd_replicationChan w) = false ->
  zlen (ch_buf (nd_replicationChan w)) + zlen peers <= ch_cap (nd_replicationChan w) ->
  replicate_ w msg peers =
  Ret (set_nd_replicationChan w
    (Chan (ch_buf (nd_replicationChan w) ++ map (fun l => (l, msg)) (List.filter (isActive w) peers))
       (ch_cap (nd_replicationChan w)) false)).
Proof.
  revert w. induction peers as [|l peers IH]; intros w Hp Ho Hr; cbn [replicate_ List.filter map].
  { rewrite app_nil_r. destruct w as [? ? ? ? ? ? ? ? [b n cl] ? ? ? ? ?]. cbn in *. by subst. }
  inversion Hp as [|? ? [r Hl] Hp']; subst. unfold getNode, isActive at 1. rewrite Hl. cbn [obind].
  rewrite zlen_cons in Hr. pose proof (zlen_nonneg peers).
  destruct (rn_mode r =? clusterModePASSIVE); cbn [negb]; [apply IH; [done|done|lia]|].
  rewrite chanSend_Ret by (done || lia). cbn [obind]. rewrite IH; [|done|done|].
  - cbn [nd_replicationChan set_nd_replicationChan ch_buf ch_cap map]. rewrite <- app_assoc. done.
  - cbn [nd_replicationChan set_nd_replicationChan ch_buf ch_cap]. rewrite zlen_app, zlen_cons, zlen_nil. lia.
Qed.

Lemma zlen_values w : zlen (map_to_list (sli_items (nd_remoteNodes w))).*2 = Z.of_nat (size (sli_items (nd_remoteNodes w))).
Proof. unfold zlen. by rewrite length_fmap, length_map_to_list. Qed.

(** Room in the queue for a message to every peer. *)
Definition roomForAll {A : Type} w (c : chan A) : Prop :=
  ch_closed c = false /\ zlen (ch_buf c) + Z.of_nat (size (sli_items (nd_remoteNodes w))) <= ch_cap c.

Lemma values_Ret w :
  node_inv w -> roomForAll w (nd_replicationChan w) ->
  sliValues (nd_remoteNodes w) = Ret (map_to_list (sli_items (nd_remoteNodes w))).*2.
Proof.
  intros H [_ Hr]. unfold sliValues. rewrite (iv_size _ H). destruct (iv_replication _ H) as [[Hc _] _].
  rewrite Hc in Hr. unfold CHAN_SIZE in Hr. pose proof (zlen_nonneg (ch_buf (nd_replicationChan w))).
  unfold i32. rewrite Z.mod_small by lia. destruct (Z.ltb_spec (Z.of_nat (size (sli_items (nd_remoteNodes w))) + 2 ^ 31 - 2 ^ 31) 0); [lia|done].
Qed.

(** The queueing half of [Put] and [Delete]. *)
Lemma queue_Ret w (msg : message) :
  node_inv w -> roomForAll w (nd_replicationChan w) ->
  exists peers, sliValues (nd_remoteNodes w) = Ret peers /\ replicate_ w msg peers =
  Ret (set_nd_replicationChan w (Chan (ch_buf (nd_replicationChan w) ++ map (fun l => (l, msg)) (activePeers w))
    (ch_cap (nd_replicationChan w)) false)).
Proof.
  intros H Hr. eexists. split; [by apply values_Ret|]. rewrite replicate_Ret; [done| |apply Hr|].
  - apply (registered_nodes w); [done|]. by apply values_Ret.
  - rewrite zlen_values. apply Hr.
Qed.
End Queues.

(** ** A message from node to node *)

Section Travel.
Context {C : Type} `{!LocalCache C} {hasher : Hasher} {platform : Platform}.
Implicit Types w : ClusteredBigCache C.

Lemma getNode_Ret w (l : loc) (r : remoteNode) : nd_nodes w !! l = Some r -> getNode w l = Ret r.
Proof. unfold getNode. by intros ->. Qed.

Lemma getNode_put w (l : loc) (r : remoteNode) : getNode (putNode w l r) l = Ret r.
Proof. apply getNode_Ret. unfold putNode. cbn. apply lookup_insert_eq. Qed.

Lemma sendTo_sending w (l : loc) (r : remoteNode) (m : message) (ev : env) :
  nd_nodes w !! l = Some r -> sending r ->
  sendTo w l m ev =
  Ret (putNode w l (set_rn_outbound r (Chan (ch_buf (rn_outbound r) ++ [m]) (ch_cap (rn_outbound r)) false))).
Proof.
  intros Hl Hs. unfold sendTo, onNode. rewrite (getNode_Ret w l r Hl). cbn [obind].
  by rewrite (sendMessage_sending r m (ev_pick ev) Hs).
Qed.

(** The sending side is ready: the message is the first of the queue, the outbound queue of the
    remote node is empty, its connection works and its socket takes what it is given. *)
Record departs w (l : loc) (m : message) (wr : nat -> Z -> Z * option ioError) (c : Connection) : Prop := {
  dp_queue : exists q, ch_buf (nd_replicationChan w) = (l, m) :: q;
  dp_node : exists r, nd_nodes w !! l = Some r /\ sending r /\ ch_buf (rn_outbound r) = [] /\ rn_connection r = Some c;
  dp_conn : cn_Usable c = true /\ cn_writeLock c = false;
  dp_writer : writer_ok wr /\ forall i len, snd (wr i len) = None
}.

(** A round of the queue's goroutine and one of the sender write the bytes to the connection. *)
Definition sends w (l : loc) (wr : nat -> Z -> Z * option ioError) (c : Connection) (ev : env) (bytes : list byte) : Prop :=
  exists w' r r' c', replication w ev = Ret (w', true) /\ nd_nodes w' !! l = Some r /\
    senderStep r wr (S (length bytes)) = Ret (r', true) /\
    rn_connection r' = Some c' /\ tc_sent (cn_conn c') = tc_sent (cn_conn c) ++ bytes.

Lemma departs_sent w (l : loc) (m : message) wr (c : Connection) (wm : NodeWireMessage) (ev : env) :
  departs w l m wr c -> serializeMessage m = Ret wm -> sends w l wr c ev (frameLayout wm).
Proof.
  intros [[q Hq] (r & Hr & Hs & Hb & Hc) [Hu Hl] [Hw Hn]] Hm.
  unfold sends, replication, chanRecv. rewrite Hq. cbn [obind fst snd].
  rewrite (sendTo_sending _ l r m ev); [|done|done]. cbn [obind]. rewrite Hb. cbn [app].
  set (r1 := set_rn_outbound r _).
  destruct (senderStep_writes r1 c m [] wm wr) as (c' & Hstep & Ht); try done; [apply Hs|].
  eexists _, r1, _, c'. split; [reflexivity|]. split; [by apply lookup_insert_eq|]. split; [exact Hstep|]. done.
Qed.

(** The receiving side is ready: verified, with an empty queue, and a connection that has the bytes. *)
Record awaits w (l : loc) (r : remoteNode) (bytes : list byte) : Prop := {
  aw_node : nd_nodes w !! l = Some r;
  aw_state : rn_state r = nodeStateConnected;
  aw_queue : receiving r /\ ch_buf (rn_inbound r) = [];
  aw_bytes : reads r bytes
}.

(** A round of the consumer and one of the handler lead to [v'], with the rest of the bytes unread. *)
Definition takes w (l : loc) (r : remoteNode) (bytes rest : list byte) (now : Z) (pick : bool) (ev : env)
    (v' : ClusteredBigCache C) : Prop :=
  exists r', consumerStep r (S (length (bytes ++ rest))) now pick = Ret (r', true) /\ reads r' rest /\
    handleMessage (putNode w l r') l ev = Ret (v', true).

(** The consumer hands the message to the handler. *)
Lemma awaits_takes w (v' : remoteNode -> ClusteredBigCache C) (l : loc) (r : remoteNode) (wm : NodeWireMessage) (rest : list byte) (now : Z)
    (pick : bool) (ev : env) :
  awaits w l r (frameLayout wm ++ rest) -> wire_ok wm ->
  (forall r'', rn_state r'' = nodeStateConnected -> rn_outbound r'' = rn_outbound r -> rn_done r'' = rn_done r ->
     rn_pendingGet r'' = rn_pendingGet r -> handleOne (putNode w l r'') l wm ev = Ret (v' r'', true)) ->
  exists r'', takes w l r (frameLayout wm) rest now pick ev (v' r'').
Proof.
  intros [Hl Hst [Hrv Hb] Hrd] Hw Hh.
  destruct (consumerStep_reads r (S (length (frameLayout wm ++ rest))) now pick (frameLayout wm ++ rest) wm rest (or_introl Hst) Hrd
    (readMessage_frame wm rest Hw) ltac:(lia)) as (c' & Hrd' & Hcs).
  assert (receiving (set_rn_connection r (Some c'))) as Hrv' by (by destruct Hrv).
  rewrite (queueInbound_receiving _ wm pick Hrv' Hst) in Hcs. cbn [obind rn_inbound set_rn_connection] in Hcs. rewrite Hb in Hcs.
  eexists _, _. split; [exact Hcs|]. split; [exact Hrd'|].
  unfold handleMessage. rewrite getNode_put. cbn [obind chanRecv rn_inbound set_rn_inbound ch_buf fst snd app].
  rewrite putNode_put. by apply Hh.
Qed.

(** The handler of a verified peer chooses by the code. *)
Lemma handleOne_code w (l : loc) (r : remoteNode) (wm : NodeWireMessage) (ev : env) :
  nd_nodes w !! l = Some r -> rn_state r = nodeStateConnected ->
  (wm_Code wm = MsgPUT -> handleOne w l wm ev = let! v := handlePut w wm ev in Ret (v, true)) /\
  (wm_Code wm = MsgDEL -> handleOne w l wm ev = let! v := handleDelete w wm ev in Ret (v, true)) /\
  (wm_Code wm = MsgGETReq -> handleOne w l wm ev = let! v := handleGetRequest w l wm ev in Ret (v, true)) /\
  (wm_Code wm = MsgGETRsp -> handleOne w l wm ev = let! v := handleGetResponse w l wm in Ret (v, true)).
Proof.
  intros Hl Hst. unfold handleOne. rewrite (getNode_Ret w l r Hl). cbn [obind]. rewrite Hst. split_and!; intros ->; reflexivity.
Qed.
End Travel.

(** ** Claims *)

Section Claims.
Context {C : Type} `{!LocalCache C} {hasher : Hasher} {platform : Platform}.
Context {rep : C -> gmap Z item -> Prop} {can_set : C -> gostring -> list byte -> Z -> Z -> Z -> Prop}.
Context {can_delete : C -> Z -> Prop} {settled : C -> Prop} `{!LocalCacheLaws C rep can_set can_delete settled}.
Implicit Types w : ClusteredBigCache C.

Lemma Put_stores w (c : C) (m : gmap Z item) (key : gostring) (data : list byte) (d : Z) (ev : env) :
  node_inv w -> nd_state w = clusterStateStarted -> nd_mode w = clusterModeACTIVE ->
  nd_cache w = Some c -> rep c m -> can_set c key data d (ev_epoch ev) (ev_now ev) ->
  roomForAll w (nd_replicationChan w) ->
  exists c' e, lcSet c key data d (ev_epoch ev) (ev_now ev) = Ret (c', (e, None)) /\
    Put w key data d ev =
    Ret (set_nd_replicationChan (set_nd_cache w (Some c'))
      (Chan (ch_buf (nd_replicationChan w) ++ map (fun l => (l, NPut (MkPut 0 key e data))) (activePeers w))
         (ch_cap (nd_replicationChan w)) false), None) /\
    (settled c' -> e = expiryOf (ev_epoch ev) d /\
       rep c' (<[Sum64 key := Item (expiryOf (ev_epoch ev) d) key data]> m)).
Proof.
  intros H Hst Hm Hc Hrep Hset Hr.
  destruct (lc_set c m key data d (ev_epoch ev) (ev_now ev) Hrep Hset) as (c' & e & Hs & Hrep').
  exists c', e. split; [done|]. split; [|done]. unfold Put. rewrite Hst, Hm. cbn [negb Z.eqb clusterStateStarted Pos.eqb].
  unfold withCache. rewrite Z.eqb_refl, Hc, Hs. cbn [obind fst snd].
  destruct (queue_Ret (set_nd_cache w (Some c')) (NPut (MkPut 0 key e data))) as (peers & Hv & Hq); [|done|].
  { apply (same_inv w); try done. apply H. }
  rewrite Hv. cbn [obind]. by rewrite Hq.
Qed.

Lemma DeleteKey_deletes w (c : C) (m : gmap Z item) (key : gostring) (ev : env) :
  node_inv w -> nd_state w = clusterStateStarted -> nd_mode w = clusterModeACTIVE ->
  nd_cache w = Some c -> rep c m -> can_delete c (ev_now ev) ->
  roomForAll w (nd_replicationChan w) ->
  exists c' e, lcDelete c key (ev_now ev) = Ret (c', e) /\
    DeleteKey w key ev =
    Ret (set_nd_replicationChan (set_nd_cache w (Some c'))
      (Chan (ch_buf (nd_replicationChan w) ++ map (fun l => (l, NDelete (MkDelete 0 key))) (activePeers w))
         (ch_cap (nd_replicationChan w)) false), None) /\
    rep c' (delete (Sum64 key) m).
Proof.
  intros H Hst Hm Hc Hrep Hdel Hr. destruct (lc_delete c m key (ev_now ev) Hrep Hdel) as (c' & e & Hs & Hrep').
  exists c', e. split; [done|]. split; [|done]. unfold DeleteKey. rewrite Hst, Hm. cbn [negb Z.eqb clusterStateStarted Pos.eqb].
  unfold withCache. rewrite Z.eqb_refl, Hc, Hs. cbn [obind fst snd].
  destruct (queue_Ret (set_nd_cache w (Some c')) (NDelete (MkDelete 0 key))) as (peers & Hv & Hq); [|done|].
  { apply (same_inv w); try done. apply H. }
  rewrite Hv. cbn [obind]. by rewrite Hq.
Qed.

(** C16. [Put] stores and queues.  On a started node that stores data, with a cache that can take the item and room in the queue, [Put] returns no error
    and queues a put message, once for every registration of a peer that stores data, behind what was queued; nothing but the
    cache and the queue changes.  Unless a full shard left the cache locked, the item is in the local cache and the
    messages carry the expiry it was stored with. *)
Theorem put_stores_and_queues w (c : C) (m : gmap Z item) (key : gostring) (data : list byte) (d : Z) (ev : env) :
  reachable w -> nd_state w = clusterStateStarted -> nd_mode w = clusterModeACTIVE ->
  nd_cache w = Some c -> rep c m -> can_set c key data d (ev_epoch ev) (ev_now ev) ->
  roomForAll w (nd_replicationChan w) ->
  exists c' e, Put w key data d ev =
    Ret (set_nd_replicationChan (set_nd_cache w (Some c'))
      (Chan (ch_buf (nd_replicationChan w) ++ map (fun l => (l, NPut (MkPut 0 key e data))) (activePeers w))
         (ch_cap (nd_replicationChan w)) false), None) /\
    (settled c' -> e = expiryOf (ev_epoch ev) d /\
       rep c' (<[Sum64 key := Item (expiryOf (ev_epoch ev) d) key data]> m)).
Proof.
  intros Hre Hst Hm Hc Hrep Hset Hr.
  destruct (Put_stores w c m key data d ev (reachable_inv w Hre) Hst Hm Hc Hrep Hset Hr) as (c' & e & _ & Hput & Hs). eauto.
Qed.

(** The duration a replica is stored with. *)
Definition replicaDuration (expiry now : Z) : Z := if expiry =? 0 then 0 else timeSub (i64 expiry) now.

(** C5. A put reaches the cache of the peer.  Once a put message, with a key of less than 65526 bytes, is queued for a peer, the queue's
    goroutine and the sender write its frame to the connection; and any node that finds the frame at the
    head of what it reads from a verified peer, in segments cut anywhere, handles it and reads on behind it: if its cache can
    take the item and is not left locked by a full shard, the item is stored in it, with the expiry computed from the one it was sent. *)
Theorem put_reaches_peer w (l : loc) (pm : PutMessage) (wm : NodeWireMessage) (wr : nat -> Z -> Z * option ioError)
    (conn : Connection) (ev : env) :
  departs w l (NPut pm) wr conn -> put_wf pm ->
  serializeMessage (NPut pm) = Ret wm -> zlen (wm_Data wm) + 2 < 2 ^ 32 ->
  sends w l wr conn ev (frameLayout wm) /\
    forall v k r rest c m now pick ev',
      awaits v k r (frameLayout wm ++ rest) -> nd_cache v = Some c -> rep c m ->
      let d := replicaDuration (pm_Expiry pm) (ev_time ev') in
      can_set c (pm_Key pm) (pm_Data pm) d (ev_epoch ev') (ev_now ev') ->
      exists v' c', takes v k r (frameLayout wm) rest now pick ev' v' /\ nd_cache v' = Some c' /\
        (settled c' -> rep c' (<[Sum64 (pm_Key pm) := Item (expiryOf (ev_epoch ev') d) (pm_Key pm) (pm_Data pm)]> m)).
Proof.
  intros Hd [He Hk] Hs Hlen. split; [by eapply departs_sent|].
  assert (wm = WireMessage MsgPUT (putLayout (pm_Expiry pm) (pm_Key pm) (pm_Data pm))) as ->.
  { change (serializeMessage (NPut pm)) with (PutMessage_Serialize pm) in Hs. rewrite put_Serialize_Ret in Hs. by injection Hs as <-. }
  clear Hs. set (wm := WireMessage _ _) in *.
  intros v k r rest c m now pick ev' Haw Hc Hrep d Hset.
  destruct (lc_set c m (pm_Key pm) (pm_Data pm) d (ev_epoch ev') (ev_now ev') Hrep Hset) as (c' & e & Hl & Hrep').
  destruct (awaits_takes v (fun r'' => set_nd_cache (putNode v k r'') (Some c')) k r wm rest now pick ev' Haw) as [r'' Ht].
  - by split.
  - intros r'' Hst _ _ _. rewrite (proj1 (handleOne_code (putNode v k r'') k r'' wm ev' (lookup_insert_eq _ _ _) Hst) eq_refl). unfold handlePut.
    change (DeSerialize zeroPut wm) with (PutMessage_DeSerialize zeroPut wm). unfold wm at 1.
    rewrite (put_DeSerialize_Ret zeroPut MsgPUT _ _ (pm_Data pm) He Hk). cbn [obind pm_Expiry pm_Key pm_Data].
    unfold withCache. cbn [nd_cache putNode set_nd_nodes].
    fold (replicaDuration (pm_Expiry pm) (ev_time ev')). fold d. rewrite Hc, Hl. reflexivity.
  - eexists _, c'. split; [exact Ht|]. split; [done|]. intros Hse. apply (Hrep' Hse).
Qed.

(** C20. A deletion reaches the cache of the peer: the same for the delete message, whose key must be
    valid UTF-8. *)
Theorem delete_reaches_peer w (l : loc) (key : gostring) (wm : NodeWireMessage) (wr : nat -> Z -> Z * option ioError)
    (conn : Connection) (ev : env) :
  departs w l (NDelete (MkDelete 0 key)) wr conn -> validUTF8 key = true ->
  serializeMessage (NDelete (MkDelete 0 key)) = Ret wm -> zlen (wm_Data wm) + 2 < 2 ^ 32 ->
  sends w l wr conn ev (frameLayout wm) /\
    forall v k r rest c m now pick ev',
      awaits v k r (frameLayout wm ++ rest) -> nd_cache v = Some c -> rep c m -> can_delete c (ev_now ev') ->
      exists v' c', takes v k r (frameLayout wm) rest now pick ev' v' /\ nd_cache v' = Some c' /\ rep c' (delete (Sum64 key) m).
Proof.
  intros Hd Hk Hs Hlen. split; [by eapply departs_sent|].
  intros v k r rest c m now pick ev' Haw Hc Hrep Hdel.
  destruct (lc_delete c m key (ev_now ev') Hrep Hdel) as (c' & e & Hl & Hrep').
  assert (wm_Code wm = MsgDEL) as Hcode by (by injection Hs as <-).
  destruct (awaits_takes v (fun r'' => set_nd_cache (putNode v k r'') (Some c')) k r wm rest now pick ev' Haw) as [r'' Ht].
  - split; [by rewrite Hcode|done].
  - intros r'' Hst _ _ _. rewrite (proj1 (proj2 (handleOne_code (putNode v k r'') k r'' wm ev' (lookup_insert_eq _ _ _) Hst)) Hcode). unfold handleDelete.
    change (DeSerialize zeroDelete wm) with (DeleteMessage_DeSerialize zeroDelete wm).
    rewrite (delete_DeSerialize _ zeroDelete wm Hs). cbn [obind dm_Key]. rewrite (proj2 (recode_valid key) Hk).
    unfold withCache. cbn [nd_cache putNode set_nd_nodes]. rewrite Hc, Hl. reflexivity.
  - eexists _, c'. split; [exact Ht|]. done.
Qed.
End Claims.

(** ** Witnesses *)

(** The node [A] of [ClusterRun.v] with its greeting sent. *)
Definition quietA : ClusteredBigCache (gmap Z item) := transmit (transmit pairedA locB) locB.

Lemma quietA_reachable : reachable quietA.
Proof. apply reach_transmit, reach_transmit, pairedA_reachable. Qed.

Lemma put_stores_and_queues_witness :
  activePeers quietA = [locB] /\
  exists c' e, Put quietA keyK valV 0 at100 =
    Ret (set_nd_replicationChan (set_nd_cache quietA (Some c'))
      (Chan (ch_buf (nd_replicationChan quietA) ++ map (fun l => (l, NPut (MkPut 0 keyK e valV))) (activePeers quietA))
         (ch_cap (nd_replicationChan quietA)) false), None) /\
    (anyState c' -> e = expiryOf 100 0 /\ c' = <[Sum64 keyK := Item (expiryOf 100 0) keyK valV]> ∅).
Proof.
  split; [vm_compute; reflexivity|].
  apply (put_stores_and_queues quietA ∅ ∅ keyK valV 0 at100 quietA_reachable); try exact I; vm_compute; try reflexivity.
  split; [reflexivity|discriminate].
Defined.

Section RealNodes.
Abbreviation cache := (BigCache (gmap Z loc) (gmap Z (gset gostring))).
Abbreviation node := (ClusteredBigCache cache).

(** A node with a cache of package [bigcache], and a verified peer that sends the messages. *)
Definition nodeR : node := newNode configA (Some cache2) clusterModeACTIVE.

Definition hearing (ms : list message) : node :=
  let w := afterwards nodeR (Start nodeR [] None) in
  handle (consume (accept w "10.0.0.2:4711" (greeting "B" clusterModeACTIVE :: ms)) locB) locB.

(** The same peer with an operation queued for it. *)
Definition quietR : node := transmit (transmit (hearing []) locB) locB.

Definition putR : node := afterwards quietR (Put quietR keyK valV 0 at100).

Definition deleteR : node := afterwards quietR (DeleteKey quietR keyK at100).

(** The connection to the peer. *)
Definition connB (w : node) : Connection :=
  match r ← nd_nodes w !! locB; rn_connection r with Some c => c | None => freshConnection (socket "" []) [] end.

Definition remoteB (w : node) : remoteNode :=
  match nd_nodes w !! locB with Some r => r | None => newRemoteNode (MkNodeConfig [] [] 0 0 0 0 [] false false) end.

Definition putK : PutMessage := MkPut 0 keyK 0 valV.

Lemma departsR (w : node) (m : message) :
  match ch_buf (nd_replicationChan w) with (l, x) :: _ => l = locB /\ x = m | [] => False end ->
  nd_nodes w !! locB = Some (remoteB w) -> rn_connection (remoteB w) = Some (connB w) ->
  ((rn_state (remoteB w) =? nodeStateConnected) && negb (ch_closed (rn_done (remoteB w))) &&
   negb (ch_closed (rn_outbound (remoteB w))) && (ch_cap (rn_outbound (remoteB w)) =? CHAN_SIZE) &&
   cn_Usable (connB w) && negb (cn_writeLock (connB w))) = true ->
  ch_buf (rn_outbound (remoteB w)) = [] -> departs w locB m two (connB w).
Proof.
  intros Hq Hr Hc Hb Ho. rewrite !andb_true_iff, !negb_true_iff, !Z.eqb_eq in Hb.
  destruct Hb as [[[[[Hst Hd] Hout] Hcap] Hu] Hl]. split.
  - destruct (ch_buf (nd_replicationChan w)) as [|[l x] q]; [done|]. destruct Hq as [-> ->]. by exists q.
  - exists (remoteB w). split_and!; try done. split; [by rewrite Hst|done|done|]. rewrite Ho, Hcap. done.
  - done.
  - split; [exact two_ok|]. done.
Qed.

Lemma awaitsR (w : node) (bytes : list byte) :
  nd_nodes w !! locB = Some (remoteB w) -> rn_connection (remoteB w) = Some (connB w) ->
  rn_state (remoteB w) = nodeStateConnected ->
  rn_done (remoteB w) = makeChan 0 -> rn_inbound (remoteB w) = makeChan CHAN_SIZE ->
  cn_buffReader (connB w) = Some (BufReader [] None) ->
  (cn_Usable (connB w) && tc_open (cn_conn (connB w))) = true ->
  tc_arrivals (cn_conn (connB w)) = [Segment bytes] -> bytes <> [] -> awaits w locB (remoteB w) bytes.
Proof.
  intros Hn Hc Hst Hd Hi Hb Hu Ha Hne. apply andb_true_iff in Hu as [Hu Ho]. split; [done|done| |].
  - rewrite Hi. split; [split; rewrite ?Hd, ?Hi; done|done].
  - exists (connB w), (BufReader [] None). split_and!; [done|done|split; rewrite ?Ha; auto|].
    unfold stream. rewrite Ha. cbn. apply app_nil_r.
Qed.

(** The frames of the two messages. *)
Definition wireOf (m : message) : NodeWireMessage :=
  match serializeMessage m with Ret wm => wm | _ => WireMessage 0 [] end.

Lemma put_reaches_peer_witness :
  sends putR locB two (connB putR) at100 (frameLayout (wireOf (NPut putK))) /\
  exists v' c', takes (hearing [NPut putK]) locB (remoteB (hearing [NPut putK])) (frameLayout (wireOf (NPut putK))) [] 0 false at100 v' /\
    nd_cache v' = Some c' /\
    (unlocked c' -> bigcache_rep c' (<[Sum64 keyK := Item (expiryOf 100 0) keyK valV]> ∅)).
Proof.
  destruct (put_reaches_peer putR locB putK (wireOf (NPut putK)) two (connB putR) at100) as [Hs Ht].
  - apply departsR; vm_compute; auto.
  - split; vm_compute; auto. split; [discriminate|reflexivity].
  - vm_compute. reflexivity.
  - vm_compute. reflexivity.
  - split; [exact Hs|].
    refine (Ht (hearing [NPut putK]) locB (remoteB (hearing [NPut putK])) [] cache2 ∅ 0 false at100 _ eq_refl _ cache2_set_ok).
    + rewrite app_nil_r. apply awaitsR; try (vm_compute; reflexivity). discriminate.
    + exists 1. exact cache2_rep.
Defined.

Lemma delete_reaches_peer_witness :
  sends deleteR locB two (connB deleteR) at100 (frameLayout (wireOf (NDelete (MkDelete 0 keyK)))) /\
  exists v' c', takes (hearing [NDelete (MkDelete 0 keyK)]) locB (remoteB (hearing [NDelete (MkDelete 0 keyK)]))
      (frameLayout (wireOf (NDelete (MkDelete 0 keyK)))) [] 0 false at100 v' /\
    nd_cache v' = Some c' /\ bigcache_rep c' (delete (Sum64 keyK) ∅).
Proof.
  destruct (delete_reaches_peer deleteR locB keyK (wireOf (NDelete (MkDelete 0 keyK))) two (connB deleteR) at100) as [Hs Ht].
  - apply departsR; vm_compute; auto.
  - reflexivity.
  - vm_compute. reflexivity.
  - vm_compute. reflexivity.
  - split; [exact Hs|].
    refine (Ht (hearing [NDelete (MkDelete 0 keyK)]) locB (remoteB (hearing [NDelete (MkDelete 0 keyK)])) [] cache2 ∅ 0 false at100
      _ eq_refl _ cache2_clock).
    + rewrite app_nil_r. apply awaitsR; try (vm_compute; reflexivity). discriminate.
    + exists 1. exact cache2_rep.
Defined.
End RealNodes.
