(* ===== verification/ReplicationOrder.v ===== *)
(** * The order of replication

    [Start] runs five goroutines over one queue of operations.  Each takes a message and hands it to the
    remote node in two steps, and another goroutine can pass it in between.  Nothing is lost or sent
    twice, and a peer that handles the operations in the order they were made holds what the
    node holds; but two operations on a key can overtake each other, and then it does not. *)

From Stdlib Require Import Strings.String.
From stdpp Require Import base decidable countable list gmap relations.
From Stdlib Require Import ZArith Lia Strings.Byte.
From S2P Require Import Prelude.
From S2P Require Import GoLib.
From S2P Require Import FreeList.
From S2P Require Import Hash.
From S2P Require Import Config.
From S2P Require Import GoTime.
From S2P Require Import Shard.
From S2P Require Import BigCache.
From S2P Require Import Utf8.
From S2P Require Import Message.
From S2P Require Import JsonMessage.
From S2P Require Import SliceList.
From S2P Require Import Chan.
From S2P Require Import Connection.
From S2P Require Import Node.
From S2P Require Import MapCache.
From S2P Require Import RemoteNode.
From S2P Require Import Cluster.
From S2P Require Import ClusterRun.
From S2P Require Import Replication.

(** ** The goroutines *)

Section Replicators.
Context {C : Type} `{!LocalCache C} {platform : Platform}.
Implicit Types w : ClusteredBigCache C.

(** The receive of the [range] loop of [replication]. *)
Definition replicationTake w : outcome (ClusteredBigCache C * option (loc * message)) :=
  let! cv := chanRecv (nd_replicationChan w) in
  Ret (set_nd_replicationChan w (fst cv), snd cv).

(** The body of the loop. *)
Definition replicationSend w (msg : option (loc * message)) (ev : env) : outcome (ClusteredBigCache C * bool) :=
  match msg with
  | None => Ret (w, false)
  | Some (l, m) => let! w := sendTo w l m ev in Ret (w, true)
  end.

Lemma replication_halves w (ev : env) :
  replication w ev = let! wm := replicationTake w in replicationSend (fst wm) (snd wm) ev.
Proof. unfold replication, replicationTake. by destruct (chanRecv (nd_replicationChan w)) as [[q [[l m]|]]| |]. Qed.

(** A node with its replication goroutines, each of them waiting at the queue or holding a message. *)
Record replicators : Type := Replicators {
  rp_node : ClusteredBigCache C;
  rp_hands : list (option (loc * message))
}.

(** The goroutines as [Start] launches them. *)
Definition startReplicators w : replicators := Replicators w (replicate 5 None).

Inductive replicator_step : replicators -> replicators -> Prop :=
| replicator_takes i w w' h lm :
    h !! i = Some None -> replicationTake w = Ret (w', Some lm) ->
    replicator_step (Replicators w h) (Replicators w' (<[i := Some lm]> h))
| replicator_sends i w w' h lm ev :
    h !! i = Some (Some lm) -> replicationSend w (Some lm) ev = Ret (w', true) ->
    replicator_step (Replicators w h) (Replicators w' (<[i := None]> h)).

(** The messages of a list that go to a peer. *)
Definition messagesTo (l : loc) (q : list (loc * message)) : list message :=
  omap (fun lm => if bool_decide (fst lm = l) then Some (snd lm) else None) q.

Definition outboundOf w (l : loc) : list message :=
  match nd_nodes w !! l with Some r => ch_buf (rn_outbound r) | None => [] end.

(** All that is on its way to a peer: handed over, held by a goroutine, or in the queue. *)
Definition underway (s : replicators) (l : loc) : list message :=
  outboundOf (rp_node s) l ++ messagesTo l (omap id (rp_hands s)) ++
  messagesTo l (ch_buf (nd_replicationChan (rp_node s))).

(** A remote node that takes messages, as long as there is room. *)
Definition listens (r : remoteNode) : Prop :=
  rn_state r <> nodeStateDisconnected /\ ch_closed (rn_done r) = false /\ ch_closed (rn_outbound r) = false.

Definition listensAt w (l : loc) : Prop := exists r, nd_nodes w !! l = Some r /\ listens r.

Lemma messagesTo_app l q q' : messagesTo l (q ++ q') = messagesTo l q ++ messagesTo l q'.
Proof. apply omap_app. Qed.

Lemma replicationTake_inv w w' lm :
  replicationTake w = Ret (w', Some lm) ->
  nd_nodes w' = nd_nodes w /\ ch_buf (nd_replicationChan w) = lm :: ch_buf (nd_replicationChan w').
Proof.
  unfold replicationTake, chanRecv. destruct (ch_buf (nd_replicationChan w)) as [|x q].
  - by destruct (ch_closed _).
  - cbn. by intros [= <- <-].
Qed.

(** Handing over changes the outbound queue of one remote node. *)
Lemma sendMessage_listens (r r' : remoteNode) (m : message) (pick : bool) :
  listens r -> sendMessage r m pick = Ret r' ->
  r' = set_rn_outbound r (Chan (ch_buf (rn_outbound r) ++ [m]) (ch_cap (rn_outbound r)) false) /\ listens r'.
Proof.
  intros (Hst & Hd & Ho). unfold sendMessage, selectSend, chanSend. rewrite (proj2 (Z.eqb_neq _ _) Hst), Hd, Ho.
  cbn -[set_rn_outbound]. destruct (chanFull (rn_outbound r)); cbn -[set_rn_outbound]; [discriminate|]. by intros [= <-].
Qed.

Lemma sendTo_Ret_inv w w' k m ev :
  sendTo w k m ev = Ret w' ->
  exists r r', nd_nodes w !! k = Some r /\ sendMessage r m (ev_pick ev) = Ret r' /\ w' = putNode w k r'.
Proof.
  unfold sendTo, onNode. destruct (getNode w k) as [r| |] eqn:E; cbn [obind]; try discriminate.
  apply getNode_Some in E. destruct (sendMessage r m (ev_pick ev)) as [r'| |] eqn:E'; cbn [obind]; [|discriminate..].
  intros [= <-]. eauto.
Qed.

(** What a send does to the messages of a peer that listens. *)
Lemma replicationSend_to w w' k m ev l :
  replicationSend w (Some (k, m)) ev = Ret (w', true) -> listensAt w l ->
  nd_replicationChan w' = nd_replicationChan w /\ listensAt w' l /\
  outboundOf w' l = outboundOf w l ++ messagesTo l [(k, m)].
Proof.
  cbn [replicationSend]. destruct (sendTo w k m ev) as [w1| |] eqn:E; cbn [obind]; [|discriminate..]. intros [= ->] (r & Hr & Hl).
  destruct (sendTo_Ret_inv _ _ _ _ _ E) as (rk & rk' & Hk & Hs & ->). split; [done|].
  unfold outboundOf, listensAt, messagesTo. cbn [putNode nd_nodes set_nd_nodes omap list_omap fst snd].
  destruct (decide (k = l)) as [->|Hne].
  - rewrite Hr in Hk. injection Hk as <-. destruct (sendMessage_listens _ _ _ _ Hl Hs) as [-> Hl'].
    rewrite lookup_insert_eq, Hr, bool_decide_true by done. split; [eauto|done].
  - rewrite lookup_insert_ne, Hr, bool_decide_false by done. rewrite app_nil_r. split; [eauto|done].
Qed.

Lemma omap_insert_permutation {A : Type} (h : list (option A)) i (x : A) :
  h !! i = Some None -> omap id (<[i := Some x]> h) ≡ₚ x :: omap id h.
Proof.
  intros Hi. rewrite <- (take_drop_middle h i None Hi), insert_app_r_alt.
  - rewrite length_take_le by (apply lookup_lt_Some in Hi; lia). rewrite Nat.sub_diag. cbn [list_insert insert].
    rewrite !omap_app. cbn. by rewrite Permutation_middle.
  - rewrite length_take. lia.
Qed.

Lemma omap_delete_permutation {A : Type} (h : list (option A)) i (x : A) :
  h !! i = Some (Some x) -> x :: omap id (<[i := None]> h) ≡ₚ omap id h.
Proof.
  intros Hi. pose proof (lookup_lt_Some _ _ _ Hi). rewrite <- (omap_insert_permutation _ i x); [|by apply list_lookup_insert_eq].
  by rewrite list_insert_insert_eq, list_insert_id.
Qed.

Lemma messagesTo_permutation l q q' : q ≡ₚ q' -> messagesTo l q ≡ₚ messagesTo l q'.
Proof. intros H. unfold messagesTo. by rewrite H. Qed.

Lemma replicator_step_underway s s' l :
  replicator_step s s' -> listensAt (rp_node s) l ->
  listensAt (rp_node s') l /\ underway s' l ≡ₚ underway s l.
Proof.
  intros Hs Hl. unfold underway. destruct Hs as [i w w' h lm Hi Ht|i w w' h [k m] ev Hi Ht]; cbn [rp_node rp_hands] in *.
  - destruct (replicationTake_inv _ _ _ Ht) as [Hn Hq]. unfold listensAt, outboundOf in *. rewrite Hn, Hq. split; [done|].
    apply Permutation_app_head. rewrite <- !messagesTo_app. apply messagesTo_permutation.
    rewrite (omap_insert_permutation h i lm Hi). by rewrite <- Permutation_middle.
  - destruct (replicationSend_to _ _ _ _ _ l Ht Hl) as (Hq & Hl' & Ho). split; [done|]. rewrite Hq, Ho, <- app_assoc.
    apply Permutation_app_head. rewrite app_assoc, <- messagesTo_app. apply Permutation_app_tail, messagesTo_permutation.
    by apply omap_delete_permutation.
Qed.

(** Whole rounds of one goroutine. *)
Definition replication_round w w' : Prop := exists ev, replication w ev = Ret (w', true).

Lemma replication_round_underway w w' l :
  replication_round w w' -> listensAt w l ->
  listensAt w' l /\ underway (startReplicators w') l = underway (startReplicators w) l.
Proof.
  intros [ev Hr] Hl. rewrite replication_halves in Hr.
  destruct (replicationTake w) as [[w1 [[k m]|]]| |] eqn:E; cbn [obind fst snd] in Hr; try discriminate.
  destruct (replicationTake_inv _ _ _ E) as [Hn Hq].
  destruct (replicationSend_to _ _ _ _ _ l Hr) as (Hq' & Hl' & Ho).
  { unfold listensAt in *. by rewrite Hn. }
  split; [done|]. unfold underway. cbn [startReplicators rp_node rp_hands]. rewrite Hq', Ho, Hq. unfold outboundOf. rewrite Hn.
  change (messagesTo l (omap id (replicate 5 None))) with (@nil message). rewrite <- app_assoc. cbn [app].
  by rewrite <- (messagesTo_app l [(k, m)]).
Qed.

(** C14. The replication goroutines lose nothing and send nothing twice.  In any interleaving of the five
    goroutines that [Start] launches, what is queued, held and handed over for a peer that listens is, up to order,
    what it was when they started; and rounds that are not interleaved keep the order too. *)
Theorem replicators_keep_messages w (s' : replicators) (l : loc) :
  listensAt w l ->
  (rtc replicator_step (startReplicators w) s' ->
     underway s' l ≡ₚ outboundOf w l ++ messagesTo l (ch_buf (nd_replicationChan w))) /\
  (forall w', rtc replication_round w w' ->
     outboundOf w' l ++ messagesTo l (ch_buf (nd_replicationChan w')) =
     outboundOf w l ++ messagesTo l (ch_buf (nd_replicationChan w))).
Proof.
  intros Hl. split.
  - intros Hs. change (outboundOf w l ++ _) with (underway (startReplicators w) l).
    change w with (rp_node (startReplicators w)) in Hl. induction Hs as [s|s1 s2 s3 H12 _ IH]; [done|].
    destruct (replicator_step_underway _ _ l H12 Hl) as [Hl' Hu]. rewrite (IH Hl'). done.
  - intros w' Hs. induction Hs as [w|w1 w2 w3 H12 _ IH]; [done|].
    destruct (replication_round_underway _ _ l H12 Hl) as [Hl' Hu]. rewrite (IH Hl'). exact Hu.
Qed.
End Replicators.

(** ** A log of operations *)

(** What clients ask of a node. *)
Inductive clientOp : Type :=
| OpPut (key : gostring) (data : list byte) (d : Z)
| OpDelete (key : gostring).

Definition opKey (op : clientOp) : gostring := match op with OpPut key _ _ => key | OpDelete key => key end.

Section Log.
Context {C : Type} `{!LocalCache C} {hasher : Hasher} {platform : Platform}.
Context {rep : C -> gmap Z item -> Prop} {can_set : C -> gostring -> list byte -> Z -> Z -> Z -> Prop}.
Context {can_delete : C -> Z -> Prop} {settled : C -> Prop} `{!LocalCacheLaws C rep can_set can_delete settled}.
Implicit Types w v : ClusteredBigCache C.
Implicit Types steps : list (clientOp * env).

Definition perform w (op : clientOp) (ev : env) : outcome (ClusteredBigCache C * option clusterError) :=
  match op with
  | OpPut key data d => Put w key data d ev
  | OpDelete key => DeleteKey w key ev
  end.

Fixpoint performAll w steps : outcome (ClusteredBigCache C) :=
  match steps with
  | [] => Ret w
  | (op, ev) :: steps' => let! we := perform w op ev in performAll (fst we) steps'
  end.

(** The message an operation queues. *)
Definition messageOf (step : clientOp * env) : message :=
  match fst step with
  | OpPut key data d => NPut (MkPut 0 key (expiryOf (ev_epoch (snd step)) d) data)
  | OpDelete key => NDelete (MkDelete 0 key)
  end.

(** Rounds of the handler of one peer. *)
Fixpoint handleAll v (k : loc) (evs : list env) : outcome (ClusteredBigCache C) :=
  match evs with
  | [] => Ret v
  | ev :: evs' => let! vg := handleMessage v k ev in handleAll (fst vg) k evs'
  end.

(** The operations as the peer does them: a put with the time that is left. *)
Definition replicaStep (step : clientOp * env) (ev : env) : clientOp * env :=
  (match fst step with
   | OpPut key data d => OpPut key data (replicaDuration (expiryOf (ev_epoch (snd step)) d) (ev_time ev))
   | OpDelete key => OpDelete key
   end, ev).

(** Keys and values, without the expiry. *)
Definition contents (m : gmap Z item) : gmap Z (gostring * list byte) := (fun i => (it_key i, it_val i)) <$> m.

Definition effect (op : clientOp) (m : gmap Z (gostring * list byte)) : gmap Z (gostring * list byte) :=
  match op with
  | OpPut key data _ => <[Sum64 key := (key, data)]> m
  | OpDelete key => delete (Sum64 key) m
  end.

Definition effects steps (m : gmap Z (gostring * list byte)) : gmap Z (gostring * list byte) :=
  fold_left (fun m step => effect (fst step) m) steps m.

(** The cache can do the operations one after the other, and none leaves a lock behind. *)
Fixpoint accepts (c : C) steps : Prop :=
  match steps with
  | [] => True
  | (OpPut key data d, ev) :: steps' =>
      can_set c key data d (ev_epoch ev) (ev_now ev) /\
      forall c' e, lcSet c key data d (ev_epoch ev) (ev_now ev) = Ret (c', (e, None)) -> settled c' /\ accepts c' steps'
  | (OpDelete key, ev) :: steps' =>
      can_delete c (ev_now ev) /\ forall c' e, lcDelete c key (ev_now ev) = Ret (c', e) -> accepts c' steps'
  end.

(** What the messages need to arrive as they were sent. *)
Definition travels (step : clientOp * env) : Prop :=
  match fst step with
  | OpPut key data d => put_wf (MkPut 0 key (expiryOf (ev_epoch (snd step)) d) data)
  | OpDelete key => validUTF8 key = true
  end.

(** The queue after operations. *)
Definition queued w steps : list (loc * message) :=
  ch_buf (nd_replicationChan w) ++ flat_map (fun step => map (fun l => (l, messageOf step)) (activePeers w)) steps.

Definition roomFor w (n : nat) : Prop :=
  ch_closed (nd_replicationChan w) = false /\
  zlen (ch_buf (nd_replicationChan w)) + Z.of_nat n * Z.of_nat (size (sli_items (nd_remoteNodes w))) <=
  ch_cap (nd_replicationChan w).

(** A node that has stored and queued. *)
Definition afterOps w (c' : C) steps : ClusteredBigCache C :=
  set_nd_replicationChan (set_nd_cache w (Some c')) (Chan (queued w steps) (ch_cap (nd_replicationChan w)) false).

Lemma contents_insert m k e key data :
  contents (<[k := Item e key data]> m) = <[k := (key, data)]> (contents m).
Proof. unfold contents. by rewrite fmap_insert. Qed.

Lemma contents_delete m k : contents (delete k m) = delete k (contents m).
Proof. unfold contents. by rewrite fmap_delete. Qed.

Lemma perform_ok w (c : C) (m : gmap Z item) (op : clientOp) (ev : env) steps :
  node_inv w -> nd_state w = clusterStateStarted -> nd_mode w = clusterModeACTIVE ->
  nd_cache w = Some c -> rep c m -> accepts c ((op, ev) :: steps) -> roomForAll w (nd_replicationChan w) ->
  exists c' m', perform w op ev = Ret (afterOps w c' [(op, ev)], None) /\ node_inv (afterOps w c' [(op, ev)]) /\
    rep c' m' /\ contents m' = effect op (contents m) /\ accepts c' steps.
Proof.
  intros H Hst Hm Hc Hrep Ha Hr. unfold afterOps, queued. cbn [flat_map]. rewrite app_nil_r.
  destruct op as [key data d|key]; destruct Ha as [Ha Hnext].
  - destruct (Put_stores w c m key data d ev H Hst Hm Hc Hrep Ha Hr) as (c' & e & Hs & Hp & Hset).
    destruct (Hnext c' e Hs) as [Hse Hacc]. destruct (Hset Hse) as [-> Hrep'].
    exists c'. eexists. split; [exact Hp|]. split; [by eapply Put_inv|]. split; [exact Hrep'|].
    split; [apply contents_insert|done].
  - destruct (DeleteKey_deletes w c m key ev H Hst Hm Hc Hrep Ha Hr) as (c' & e & Hs & Hp & Hrep').
    exists c'. eexists. split; [exact Hp|]. split; [by eapply DeleteKey_inv|]. split; [exact Hrep'|].
    split; [apply contents_delete|]. by apply (Hnext c' e).
Qed.

Lemma zlen_activePeers w : zlen (activePeers w) <= Z.of_nat (size (sli_items (nd_remoteNodes w))).
Proof.
  rewrite <- zlen_values. unfold zlen, activePeers. pose proof (List.filter_length_le (isActive w) (map_to_list (sli_items (nd_remoteNodes w))).*2). lia.
Qed.

Lemma afterOps_app w (c1 c2 : C) steps1 steps2 :
  afterOps (afterOps w c1 steps1) c2 steps2 = afterOps w c2 (steps1 ++ steps2).
Proof.
  unfold afterOps. cbn [nd_replicationChan set_nd_replicationChan ch_cap].
  unfold queued at 1. cbn [nd_replicationChan set_nd_replicationChan ch_buf].
  unfold queued. rewrite flat_map_app, app_assoc. done.
Qed.

Lemma performAll_ok w (c : C) (m : gmap Z item) steps :
  node_inv w -> nd_state w = clusterStateStarted -> nd_mode w = clusterModeACTIVE ->
  nd_cache w = Some c -> rep c m -> accepts c steps -> roomFor w (length steps) ->
  exists c' m', performAll w steps = Ret (afterOps w c' steps) /\ rep c' m' /\ contents m' = effects steps (contents m).
Proof.
  revert w c m. induction steps as [|[op ev] steps IH]; intros w c m H Hst Hm Hc Hrep Ha [Ho Hr]; cbn [performAll].
  { exists c, m. split; [|done]. unfold afterOps, queued. cbn [flat_map]. rewrite app_nil_r.
    destruct w as [? ? ? ? ? ? ? ? [b n cl] ? ? ? ? ?]. cbn in *. by subst. }
  cbn [length] in Hr. pose proof (zlen_activePeers w) as Hz.
  destruct (perform_ok w c m op ev steps H Hst Hm Hc Hrep Ha) as (c1 & m1 & -> & H1 & Hrep1 & Hc1 & Ha1); [split; [done|lia]|].
  cbn [obind fst]. destruct (IH (afterOps w c1 [(op, ev)]) c1 m1 H1 Hst Hm eq_refl Hrep1 Ha1) as (c' & m' & -> & Hrep' & Hc').
  - split; [done|]. unfold afterOps, queued. cbn [nd_replicationChan set_nd_replicationChan ch_buf ch_cap flat_map].
    cbn [nd_remoteNodes set_nd_replicationChan set_nd_cache]. rewrite app_nil_r, zlen_app. unfold zlen in *. rewrite length_map. lia.
  - exists c', m'. rewrite afterOps_app. split; [done|]. split; [done|]. by rewrite Hc', Hc1.
Qed.

(** *** The peer *)

Lemma handleMessage_first v (k : loc) (r : remoteNode) (msg : NodeWireMessage) (q : list NodeWireMessage) (ev : env) :
  nd_nodes v !! k = Some r -> ch_buf (rn_inbound r) = msg :: q ->
  handleMessage v k ev =
  handleOne (putNode v k (set_rn_inbound r (Chan q (ch_cap (rn_inbound r)) (ch_closed (rn_inbound r))))) k msg ev.
Proof.
  intros Hk Hq. unfold handleMessage, chanRecv. rewrite (getNode_Ret v k r Hk). cbn [obind]. by rewrite Hq.
Qed.

(** The handler does the operation of the message to the local cache. *)
Lemma handleOne_step v (k : loc) (r : remoteNode) (cv : C) (mv : gmap Z item) (step : clientOp * env) (ev : env) steps :
  nd_nodes v !! k = Some r -> rn_state r = nodeStateConnected -> nd_cache v = Some cv -> rep cv mv ->
  travels step -> accepts cv (replicaStep step ev :: steps) ->
  exists cv' mv', handleOne v k (wireOf (messageOf step)) ev = Ret (set_nd_cache v (Some cv'), true) /\
    rep cv' mv' /\ contents mv' = effect (fst step) (contents mv) /\ accepts cv' steps.
Proof.
  intros Hk Hst Hc Hrep Ht Ha. destruct (handleOne_code v k r (wireOf (messageOf step)) ev Hk Hst) as (Hput & Hdel & _).
  destruct step as [[key data d|key] ev0]; destruct Ha as [Ha Hnext]; cbn [fst snd] in *.
  - destruct Ht as [He Hkey]. set (e := expiryOf (ev_epoch ev0) d) in *.
    assert (wireOf (messageOf (OpPut key data d, ev0)) = WireMessage MsgPUT (putLayout e key data)) as Hw.
    { unfold wireOf, messageOf. cbn [fst snd]. fold e. change (serializeMessage (NPut (MkPut 0 key e data))) with (PutMessage_Serialize (MkPut 0 key e data)).
      by rewrite put_Serialize_Ret. }
    destruct (lc_set cv mv key data (replicaDuration e (ev_time ev)) (ev_epoch ev) (ev_now ev) Hrep Ha) as (cv' & e' & Hs & Hset).
    destruct (Hnext cv' e' Hs) as [Hse Hacc]. destruct (Hset Hse) as [-> Hrep'].
    exists cv'. eexists. split; [|split; [exact Hrep'|split; [apply contents_insert|done]]].
    rewrite Hw in Hput |- *. rewrite (Hput eq_refl). unfold handlePut.
    change (DeSerialize zeroPut ?x) with (PutMessage_DeSerialize zeroPut x).
    rewrite (put_DeSerialize_Ret zeroPut MsgPUT e key data He Hkey). cbn [obind pm_Expiry pm_Key pm_Data].
    unfold withCache. fold (replicaDuration e (ev_time ev)). by rewrite Hc, Hs.
  - destruct (lc_delete cv mv key (ev_now ev) Hrep Ha) as (cv' & e' & Hs & Hrep').
    exists cv'. eexists. split; [|split; [exact Hrep'|split; [apply contents_delete|by apply (Hnext cv' e')]]].
    rewrite (Hdel eq_refl). unfold handleDelete.
    change (DeSerialize zeroDelete ?x) with (DeleteMessage_DeSerialize zeroDelete x).
    rewrite (delete_DeSerialize (MkDelete 0 key) zeroDelete (wireOf (messageOf (OpDelete key, ev0))) eq_refl). cbn [obind dm_Key]. rewrite (proj2 (recode_valid key) Ht).
    unfold withCache. by rewrite Hc, Hs.
Qed.

Lemma handleAll_ok v (k : loc) (r : remoteNode) (cv : C) (mv : gmap Z item) steps (evs : list env) (rest : list NodeWireMessage) :
  nd_nodes v !! k = Some r -> rn_state r = nodeStateConnected -> nd_cache v = Some cv -> rep cv mv ->
  ch_buf (rn_inbound r) = map wireOf (map messageOf steps) ++ rest -> length evs = length steps ->
  Forall travels steps -> accepts cv (zip_with replicaStep steps evs) ->
  exists v' cv' mv', handleAll v k evs = Ret v' /\ nd_cache v' = Some cv' /\ rep cv' mv' /\
    contents mv' = effects steps (contents mv).
Proof.
  revert v r cv mv steps. induction evs as [|ev evs IH]; intros v r cv mv [|step steps] Hk Hst Hc Hrep Hq Hlen Ht Ha;
    try discriminate Hlen; cbn [handleAll].
  { by exists v, cv, mv. }
  apply Forall_cons in Ht as [Ht1 Ht]. cbn [map app] in Hq.
  rewrite (handleMessage_first v k r _ _ ev Hk Hq). set (r1 := set_rn_inbound r _). set (v1 := putNode v k r1).
  assert (nd_nodes v1 !! k = Some r1) as Hk1 by apply lookup_insert_eq.
  destruct (handleOne_step v1 k r1 cv mv step ev _ Hk1 Hst Hc Hrep Ht1 Ha) as (cv1 & mv1 & -> & Hrep1 & Hc1 & Ha1).
  cbn [obind fst]. destruct (IH (set_nd_cache v1 (Some cv1)) r1 cv1 mv1 steps) as (v' & cv' & mv' & H1 & H2 & H3 & H4); try done.
  { cbn [length] in Hlen. lia. }
  exists v', cv', mv'. rewrite H4, Hc1. by destruct step.
Qed.

Lemma messagesTo_peers (l : loc) (msg : message) (peers : list loc) :
  NoDup peers -> l ∈ peers -> messagesTo l (map (fun k => (k, msg)) peers) = [msg].
Proof.
  assert (forall ps, l ∉ ps -> messagesTo l (map (fun k => (k, msg)) ps) = []) as Hout.
  { induction ps as [|k ps IH]; intros Hn; [done|]. apply not_elem_of_cons in Hn as [Hne Hn].
    cbn [map messagesTo omap list_omap fst snd]. rewrite bool_decide_false by done. by apply IH. }
  induction peers as [|k peers IH]; intros Hd Hin; [by apply elem_of_nil in Hin|].
  apply NoDup_cons in Hd as [Hk Hd]. cbn [map]. change (?x :: ?q) with ([x] ++ q). rewrite messagesTo_app.
  cbn [messagesTo omap list_omap fst snd]. apply elem_of_cons in Hin as [->|Hin].
  - rewrite bool_decide_true by done. cbn [app]. f_equal. by apply Hout.
  - rewrite bool_decide_false by (intros ->; done). by apply IH.
Qed.

Lemma messagesTo_queued w steps (l : loc) :
  NoDup (activePeers w) -> l ∈ activePeers w ->
  messagesTo l (queued w steps) = messagesTo l (ch_buf (nd_replicationChan w)) ++ map messageOf steps.
Proof.
  intros Hd Hin. unfold queued. rewrite messagesTo_app. f_equal.
  induction steps as [|step steps IH]; [done|]. cbn [flat_map map]. rewrite messagesTo_app, IH.
  by rewrite (messagesTo_peers l _ _ Hd Hin).
Qed.

(** C6. Replicas converge.  A node performs any puts and deletes for which there is room in the queue, which neither cache refuses or finds its
    shards full for, with keys that travel (16 bit lengths, valid UTF-8 in deletes): all of them return, and the messages for a
    peer are queued in the order of the operations.  A peer whose keys and values were the same and
    whose handler receives the messages in that order ends with the same keys and
    values again, whatever the times at which it handles them. *)
Theorem replica_converges w (c : C) (m : gmap Z item) steps (l : loc) :
  reachable w -> nd_state w = clusterStateStarted -> nd_mode w = clusterModeACTIVE ->
  nd_cache w = Some c -> rep c m -> accepts c steps -> Forall travels steps -> roomFor w (length steps) ->
  NoDup (activePeers w) -> l ∈ activePeers w ->
  exists w' c' m', performAll w steps = Ret w' /\ nd_cache w' = Some c' /\ rep c' m' /\
    contents m' = effects steps (contents m) /\
    messagesTo l (ch_buf (nd_replicationChan w')) =
      messagesTo l (ch_buf (nd_replicationChan w)) ++ map messageOf steps /\
    forall v k r cv mv evs rest,
      nd_nodes v !! k = Some r -> rn_state r = nodeStateConnected ->
      ch_buf (rn_inbound r) = map wireOf (map messageOf steps) ++ rest ->
      nd_cache v = Some cv -> rep cv mv -> length evs = length steps ->
      accepts cv (zip_with replicaStep steps evs) -> contents mv = contents m ->
      exists v' cv' mv', handleAll v k evs = Ret v' /\ nd_cache v' = Some cv' /\ rep cv' mv' /\
        contents mv' = contents m'.
Proof.
  intros Hre Hst Hm Hc Hrep Ha Ht Hr Hd Hin.
  destruct (performAll_ok w c m steps (reachable_inv w Hre) Hst Hm Hc Hrep Ha Hr) as (c' & m' & Hp & Hrep' & Hm').
  exists (afterOps w c' steps), c', m'. split_and!; [done|done|done|done|by apply messagesTo_queued|].
  intros v k r cv mv evs rest Hk Hcon Hq Hcv Hrv Hlen Hav Heq.
  destruct (handleAll_ok v k r cv mv steps evs rest Hk Hcon Hcv Hrv Hq Hlen Ht Hav) as (v' & cv' & mv' & H1 & H2 & H3 & H4).
  exists v', cv', mv'. by rewrite H4, Heq, Hm'.
Qed.

(** *** Overtaking *)

(** Two goroutines take a message each, and the second hands its message over first. *)
Lemma replicators_swap w (l : loc) (r : remoteNode) (m1 m2 : message) (ev : env) :
  nd_nodes w !! l = Some r -> listens r -> zlen (ch_buf (rn_outbound r)) + 2 <= ch_cap (rn_outbound r) ->
  ch_buf (nd_replicationChan w) = [(l, m1); (l, m2)] ->
  exists s', rtc replicator_step (startReplicators w) s' /\ rp_hands s' = replicate 5 None /\
    outboundOf (rp_node s') l = outboundOf w l ++ [m2; m1] /\ ch_buf (nd_replicationChan (rp_node s')) = [].
Proof.
  intros Hl (Hst & Hd & Ho) Hroom Hq. set (q n := Chan (drop n [(l, m1); (l, m2)]) (ch_cap (nd_replicationChan w)) (ch_closed (nd_replicationChan w))).
  set (w2 := set_nd_replicationChan w (q 2%nat)).
  set (r1 := set_rn_outbound r (Chan (ch_buf (rn_outbound r) ++ [m2]) (ch_cap (rn_outbound r)) false)).
  set (r2 := set_rn_outbound r1 (Chan (ch_buf (rn_outbound r1) ++ [m1]) (ch_cap (rn_outbound r1)) false)).
  exists (Replicators (putNode (putNode w2 l r1) l r2) (replicate 5 None)). split; [|split_and!].
  - eapply rtc_l.
    { apply (replicator_takes 0 w (set_nd_replicationChan w (q 1%nat)) _ (l, m1)); [done|]. unfold replicationTake, chanRecv. by rewrite Hq. }
    eapply rtc_l.
    { apply (replicator_takes 1 _ w2 _ (l, m2)); done. }
    eapply rtc_l.
    { apply (replicator_sends 1 w2 (putNode w2 l r1) _ (l, m2) ev); [done|]. cbn [replicationSend].
      rewrite (sendTo_sending w2 l r m2 ev Hl); [done|]. split; try done. lia. }
    eapply rtc_l; [|apply rtc_refl].
    apply (replicator_sends 0 (putNode w2 l r1) (putNode (putNode w2 l r1) l r2) [Some (l, m1); None; None; None; None] (l, m1) ev); [done|].
    cbn [replicationSend]. rewrite (sendTo_sending (putNode w2 l r1) l r1 m1 ev (lookup_insert_eq _ _ _)); [done|].
    split; try done. cbn [r1 rn_outbound set_rn_outbound ch_buf ch_cap]. rewrite zlen_app, zlen_cons, zlen_nil. lia.
  - done.
  - unfold outboundOf. cbn [rp_node putNode nd_nodes set_nd_nodes]. rewrite lookup_insert_eq, Hl.
    cbn [r2 r1 rn_outbound set_rn_outbound ch_buf]. by rewrite <- app_assoc.
  - done.
Qed.

(** C39. Operations on a key overtake each other.  A node stores a value and then replaces or deletes it,
    and has one peer.  The goroutines that [Start] launches can hand the two messages over in the opposite order;
    the node then holds the outcome of the second operation, nothing is queued any more, and a
    peer that handles what it was sent keeps the value of the first. *)
Theorem replication_overtakes w (c : C) (m : gmap Z item) (l : loc) (r : remoteNode)
    (key : gostring) (data : list byte) (d : Z) (op : clientOp) (ev1 ev2 ev : env) :
  reachable w -> nd_state w = clusterStateStarted -> nd_mode w = clusterModeACTIVE ->
  nd_cache w = Some c -> rep c m -> opKey op = key ->
  let steps := [(OpPut key data d, ev1); (op, ev2)] in
  accepts c steps -> Forall travels steps -> roomFor w 2 ->
  activePeers w = [l] -> ch_buf (nd_replicationChan w) = [] ->
  nd_nodes w !! l = Some r -> listens r -> zlen (ch_buf (rn_outbound r)) + 2 <= ch_cap (rn_outbound r) ->
  exists w' c' m' s', performAll w steps = Ret w' /\ nd_cache w' = Some c' /\ rep c' m' /\
    contents m' !! Sum64 key = match op with OpPut _ data2 _ => Some (key, data2) | OpDelete _ => None end /\
    rtc replicator_step (startReplicators w') s' /\ rp_hands s' = replicate 5 None /\
    ch_buf (nd_replicationChan (rp_node s')) = [] /\
    outboundOf (rp_node s') l = outboundOf w l ++ map messageOf (rev steps) /\
    forall v k rv cv mv evs,
      nd_nodes v !! k = Some rv -> rn_state rv = nodeStateConnected ->
      ch_buf (rn_inbound rv) = map wireOf (map messageOf (rev steps)) ->
      nd_cache v = Some cv -> rep cv mv -> length evs = 2%nat -> accepts cv (zip_with replicaStep (rev steps) evs) ->
      exists v' cv' mv', handleAll v k evs = Ret v' /\ nd_cache v' = Some cv' /\ rep cv' mv' /\
        contents mv' !! Sum64 key = Some (key, data).
Proof.
  intros Hre Hst Hm Hc Hrep Hkey steps Ha Ht Hr Hp Hq Hl Hlis Hroom.
  destruct (performAll_ok w c m steps (reachable_inv w Hre) Hst Hm Hc Hrep Ha Hr) as (c' & m' & Hperf & Hrep' & Hm').
  destruct (replicators_swap (afterOps w c' steps) l r (messageOf (OpPut key data d, ev1)) (messageOf (op, ev2)) ev Hl Hlis Hroom)
    as (s' & Hrun & Hh & Hout & Hempty).
  { unfold afterOps, queued. cbn [nd_replicationChan set_nd_replicationChan ch_buf]. by rewrite Hq, Hp. }
  exists (afterOps w c' steps), c', m', s'. split_and!; try done.
  - rewrite Hm'. unfold steps, effects. cbn [fold_left fst]. destruct op as [key2 data2 d2|key2]; cbn in Hkey; subst key2; cbn [effect].
    + apply lookup_insert_eq.
    + apply lookup_delete_eq.
  - intros v k rv cv mv evs Hk Hcon Hqv Hcv Hrv Hlen Hav.
    destruct (handleAll_ok v k rv cv mv (rev steps) evs [] Hk Hcon Hcv Hrv) as (v' & cv' & mv' & H1 & H2 & H3 & H4);
      [by rewrite app_nil_r|done|by apply List.Forall_rev|done|].
    exists v', cv', mv'. split_and!; try done. rewrite H4. apply lookup_insert_eq.
Qed.
End Log.

(** ** Witnesses *)

Abbreviation mapNode := (ClusteredBigCache (gmap Z item)).

(** A put, and its replacement or deletion. *)
Definition putFirst : clientOp * env := (OpPut keyK valV 0, at100).

Definition putSecond : clientOp * env := (OpPut keyK (word "later") 0, at100).

Definition thenDelete : clientOp * env := (OpDelete keyK, at100).

(** The node [A] of [ClusterRun.v] after operations. *)
Definition busyA (steps : list (clientOp * env)) : mapNode := thereafter quietA (performAll quietA steps).

(** A peer that has received the messages of operations. *)
Definition receivedA (steps : list (clientOp * env)) : mapNode :=
  let v := handle (consume (accept startedA "10.0.0.2:4711" (greeting "B" clusterModeACTIVE :: map messageOf steps)) locB) locB in
  Nat.iter (length steps) (fun v => consume v locB) v.

Definition remoteOf (v : mapNode) : remoteNode :=
  match nd_nodes v !! locB with Some r => r | None => newRemoteNode (MkNodeConfig [] [] 0 0 0 0 [] false false) end.

Lemma accepts_map (c : gmap Z item) (steps : list (clientOp * env)) :
  accepts (can_set := anySet) (can_delete := anyClock) (settled := anyState) c steps.
Proof. revert c. induction steps as [|[[key data d|key] ev] steps IH]; intros c; cbn [accepts]; [done|..]; split; try done. Qed.

Lemma listens_bool (r : remoteNode) :
  (negb (rn_state r =? nodeStateDisconnected) && negb (ch_closed (rn_done r)) && negb (ch_closed (rn_outbound r))) = true -> listens r.
Proof. rewrite !andb_true_iff, !negb_true_iff, Z.eqb_neq. by intros [[? ?] ?]. Qed.

Lemma quietA_listens : listens (remoteOf quietA).
Proof. apply listens_bool. vm_compute. reflexivity. Qed.

Lemma quietA_node : nd_nodes quietA !! locB = Some (remoteOf quietA).
Proof. vm_compute. reflexivity. Qed.

Lemma replicators_keep_messages_witness :
  exists s', rtc replicator_step (startReplicators (busyA [putFirst; putSecond])) s' /\
    underway s' locB ≡ₚ map messageOf [putFirst; putSecond].
Proof.
  destruct (replicators_swap (busyA [putFirst; putSecond]) locB (remoteOf quietA) (messageOf putFirst) (messageOf putSecond) at100)
    as (s' & Hs & _ & _ & _).
  - vm_compute. reflexivity.
  - exact quietA_listens.
  - vm_compute. discriminate.
  - vm_compute. reflexivity.
  - exists s'. split; [exact Hs|].
    refine (proj1 (replicators_keep_messages (busyA [putFirst; putSecond]) s' locB _) Hs).
    exists (remoteOf quietA). split; [vm_compute; reflexivity|exact quietA_listens].
Defined.

Lemma replica_converges_witness :
  exists w' c' m', performAll quietA [putFirst; thenDelete; putSecond] = Ret w' /\ nd_cache w' = Some c' /\ c' = m' /\
    contents m' = {[ Sum64 keyK := (keyK, word "later") ]} /\
    exists v' cv' mv', handleAll (receivedA [putFirst; thenDelete; putSecond]) locB [at100; at100; at100] = Ret v' /\
      nd_cache v' = Some cv' /\ cv' = mv' /\ contents mv' = contents m'.
Proof.
  destruct (replica_converges quietA ∅ ∅ [putFirst; thenDelete; putSecond] locB quietA_reachable)
    as (w' & c' & m' & Hp & Hc & Hm & Hcon & _ & Hv).
  - vm_compute. reflexivity.
  - vm_compute. reflexivity.
  - vm_compute. reflexivity.
  - reflexivity.
  - apply accepts_map.
  - repeat constructor; vm_compute; reflexivity || discriminate.
  - split; vm_compute; [reflexivity|discriminate].
  - replace (activePeers quietA) with [locB] by (vm_compute; reflexivity). repeat constructor. apply not_elem_of_nil.
  - replace (activePeers quietA) with [locB] by (vm_compute; reflexivity). apply elem_of_cons. by left.
  - exists w', c', m'. split; [exact Hp|]. split; [exact Hc|]. split; [exact Hm|]. split; [rewrite Hcon; vm_compute; reflexivity|].
    apply (Hv (receivedA [putFirst; thenDelete; putSecond]) locB (remoteOf (receivedA [putFirst; thenDelete; putSecond]))
      ∅ ∅ [at100; at100; at100] []); try (apply accepts_map); vm_compute; reflexivity.
Defined.

Lemma replication_overtakes_witness :
  exists w' c' m' s', performAll quietA [putFirst; thenDelete] = Ret w' /\ nd_cache w' = Some c' /\ c' = m' /\
    contents m' !! Sum64 keyK = None /\ rtc replicator_step (startReplicators w') s' /\
    outboundOf (rp_node s') locB = outboundOf quietA locB ++ map messageOf [thenDelete; putFirst] /\
    exists v' cv' mv', handleAll (receivedA [thenDelete; putFirst]) locB [at100; at100] = Ret v' /\
      nd_cache v' = Some cv' /\ cv' = mv' /\ contents mv' !! Sum64 keyK = Some (keyK, valV).
Proof.
  destruct (replication_overtakes quietA ∅ ∅ locB (remoteOf quietA) keyK valV 0 (OpDelete keyK) at100 at100 at100 quietA_reachable)
    as (w' & c' & m' & s' & Hp & Hc & Hm & Hcon & Hrun & _ & _ & Hout & Hv).
  - vm_compute. reflexivity.
  - vm_compute. reflexivity.
  - vm_compute. reflexivity.
  - reflexivity.
  - reflexivity.
  - apply accepts_map.
  - repeat constructor; vm_compute; reflexivity || discriminate.
  - split; vm_compute; [reflexivity|discriminate].
  - vm_compute. reflexivity.
  - vm_compute. reflexivity.
  - exact quietA_node.
  - exact quietA_listens.
  - vm_compute. discriminate.
  - exists w', c', m', s'. split; [exact Hp|]. split; [exact Hc|]. split; [exact Hm|]. split; [exact Hcon|].
    split; [exact Hrun|]. split; [exact Hout|].
    apply (Hv (receivedA [thenDelete; putFirst]) locB (remoteOf (receivedA [thenDelete; putFirst]))
      ∅ ∅ [at100; at100]); try (apply accepts_map); vm_compute; reflexivity.
Defined.
