(* ===== verification/RemoteGet.v ===== *)
(** * Remote reads

    A [Get] that finds nothing locally asks every active peer and waits for the first answer.  The
    request travels as a message, the peer answers from its cache, and the handler of the
    answer passes it to the waiting [Get] through a channel without a buffer. *)

From Stdlib Require Import Strings.String.
From stdpp Require Import base decidable countable list gmap.
From Stdlib Require Import ZArith Lia Strings.Byte.
From S2P Require Import Prelude.
From S2P Require Import FreeList.
From S2P Require Import Hash.
From S2P Require Import Config.
From S2P Require Import GoTime.
From S2P Require Import Shard.
From S2P Require Import BigCache.
From S2P Require Import Utf8.
From S2P Require Import Message.
From S2P Require Import JsonMessage.
From S2P Require Import SliceList.
From S2P Require Import Chan.
From S2P Require Import Connection.
From S2P Require Import Node.
From S2P Require Import MapCache.
From S2P Require Import RemoteNode.
From S2P Require Import Cluster.
From S2P Require Import ClusterRun.
From S2P Require Import Replication.

Section RemoteGet.
Context {C : Type} `{!LocalCache C} {hasher : Hasher} {platform : Platform}.
Implicit Types w v : ClusteredBigCache C.

(** The name under which the answer to a request is awaited. *)
Definition pendingKey (g : getRequestData) : gostring := gd_key g ++ gd_randStr g.

(** The remote node after a message was queued, and after a request was noted. *)
Definition queued (r : remoteNode) (m : message) : remoteNode :=
  set_rn_outbound r (Chan (ch_buf (rn_outbound r) ++ [m]) (ch_cap (rn_outbound r)) false).

Definition noted (r : remoteNode) (p : gmap gostring loc) (key : gostring) (q : loc) : remoteNode :=
  set_rn_pendingGet r (Some (<[key := q]> p)).

Lemma getData_Ret w (l q : loc) (r : remoteNode) (g : getRequestData) (p : gmap gostring loc) (ev : env) :
  nd_nodes w !! l = Some r -> sending r -> nd_requests w !! q = Some g -> rn_pendingGet r = Some p ->
  getData w l q ev =
  Ret (putNode w l (queued (noted r p (pendingKey g) q) (NGetReq (MkGetReq 0 (gd_key g) (pendingKey g))))).
Proof.
  intros Hl Hs Hq Hp. unfold getData. rewrite (getNode_Ret w l r Hl). cbn [obind].
  rewrite (proj2 (Z.eqb_neq _ _) (sg_state _ Hs)). unfold getRequest. rewrite Hq. cbn [obind]. rewrite Hp.
  fold (pendingKey g). rewrite (sendTo_sending _ l (noted r p (pendingKey g) q)); [|by apply lookup_insert_eq|by destruct Hs].
  by rewrite putNode_put.
Qed.

Lemma requestFrom_Ret w (q : loc) (peers : list loc) :
  Forall (has_node w) peers -> ch_closed (nd_getRequestChan w) = false ->
  zlen (ch_buf (nd_getRequestChan w)) + zlen peers <= ch_cap (nd_getRequestChan w) ->
  requestFrom w q peers =
  Ret (set_nd_getRequestChan w
    (Chan (ch_buf (nd_getRequestChan w) ++ map (fun l => (l, q)) (List.filter (isActive w) peers))
       (ch_cap (nd_getRequestChan w)) false)).
Proof.
  revert w. induction peers as [|l peers IH]; intros w Hp Ho Hr; cbn [requestFrom List.filter map].
  { rewrite app_nil_r. destruct w as [? ? ? ? ? ? ? [b n cl] ? ? ? ? ? ?]. cbn in *. by subst. }
  inversion Hp as [|? ? [r Hl] Hp']; subst. rewrite (getNode_Ret w l r Hl). unfold isActive at 1. rewrite Hl. cbn [obind].
  rewrite zlen_cons in Hr. pose proof (zlen_nonneg peers).
  destruct (rn_mode r =? clusterModePASSIVE); cbn [negb]; [apply IH; [done|done|lia]|].
  rewrite chanSend_Ret by (done || lia). cbn [obind]. rewrite IH; [|done|done|].
  - cbn [nd_getRequestChan set_nd_getRequestChan ch_buf ch_cap map]. rewrite <- app_assoc. done.
  - cbn [nd_getRequestChan set_nd_getRequestChan ch_buf ch_cap]. rewrite zlen_app, zlen_cons, zlen_nil. lia.
Qed.

(** The answer of a peer is what its cache holds, or nothing. *)
Definition answer (a : list byte + cacheError) : list byte := match a with inl d => d | inr _ => [] end.

Lemma handleGetRequest_Ret w (l : loc) (r : remoteNode) (c c' : C) (key pending : gostring) (a : list byte + cacheError)
    (wm : NodeWireMessage) (ev : env) :
  nd_nodes w !! l = Some r -> sending r -> nd_cache w = Some c -> lcGet c key = Ret (c', a) ->
  validUTF8 key = true -> validUTF8 pending = true ->
  serializeMessage (NGetReq (MkGetReq 0 key pending)) = Ret wm ->
  handleGetRequest w l wm ev =
  Ret (putNode (set_nd_cache w (Some c')) l (queued r (NGetRsp (MkGetRsp 0 pending (answer a))))).
Proof.
  intros Hl Hs Hc Hg Hk Hp Hw. unfold handleGetRequest.
  change (DeSerialize zeroGetReq wm) with (GetReqMessage_DeSerialize zeroGetReq wm).
  rewrite (getReq_DeSerialize _ zeroGetReq wm Hw). cbn [obind gq_Key gq_PendingKey].
  rewrite (proj2 (recode_valid key) Hk), (proj2 (recode_valid pending) Hp).
  unfold withCache. rewrite Hc, Hg. cbn [obind fst snd]. by apply sendTo_sending.
Qed.

(** What the handler of an answer does with a request that it finds. *)
Lemma handleGetResponse_Ret w (l q : loc) (r : remoteNode) (p : gmap gostring loc) (g : getRequestData)
    (pending : gostring) (data : list byte) (wm : NodeWireMessage) :
  nd_nodes w !! l = Some r -> rn_pendingGet r = Some p -> p !! pending = Some q -> nd_requests w !! q = Some g ->
  getRsp_key_ok pending -> data <> [] -> serializeMessage (NGetRsp (MkGetRsp 0 pending data)) = Ret wm ->
  handleGetResponse w l wm =
  Ret (putRequest (putNode w l (set_rn_pendingGet r (Some (delete pending p)))) q (deliver g data)).
Proof.
  intros Hl Hp Hq Hg Hk Hd Hw. unfold handleGetResponse.
  change (serializeMessage (NGetRsp (MkGetRsp 0 pending data))) with (GetRspMessage_Serialize (MkGetRsp 0 pending data)) in Hw.
  rewrite getRsp_Serialize_Ret in Hw. injection Hw as <-. cbn [gr_PendingKey gr_Data].
  change (DeSerialize zeroGetRsp ?x) with (GetRspMessage_DeSerialize zeroGetRsp x).
  rewrite getRsp_DeSerialize_Ret by done. cbn [obind gr_PendingKey gr_Data].
  rewrite (getNode_Ret w l r Hl). cbn [obind]. rewrite Hp, Hq.
  assert (0 < zlen data) by (destruct data; [done|rewrite zlen_cons; pose proof (zlen_nonneg data); lia]).
  destruct (Z.ltb_spec (zlen data) 1); [lia|]. unfold getRequest. cbn [nd_requests putNode set_nd_nodes].
  by rewrite Hg.
Qed.
End RemoteGet.

(** ** Claims *)

Section Claims.
Context {C : Type} `{!LocalCache C} {hasher : Hasher} {platform : Platform}.
Context {rep : C -> gmap Z item -> Prop} {can_set : C -> gostring -> list byte -> Z -> Z -> Z -> Prop}.
Context {can_delete : C -> Z -> Prop} {settled : C -> Prop} `{!LocalCacheLaws C rep can_set can_delete settled}.
Implicit Types w v : ClusteredBigCache C.

(** What [Get] does on a node that stores data, given what its cache answers: it has an answer, or a new request
    that is queued for every active peer. *)
Definition getSpec w (a : list byte + cacheError) (key randStr : gostring) : ClusteredBigCache C * getResult :=
  match a with
  | inl data => (w, GetAnswer (inl data))
  | inr _ =>
      if decide (sli_items (nd_remoteNodes w) = ∅) then (w, GetAnswer (inr ErrNotFound))
      else
        let q := nextLoc (nd_requests w) in
        (set_nd_getRequestChan (putRequest w q (MkGetRequest key randStr NotYet (makeChan 0)))
           (Chan (ch_buf (nd_getRequestChan w) ++ map (fun l => (l, q)) (activePeers w)) (ch_cap (nd_getRequestChan w)) false),
         GetPending q)
  end.

(** C27. [Get] answers locally or asks every active peer.  On a started node that stores data, [Get] returns what the
    local cache holds; otherwise it reports that nothing was found when there is no peer, and else
    leaves one new request, queued once for every registration of a peer that stores
    data. *)
Theorem get_answers_or_asks w (c : C) (m : gmap Z item) (key randStr : gostring) :
  reachable w -> nd_state w = clusterStateStarted -> nd_mode w = clusterModeACTIVE -> nd_cache w = Some c -> rep c m ->
  roomForAll w (nd_getRequestChan w) ->
  exists c', GetKey w key randStr = Ret (getSpec (set_nd_cache w (Some c')) (getAnswer m key (Sum64 key)) key randStr) /\ rep c' m.
Proof.
  intros Hre Hst Hm Hc Hrep [Ho Hr]. pose proof (reachable_inv w Hre) as H. destruct (lc_get c m key Hrep) as (c' & Hg & Hrep').
  exists c'. split; [|done]. unfold GetKey, withCache. rewrite Hst, Hm, Hc, !Z.eqb_refl. cbn [negb]. rewrite Hg. cbn [obind fst snd].
  destruct (getAnswer m key (Sum64 key)) as [data|err]; cbn [getSpec]; [done|]. unfold getRemote, getRemoteNodes.
  set (w1 := set_nd_cache w (Some c')). assert (node_inv w1) as H1 by (apply (same_inv w); try done; apply H).
  set (values := (map_to_list (sli_items (nd_remoteNodes w1))).*2).
  assert (sliValues (nd_remoteNodes w1) = Ret values) as Hv.
  { unfold sliValues. rewrite (iv_size _ H1). change (nd_remoteNodes w1) with (nd_remoteNodes w). destruct (iv_gets _ H) as [[Hcap _] _].
    rewrite Hcap in Hr. unfold CHAN_SIZE in Hr. pose proof (zlen_nonneg (ch_buf (nd_getRequestChan w))).
    unfold i32. rewrite Z.mod_small by lia.
    destruct (Z.ltb_spec (Z.of_nat (size (sli_items (nd_remoteNodes w))) + 2 ^ 31 - 2 ^ 31) 0); [lia|done]. }
  rewrite Hv. cbn [obind]. destruct (decide (sli_items (nd_remoteNodes w1) = ∅)) as [He|Hne].
  { unfold values. by rewrite He, map_to_list_empty. }
  destruct values as [|v vs] eqn:Evs.
  { exfalso. apply Hne. apply map_to_list_empty_iff. unfold values in Evs. by apply fmap_nil_inv in Evs. }
  rewrite <- Evs. set (w2 := putRequest w1 _ _). rewrite (requestFrom_Ret w2); [| |done|].
  - cbn [obind]. unfold activePeers. fold values. done.
  - rewrite Evs. by apply (registered_nodes w1).
  - pose proof (zlen_values w1) as Hz. fold values in Hz. rewrite Hz. exact Hr.
Qed.

(** A request that waits in its [select], first in the queue for the verified peer at [l]. *)
Record asking w (l q : loc) (g : getRequestData) : Prop := {
  ak_queue : exists rest, ch_buf (nd_getRequestChan w) = (l, q) :: rest;
  ak_request : nd_requests w !! q = Some g;
  ak_waits : gd_reply g = Waiting /\ ch_closed (gd_done g) = false;
  ak_key : validUTF8 (gd_key g) = true /\ validUTF8 (pendingKey g) = true /\ getRsp_key_ok (pendingKey g);
  ak_node : exists r p, nd_nodes w !! l = Some r /\ rn_state r = nodeStateConnected /\ sending r /\ rn_pendingGet r = Some p
}.

(** C17. A remote read returns the value of the peer.  Take a [Get] that waits, whose key and request key (the key with its random
    suffix) are valid UTF-8 and fit the 16 bit sums, and a connected peer that holds the key with a value that is not empty.  The
    queue's goroutine notes the request and queues a
    get request; the handler of the peer answers it from its cache, with a response that
    carries the value; and the handler of the response passes the value to the waiting [Get], which
    returns it. *)
Theorem remote_get_answers w v (l k q : loc) (g : getRequestData) (rk : remoteNode) (c : C) (m : gmap Z item) (e : item)
    (wm1 wm2 : NodeWireMessage) (ev ev' ev'' : env) :
  asking w l q g -> nd_nodes v !! k = Some rk -> rn_state rk = nodeStateConnected -> sending rk ->
  nd_cache v = Some c -> rep c m -> m !! Sum64 (gd_key g) = Some e -> it_key e = gd_key g -> it_val e <> [] ->
  serializeMessage (NGetReq (MkGetReq 0 (gd_key g) (pendingKey g))) = Ret wm1 ->
  serializeMessage (NGetRsp (MkGetRsp 0 (pendingKey g) (it_val e))) = Ret wm2 ->
  exists w1 r1 v1 rk1 w2 w3,
    requestSenderForGET w ev = Ret (w1, true) /\ nd_nodes w1 !! l = Some r1 /\
    last (ch_buf (rn_outbound r1)) = Some (NGetReq (MkGetReq 0 (gd_key g) (pendingKey g))) /\
    handleOne v k wm1 ev' = Ret (v1, true) /\ nd_nodes v1 !! k = Some rk1 /\
    last (ch_buf (rn_outbound rk1)) = Some (NGetRsp (MkGetRsp 0 (pendingKey g) (it_val e))) /\
    handleOne w1 l wm2 ev'' = Ret (w2, true) /\ getReturns w2 q = Ret (w3, inl (it_val e)).
Proof.
  intros [[rest Hq] Hg [Hwait Hdone] (Hk & Hpk & Hlen) (r & p & Hl & Hst & Hs & Hp)] Hk' Hstk Hsk Hc Hrep He Hek Hev H1 H2.
  assert (requestSenderForGET w ev = Ret (putNode (set_nd_getRequestChan w (Chan rest (ch_cap (nd_getRequestChan w))
    (ch_closed (nd_getRequestChan w)))) l (queued (noted r p (pendingKey g) q) (NGetReq (MkGetReq 0 (gd_key g) (pendingKey g)))), true)) as Hr1.
  { unfold requestSenderForGET, chanRecv. rewrite Hq. cbn [obind fst snd]. by rewrite (getData_Ret _ l q r g p). }
  destruct (lc_get c m (gd_key g) Hrep) as (c' & Hget & _).
  assert (getAnswer m (gd_key g) (Sum64 (gd_key g)) = inl (it_val e)) as Hans.
  { unfold getAnswer. rewrite He. by rewrite decide_True. }
  rewrite Hans in Hget.
  assert (wm_Code wm1 = MsgGETReq) as Hc1 by (cbn in H1; by injection H1 as <-).
  assert (wm_Code wm2 = MsgGETRsp) as Hc2.
  { change (GetRspMessage_Serialize (MkGetRsp 0 (pendingKey g) (it_val e)) = Ret wm2) in H2.
    rewrite getRsp_Serialize_Ret in H2. by injection H2 as <-. }
  eexists _, _, (putNode (set_nd_cache v (Some c')) k (queued rk (NGetRsp (MkGetRsp 0 (pendingKey g) (it_val e))))), _, _, _.
  split; [exact Hr1|]. split; [by apply lookup_insert_eq|]. split; [by apply last_snoc|]. split_and!.
  - rewrite (proj1 (proj2 (proj2 (handleOne_code v k rk wm1 ev' Hk' Hstk))) Hc1). by rewrite (handleGetRequest_Ret v k rk c c' (gd_key g) (pendingKey g) (inl (it_val e))).
  - by apply lookup_insert_eq.
  - by apply last_snoc.
  - set (w1 := set_nd_getRequestChan w _). set (r1 := queued _ _).
    rewrite (proj2 (proj2 (proj2 (handleOne_code (putNode w1 l r1) l r1 wm2 ev'' (lookup_insert_eq _ _ _) Hst))) Hc2).
    rewrite (handleGetResponse_Ret _ l q r1 (<[pendingKey g := q]> p) g (pendingKey g) (it_val e) wm2);
      try done; by apply lookup_insert_eq.
  - unfold getReturns, getRequest, putRequest. cbn [nd_requests set_nd_requests]. rewrite lookup_insert_eq. cbn [obind].
    unfold deliver. rewrite Hdone, Hwait. cbn [gd_reply set_gd_reply gd_done]. unfold chanClose. rewrite Hdone. reflexivity.
Qed.

(** C31. An answer that comes too early is lost.  [replyChan] has no buffer and the handler does not wait:
    when the answer of a peer is handled before [Get] has reached its [select], the
    answer is dropped, the peer is asked no more, later copies of the answer are ignored, and
    [Get] can only time out on it, although the value arrived. *)
Theorem early_reply_is_lost w (l q : loc) (r : remoteNode) (p : gmap gostring loc) (g : getRequestData)
    (data : list byte) (wm : NodeWireMessage) :
  nd_nodes w !! l = Some r -> rn_pendingGet r = Some p -> p !! pendingKey g = Some q -> nd_requests w !! q = Some g ->
  gd_reply g = NotYet -> getRsp_key_ok (pendingKey g) -> data <> [] ->
  serializeMessage (NGetRsp (MkGetRsp 0 (pendingKey g) data)) = Ret wm ->
  exists w1 w2 w3, handleGetResponse w l wm = Ret w1 /\ getArrives w1 q = Ret w2 /\
    handleGetResponse w2 l wm = Ret w2 /\ getTimesOut w2 q = Ret (w3, inr ErrTimedOut).
Proof.
  intros Hl Hp Hq Hg Hn Hk Hd Hs.
  assert (deliver g data = g) as Hdel by (unfold deliver; rewrite Hn; by destruct (ch_closed _)).
  pose proof (handleGetResponse_Ret w l q r p g (pendingKey g) data wm Hl Hp Hq Hg Hk Hd Hs) as H1. rewrite Hdel in H1.
  eexists _, _, _. split; [exact H1|]. split.
  { unfold getArrives, getRequest, putRequest. cbn [nd_requests set_nd_requests]. rewrite lookup_insert_eq. cbn [obind].
    rewrite Hn. reflexivity. }
  split.
  - change (serializeMessage (NGetRsp (MkGetRsp 0 (pendingKey g) data))) with (GetRspMessage_Serialize (MkGetRsp 0 (pendingKey g) data)) in Hs.
    rewrite getRsp_Serialize_Ret in Hs. injection Hs as <-. cbn [gr_PendingKey gr_Data]. unfold handleGetResponse.
    change (DeSerialize zeroGetRsp ?x) with (GetRspMessage_DeSerialize zeroGetRsp x).
    rewrite getRsp_DeSerialize_Ret by done. cbn [obind gr_PendingKey gr_Data].
    unfold getNode. cbn [nd_nodes putRequest putNode set_nd_requests set_nd_nodes]. rewrite lookup_insert_eq.
    cbn [obind rn_pendingGet set_rn_pendingGet]. by rewrite lookup_delete_eq.
  - unfold getTimesOut, getRequest, putRequest. cbn [nd_requests set_nd_requests]. rewrite lookup_insert_eq. reflexivity.
Qed.
End Claims.

(** ** Witnesses *)

Definition rand8 : gostring := word "x7Qz01ab".

(** [A] asks for a key that it does not hold, before and in its [select]. *)
Definition lookingA : ClusteredBigCache (gmap Z item) := afterwards quietA (GetKey quietA keyK rand8).

Definition reqK : loc := 2%positive.

Lemma get_answers_or_asks_witness :
  exists c', GetKey quietA keyK rand8 =
    Ret (getSpec (set_nd_cache quietA (Some c')) (getAnswer ∅ keyK (Sum64 keyK)) keyK rand8) /\ c' = ∅.
Proof.
  apply (get_answers_or_asks quietA ∅ ∅ keyK rand8 quietA_reachable).
  - vm_compute. reflexivity.
  - vm_compute. reflexivity.
  - vm_compute. reflexivity.
  - reflexivity.
  - split; vm_compute; [reflexivity|discriminate].
Defined.

Definition waitingA : ClusteredBigCache (gmap Z item) := thereafter lookingA (getArrives lookingA reqK).

(** A node that holds the key. *)
Definition holdingB : ClusteredBigCache (gmap Z item) := afterwards quietA (Put quietA keyK valV 0 at100).

Definition askedK (x : getWait) : getRequestData := MkGetRequest keyK rand8 x (makeChan 0).

Definition peerOf (w : ClusteredBigCache (gmap Z item)) : remoteNode := default (newRemoteNode (MkNodeConfig [] [] 0 0 0 0 [] false false)) (nd_nodes w !! locB).

Lemma waitingA_asking : asking waitingA locB reqK (askedK Waiting).
Proof.
  split.
  - eexists. vm_compute. reflexivity.
  - vm_compute. reflexivity.
  - done.
  - split_and!; by vm_compute.
  - exists (peerOf waitingA), ∅. split_and!; try (vm_compute; reflexivity). split; vm_compute; try reflexivity. discriminate.
Qed.

Definition requestK : NodeWireMessage := wireOf (NGetReq (MkGetReq 0 keyK (pendingKey (askedK Waiting)))).

Definition responseK : NodeWireMessage := wireOf (NGetRsp (MkGetRsp 0 (pendingKey (askedK Waiting)) valV)).

Lemma remote_get_answers_witness :
  exists w1 r1 v1 rk1 w2 w3,
    requestSenderForGET waitingA at100 = Ret (w1, true) /\ nd_nodes w1 !! locB = Some r1 /\
    last (ch_buf (rn_outbound r1)) = Some (NGetReq (MkGetReq 0 keyK (pendingKey (askedK Waiting)))) /\
    handleOne holdingB locB requestK at100 = Ret (v1, true) /\ nd_nodes v1 !! locB = Some rk1 /\
    last (ch_buf (rn_outbound rk1)) = Some (NGetRsp (MkGetRsp 0 (pendingKey (askedK Waiting)) valV)) /\
    handleOne w1 locB responseK at100 = Ret (w2, true) /\ getReturns w2 reqK = Ret (w3, inl valV).
Proof.
  refine (remote_get_answers waitingA holdingB locB locB reqK (askedK Waiting) (peerOf holdingB)
    {[ Sum64 keyK := Item 0 keyK valV ]} {[ Sum64 keyK := Item 0 keyK valV ]} (Item 0 keyK valV) requestK responseK
    at100 at100 at100 waitingA_asking _ _ _ _ _ _ _ _ _ _); try (vm_compute; reflexivity).
  - split; vm_compute; try reflexivity. discriminate.
  - discriminate.
Defined.

(** The request goes out and its answer is there before [Get] waits. *)
Definition askedA : ClusteredBigCache (gmap Z item) := afterwards lookingA (requestSenderForGET lookingA at100).

Lemma askedA_pending :
  exists p, rn_pendingGet (peerOf askedA) = Some p /\ p !! pendingKey (askedK NotYet) = Some reqK.
Proof.
  assert ((p ← rn_pendingGet (peerOf askedA); p !! pendingKey (askedK NotYet)) = Some reqK) as H by (vm_compute; reflexivity).
  destruct (rn_pendingGet (peerOf askedA)) as [p|]; [|discriminate H]. by exists p.
Qed.

Lemma early_reply_is_lost_witness :
  exists w1 w2 w3, handleGetResponse askedA locB responseK = Ret w1 /\ getArrives w1 reqK = Ret w2 /\
    handleGetResponse w2 locB responseK = Ret w2 /\ getTimesOut w2 reqK = Ret (w3, inr ErrTimedOut).
Proof.
  destruct askedA_pending as (p & Hp & Hq).
  refine (early_reply_is_lost askedA locB reqK (peerOf askedA) p (askedK NotYet) valV responseK _ Hp Hq _ eq_refl eq_refl _ _).
  - vm_compute. reflexivity.
  - vm_compute. reflexivity.
  - discriminate.
  - vm_compute. reflexivity.
Defined.
