(* ===== verification/Detector.v ===== *)
(** * Failure detector and end of a remote node

    The ping timer, the handler of pongs and the actor that watches the timeout work on one timer and
    one counter.  [detector] runs their rounds in the order of a list of events; the
    specification speaks of the list alone.  The second half is the end of a remote node: the interrupt
    functions of its actors, and the joining goroutine that gives up. *)

From Stdlib Require Import Strings.String.
From stdpp Require Import base decidable countable list gmap.
From Stdlib Require Import ZArith Lia Strings.Byte.
From S2P Require Import Prelude.
From S2P Require Import FreeList.
From S2P Require Import Hash.
From S2P Require Import Config.
From S2P Require Import GoTime.
From S2P Require Import Shard.
From S2P Require Import BigCache.
From S2P Require Import Message.
From S2P Require Import JsonMessage.
From S2P Require Import SliceList.
From S2P Require Import Chan.
From S2P Require Import Connection.
From S2P Require Import Node.
From S2P Require Import MapCache.
From S2P Require Import RemoteNode.
From S2P Require Import Cluster.
From S2P Require Import ClusterRun.

(** ** The failure detector *)

(** The ticker sends a ping at a time; a pong is handled; the timer fires; its tick is received. *)
Inductive pingEvent : Type :=
| EPing (now : Z)
| EPong
| EFire
| ETimeout.

#[export] Instance pingEvent_eq_dec : EqDecision pingEvent.
Proof. solve_decision. Defined.

Definition detectorStep (r : remoteNode) (e : pingEvent) : outcome (remoteNode * bool) :=
  match e with
  | EPing now => let! r := pingTick r now false in Ret (r, false)
  | EPong => let! r := handlePong r in Ret (r, false)
  | EFire =>
      match rn_pingTimeout r with
      | Some (Timer (Some _) _ as t) => Ret (set_rn_pingTimeout r (Some (timerFire t)), false)
      | _ => Stuck
      end
  | ETimeout => pongTimeout r
  end.

(** The rounds in order, up to the one that gives the peer up. *)
Fixpoint detector (r : remoteNode) (evs : list pingEvent) : outcome (remoteNode * bool) :=
  match evs with
  | [] => Ret (r, false)
  | e :: evs' => let! rf := detectorStep r e in if snd rf then Ret rf else detector (fst rf) evs'
  end.

(** What the timer allows: only an armed timer fires, only a tick that is there is received. *)
Inductive watch : Type := WOff | WArmed | WTicked.

Definition watchStep (s : watch) (e : pingEvent) : option watch :=
  match e, s with
  | EPing _, _ => Some WArmed
  | EPong, _ => Some WOff
  | EFire, WArmed => Some WTicked
  | ETimeout, WTicked => Some WOff
  | _, _ => None
  end.

Fixpoint allowed (s : watch) (evs : list pingEvent) : bool :=
  match evs with
  | [] => true
  | e :: evs' => match watchStep s e with Some s' => allowed s' evs' | None => false end
  end.

Definition isTimeout (e : pingEvent) : bool := match e with ETimeout => true | _ => false end.

(** The number of timeouts in a list of events. *)
Definition timeouts (evs : list pingEvent) : Z := zlen (List.filter isTimeout evs).

(** The specification: some stretch of the events without a pong has [n] timeouts. *)
Definition silent (n : Z) (evs : list pingEvent) : Prop :=
  exists a b c, evs = a ++ b ++ c /\ (EPong ∉ b) /\ n <= timeouts b.

(** *** The counter computes the specification *)

Fixpoint givesUp (T n : Z) (evs : list pingEvent) : bool :=
  match evs with
  | [] => false
  | ETimeout :: evs' => (n + 1 >=? T) || givesUp T (n + 1) evs'
  | EPong :: evs' => givesUp T 0 evs'
  | _ :: evs' => givesUp T n evs'
  end.

(** A stretch at the head that continues one with [n] timeouts, or one further on. *)
Definition silentFrom (T n : Z) (evs : list pingEvent) : Prop :=
  (exists b c, evs = b ++ c /\ (EPong ∉ b) /\ T <= n + timeouts b) \/ silent T evs.

Lemma timeouts_cons e evs : timeouts (e :: evs) = (if isTimeout e then 1 else 0) + timeouts evs.
Proof. unfold timeouts. cbn [List.filter]. destruct (isTimeout e); [rewrite zlen_cons|]; lia. Qed.

Lemma silent_cons T e evs : silent T evs -> silent T (e :: evs).
Proof. intros (a & b & c & -> & Hb & Ht). by exists (e :: a), b, c. Qed.

Lemma timeouts_nil : timeouts [] = 0.
Proof. done. Qed.

Lemma silentFrom_cons T n e evs :
  0 <= n < T -> e <> EPong ->
  silentFrom T n (e :: evs) <-> silentFrom T (n + if isTimeout e then 1 else 0) evs.
Proof.
  intros Hn He. split.
  - intros [(b & c & Hev & Hb & Ht)|([|e' a] & b & c & Hev & Hb & Ht)]; [| |right; injection Hev as <- ->; by exists a, b, c].
    all: left; destruct b as [|e' b]; [rewrite timeouts_nil in Ht; lia|]; injection Hev as <- ->; exists b, c;
      rewrite timeouts_cons in Ht; split_and!; [done|by apply not_elem_of_cons in Hb as [_ ?]|lia].
  - intros [(b & c & -> & Hb & Ht)|Hs]; [left|right; by apply silent_cons].
    exists (e :: b), c. split_and!; [done| |rewrite timeouts_cons; lia]. apply not_elem_of_cons. by split.
Qed.

Lemma silentFrom_pong T n evs : 0 <= n < T -> silentFrom T n (EPong :: evs) <-> silentFrom T 0 evs.
Proof.
  intros Hn. split.
  - intros [(b & c & Hev & Hb & Ht)|([|e' a] & b & c & Hev & Hb & Ht)]; [| |right; injection Hev as <- ->; by exists a, b, c].
    all: destruct b as [|e' b]; [rewrite timeouts_nil in Ht; lia|]; injection Hev as <- ->;
      apply not_elem_of_cons in Hb as [Hb _]; done.
  - intros [(b & c & -> & Hb & Ht)|Hs]; right; [by exists [EPong], b, c|by apply silent_cons].
Qed.

Lemma silentFrom_reached T n evs : T <= n -> silentFrom T n evs.
Proof. intros Hn. left. exists [], evs. rewrite timeouts_nil. split_and!; [done|by apply not_elem_of_nil|lia]. Qed.

Lemma givesUp_spec T n evs : 0 <= n < T -> givesUp T n evs = true <-> silentFrom T n evs.
Proof.
  revert n. induction evs as [|e evs IH]; intros n Hn; cbn [givesUp].
  - split; [done|]. intros [(b & c & Hev & _ & Ht)|(a & b & c & Hev & _ & Ht)].
    + symmetry in Hev. apply app_eq_nil in Hev as [-> _]. rewrite timeouts_nil in Ht. lia.
    + symmetry in Hev. apply app_eq_nil in Hev as [_ Hev]. apply app_eq_nil in Hev as [-> _]. rewrite timeouts_nil in Ht. lia.
  - destruct e.
    + rewrite silentFrom_cons by done. cbn [isTimeout]. rewrite Z.add_0_r. by apply IH.
    + rewrite silentFrom_pong by done. apply IH. lia.
    + rewrite silentFrom_cons by done. cbn [isTimeout]. rewrite Z.add_0_r. by apply IH.
    + rewrite silentFrom_cons by done. cbn [isTimeout]. destruct (n + 1 >=? T) eqn:E; zbool.
      * split; [|done]. intros _. apply silentFrom_reached. lia.
      * apply IH. lia.
Qed.

Lemma silentFrom_0 T evs : silentFrom T 0 evs <-> silent T evs.
Proof.
  split; [|by right]. intros [(b & c & -> & Hb & Ht)|Hs]; [|done]. by exists [], b, c.
Qed.

(** *** The rounds keep the counter *)

(** The timer of a remote node is as the specification sees it. *)
Definition watches (r : remoteNode) (s : watch) : Prop :=
  match s with
  | WOff => rn_pingTimeout r = Some (Timer None false)
  | WArmed => exists fires, rn_pingTimeout r = Some (Timer (Some fires) false)
  | WTicked => rn_pingTimeout r = Some (Timer None true)
  end.

Definition roomFor (r : remoteNode) (n : Z) : Prop := zlen (ch_buf (rn_outbound r)) + n <= ch_cap (rn_outbound r).

(** A message queued or dropped, and nothing else. *)
Lemma sendMessage_room r (m : message) (pick : bool) (n : Z) :
  0 <= n -> roomFor r (1 + n) -> exists c, sendMessage r m pick = Ret (set_rn_outbound r c) /\ roomFor (set_rn_outbound r c) n.
Proof.
  unfold roomFor. intros Hn Hr.
  assert (forall c, c = rn_outbound r -> recovered r (Ret r) = Ret (set_rn_outbound r c) /\
    zlen (ch_buf (rn_outbound (set_rn_outbound r c))) + n <= ch_cap (rn_outbound (set_rn_outbound r c))) as Hsame.
  { intros c ->. cbn. split; [by destruct r|lia]. }
  unfold sendMessage. case_if; [eexists; by apply Hsame|]. unfold selectSend.
  destruct (ch_closed (rn_done r) && _); [eexists; cbn [obind recovered]; split; [done|cbn; lia]|].
  unfold chanSend, chanFull. destruct (ch_closed (rn_outbound r)); [eexists; by apply Hsame|].
  destruct (Z.leb_spec (ch_cap (rn_outbound r)) (zlen (ch_buf (rn_outbound r)))); [lia|].
  eexists. cbn [obind recovered]. split; [done|]. cbn. rewrite zlen_app, zlen_cons, zlen_nil. lia.
Qed.

(** A round of the detector, against the specification of the timer and the counter. *)
Lemma detectorStep_ok r (s s' : watch) (e : pingEvent) (n : Z) :
  0 <= n -> watches r s -> watchStep s e = Some s' -> roomFor r (1 + n) ->
  0 <= rn_pingFailure r < rc_PingFailureThreshHold (rn_config r) -> rc_PingFailureThreshHold (rn_config r) < 2 ^ 31 ->
  exists r', detectorStep r e =
      Ret (r', isTimeout e && (rn_pingFailure r + 1 >=? rc_PingFailureThreshHold (rn_config r))) /\
    rn_config r' = rn_config r /\ watches r' s' /\ roomFor r' n /\
    rn_pingFailure r' = match e with EPong => 0 | ETimeout => rn_pingFailure r + 1 | _ => rn_pingFailure r end.
Proof.
  intros Hn Hw Hs Hr Hf HT. assert (roomFor r n) as Hr' by (unfold roomFor in *; lia). destruct e; cbn [detectorStep isTimeout andb].
  - injection Hs as <-. unfold pingTick. cbn [rn_pingTimeout set_rn_metrics].
    assert (exists t, rn_pingTimeout r = Some t /\ tm_chan (stopAndDrain t) = false) as (t & -> & Ht).
    { destruct s; [|destruct Hw as [at_ Hw]|]; rewrite Hw; by eexists. }
    set (r1 := set_rn_pingTimeout _ _). destruct (sendMessage_room r1 (NPing (MkPing 0)) false n Hn Hr) as (c & -> & Hc).
    cbn [obind]. eexists. split_and!; [done|done| |done|done]. cbn. unfold timerReset. rewrite Ht. by eexists.
  - injection Hs as <-. unfold handlePong. cbn [rn_pingTimeout set_rn_metrics].
    assert (exists t, rn_pingTimeout r = Some t /\ stopAndDrain t = Timer None false) as (t & -> & Ht).
    { destruct s; [|destruct Hw as [at_ Hw]|]; rewrite Hw; by eexists. }
    cbn [obind]. eexists. split_and!; [done|done| |done|done]. cbn. by rewrite Ht.
  - destruct s; try discriminate Hs. injection Hs as <-. destruct Hw as [at_ Hw]. rewrite Hw.
    eexists. split_and!; done.
  - destruct s; try discriminate Hs. injection Hs as <-. unfold pongTimeout. cbn in Hw. rewrite Hw.
    assert (i32 (rn_pingFailure r + 1) = rn_pingFailure r + 1) as Hi.
    { unfold i32. rewrite Z.mod_small; lia. }
    cbn [tm_chan timerRecv rn_pingFailure set_rn_pingFailure set_rn_pingTimeout rn_config]. rewrite Hi.
    destruct (rn_pingFailure r + 1 >=? rc_PingFailureThreshHold (rn_config r)); eexists; split_and!; done.
Qed.

Lemma detector_ok r (s : watch) (evs : list pingEvent) :
  watches r s -> allowed s evs = true -> roomFor r (zlen evs) ->
  0 <= rn_pingFailure r < rc_PingFailureThreshHold (rn_config r) -> rc_PingFailureThreshHold (rn_config r) < 2 ^ 31 ->
  exists r', detector r evs = Ret (r', givesUp (rc_PingFailureThreshHold (rn_config r)) (rn_pingFailure r) evs).
Proof.
  revert r s. induction evs as [|e evs IH]; intros r s Hw Ha Hr Hf HT; cbn [detector givesUp]; [by eexists|].
  cbn [allowed] in Ha. destruct (watchStep s e) as [s'|] eqn:Es; [|discriminate Ha]. rewrite zlen_cons in Hr.
  destruct (detectorStep_ok r s s' e (zlen evs) (zlen_nonneg evs) Hw Es) as (r' & -> & Hc & Hw' & Hr' & Hf'); [|done|done|].
  { unfold roomFor in *. lia. }
  cbn [obind fst snd]. destruct (isTimeout e && _) eqn:Eb.
  - destruct e; try discriminate Eb. cbn in Eb. rewrite Eb. by eexists.
  - destruct (IH r' s' Hw' Ha Hr') as (r2 & ->); rewrite Hc, ?Hf'; [| |].
    + destruct e; cbn in Eb; zbool; lia.
    + done.
    + destruct e; cbn in Eb; rewrite ?Eb; by eexists.
Qed.

(** ** The end of a remote node *)

(** What the interrupt functions leave. *)
Definition interrupted r (c : Connection) : remoteNode :=
  let close {A} (x : chan A) := Chan (ch_buf x) (ch_cap x) true in
  MkRemoteNode (rn_config r) (rn_metrics r) (Some (Close c)) (close (rn_inbound r)) (close (rn_outbound r))
    nodeStateDisconnected false (close (rn_done r)) (rn_pingTimer r) (rn_pingTimeout r) (rn_pingFailure r)
    (rn_pendingGet r) (rn_mode r) (rn_wg r - 1).

(** What the interrupt functions do while the lock is free: a guard that panics, and an update. *)
Definition closed_ {A : Type} (c : chan A) : chan A := Chan (ch_buf c) (ch_cap c) true.

Lemma setState_free r (st : Z) : rn_stateLock r = false -> setState r st = Ret (set_rn_state r st).
Proof. intros Hl. unfold setState. rewrite Hl. cbn. destruct r. cbn in *. by subst. Qed.

Lemma interruptDone_eq r :
  interruptDone r = if ch_closed (rn_done r) then Panic else Ret (set_rn_done r (closed_ (rn_done r))).
Proof. unfold interruptDone, chanClose. by destruct (ch_closed (rn_done r)). Qed.

Lemma interruptHandler_eq r :
  rn_stateLock r = false ->
  interruptHandler r = if ch_closed (rn_inbound r) then Panic
    else Ret (set_rn_state (set_rn_inbound r (closed_ (rn_inbound r))) nodeStateDisconnected).
Proof.
  intros Hl. unfold interruptHandler, chanClose. destruct (ch_closed (rn_inbound r)); [done|]. by apply setState_free.
Qed.

Lemma interruptSender_eq r :
  rn_stateLock r = false ->
  interruptSender r = if ch_closed (rn_outbound r) then Panic
    else Ret (set_rn_state (set_rn_outbound r (closed_ (rn_outbound r))) nodeStateDisconnected).
Proof.
  intros Hl. unfold interruptSender, chanClose. destruct (ch_closed (rn_outbound r)); [done|]. by apply setState_free.
Qed.

Lemma interruptTearDown_eq r :
  rn_stateLock r = false ->
  interruptTearDown r = if match rn_connection r with None => true | Some _ => rn_wg r + -1 <? 0 end then Panic
    else Ret (set_rn_wg (set_rn_state (set_rn_connection r (Close <$> rn_connection r)) nodeStateDisconnected) (rn_wg r + -1)).
Proof.
  intros Hl. unfold interruptTearDown. destruct (rn_connection r) as [c|]; [|done].
  rewrite setState_free by done. cbn [obind]. unfold wgAdd. cbn [rn_wg set_rn_state set_rn_connection].
  by destruct (rn_wg r + -1 <? 0).
Qed.

Lemma interrupt_cases (f : remoteNode -> outcome remoteNode) :
  f ∈ interrupts ->
  exists (bad : remoteNode -> bool) (upd : remoteNode -> remoteNode),
    (forall r, rn_stateLock r = false -> f r = if bad r then Panic else Ret (upd r)) /\
    ((bad = (fun r => ch_closed (rn_done r)) /\ upd = (fun r => set_rn_done r (closed_ (rn_done r)))) \/
     (bad = (fun _ => false) /\ upd = (fun r => set_rn_state r nodeStateDisconnected)) \/
     (bad = (fun r => ch_closed (rn_inbound r)) /\
        upd = (fun r => set_rn_state (set_rn_inbound r (closed_ (rn_inbound r))) nodeStateDisconnected)) \/
     (bad = (fun r => ch_closed (rn_outbound r)) /\
        upd = (fun r => set_rn_state (set_rn_outbound r (closed_ (rn_outbound r))) nodeStateDisconnected)) \/
     (bad = (fun r => match rn_connection r with None => true | Some _ => rn_wg r + -1 <? 0 end) /\
        upd = (fun r => set_rn_wg (set_rn_state (set_rn_connection r (Close <$> rn_connection r)) nodeStateDisconnected) (rn_wg r + -1)))).
Proof.
  intros Hf. unfold interrupts in Hf. rewrite !elem_of_cons in Hf.
  destruct Hf as [-> |[-> |[-> |[-> |[-> |Hf]]]]]; [..|by apply not_elem_of_nil in Hf]; eexists _, _.
  - split; [|left; done]. intros r _. apply interruptDone_eq.
  - split; [|right; left; done]. intros r. apply setState_free.
  - split; [|right; right; left; done]. apply interruptHandler_eq.
  - split; [|right; right; right; left; done]. apply interruptSender_eq.
  - split; [|right; right; right; right; done]. apply interruptTearDown_eq.
Qed.

(** The two orders of two interrupt functions. *)
Lemma interrupts_commute (f g : remoteNode -> outcome remoteNode) r :
  f ∈ interrupts -> g ∈ interrupts -> rn_stateLock r = false -> (let! r' := f r in g r') = (let! r' := g r in f r').
Proof.
  intros Hf Hg Hl. destruct (interrupt_cases f Hf) as (bf & uf & Ef & Cf). destruct (interrupt_cases g Hg) as (bg & ug & Eg & Cg).
  rewrite Ef, Eg by done.
  assert (rn_stateLock (uf r) = false /\ rn_stateLock (ug r) = false) as [Hlf Hlg].
  { split; [destruct Cf as [[_ ->]|[[_ ->]|[[_ ->]|[[_ ->]|[_ ->]]]]]|destruct Cg as [[_ ->]|[[_ ->]|[[_ ->]|[[_ ->]|[_ ->]]]]]]; done. }
  transitivity (if bf r then Panic else if bg (uf r) then Panic else Ret (ug (uf r))).
  { destruct (bf r); [done|]. cbn [obind]. by rewrite Eg. }
  transitivity (if bg r then Panic else if bf (ug r) then Panic else Ret (uf (ug r))).
  2:{ destruct (bg r); [done|]. cbn [obind]. by rewrite Ef. }
  clear - Cf Cg. destruct Cf as [[-> ->]|[[-> ->]|[[-> ->]|[[-> ->]|[-> ->]]]]];
    destruct Cg as [[-> ->]|[[-> ->]|[[-> ->]|[[-> ->]|[-> ->]]]]]; try reflexivity; destruct r; cbn;
    repeat match goal with
           | |- context [if ?b then _ else _] => destruct b eqn:?; cbn
           | |- context [match ?c with Some _ => _ | None => _ end] => destruct c; cbn
           end; first [congruence|reflexivity].
Qed.

Lemma runInterrupts_perm (fs gs : list (remoteNode -> outcome remoteNode)) r :
  Permutation fs gs -> Forall (fun f => f ∈ interrupts) fs -> rn_stateLock r = false -> runInterrupts r fs = runInterrupts r gs.
Proof.
  intros Hp. revert r. induction Hp as [|f fs gs _ IH|f g fs|fs gs hs Hp1 IH1 Hp2 IH2]; intros r Hf Hl.
  - done.
  - inversion Hf as [|? ? Hf1 Hf2]; subst. cbn [runInterrupts].
    destruct (interrupt_cases f Hf1) as (b & u & E & Hc). rewrite E by done. destruct (b r); [done|]. cbn [obind].
    apply IH; [done|]. by destruct Hc as [[_ ->]|[[_ ->]|[[_ ->]|[[_ ->]|[_ ->]]]]].
  - inversion Hf as [|? ? Hg1 Hf1]; subst. inversion Hf1 as [|? ? Hf2 _]; subst. cbn [runInterrupts].
    pose proof (interrupts_commute f g r Hf2 Hg1 Hl) as Hc.
    destruct (f r) as [rf| |], (g r) as [rg| |]; cbn [obind] in *; rewrite ?Hc; try done; by rewrite <- Hc.
  - rewrite IH1 by done. apply IH2; [|done]. by rewrite <- Hp1.
Qed.

(** ** Joining *)

Section Joining.
Context {C : Type} `{!LocalCache C} {platform : Platform}.
Implicit Types w : ClusteredBigCache C.

(** The loop of the joining goroutine over the outcomes of its calls of [Dial]. *)
Fixpoint joinLoop w (l : loc) (tries : Z) (dials : list (tcpConn + ioError)) (ev : env)
  : outcome (ClusteredBigCache C * option Z) :=
  match dials with
  | [] => Ret (w, Some tries)
  | d :: dials' =>
      let! wn := joinStep w l tries d ev in
      match snd wn with
      | Some n => joinLoop (fst wn) l n dials' ev
      | None => Ret (fst wn, None)
      end
  end.

Lemma joinStep_fails w (l : loc) (r : remoteNode) (tries : Z) (err : ioError) (ev : env) :
  nd_nodes w !! l = Some r -> 0 < rc_ConnectRetries (rn_config r) ->
  let w' := putNode w l (set_rn_connection r None) in
  joinStep w l tries (inr err) ev =
  Ret (if tries + 1 >=? rc_ConnectRetries (rn_config r) then (eventUnableToConnect w' (rn_config r), None)
       else (w', Some (tries + 1))).
Proof.
  intros Hl Hn w'. unfold joinStep, getNode. rewrite Hl. cbn [obind connect NewConnection fst snd rn_config set_rn_connection].
  destruct (rc_ConnectRetries (rn_config r) >? 0) eqn:E; zbool; [|lia]. by case_if.
Qed.

Lemma joinLoop_fails w (l : loc) (r : remoteNode) (tries : Z) (errs : list ioError) (ev : env) :
  nd_nodes w !! l = Some r -> rn_connection r = None -> 0 <= tries ->
  tries + zlen errs <= rc_ConnectRetries (rn_config r) -> tries < rc_ConnectRetries (rn_config r) ->
  joinLoop w l tries (map inr errs) ev =
  Ret (if tries + zlen errs =? rc_ConnectRetries (rn_config r) then (eventUnableToConnect w (rn_config r), None)
       else (w, Some (tries + zlen errs))).
Proof.
  revert tries. induction errs as [|err errs IH]; intros tries Hl Hc Ht Hle Hlt; cbn [map joinLoop].
  { rewrite zlen_nil, Z.add_0_r. destruct (Z.eqb_spec tries (rc_ConnectRetries (rn_config r))); [lia|done]. }
  assert (putNode w l (set_rn_connection r None) = w) as Hid.
  { destruct w. unfold putNode. cbn in *. f_equal. rewrite insert_id; [done|]. rewrite Hl. f_equal. destruct r. cbn in *. by subst. }
  rewrite zlen_cons in *. pose proof (zlen_nonneg errs). rewrite (joinStep_fails w l r) by (done || lia). rewrite Hid. cbn [obind].
  destruct (tries + 1 >=? rc_ConnectRetries (rn_config r)) eqn:E; zbool; cbn [fst snd].
  - destruct (Z.eqb_spec (tries + (1 + zlen errs)) (rc_ConnectRetries (rn_config r))); [done|lia].
  - rewrite IH by (done || lia). by replace (tries + 1 + zlen errs) with (tries + (1 + zlen errs)) by lia.
Qed.
End Joining.

(** ** Claims *)

(** C18. The failure detector gives a peer up exactly when it is silent.  Whatever the order of pings,
    pongs, firings and receipts of ticks that the timer allows, the rounds of
    the actors return, and the peer is given up if and only if some stretch of the events without a pong has as
    many timeouts as the configured threshold. *)
Theorem detector_spec (r : remoteNode) (s : watch) (evs : list pingEvent) :
  watches r s -> allowed s evs = true -> roomFor r (zlen evs) -> rn_pingFailure r = 0 ->
  0 < rc_PingFailureThreshHold (rn_config r) < 2 ^ 31 ->
  exists r' fault, detector r evs = Ret (r', fault) /\
    (fault = true <-> silent (rc_PingFailureThreshHold (rn_config r)) evs).
Proof.
  intros Hw Ha Hr Hf HT. destruct (detector_ok r s evs Hw Ha Hr) as (r' & Hd); [lia|lia|].
  eexists r', _. split; [exact Hd|]. rewrite Hf, givesUp_spec by lia. apply silentFrom_0.
Qed.

Lemma runInterrupts_order (r : remoteNode) (c : Connection) (fs : list (remoteNode -> outcome remoteNode)) :
  Permutation fs interrupts -> rn_stateLock r = false -> rn_connection r = Some c -> 0 < rn_wg r ->
  ch_closed (rn_done r) = false -> ch_closed (rn_inbound r) = false -> ch_closed (rn_outbound r) = false ->
  runInterrupts r fs = Ret (interrupted r c).
Proof.
  intros Hp Hl Hc Hw Hd Hi Ho. rewrite (runInterrupts_perm fs interrupts r Hp); [| |done].
  - cbn [runInterrupts interrupts]. rewrite interruptDone_eq, Hd. cbn [obind].
    unfold interruptConsumer. rewrite setState_free by done. cbn [obind].
    rewrite interruptHandler_eq by done. cbn [rn_inbound set_rn_state set_rn_done]. rewrite Hi. cbn [obind].
    rewrite interruptSender_eq by done. cbn [rn_outbound set_rn_state set_rn_done set_rn_inbound]. rewrite Ho. cbn [obind].
    rewrite interruptTearDown_eq by done.
    cbn [rn_connection rn_wg set_rn_state set_rn_done set_rn_inbound set_rn_outbound]. rewrite Hc.
    destruct (Z.ltb_spec (rn_wg r + -1) 0); [lia|]. cbn [obind]. f_equal. destruct r. cbn in *. by subst.
  - rewrite Hp. apply Forall_forall. auto.
Qed.

(** The end of a remote node does not depend on the order of its actors.  In whatever order the
    interrupt functions run, none panics or blocks, the three channels are closed, the socket is closed,
    the state is disconnected and the wait group is short of the temporary increment. *)
Theorem interrupts_in_any_order (r : remoteNode) (c : Connection) (fs : list (remoteNode -> outcome remoteNode)) :
  Permutation fs interrupts -> rn_stateLock r = false -> rn_connection r = Some c -> 0 < rn_wg r ->
  ch_closed (rn_done r) = false -> ch_closed (rn_inbound r) = false -> ch_closed (rn_outbound r) = false ->
  runInterrupts r fs = Ret (interrupted r c).
Proof. apply runInterrupts_order. Qed.

(** C25. Joining ends.  As long as dialling fails, the joining goroutine tries exactly as often as
    the configuration says, then forgets the pending connection, so that the peer can be tried
    again, and ends; after fewer failures it goes on. *)
Theorem join_gives_up {C : Type} `{!LocalCache C} (w : ClusteredBigCache C) (l : loc) (r : remoteNode)
    (errs : list ioError) (ev : env) :
  nd_nodes w !! l = Some r -> 0 < zlen errs <= rc_ConnectRetries (rn_config r) ->
  let w' := putNode w l (set_rn_connection r None) in
  joinLoop w l 0 (map inr errs) ev =
  Ret (if zlen errs =? rc_ConnectRetries (rn_config r)
       then (set_nd_pendingConn w' (delete (rc_Id (rn_config r)) (nd_pendingConn w)), None)
       else (w', Some (zlen errs))).
Proof.
  intros Hl Hn w'. destruct errs as [|err errs]; [by destruct Hn|]. rewrite zlen_cons in *. pose proof (zlen_nonneg errs).
  cbn [map joinLoop]. rewrite (joinStep_fails w l r) by (done || lia). fold w'. cbn [obind].
  destruct (0 + 1 >=? rc_ConnectRetries (rn_config r)) eqn:E; zbool; cbn [fst snd].
  - destruct (Z.eqb_spec (1 + zlen errs) (rc_ConnectRetries (rn_config r))); [done|lia].
  - rewrite (joinLoop_fails w' l (set_rn_connection r None)); [|by apply lookup_insert_eq|done|cbn; lia..].
    cbn [rn_config set_rn_connection]. by replace (0 + 1 + zlen errs) with (1 + zlen errs) by lia.
Qed.

(** ** Witnesses *)

(** A remote node with an armed timer and a threshold of two. *)
Definition watched : remoteNode :=
  set_rn_pingTimeout (newRemoteNode (MkNodeConfig [] [] 2 5 3 3 [] false false)) (Some (newTimer 0 3)).

(** Two timeouts with a pong between, then two in a row. *)
Definition twoTimeouts : list pingEvent := [EFire; ETimeout; EPing 5; EPong; EPing 10; EFire; ETimeout; EPing 15; EFire; ETimeout].

Lemma detector_spec_witness :
  exists r' fault, detector watched twoTimeouts = Ret (r', fault) /\ (fault = true <-> silent 2 twoTimeouts).
Proof. apply (detector_spec watched WArmed twoTimeouts); try (by vm_compute). by exists 3. Defined.

(** It gives up on the whole list, and not on the list without its last event. *)
Example detector_gives_up :
  (exists r, detector watched twoTimeouts = Ret (r, true)) /\ (exists r, detector watched (take 9 twoTimeouts) = Ret (r, false)).
Proof. split; eexists; vm_compute; reflexivity. Qed.

Definition ending : remoteNode := set_rn_wg (setConnection watched conn7) 1.

Lemma interrupts_in_any_order_witness : runInterrupts ending (rev interrupts) = Ret (interrupted ending conn7).
Proof.
  refine (interrupts_in_any_order ending conn7 (rev interrupts) _ eq_refl eq_refl eq_refl eq_refl eq_refl eq_refl).
  symmetry. apply Permutation_rev.
Defined.

Definition joiningA : ClusteredBigCache (gmap Z item) :=
  set_nd_pendingConn (putNode nodeA locB watched) {[ word "" := word "10.0.0.2:9911" ]}.

Lemma join_gives_up_witness :
  joinLoop joiningA locB 0 (map inr [EOF; errTimeout; EOF]) at100 =
  Ret (set_nd_pendingConn (putNode joiningA locB (set_rn_connection watched None)) (delete [] (nd_pendingConn joiningA)), None).
Proof.
  refine (join_gives_up joiningA locB watched [EOF; errTimeout; EOF] at100 _ _).
  - apply lookup_insert_eq.
  - by vm_compute.
Defined.
