(* ===== verification/GroupEnd.v ===== *)
(** * The actors of a remote node ([Cluster/remoteNode.go], [start])

    [start] runs seven actors in a [run.Group]: it runs all of them, and when the first returns it calls the interrupt functions of
    all and waits until all have returned.  Here are the functions of the actors, round by round, and
    the end of the group: after the interrupt functions every actor returns, in every order, once the [select]s of the
    two ping actors stop taking ticks, and the remote node is torn down after all actors that the wait group counts.
    A round begins at the head of a loop, or in a read or write that waits for the socket. *)

From stdpp Require Import base decidable countable list gmap relations.
From Stdlib Require Import ZArith Lia Strings.Byte.
From S2P Require Import Prelude.
From S2P Require Import FreeList.
From S2P Require Import Hash.
From S2P Require Import GoTime.
From S2P Require Import Shard.
From S2P Require Import Message.
From S2P Require Import JsonMessage.
From S2P Require Import SliceList.
From S2P Require Import Chan.
From S2P Require Import Connection.
From S2P Require Import Node.
From S2P Require Import MapCache.
From S2P Require Import RemoteNode.
From S2P Require Import Cluster.
From S2P Require Import ClusterRun.
From S2P Require Import Replication.
From S2P Require Import Detector.

(** ** The actors *)

Inductive actor : Type :=
| ActTerminate
| ActPing
| ActPong
| ActConsumer
| ActHandler
| ActSender
| ActTearDown.

#[export] Instance actor_eq_dec : EqDecision actor.
Proof. solve_decision. Defined.

(** In the order in which [start] adds them. *)
Definition actors : list actor := [ActTerminate; ActPing; ActPong; ActConsumer; ActHandler; ActSender; ActTearDown].

(** What a round meets: clocks and choices, the socket, fuel for reads and writes; whether a [select] takes a tick,
    whether [shutDown] sends, and whether the actor waits in a read or write that it has begun. *)
Record roundInput : Type := RoundInput {
  ri_env : env;
  ri_write : nat -> Z -> Z * option ioError;
  ri_fuel : nat;
  ri_tick : bool;
  ri_wake : bool;
  ri_waits : bool
}.

(** The socket of a remote node is closed: a read or write that waits for it fails. *)
Definition socketClosed (r : remoteNode) : bool :=
  match rn_connection r with Some c => negb (tc_open (cn_conn c)) | None => false end.

Section Group.
Context {C : Type} `{!LocalCache C} {platform : Platform}.
Implicit Types w : ClusteredBigCache C.

(** A node with the group of one of its remote nodes: the actors that run, and the channels that are local to [start]. *)
Record group : Type := Group {
  gr_node : ClusteredBigCache C;
  gr_running : list actor;
  gr_pingDone : bool;
  gr_pongDone : bool
}.

(** A round of an actor; [false] when its function returns.  The [select]s of the two ping actors take the tick
    or the closed channel. *)
Definition actorRound (g : group) (l : loc) (a : actor) (i : roundInput) : outcome (ClusteredBigCache C * bool) :=
  let w := gr_node g in
  let finish w := let! w := onNode w l actorEnd in Ret (w, false) in
  let loop w (go : bool) := if go then Ret (w, true) else finish w in
  let! r := getNode w l in
  match a with
  | ActTerminate =>
      let! woken := shutDown r (ri_wake i) in
      if ch_closed (rn_done r) || woken then Ret (w, false) else Stuck
  | ActPing =>
      if ri_tick i then let! r := pingTick r (ev_now (ri_env i)) (ev_pick (ri_env i)) in Ret (putNode w l r, true)
      else if gr_pingDone g then finish w else Stuck
  | ActPong =>
      if ri_tick i then let! rf := pongTimeout r in loop (putNode w l (fst rf)) (negb (snd rf))
      else if gr_pongDone g then finish w else Stuck
  | ActConsumer =>
      if ri_waits i then if socketClosed r then finish w else Stuck
      else
      let! rg := consumerStep r (ri_fuel i) (ev_now (ri_env i)) (ev_pick (ri_env i)) in
      loop (putNode w l (fst rg)) (snd rg)
  | ActHandler => let! wg := handleMessage w l (ri_env i) in loop (fst wg) (snd wg)
  | ActSender =>
      if ri_waits i then if socketClosed r then finish w else Stuck
      else
      let! rg := senderStep r (ri_write i) (ri_fuel i) in
      loop (putNode w l (fst rg)) (snd rg)
  | ActTearDown => let! w := tearDownActor w l in Ret (w, false)
  end.

(** The round of an actor of the group. *)
Definition groupRound (g : group) (l : loc) (a : actor) (i : roundInput) : outcome group :=
  if bool_decide (a ∈ gr_running g) then
    let! wb := actorRound g l a i in
    Ret (Group (fst wb) (if snd wb : bool then gr_running g else List.filter (fun b => negb (bool_decide (b = a))) (gr_running g))
           (gr_pingDone g) (gr_pongDone g))
  else Stuck.

(** The interrupt functions, on the remote node and the two local channels. *)
Definition groupInterrupt (g : group) (l : loc) (fs : list (remoteNode -> outcome remoteNode)) : outcome group :=
  if gr_pingDone g || gr_pongDone g then Panic
  else
    let! w := onNode (gr_node g) l (fun r => runInterrupts r fs) in
    Ret (Group w (gr_running g) true true).

(** A round of any actor, in which a tick may be taken or not. *)
Definition end_step (l : loc) (tick : bool) (g g' : group) : Prop :=
  exists a i, ri_tick i = tick /\ groupRound g l a i = Ret g'.

(** Some rounds, in some of which a tick may be taken. *)
Inductive end_run (l : loc) : nat -> nat -> group -> group -> Prop :=
| end_done g : end_run l 0 0 g g
| end_more g g1 g2 (tick : bool) (n k : nat) :
    end_step l tick g g1 -> end_run l n k g1 g2 -> end_run l (S n) (if tick then S k else k) g g2.

(** The actors that the wait group counts. *)
Definition countedActor (a : actor) : bool :=
  match a with ActTerminate => false | ActTearDown => false | _ => true end.

Definition countedRunning (g : group) : list actor := List.filter countedActor (gr_running g).

(** How many rounds are left at most. *)
Definition roundsLeft (l : loc) (g : group) : nat :=
  match nd_nodes (gr_node g) !! l with
  | Some r => length (ch_buf (rn_inbound r)) + length (ch_buf (rn_outbound r))
  | None => 0
  end + length (gr_running g).

(** Tearing down cannot block: the node does not reconnect, or there is room in the queue. *)
Definition canTearDown w (r : remoteNode) : Prop :=
  rc_ReconnectOnDisconnect (rn_config r) = true ->
  ch_closed (nd_joinQueue w) = false /\ zlen (ch_buf (nd_joinQueue w)) < ch_cap (nd_joinQueue w).

(** The remote node is torn down: its name is not registered, and it waits for no replies. *)
Definition tornDownAt w (r : remoteNode) : Prop :=
  sli_items (nd_remoteNodes w) !! rc_Id (rn_config r) = None /\ rn_pendingGet r = None.

(** A group whose interrupt functions have run. *)
Record ending (l : loc) (g : group) (r : remoteNode) : Prop := {
  en_node : nd_nodes (gr_node g) !! l = Some r;
  en_state : rn_state r = nodeStateDisconnected;
  en_closed : ch_closed (rn_done r) = true /\ ch_closed (rn_inbound r) = true /\ ch_closed (rn_outbound r) = true;
  en_socket : socketClosed r = true;
  en_timer : is_Some (rn_pingTimeout r);
  en_local : gr_pingDone g = true /\ gr_pongDone g = true;
  en_unique : NoDup (gr_running g);
  en_wg : rn_wg r = zlen (countedRunning g);
  en_tearDown : ((ActTearDown ∈ gr_running g) /\ canTearDown (gr_node g) r) \/
    ((ActTearDown ∉ gr_running g) /\ tornDownAt (gr_node g) r /\ rn_wg r = 0)
}.

(** ** The last rounds *)

Definition without (a : actor) (l : list actor) : list actor := List.filter (fun b => negb (bool_decide (b = a))) l.

Lemma elem_of_without a b l : b ∈ without a l <-> b ∈ l /\ b <> a.
Proof.
  unfold without. rewrite !list_elem_of_In, filter_In, negb_true_iff, bool_decide_eq_false. tauto.
Qed.

Lemma without_notin a l : a ∉ l -> without a l = l.
Proof.
  induction l as [|b l IH]; [done|]. intros [Hne Hl]%not_elem_of_cons. unfold without. cbn [List.filter].
  rewrite bool_decide_false by congruence. cbn [negb]. f_equal. by apply IH.
Qed.

Lemma NoDup_without a l : NoDup l -> NoDup (without a l).
Proof. intros H. apply NoDup_ListNoDup, List.NoDup_filter, NoDup_ListNoDup, H. Qed.

(** Removing an actor that runs takes one away, and one of the counted ones if it is counted. *)
Lemma without_length a l :
  NoDup l -> a ∈ l ->
  length l = S (length (without a l)) /\
  zlen (List.filter countedActor (without a l)) = zlen (List.filter countedActor l) - (if countedActor a then 1 else 0).
Proof.
  induction l as [|b l IH]; intros Hd Hin; [by apply elem_of_nil in Hin|]. apply NoDup_cons in Hd as [Hb Hd].
  apply elem_of_cons in Hin as [->|Hin].
  - unfold without. cbn [List.filter]. rewrite bool_decide_true by done. cbn [negb]. fold (without b l).
    rewrite without_notin by done. split; [done|]. destruct (countedActor b); [rewrite zlen_cons|]; lia.
  - destruct (IH Hd Hin) as [H1 H2]. unfold without. cbn [List.filter]. rewrite bool_decide_false by (by intros ->).
    cbn [negb]. fold (without a l). cbn [length List.filter]. split; [by rewrite <- H1|].
    destruct (countedActor b); rewrite ?zlen_cons, H2; lia.
Qed.

Lemma groupRound_in (g : group) (l : loc) (a : actor) (i : roundInput) :
  a ∈ gr_running g ->
  groupRound g l a i = let! wb := actorRound g l a i in
    Ret (Group (fst wb) (if snd wb : bool then gr_running g else without a (gr_running g)) (gr_pingDone g) (gr_pongDone g)).
Proof. intros Ha. unfold groupRound. by rewrite bool_decide_true. Qed.

(** A counted actor that returns. *)
Lemma actor_returns (g : group) (l : loc) (r : remoteNode) (a : actor) (w : ClusteredBigCache C) :
  ending l g r -> a ∈ gr_running g -> countedActor a = true ->
  nd_nodes w !! l = Some r -> nd_remoteNodes w = nd_remoteNodes (gr_node g) -> nd_joinQueue w = nd_joinQueue (gr_node g) ->
  exists w' r', (let! w := onNode w l actorEnd in Ret (w, false)) = Ret (w', false) /\
    let g' := Group w' (without a (gr_running g)) (gr_pingDone g) (gr_pongDone g) in
    ending l g' r' /\ (roundsLeft l g' < roundsLeft l g)%nat.
Proof.
  intros H Ha Hc Hw Hn Hj. destruct (without_length a (gr_running g) (en_unique _ _ _ H) Ha) as [Hlen Hz]. rewrite Hc in Hz.
  set (r' := set_rn_wg r (rn_wg r + -1)). pose proof (zlen_nonneg (List.filter countedActor (without a (gr_running g)))) as Hz0.
  assert (onNode w l actorEnd = Ret (putNode w l r')) as ->.
  { unfold onNode, getNode. rewrite Hw. cbn [obind]. unfold actorEnd, wgAdd. rewrite (en_wg _ _ _ H). unfold countedRunning.
    destruct (Z.ltb_spec (zlen (List.filter countedActor (gr_running g)) + -1) 0); [lia|]. cbn [obind].
    unfold r'. by rewrite (en_wg _ _ _ H). }
  exists (putNode w l r'), r'. split; [done|]. cbn zeta. split.
  - destruct H as [He Hst Hcl Hso Hti Hlo Hu Hwg Htd]. split; cbn [gr_node gr_running gr_pingDone gr_pongDone]; try done.
    + apply lookup_insert_eq.
    + by apply NoDup_without.
    + unfold countedRunning. cbn [gr_running r' rn_wg set_rn_wg]. rewrite Hwg. unfold countedRunning. lia.
    + destruct Htd as [[Hin Hcan]|(Hout & Htorn & Hwg0)].
      * left. split; [apply elem_of_without; split; [done|]; intros <-; discriminate Hc|].
        unfold canTearDown in *. cbn. rewrite Hj. exact Hcan.
      * exfalso. unfold countedRunning in Hwg. lia.
  - unfold roundsLeft. rewrite (en_node _ _ _ H). cbn [gr_node gr_running putNode nd_nodes set_nd_nodes]. rewrite lookup_insert_eq.
    cbn [r' rn_inbound rn_outbound set_rn_wg]. lia.
Qed.

(** An actor that goes on, and keeps what the end of the group depends on. *)
Lemma actor_goes_on (g : group) (l : loc) (r r' : remoteNode) (w' : ClusteredBigCache C) :
  ending l g r -> nd_nodes w' !! l = Some r' ->
  nd_remoteNodes w' = nd_remoteNodes (gr_node g) -> nd_joinQueue w' = nd_joinQueue (gr_node g) ->
  rn_state r' = rn_state r -> rn_done r' = rn_done r -> rn_wg r' = rn_wg r -> rn_config r' = rn_config r ->
  rn_pendingGet r' = rn_pendingGet r -> rn_connection r' = rn_connection r -> is_Some (rn_pingTimeout r') ->
  ch_closed (rn_inbound r') = true -> ch_closed (rn_outbound r') = true ->
  let g' := Group w' (gr_running g) (gr_pingDone g) (gr_pongDone g) in
  ending l g' r' /\
  (roundsLeft l g' + (length (ch_buf (rn_inbound r)) + length (ch_buf (rn_outbound r))) =
   roundsLeft l g + (length (ch_buf (rn_inbound r')) + length (ch_buf (rn_outbound r'))))%nat.
Proof.
  intros [He Hst Hcl Hso Hti Hlo Hu Hwg Htd] Hw Hn Hj H1 H2 H3 H4 H5 H6 H7 H8 H9. cbn zeta. split.
  - split; cbn [gr_node gr_running gr_pingDone gr_pongDone]; try done.
    + congruence.
    + rewrite H2. by destruct Hcl.
    + unfold socketClosed in *. by rewrite H6.
    + rewrite H3. exact Hwg.
    + unfold canTearDown, tornDownAt in *. rewrite Hn, Hj, H3, H4, H5. exact Htd.
  - unfold roundsLeft. cbn [gr_node gr_running]. rewrite Hw, He. lia.
Qed.

(** The tear-down actor, when the others that count have returned. *)
Lemma tearDown_ends (g : group) (l : loc) (r : remoteNode) :
  ending l g r -> ActTearDown ∈ gr_running g -> countedRunning g = [] ->
  exists w' r', tearDownActor (gr_node g) l = Ret w' /\
    let g' := Group w' (without ActTearDown (gr_running g)) (gr_pingDone g) (gr_pongDone g) in
    ending l g' r' /\ (roundsLeft l g' < roundsLeft l g)%nat.
Proof.
  intros H Ha Hc. destruct (without_length _ _ (en_unique _ _ _ H) Ha) as [Hlen Hz]. cbn [countedActor] in Hz.
  pose proof (en_wg _ _ _ H) as Hwg. rewrite Hc, zlen_nil in Hwg. unfold countedRunning in Hc. rewrite Hc in Hz. change (zlen (@nil actor) - 0) with 0 in Hz.
  destruct (en_tearDown _ _ _ H) as [[_ Hcan]|[Hn _]]; [|done].
  set (r' := set_rn_pendingGet (stopTimers r) None).
  assert (rn_config r' = rn_config r /\ rn_state r' = rn_state r /\ rn_done r' = rn_done r /\ rn_inbound r' = rn_inbound r /\
    rn_outbound r' = rn_outbound r /\ rn_wg r' = rn_wg r /\ socketClosed r' = socketClosed r /\ is_Some (rn_pingTimeout r'))
    as (H1 & H2 & H3 & H4 & H5 & H6 & H7 & H8).
  { destruct (en_timer _ _ _ H) as [t Ht]. unfold r', stopTimers, socketClosed. rewrite Ht. cbn [rn_pingTimer set_rn_pingTimeout].
    destruct (rn_pingTimer r); cbn; eauto 10. }
  assert (exists w1, tearDownActor (gr_node g) l = Ret (putNode w1 l r') /\
    nd_remoteNodes w1 = sliRemove (nd_remoteNodes (gr_node g)) (rc_Id (rn_config r))) as (w1 & -> & Hw1).
  { unfold tearDownActor, tearDown, getNode. rewrite (en_node _ _ _ H). cbn [obind]. rewrite Hwg. cbn [Z.eqb].
    unfold canTearDown in Hcan. destruct (rc_ReconnectOnDisconnect (rn_config r)).
    - destruct (Hcan eq_refl) as [Ho Hroom]. cbn [nd_joinQueue eventRemoteNodeDisconneced set_nd_remoteNodes].
      rewrite chanSend_Ret by done. cbn [obind]. eexists. split; reflexivity.
    - cbn [obind]. eexists. split; reflexivity. }
  exists (putNode w1 l r'), r'. split; [done|]. cbn zeta. split.
  - destruct H as [He Hst Hcl Hso Hti Hlo Hu Hwg' Htd]. split; cbn [gr_node gr_running gr_pingDone gr_pongDone]; try done.
    + apply lookup_insert_eq.
    + by rewrite H2.
    + by rewrite H3, H4, H5.
    + by rewrite H7.
    + by apply NoDup_without.
    + rewrite H6, Hwg. unfold countedRunning. cbn [gr_running]. lia.
    + right. split; [by intros [_ ?]%elem_of_without|]. split; [|by rewrite H6]. split; [|done]. cbn [nd_remoteNodes putNode set_nd_nodes].
      rewrite Hw1, H1. unfold sliRemove.
      destruct (sli_items (nd_remoteNodes (gr_node g)) !! rc_Id (rn_config r)) eqn:E; [apply lookup_delete_eq|done].
  - unfold roundsLeft. rewrite (en_node _ _ _ H). cbn [gr_node gr_running putNode nd_nodes set_nd_nodes]. rewrite lookup_insert_eq, H4, H5. lia.
Qed.

(** A round of an actor that can go on. *)
Lemma end_round (g : group) (l : loc) (r : remoteNode) (a : actor) (i : roundInput) :
  ending l g r -> a ∈ gr_running g -> ri_tick i = false -> (a = ActTearDown -> countedRunning g = []) ->
  exists g' r', groupRound g l a i = Ret g' /\ ending l g' r' /\ (roundsLeft l g' < roundsLeft l g)%nat.
Proof.
  intros H Ha Hi Htd. rewrite groupRound_in by done. pose proof (en_node _ _ _ H) as Hl. pose proof (en_state _ _ _ H) as Hst.
  destruct (en_closed _ _ _ H) as (Hdone & Hin & Hout). destruct (en_local _ _ _ H) as [Hpi Hpo].
  assert (forall w, nd_nodes w !! l = Some r -> nd_remoteNodes w = nd_remoteNodes (gr_node g) -> nd_joinQueue w = nd_joinQueue (gr_node g) ->
    countedActor a = true -> exists g' r', (let! wb := (let! w := onNode w l actorEnd in Ret (w, false)) in
      Ret (Group (fst wb) (if snd wb : bool then gr_running g else without a (gr_running g)) (gr_pingDone g) (gr_pongDone g))) = Ret g' /\
      ending l g' r' /\ (roundsLeft l g' < roundsLeft l g)%nat) as Hreturn.
  { intros w Hw Hn Hj Hc. destruct (actor_returns g l r a w H Ha Hc Hw Hn Hj) as (w' & r' & -> & He). cbn [obind fst snd]. eauto. }
  unfold actorRound. rewrite (getNode_Ret _ l r Hl). cbn [obind]. destruct a.
  - unfold shutDown. rewrite Hdone. cbn [recovered obind orb fst snd]. eexists _, r. split; [reflexivity|].
    destruct (without_length _ _ (en_unique _ _ _ H) Ha) as [Hlen Hz]. cbn [countedActor] in Hz. destruct H as [He Hs Hcl Hso Hti Hlo Hu Hwg Ht]. split.
    + split; cbn [gr_node gr_running gr_pingDone gr_pongDone]; try done; [by apply NoDup_without| |].
      * rewrite Hwg. unfold countedRunning. cbn [gr_running]. lia.
      * rewrite !elem_of_without. destruct Ht as [[? ?]|[? ?]]; [left; done|right; split; [tauto|done]].
    + unfold roundsLeft. cbn [gr_node gr_running]. lia.
  - rewrite Hi. rewrite Hpi in Hreturn |- *. by apply Hreturn.
  - rewrite Hi. rewrite Hpo in Hreturn |- *. by apply Hreturn.
  - rewrite (en_socket _ _ _ H). destruct (ri_waits i); [by apply Hreturn|]. unfold consumerStep. rewrite Hst. cbn [Z.eqb nodeStateDisconnected nodeStateConnected nodeStateHandshake Pos.eqb orb obind fst snd].
    apply Hreturn; try done. apply lookup_insert_eq.
  - unfold handleMessage, chanRecv. rewrite (getNode_Ret _ l r Hl). cbn [obind].
    destruct (ch_buf (rn_inbound r)) as [|m q] eqn:Eq; cbn [obind fst snd].
    + rewrite Hin. cbn [obind fst snd]. apply Hreturn; try done. cbn. rewrite lookup_insert_eq. f_equal.
      by destruct r as [? ? ? [] ? ? ? ? ? ? ? ? ? ?].
    + set (r1 := set_rn_inbound r _). unfold handleOne. rewrite getNode_put. cbn [obind]. unfold r1 at 1. cbn [rn_state set_rn_inbound].
      rewrite Hst. cbn [Z.eqb nodeStateDisconnected Pos.eqb obind fst snd]. eexists _, r1. split; [reflexivity|].
      destruct (actor_goes_on g l r r1 (putNode (gr_node g) l r1) H) as [He Hlt]; try done; [apply lookup_insert_eq|apply H|].
      split; [exact He|]. rewrite Eq in Hlt. cbn in Hlt |- *. lia.
  - rewrite (en_socket _ _ _ H). destruct (ri_waits i); [by apply Hreturn|]. unfold senderStep, chanRecv. destruct (ch_buf (rn_outbound r)) as [|m q] eqn:Eq; cbn [obind fst snd].
    + rewrite Hout. cbn [obind fst snd]. apply Hreturn; try done. cbn. rewrite lookup_insert_eq. f_equal.
      by destruct r as [? ? ? ? [] ? ? ? ? ? ? ? ? ?].
    + cbn [rn_state set_rn_outbound]. rewrite Hst. cbn [Z.eqb nodeStateDisconnected Pos.eqb obind fst snd].
      set (r1 := set_rn_outbound r _). eexists _, r1. split; [reflexivity|].
      destruct (actor_goes_on g l r r1 (putNode (gr_node g) l r1) H) as [He Hlt]; try done; [apply lookup_insert_eq|apply H|].
      split; [exact He|]. rewrite Eq in Hlt. cbn in Hlt |- *. lia.
  - destruct (tearDown_ends g l r H Ha (Htd eq_refl)) as (w' & r' & -> & He). cbn [obind fst snd]. eauto.
Qed.

(** The tear-down actor waits for the others. *)
Lemma tearDown_waits (g : group) (l : loc) (r : remoteNode) (i : roundInput) :
  ending l g r -> countedRunning g <> [] -> groupRound g l ActTearDown i = Stuck.
Proof.
  intros H Hc. unfold groupRound. case_bool_decide; [|done]. unfold actorRound, tearDownActor.
  rewrite (getNode_Ret _ l r (en_node _ _ _ H)). cbn [obind]. rewrite (en_wg _ _ _ H).
  destruct (countedRunning g) as [|a q]; [done|]. rewrite zlen_cons. pose proof (zlen_nonneg q).
  destruct (Z.eqb_spec (1 + zlen q) 0); [lia|done].
Qed.

(** What a round may come to: it keeps the end of the group in sight, nearer by one unless a tick was taken, or it waits. *)
Definition goodRound (l : loc) (g : group) (tick : bool) (o : outcome group) : Prop :=
  match o with
  | Ret g' => (exists r', ending l g' r') /\ (roundsLeft l g' < roundsLeft l g + (if tick then 1 else 0))%nat
  | Panic => False
  | Stuck => True
  end.

(** A tick of the ping timer: the message is not sent any more. *)
Lemma ping_tick_round (g : group) (l : loc) (r : remoteNode) (i : roundInput) :
  ending l g r -> ActPing ∈ gr_running g -> ri_tick i = true -> goodRound l g true (groupRound g l ActPing i).
Proof.
  intros H Ha Hi. rewrite groupRound_in by done. unfold actorRound. rewrite (getNode_Ret _ l r (en_node _ _ _ H)). cbn [obind].
  rewrite Hi. destruct (en_timer _ _ _ H) as [t Ht]. unfold pingTick. cbn [rn_pingTimeout set_rn_metrics]. rewrite Ht.
  unfold sendMessage. cbn [rn_state set_rn_pingTimeout set_rn_metrics]. rewrite (en_state _ _ _ H).
  rewrite Z.eqb_refl. cbn [recovered obind fst snd goodRound].
  destruct (en_closed _ _ _ H) as (_ & Hin & Hout). set (r1 := set_rn_pingTimeout _ _).
  destruct (actor_goes_on g l r r1 (putNode (gr_node g) l r1) H) as [He Hlt]; try done; [apply lookup_insert_eq|].
  split; [by exists r1|]. cbn in Hlt |- *. lia.
Qed.

(** A tick of the timeout: the counter goes up, and the actor may give up. *)
Lemma pong_tick_round (g : group) (l : loc) (r : remoteNode) (i : roundInput) :
  ending l g r -> ActPong ∈ gr_running g -> ri_tick i = true -> goodRound l g true (groupRound g l ActPong i).
Proof.
  intros H Ha Hi. rewrite groupRound_in by done. unfold actorRound. rewrite (getNode_Ret _ l r (en_node _ _ _ H)). cbn [obind].
  rewrite Hi. destruct (en_timer _ _ _ H) as [t Ht]. unfold pongTimeout. rewrite Ht. destruct (tm_chan t); [|done].
  destruct (en_closed _ _ _ H) as (_ & Hin & Hout).
  destruct (_ >=? _); cbn [obind fst snd negb]; match goal with |- context [putNode (gr_node g) l ?x] => set (r1 := x) end;
    destruct (actor_goes_on g l r r1 (putNode (gr_node g) l r1) H) as [He Hlt]; try done; try apply lookup_insert_eq; try (by eexists).
  - destruct (actor_returns _ l r1 ActPong (putNode (gr_node g) l r1) He Ha) as (w' & r' & -> & He' & Hlt'); try done; [apply lookup_insert_eq|].
    cbn [obind fst snd goodRound gr_node gr_running gr_pingDone gr_pongDone] in *. split; [by exists r'|]. cbn in Hlt. lia.
  - cbn [goodRound]. split; [by exists r1|]. cbn in Hlt |- *. lia.
Qed.

(** Only the two ping actors look for ticks. *)
Definition noTick (i : roundInput) : roundInput :=
  RoundInput (ri_env i) (ri_write i) (ri_fuel i) false (ri_wake i) (ri_waits i).

Lemma round_outcome (g : group) (l : loc) (r : remoteNode) (a : actor) (i : roundInput) :
  ending l g r -> goodRound l g (ri_tick i) (groupRound g l a i).
Proof.
  intros H. destruct (decide (a ∈ gr_running g)) as [Ha|Ha].
  2:{ unfold groupRound. by rewrite bool_decide_false. }
  destruct (decide (a = ActTearDown /\ countedRunning g <> [])) as [[-> Hc]|Hc].
  { by rewrite (tearDown_waits g l r i H Hc). }
  assert (a = ActTearDown -> countedRunning g = []) as Htd.
  { intros ->. destruct (countedRunning g); [done|]. by destruct Hc. }
  destruct (ri_tick i) eqn:Ei.
  2:{ destruct (end_round g l r a i H Ha Ei Htd) as (g' & r' & -> & He & Hlt). cbn [goodRound]. split; [by exists r'|lia]. }
  assert (a = ActPing \/ a = ActPong \/ groupRound g l a i = groupRound g l a (noTick i)) as [ -> | [ -> | -> ] ] by (destruct a; auto).
  - by apply (ping_tick_round g l r).
  - by apply (pong_tick_round g l r).
  - destruct (end_round g l r a (noTick i) H Ha eq_refl Htd) as (g' & r' & -> & He & Hlt). cbn [goodRound]. split; [by exists r'|lia].
Qed.

Lemma end_run_ok (g g' : group) (l : loc) (r : remoteNode) (n k : nat) :
  ending l g r -> end_run l n k g g' -> (exists r', ending l g' r') /\ (n + roundsLeft l g' <= roundsLeft l g + k)%nat.
Proof.
  intros H Hn. revert r H. induction Hn as [g|g g1 g2 tick n k (a & i & <- & Hr) _ IH]; intros r H; [eauto with lia|].
  pose proof (round_outcome g l r a i H) as Ho. rewrite Hr in Ho. destruct Ho as [[r1 H1] Hlt].
  destruct (IH r1 H1) as [He Hle]. split; [done|]. destruct (ri_tick i); lia.
Qed.

(** As long as actors run, one can go on without a tick. *)
Lemma end_progress (g : group) (l : loc) (r : remoteNode) :
  ending l g r -> gr_running g <> [] -> exists g', end_step l false g g'.
Proof.
  intros H Hr. set (i := RoundInput (Env 0 0 0 false) (fun _ n => (n, None)) 0 false false false).
  assert (exists a, (a ∈ gr_running g) /\ (a = ActTearDown -> countedRunning g = [])) as (a & Ha & Htd).
  { destruct (countedRunning g) as [|a q] eqn:E.
    - destruct (gr_running g) as [|a q]; [done|]. exists a. split; [by left|done].
    - exists a. assert (a ∈ countedRunning g) as Ha by (rewrite E; by left).
      unfold countedRunning in Ha. rewrite list_elem_of_In, filter_In in Ha. destruct Ha as [Ha Hc].
      split; [by apply list_elem_of_In|]. intros ->. discriminate Hc. }
  destruct (end_round g l r a i H Ha eq_refl Htd) as (g' & _ & Hg & _). exists g'. by exists a, i.
Qed.

(** So some rounds without ticks bring it to the end. *)
Lemma end_reached (g : group) (l : loc) (r : remoteNode) :
  ending l g r -> exists n g', end_run l n 0 g g' /\ gr_running g' = [].
Proof.
  remember (roundsLeft l g) as b eqn:Hb. revert g r Hb. induction b as [b IH] using (well_founded_induction lt_wf). intros g r -> H.
  destruct (decide (gr_running g = [])) as [Hr|Hr]; [exists 0%nat, g; by split; [constructor|]|].
  destruct (end_progress g l r H Hr) as [g1 Hs].
  destruct (end_run_ok g g1 l r 1 0 H (end_more l g g1 g1 false 0 0 Hs (end_done l g1))) as [[r1 H1] Hlt].
  destruct (IH (roundsLeft l g1) ltac:(lia) g1 r1 eq_refl H1) as (n & g' & Hn & Hr').
  exists (S n), g'. split; [|done]. by apply (end_more l g g1 g' false n 0).
Qed.

(** ** Claims *)

(** C15. The end of a remote node.  Once the interrupt functions have run, with every actor at the head of its loop or waiting for
    the socket, and with room in an open queue if the node is to be joined again, whatever the order of the rounds of the actors
    that still run: no round panics; there are at most as many as messages are queued plus actors running, plus one
    for every tick that the [select] of a ping actor takes although its channel is closed; rounds without ticks always lead to the
    end; and when all have returned, the wait group is at zero and the remote node was torn down. *)
Theorem group_ends (g g' : group) (l : loc) (r : remoteNode) (n k : nat) :
  ending l g r -> end_run l n k g g' ->
  (n <= roundsLeft l g + k)%nat /\
  (forall a i, groupRound g' l a i <> Panic) /\
  (exists n' g'', end_run l n' 0 g' g'' /\ gr_running g'' = []) /\
  (gr_running g' = [] ->
   exists r', nd_nodes (gr_node g') !! l = Some r' /\ tornDownAt (gr_node g') r' /\ rn_wg r' = 0).
Proof.
  intros H Hn. destruct (end_run_ok g g' l r n k H Hn) as [[r' H'] Hle]. split_and!; [lia| |by apply (end_reached g' l r')|].
  - intros a i E. pose proof (round_outcome g' l r' a i H') as Ho. by rewrite E in Ho.
  - intros Hr. exists r'. split; [apply H'|]. destruct (en_tearDown _ _ _ H') as [[Hin _]|[_ ?]]; [|done].
    rewrite Hr in Hin. by apply elem_of_nil in Hin.
Qed.

(** The interrupt functions, in any order, bring a group of which all actors run to its end. *)
Lemma interrupt_ending (g : group) (l : loc) (r : remoteNode) (c : Connection) (fs : list (remoteNode -> outcome remoteNode)) :
  nd_nodes (gr_node g) !! l = Some r -> Permutation fs interrupts -> rn_stateLock r = false -> rn_connection r = Some c ->
  ch_closed (rn_done r) = false -> ch_closed (rn_inbound r) = false -> ch_closed (rn_outbound r) = false ->
  gr_pingDone g = false -> gr_pongDone g = false -> NoDup (gr_running g) -> ActTearDown ∈ gr_running g ->
  rn_wg r = zlen (countedRunning g) + 1 -> canTearDown (gr_node g) r -> is_Some (rn_pingTimeout r) ->
  exists g', groupInterrupt g l fs = Ret g' /\ ending l g' (interrupted r c).
Proof.
  intros Hl Hp Hlk Hc Hd Hi Ho Hpi Hpo Hu Hin Hwg Hcan Ht. unfold groupInterrupt, onNode. rewrite Hpi, Hpo, (getNode_Ret _ l r Hl). cbn [orb obind].
  pose proof (zlen_nonneg (countedRunning g)).
  rewrite (runInterrupts_order r c fs Hp Hlk Hc) by (done || lia). cbn [obind]. eexists. split; [reflexivity|].
  split; cbn [gr_node gr_running gr_pingDone gr_pongDone interrupted rn_state rn_done rn_inbound rn_outbound rn_wg ch_closed]; try done.
  - apply lookup_insert_eq.
  - rewrite Hwg. unfold countedRunning. cbn [gr_running]. lia.
  - left. split; [done|]. exact Hcan.
Qed.
End Group.

(** ** Witnesses *)

Section Rounds.
Context {C : Type} `{!LocalCache C} {platform : Platform}.

(** Rounds of the given actors, in their order, with what each meets. *)
Fixpoint runRounds (g : group (C := C)) (l : loc) (order : list (actor * roundInput)) : outcome group :=
  match order with
  | [] => Ret g
  | (a, i) :: order' => let! g := groupRound g l a i in runRounds g l order'
  end.

Definition ticksIn (order : list (actor * roundInput)) : nat := length (List.filter (fun ai => ri_tick (snd ai)) order).

Lemma runRounds_run (g g' : group (C := C)) (l : loc) (order : list (actor * roundInput)) :
  runRounds g l order = Ret g' -> end_run l (length order) (ticksIn order) g g'.
Proof.
  revert g. induction order as [|[a i] order IH]; intros g Hr; cbn [runRounds length] in *.
  { injection Hr as <-. constructor. }
  destruct (groupRound g l a i) as [g1| |] eqn:E; try discriminate Hr.
  pose proof (end_more l g g1 g' (ri_tick i) _ _ (ex_intro _ a (ex_intro _ i (conj eq_refl E))) (IH g1 Hr)) as Hm.
  unfold ticksIn in *. cbn [List.filter snd]. by destruct (ri_tick i).
Qed.
End Rounds.

Definition mapGroup : Type := group (C := gmap Z item).

(** The node [A] of [ClusterRun.v] with its two messages to the peer still queued, once the actors have begun. *)
Definition beganA : mapGroup :=
  let begin f w := round w locB (fun r => let! r := f r in Ret (r, tt)) in
  Group (begin loopActorStart (begin loopActorStart (begin loopActorStart
    (begin (fun r => pongActorStart r 0) (begin (fun r => pingActorStart r false) pairedA))))) actors false false.

Definition remoteAt (g : mapGroup) : remoteNode :=
  match nd_nodes (gr_node g) !! locB with Some r => r | None => newRemoteNode (MkNodeConfig [] [] 0 0 0 0 [] false false) end.

Definition connectionAt (g : mapGroup) : Connection :=
  match rn_connection (remoteAt g) with Some c => c | None => conn7 end.

Definition lastInput : roundInput := RoundInput at100 two 200 false false false.

(** The consumer waits in a read, and the ping actor takes two more ticks. *)
Definition lastRounds : list (actor * roundInput) :=
  let tick := RoundInput at100 two 200 true false false in
  [(ActSender, lastInput); (ActPing, tick); (ActPong, lastInput); (ActConsumer, RoundInput at100 two 200 false false true);
   (ActSender, lastInput); (ActHandler, lastInput); (ActPing, tick); (ActSender, lastInput); (ActPing, lastInput);
   (ActSender, lastInput); (ActTearDown, lastInput); (ActTerminate, lastInput)].

Lemma group_ends_witness :
  exists g g' r, groupInterrupt beganA locB (rev interrupts) = Ret g /\ ending locB g r /\
    end_run locB 12 2 g g' /\ (12 <= roundsLeft locB g + 2)%nat /\ gr_running g' = [] /\
    exists r', nd_nodes (gr_node g') !! locB = Some r' /\ tornDownAt (gr_node g') r' /\ rn_wg r' = 0.
Proof.
  destruct (interrupt_ending beganA locB (remoteAt beganA) (connectionAt beganA) (rev interrupts)) as (g & Hg & He).
  - vm_compute. reflexivity.
  - symmetry. apply Permutation_rev.
  - vm_compute. reflexivity.
  - vm_compute. reflexivity.
  - vm_compute. reflexivity.
  - vm_compute. reflexivity.
  - vm_compute. reflexivity.
  - reflexivity.
  - reflexivity.
  - apply (bool_decide_unpack _). vm_compute. exact I.
  - apply (bool_decide_unpack _). vm_compute. exact I.
  - vm_compute. reflexivity.
  - intros Hr. vm_compute in Hr. discriminate Hr.
  - vm_compute. eauto.
  - destruct (runRounds g locB lastRounds) as [g'| |] eqn:E.
    2,3: exfalso; assert (exists g', (let! g := groupInterrupt beganA locB (rev interrupts) in runRounds g locB lastRounds) = Ret g')
      as [g' Hg'] by (eexists; vm_compute; reflexivity); rewrite Hg in Hg'; cbn [obind] in Hg'; congruence.
    exists g, g', (interrupted (remoteAt beganA) (connectionAt beganA)).
    pose proof (runRounds_run g g' locB lastRounds E) as Hn.
    destruct (group_ends g g' locB (interrupted (remoteAt beganA) (connectionAt beganA)) 12 2 He Hn) as (Hle & _ & _ & Hend).
    split; [exact Hg|]. split; [exact He|]. split; [exact Hn|]. split; [exact Hle|].
    assert ((let! g := groupInterrupt beganA locB (rev interrupts) in let! g' := runRounds g locB lastRounds in Ret (gr_running g')) = Ret [])
      as Hrun by (vm_compute; reflexivity).
    rewrite Hg in Hrun. cbn [obind] in Hrun. rewrite E in Hrun. cbn [obind] in Hrun. injection Hrun as Hrun. split; [exact Hrun|exact (Hend Hrun)].
Defined.
