(* ===== verification/Faults.v ===== *)
(** * What goes wrong between nodes

    Sequences of rounds, all of them possible in a cluster whose nodes follow the protocol, after which the node
    is not in the state it should be in: a second connection of a peer unregisters the first, the
    end of a node leaves connections behind that make it panic, messages behind the
    greeting are dropped, a failed handshake is never tried again, a replica outlives its expiry. *)

From Stdlib Require Import Strings.String.
From stdpp Require Import base decidable countable list gmap.
From Stdlib Require Import ZArith Lia Strings.Byte.
From S2P Require Import Prelude.
From S2P Require Import FreeList.
From S2P Require Import Hash.
From S2P Require Import Config.
From S2P Require Import GoTime.
From S2P Require Import Shard.
From S2P Require Import BigCache.
From S2P Require Import Utf8.
From S2P Require Import Message.
From S2P Require Import JsonMessage.
From S2P Require Import SliceList.
From S2P Require Import Chan.
From S2P Require Import Connection.
From S2P Require Import Node.
From S2P Require Import MapCache.
From S2P Require Import RemoteNode.
From S2P Require Import Cluster.
From S2P Require Import ClusterRun.
From S2P Require Import Replication.
From S2P Require Import Detector.

Section TearDown.
Context {C : Type} `{!LocalCache C} {platform : Platform}.
Implicit Types w : ClusteredBigCache C.

(** The remote node that [tearDown] leaves. *)
Definition tornDown (r : remoteNode) : remoteNode := set_rn_pendingGet (stopTimers r) None.

Lemma stopTimers_keeps (r : remoteNode) :
  rn_state (stopTimers r) = rn_state r /\ rn_connection (stopTimers r) = rn_connection r /\
  rn_config (stopTimers r) = rn_config r.
Proof. unfold stopTimers. destruct (rn_pingTimeout r); cbn [rn_pingTimer set_rn_pingTimeout]; by destruct (rn_pingTimer r). Qed.

Lemma tearDown_quiet w (l : loc) (r : remoteNode) :
  nd_nodes w !! l = Some r -> rc_ReconnectOnDisconnect (rn_config r) = false ->
  tearDown w l = Ret (putNode (eventRemoteNodeDisconneced w r) l (tornDown r)).
Proof. intros Hl Hr. unfold tearDown. rewrite (getNode_Ret w l r Hl). cbn [obind]. by rewrite Hr. Qed.

(** The loop of [ShutDown]: the joining queue stays, and nodes that were torn down stay so. *)
Definition muted (r : remoteNode) : remoteNode := set_rn_config r (set_rc_ReconnectOnDisconnect (rn_config r) false).

Lemma tearDownAll_ok w (peers : list loc) :
  Forall (has_node w) peers ->
  exists w', tearDownAll w peers = Ret w' /\ nd_joinQueue w' = nd_joinQueue w /\
    nd_getRequestChan w' = nd_getRequestChan w /\ nd_replicationChan w' = nd_replicationChan w /\
    nd_serverEndpoint w' = nd_serverEndpoint w /\
    forall l r, nd_nodes w !! l = Some r -> exists r', nd_nodes w' !! l = Some r' /\ rn_state r' = rn_state r /\
      rn_connection r' = rn_connection r /\ (l ∈ peers \/ rn_pendingGet r = None -> rn_pendingGet r' = None).
Proof.
  revert w. induction peers as [|l peers IH]; intros w Hp; cbn [tearDownAll].
  { exists w. split_and!; try done. intros l r Hl. exists r. split_and!; try done. by intros [?%not_elem_of_nil|]. }
  inversion Hp as [|? ? [r Hl] Hp']; subst. unfold onNode. rewrite (getNode_Ret w l r Hl). cbn [obind]. fold (muted r).
  rewrite (tearDown_quiet (putNode w l (muted r)) l (muted r)); [|by apply lookup_insert_eq|done]. cbn [obind].
  set (w1 := putNode _ l (tornDown (muted r))).
  assert (nd_nodes w1 = <[l := tornDown (muted r)]> (nd_nodes w)) as Hn by (unfold w1; cbn; by rewrite insert_insert_eq).
  destruct (IH w1) as (w' & Hw & Hj & Hg & Hr & Hs & Hnodes).
  { eapply Forall_impl; [exact Hp'|]. intros l' [r' Hl']. unfold has_node. rewrite Hn.
    apply lookup_insert_is_Some. destruct (decide (l = l')); eauto. }
  exists w'. split_and!; [done|by rewrite Hj|by rewrite Hg|by rewrite Hr|by rewrite Hs|]. intros l' r' Hl'.
  destruct (decide (l = l')) as [<-|Hne].
  - rewrite Hl in Hl'. injection Hl' as <-. destruct (Hnodes l (tornDown (muted r))) as (r2 & H2 & Hst & Hc & Hpg).
    { rewrite Hn. apply lookup_insert_eq. }
    destruct (stopTimers_keeps (muted r)) as (Hst' & Hc' & _). exists r2. split_and!; [done|by rewrite Hst|by rewrite Hc|].
    intros _. apply Hpg. by right.
  - destruct (Hnodes l' r') as (r2 & H2 & Hst & Hc & Hpg); [by rewrite Hn, lookup_insert_ne|].
    exists r2. split_and!; [done|done|done|]. intros [Hin|Hnone]; apply Hpg; [|by right].
    apply elem_of_cons in Hin as [->|Hin]; [done|by left].
Qed.
End TearDown.

(** ** The states that should not be *)

(** A remote node with the same state and the same socket. *)
Definition sameLink (r r' : remoteNode) : Prop := rn_state r' = rn_state r /\ rn_connection r' = rn_connection r.

Section States.
Context {C : Type}.
Implicit Types w : ClusteredBigCache C.

(** A remote node as it was, whose name is not registered. *)
Definition forgotten w (id : gostring) (l : loc) (r : remoteNode) : Prop :=
  sli_items (nd_remoteNodes w) !! id = None /\ nd_nodes w !! l = Some r.

(** The next peer is taken off the queue and nothing else happens: no remote node is made, no goroutine joins it. *)
Definition skipped w w' : Prop :=
  ch_buf (nd_joinQueue w') = tail (ch_buf (nd_joinQueue w)) /\ nd_nodes w' = nd_nodes w /\ nd_tasks w' = nd_tasks w /\
  nd_pendingConn w' = nd_pendingConn w.
End States.

(** Only the first of two messages was queued, and the other counted as dropped. *)
Definition onlyFirst (r r' : remoteNode) (msg : NodeWireMessage) : Prop :=
  ch_buf (rn_inbound r') = ch_buf (rn_inbound r) ++ [msg] /\
  nm_dropedMsg (rn_metrics r') = u64 (nm_dropedMsg (rn_metrics r) + 1).

(** The map with an item that never expires. *)
Definition storedForEver {hasher : Hasher} (key : gostring) (data : list byte) (m : gmap Z item) : gmap Z item :=
  <[Sum64 key := Item NO_EXPIRY key data]> m.

(** ** Claims *)

Section Claims.
Context {C : Type} `{!LocalCache C} {hasher : Hasher} {platform : Platform}.
Implicit Types w : ClusteredBigCache C.

Lemma ShutDown_closes w w' :
  reachable w -> ShutDown w = Ret w' ->
  ch_closed (nd_joinQueue w') = true /\
  forall l r, nd_nodes w !! l = Some r -> exists r', nd_nodes w' !! l = Some r' /\ rn_state r' = rn_state r /\
    rn_connection r' = rn_connection r /\ (registered w l -> rn_pendingGet r' = None).
Proof.
  intros Hre Hw. pose proof (reachable_inv w Hre) as H. unfold ShutDown in Hw. set (w0 := set_nd_state w clusterStateEnded) in Hw.
  destruct (sliValues (nd_remoteNodes w0)) as [peers| |] eqn:Ev; try discriminate Hw. cbn [obind] in Hw.
  destruct (tearDownAll_ok w0 peers (registered_nodes w peers H Ev)) as (w1 & Ht & Hj & Hg & Hr & Hs & Hn).
  rewrite Ht in Hw. cbn [obind] in Hw.
  destruct (chanClose (nd_joinQueue w1)) as [q1| |] eqn:C1; try discriminate Hw. cbn [obind] in Hw.
  destruct (chanClose (nd_getRequestChan _)) as [q2| |]; try discriminate Hw. cbn [obind] in Hw.
  destruct (chanClose (nd_replicationChan _)) as [q3| |]; try discriminate Hw. cbn [obind] in Hw.
  assert (ch_closed q1 = true) as Hq1.
  { unfold chanClose in C1. destruct (ch_closed (nd_joinQueue w1)); [discriminate C1|]. by injection C1 as <-. }
  assert (ch_closed (nd_joinQueue w') = true /\ nd_nodes w' = nd_nodes w1) as [Hjw Hnw].
  { cbn [nd_serverEndpoint set_nd_replicationChan set_nd_getRequestChan set_nd_joinQueue] in Hw.
    destruct (nd_serverEndpoint w1); injection Hw as <-; done. }
  split; [done|]. intros l r Hl. rewrite Hnw. destruct (Hn l r Hl) as (r' & Hl' & Hst & Hc & Hp).
  exists r'. split_and!; try done. intros [id Hid]. apply Hp. left. unfold sliValues in Ev. case_in Ev. injection Ev as <-.
  apply list_elem_of_fmap. exists (id, l). split; [done|]. by apply elem_of_map_to_list.
Qed.

(** C33. [ShutDown] does not end the connections.  Its comment says that it terminates all connections;
    it leaves state and socket of every peer as they were and only takes the table of
    pending requests away.  The handler of a peer that was connected panics on the next get response, and a second
    [ShutDown] panics. *)
Theorem shutdown_leaves_connections w w' (l : loc) (r : remoteNode) :
  reachable w -> ShutDown w = Ret w' -> registered w l -> nd_nodes w !! l = Some r ->
  (exists r', nd_nodes w' !! l = Some r' /\ sameLink r r') /\
  (rn_state r = nodeStateConnected -> forall pending data wm ev, getRsp_key_ok pending ->
     serializeMessage (NGetRsp (MkGetRsp 0 pending data)) = Ret wm -> handleOne w' l wm ev = Panic) /\
  ShutDown w' = Panic.
Proof.
  intros Hre Hw Hreg Hl. destruct (ShutDown_closes w w' Hre Hw) as [Hj Hn].
  destruct (Hn l r Hl) as (r' & Hl' & Hst & Hc & Hp). specialize (Hp Hreg). split_and!.
  - exists r'. split; [done|by split].
  - intros Hcon pending data wm ev Hk Hs. change (GetRspMessage_Serialize (MkGetRsp 0 pending data) = Ret wm) in Hs.
    rewrite getRsp_Serialize_Ret in Hs. injection Hs as <-. cbn [gr_PendingKey gr_Data]. rewrite Hcon in Hst.
    rewrite (proj2 (proj2 (proj2 (handleOne_code w' l r' (WireMessage MsgGETRsp (getRspLayout pending data)) ev Hl' Hst))) eq_refl). unfold handleGetResponse. change (DeSerialize zeroGetRsp ?x) with (GetRspMessage_DeSerialize zeroGetRsp x).
    rewrite getRsp_DeSerialize_Ret by done. cbn [obind]. rewrite (getNode_Ret w' l r' Hl'). cbn [obind]. by rewrite Hp.
  - pose proof (ShutDown_inv w w' (reachable_inv w Hre) Hw) as H'. unfold ShutDown.
    destruct (sliValues (nd_remoteNodes (set_nd_state w' clusterStateEnded))) as [peers| |] eqn:Ev; [|done|by unfold sliValues in Ev; case_in Ev].
    destruct (tearDownAll_ok (set_nd_state w' clusterStateEnded) peers (registered_nodes w' peers H' Ev)) as (w1 & Ht & Hj1 & _).
    cbn [obind]. rewrite Ht. cbn [obind]. rewrite Hj1. unfold chanClose. cbn [nd_joinQueue set_nd_state]. by rewrite Hj.
Qed.

(** C32. A second connection of a peer unregisters the first.  When a peer that is registered connects
    again, its greeting is refused as it should be; but the remote node of the new connection has taken the
    peer's name by then, and removes that name from the registry when it ends.  The first
    connection stays as it was and gets no data any more. *)
Theorem duplicate_unregisters_peer w (l l0 : loc) (r r0 : remoteNode) (msg : NodeWireMessage) (vm : VerifyMessage) (ev : env) :
  nd_nodes w !! l = Some r -> rc_ReconnectOnDisconnect (rn_config r) = false -> nd_mode w = clusterModeACTIVE ->
  DeSerialize zeroVerify msg = Ret vm -> sli_items (nd_remoteNodes w) !! vm_Id vm = Some l0 ->
  nd_nodes w !! l0 = Some r0 -> l0 <> l ->
  exists w1 w2, handleVerify w l msg ev = Ret (w1, false) /\ nd_remoteNodes w1 = nd_remoteNodes w /\
    tearDown w1 l = Ret w2 /\ forgotten w2 (vm_Id vm) l0 r0.
Proof.
  intros Hl Hrec Hm Hd Hid Hl0 Hne. unfold handleVerify. rewrite Hd. cbn [obind]. rewrite (getNode_Ret w l r Hl). cbn [obind].
  set (r1 := set_rn_mode _ (vm_Mode vm)). cbn [nd_mode putNode set_nd_nodes]. rewrite Hm, andb_false_r. fold (putNode w l r1).
  unfold eventVerifyRemoteNode. change (rc_Id (rn_config r1)) with (vm_Id vm). unfold sliContains.
  rewrite bool_decide_eq_true_2 by (cbn; rewrite Hid; eauto). cbn [negb].
  eexists _, _. split; [reflexivity|]. split; [done|].
  split; [apply (tearDown_quiet (putNode w l r1) l r1); [by apply lookup_insert_eq|done]|]. split.
  - cbn. change (rc_Id (rn_config r1)) with (vm_Id vm). unfold sliRemove. rewrite Hid. cbn. apply lookup_delete_eq.
  - cbn. by rewrite !lookup_insert_ne.
Qed.

(** A message behind the greeting is lost.  The consumer reads on while the greeting waits for the handler, and
    drops every message that is not a verification until the handler has been there: a put that the
    peer sent after it had verified this node, and that arrived, is counted as dropped and never
    stored. *)
Theorem message_behind_greeting_is_lost (r : remoteNode) (vm m : NodeWireMessage) (rest : list byte) (now : Z) (pick : bool) :
  rn_state r = nodeStateHandshake -> receiving r ->
  wire_ok vm -> wire_ok m -> wm_Code vm = MsgVERIFY -> wm_Code m <> MsgVERIFY -> wm_Code m <> MsgVERIFYOK ->
  reads r (frameLayout vm ++ frameLayout m ++ rest) ->
  let fuel := S (length (frameLayout vm ++ frameLayout m ++ rest)) in
  exists r1 r2, consumerStep r fuel now pick = Ret (r1, true) /\ consumerStep r1 fuel now pick = Ret (r2, true) /\
    onlyFirst r r2 vm /\ reads r2 rest.
Proof.
  intros Hst [Hdn Hop Hro] Hv Hm Hcv Hc1 Hc2 Hrd fuel.
  destruct (consumerStep_reads r fuel now pick _ vm (frameLayout m ++ rest) (or_intror Hst) Hrd (readMessage_frame _ _ Hv))
    as (c1 & Hrd1 & H1); [unfold fuel; lia|].
  assert (queueInboundMessage (set_rn_connection r (Some c1)) vm pick = Ret (set_rn_inbound (set_rn_connection r (Some c1))
    (Chan (ch_buf (rn_inbound r) ++ [vm]) (ch_cap (rn_inbound r)) false))) as Hq1.
  { unfold queueInboundMessage, selectSend. cbn [rn_state rn_done rn_inbound set_rn_connection]. rewrite Hst, Hcv, Hdn.
    cbn -[chanSend set_rn_inbound]. by rewrite chanSend_Ret. }
  rewrite Hq1 in H1. cbn [obind] in H1. set (r1 := set_rn_inbound _ _) in H1.
  destruct (consumerStep_reads r1 fuel now pick _ m rest (or_intror Hst) Hrd1 (readMessage_frame _ _ Hm)) as (c2 & Hrd2 & H2).
  { unfold fuel. rewrite !length_app. lia. }
  unfold queueInboundMessage in H2. cbn [rn_state set_rn_connection r1 set_rn_inbound] in H2. rewrite Hst in H2.
  rewrite (proj2 (Z.eqb_neq _ _) Hc1), (proj2 (Z.eqb_neq _ _) Hc2) in H2. cbn [negb andb Z.eqb nodeStateHandshake Pos.eqb recovered obind] in H2.
  eexists r1, _. split; [exact H1|]. split; [exact H2|]. split_and!; done.
Qed.

(** C34. A handshake that fails is not tried again.  A peer proposed to this node is noted as pending until it is
    verified.  If the connection of a node that is to be joined again ends before that, [tearDown] queues the peer, if there is room in the queue,
    and leaves the note; and whenever the goroutine that connects to peers takes a peer off the queue while it is noted, at whatever
    address, it drops it: no remote node is made for it, no goroutine joins it, and the note stays. *)
Theorem failed_handshake_blocks_peer w (l : loc) (r : remoteNode) (ip : gostring) :
  let id := rc_Id (rn_config r) in
  nd_nodes w !! l = Some r -> rc_ReconnectOnDisconnect (rn_config r) = true -> nd_pendingConn w !! id = Some ip ->
  ch_closed (nd_joinQueue w) = false -> zlen (ch_buf (nd_joinQueue w)) < ch_cap (nd_joinQueue w) ->
  (exists w1, tearDown w l = Ret w1 /\ ch_buf (nd_joinQueue w1) = ch_buf (nd_joinQueue w) ++ [MkPeer id (rc_IpAddress (rn_config r))] /\
     nd_pendingConn w1 !! id = Some ip /\ nd_state w1 = nd_state w) /\
  (forall (v : ClusteredBigCache C) (addr : gostring) (rest : list ProposedPeer), nd_state v = clusterStateStarted -> nd_pendingConn v !! id = Some ip ->
     ch_buf (nd_joinQueue v) = MkPeer id addr :: rest ->
     exists v', connectStep v = Ret (v', true) /\ skipped v v').
Proof.
  intros id Hl Hr Hp Hopen Hroom. split.
  - unfold tearDown. rewrite (getNode_Ret w l r Hl). cbn [obind]. rewrite Hr.
    cbn [nd_joinQueue eventRemoteNodeDisconneced set_nd_remoteNodes]. rewrite chanSend_Ret by done. cbn [obind].
    eexists. split; [reflexivity|]. done.
  - intros v addr rest Hst Hpv Hq. unfold connectStep, chanRecv. rewrite Hq. cbn [obind fst snd pp_Id].
    cbn [nd_state nd_pendingConn set_nd_joinQueue]. rewrite Hst, Z.eqb_refl. cbn [negb].
    rewrite bool_decide_eq_true_2 by (rewrite Hpv; eauto). eexists. split; [reflexivity|]. unfold skipped. by rewrite Hq.
Qed.
End Claims.

Section Expiry.
Context {C : Type} `{!LocalCache C} {hasher : Hasher} {platform : Platform}.
Context {rep : C -> gmap Z item -> Prop} {can_set : C -> gostring -> list byte -> Z -> Z -> Z -> Prop}.
Context {can_delete : C -> Z -> Prop} {settled : C -> Prop} `{!LocalCacheLaws C rep can_set can_delete settled}.
Implicit Types w : ClusteredBigCache C.

Lemma replicaDuration_at_expiry (e : Z) : 0 < e < 2 ^ 62 -> replicaDuration e (e * Second) = 0.
Proof.
  intros He. unfold replicaDuration. destruct (Z.eqb_spec e 0); [done|].
  unfold timeSub, unix, i64, unixToInternal, Second. rewrite (Z.mod_small (e + 2 ^ 63)) by lia.
  replace (e + 2 ^ 63 - 2 ^ 63) with e by lia. rewrite Z.mod_small by lia.
  rewrite Z.div_mul, Z.mod_mul by lia.
  replace ((e + 62135596800 + 2 ^ 63 - 2 ^ 63 - (e + 62135596800)) * 1000000000 - 0) with 0 by lia. reflexivity.
Qed.

(** A replica can outlive its expiry.  A duration of zero means no expiry to the cache; the handler of a put passes
    it the time that is left, which is zero when the message is handled at the very instant
    of the expiry: the item that has just expired is stored for ever. *)
Theorem replica_outlives_expiry w (c : C) (m : gmap Z item) (key : gostring) (data : list byte) (e : Z)
    (wm : NodeWireMessage) (ev : env) :
  0 < e < 2 ^ 62 -> put_key_ok key -> serializeMessage (NPut (MkPut 0 key e data)) = Ret wm ->
  ev_time ev = e * Second -> nd_cache w = Some c -> rep c m -> can_set c key data 0 (ev_epoch ev) (ev_now ev) ->
  exists w' c', handlePut w wm ev = Ret w' /\ nd_cache w' = Some c' /\
    (settled c' -> rep c' (storedForEver key data m)).
Proof.
  intros He Hk Hs Ht Hc Hrep Hset. destruct (lc_set c m key data 0 (ev_epoch ev) (ev_now ev) Hrep Hset) as (c' & x & Hl & Hrep').
  change (PutMessage_Serialize (MkPut 0 key e data) = Ret wm) in Hs. rewrite put_Serialize_Ret in Hs. injection Hs as <-.
  cbn [pm_Expiry pm_Key pm_Data]. eexists _, c'. unfold handlePut.
  change (DeSerialize zeroPut ?x) with (PutMessage_DeSerialize zeroPut x).
  rewrite put_DeSerialize_Ret by (done || lia). cbn [obind pm_Expiry pm_Key pm_Data].
  fold (replicaDuration e (ev_time ev)). rewrite Ht, replicaDuration_at_expiry by done.
  unfold withCache. rewrite Hc, Hl. cbn [obind fst]. split_and!; [reflexivity|done|]. intros Hse. apply (Hrep' Hse).
Qed.
End Expiry.

(** Half a second later than the clock's second, a replica is stored to expire a second early. *)
Example replica_expires_early :
  expiryOf 100 (5 * Second) = 105 /\ expiryOf 100 (replicaDuration 105 (100 * Second + 500000000)) = 104.
Proof. vm_compute. auto. Qed.

(** ** Witnesses *)

Abbreviation mapNode := (ClusteredBigCache (gmap Z item)).

Definition endedA : mapNode := thereafter quietA (ShutDown quietA).

Definition peerAt (w : mapNode) (l : loc) : remoteNode :=
  match nd_nodes w !! l with Some r => r | None => watched end.

Lemma quietA_registered : registered quietA locB.
Proof. exists (word "B"). vm_compute. reflexivity. Qed.

Lemma shutdown_leaves_connections_witness :
  (exists r', nd_nodes endedA !! locB = Some r' /\ sameLink (peerAt quietA locB) r') /\
  (rn_state (peerAt quietA locB) = nodeStateConnected -> forall pending data wm ev, getRsp_key_ok pending ->
     serializeMessage (NGetRsp (MkGetRsp 0 pending data)) = Ret wm -> handleOne endedA locB wm ev = Panic) /\
  ShutDown endedA = Panic.
Proof.
  refine (shutdown_leaves_connections quietA endedA locB (peerAt quietA locB) quietA_reachable _ quietA_registered _);
    vm_compute; reflexivity.
Defined.

(** [B] connects a second time. *)
Definition againA : mapNode := accept quietA "10.0.0.2:4712" [greeting "B" clusterModeACTIVE].

Definition locB2 : loc := 3%positive.

Definition greetB : VerifyMessage := MkVerify (word "B") [] (word "9911") clusterModeACTIVE.

Lemma duplicate_unregisters_peer_witness :
  exists w1 w2, handleVerify againA locB2 (wireOf (NVerify greetB)) at100 = Ret (w1, false) /\
    nd_remoteNodes w1 = nd_remoteNodes againA /\ tearDown w1 locB2 = Ret w2 /\
    forgotten w2 (word "B") locB (peerAt againA locB).
Proof.
  refine (duplicate_unregisters_peer againA locB2 locB (peerAt againA locB2) (peerAt againA locB) (wireOf (NVerify greetB)) greetB
    at100 _ _ _ _ _ _ _); try (vm_compute; reflexivity). discriminate.
Defined.

(** [B] sends its greeting and a put. *)
Definition eagerA : mapNode := accept startedA "10.0.0.2:4711" [greeting "B" clusterModeACTIVE; NPut putK].

Lemma eagerA_reads :
  reads (peerAt eagerA locB) (frameLayout (wireOf (NVerify greetB)) ++ frameLayout (wireOf (NPut putK)) ++ []).
Proof.
  eexists _, _. split_and!; [vm_compute; reflexivity|reflexivity| |vm_compute; reflexivity].
  split; try reflexivity. repeat constructor; discriminate.
Qed.

Lemma message_behind_greeting_is_lost_witness :
  let fuel := S (length (frameLayout (wireOf (NVerify greetB)) ++ frameLayout (wireOf (NPut putK)) ++ [])) in
  exists r1 r2, consumerStep (peerAt eagerA locB) fuel 0 false = Ret (r1, true) /\ consumerStep r1 fuel 0 false = Ret (r2, true) /\
    onlyFirst (peerAt eagerA locB) r2 (wireOf (NVerify greetB)) /\ reads r2 [].
Proof.
  refine (message_behind_greeting_is_lost (peerAt eagerA locB) (wireOf (NVerify greetB)) (wireOf (NPut putK)) [] 0 false
    _ _ _ _ _ _ _ eagerA_reads); try (vm_compute; reflexivity); try discriminate.
  - split; vm_compute; reflexivity.
  - split; [split; vm_compute; [discriminate|reflexivity]|vm_compute; reflexivity].
  - split; [split; vm_compute; [discriminate|reflexivity]|vm_compute; reflexivity].
Defined.

(** A node that reconnects, told of a peer, and connected to it. *)
Definition nodeD : mapNode := newNode (set_cc_ReconnectOnDisconnect configA true) (Some ∅) clusterModeACTIVE.

Definition toldD : mapNode :=
  set_nd_joinQueue (afterwards nodeD (Start nodeD [] None)) (Chan [MkPeer (word "B") (word "10.0.0.2:9911")] 512 false).

Definition joinedD : mapNode :=
  let w := afterwards toldD (connectStep toldD) in
  afterwards w (joinStep w locB 0 (inl (socket "10.0.0.2:9911" [])) at100).

Lemma failed_handshake_blocks_peer_witness :
  exists w1 w2, tearDown joinedD locB = Ret w1 /\ ch_buf (nd_joinQueue w1) = [MkPeer (word "B") (word "10.0.0.2:9911")] /\
    connectStep w1 = Ret (w2, true) /\ skipped w1 w2.
Proof.
  destruct (failed_handshake_blocks_peer joinedD locB (peerAt joinedD locB) (word "10.0.0.2:9911")) as [(w1 & Ht & Hq & Hp & Hs) Hstep];
    try (vm_compute; reflexivity).
  assert (ch_buf (nd_joinQueue w1) = [MkPeer (word "B") (word "10.0.0.2:9911")]) as Hq1 by (rewrite Hq; vm_compute; reflexivity).
  destruct (Hstep w1 (word "10.0.0.2:9911") []) as (w2 & Hc & Hk).
  - rewrite Hs. vm_compute. reflexivity.
  - exact Hp.
  - rewrite Hq1. vm_compute. reflexivity.
  - exists w1, w2. exact (conj Ht (conj Hq1 (conj Hc Hk))).
Defined.

Lemma replica_outlives_expiry_witness :
  exists w' c', handlePut quietA (wireOf (NPut (MkPut 0 keyK 105 valV))) (Env (105 * Second) 105 (105 * Second) false) = Ret w' /\
    nd_cache w' = Some c' /\ (anyState c' -> c' = storedForEver keyK valV ∅).
Proof.
  refine (replica_outlives_expiry quietA ∅ ∅ keyK valV 105 (wireOf (NPut (MkPut 0 keyK 105 valV)))
    (Env (105 * Second) 105 (105 * Second) false) _ _ _ _ _ _ I); try (vm_compute; reflexivity).
  by vm_compute.
Defined.
