(* ===== verification/RegistryRace.v ===== *)
(** * Overlapping uses of the list of nodes ([utils/sliceList.go], [Cluster/clusteredBigCache.go])

    [Add] counts and then stores, [Remove] looks, deletes and then counts, and
    [eventVerifyRemoteNode] looks and then adds; each access is atomic, the sequences are not.  The goroutines of different remote
    nodes run them at the same time.  The methods are cut between their accesses, and the pieces of
    any number of calls interleave. *)

From stdpp Require Import base decidable countable list gmap relations.
From Stdlib Require Import ZArith Lia.
From S2P Require Import Prelude.
From S2P Require Import FreeList.
From S2P Require Import GoTime.
From S2P Require Import SliceList.
From S2P Require Import Chan.
From S2P Require Import Connection.
From S2P Require Import Node.
From S2P Require Import RemoteNode.
From S2P Require Import Cluster.

(** ** The pieces *)

(** A call between two of its accesses. *)
Inductive regPause (K V : Type) : Type :=
| AddCounted (key : K) (value : V)
| RemoveLoaded (key : K)
| RemoveDeleted
| VerifyChecked (key : K) (value : V).

Arguments AddCounted {K V} _ _.
Arguments RemoveLoaded {K V} _.
Arguments RemoveDeleted {K V}.
Arguments VerifyChecked {K V} _ _.

Section Pieces.
Context {K V : Type} `{Countable K}.
Implicit Types sl : SliceList K V.

(** [atomic.AddInt32(&list.size, n)] *)
Definition sliCount sl (n : Z) : SliceList K V := MkSliceList (sli_items sl) (i32 (sli_size sl + n)).

(** [list.items.Store] and [list.items.Delete] *)
Definition sliStore sl (key : K) (v : V) : SliceList K V := MkSliceList (<[key := v]> (sli_items sl)) (sli_size sl).

Definition sliErase sl (key : K) : SliceList K V := MkSliceList (delete key (sli_items sl)) (sli_size sl).

Lemma sliAdd_pieces sl key v : sliAdd sl key (Some v) = sliStore (sliCount sl 1) key v.
Proof. done. Qed.

Lemma sliRemove_pieces sl key :
  sliRemove sl key = if sliContains sl key then sliCount (sliErase sl key) (-1) else sl.
Proof. unfold sliRemove, sliContains. destruct (sli_items sl !! key) eqn:E; [by rewrite bool_decide_true by eauto|done]. Qed.

(** ** Interleaving *)

Record registry : Type := Registry {
  rg_list : SliceList K V;
  rg_paused : list (regPause K V);
  (** how many stores found the key there, less how many deletions did not *)
  rg_drift : Z
}.

Inductive reg_step : registry -> registry -> Prop :=
| reg_add sl ps n key v : reg_step (Registry sl ps n) (Registry (sliCount sl 1) (ps ++ [AddCounted key v]) n)
| reg_store sl ps1 ps2 n key v :
    reg_step (Registry sl (ps1 ++ AddCounted key v :: ps2) n)
      (Registry (sliStore sl key v) (ps1 ++ ps2) (if sliContains sl key then n + 1 else n))
| reg_load sl ps n key :
    sliContains sl key = true -> reg_step (Registry sl ps n) (Registry sl (ps ++ [RemoveLoaded key]) n)
| reg_delete sl ps1 ps2 n key :
    reg_step (Registry sl (ps1 ++ RemoveLoaded key :: ps2) n)
      (Registry (sliErase sl key) (ps1 ++ RemoveDeleted :: ps2) (if sliContains sl key then n else n - 1))
| reg_uncount sl ps1 ps2 n :
    reg_step (Registry sl (ps1 ++ RemoveDeleted :: ps2) n) (Registry (sliCount sl (-1)) (ps1 ++ ps2) n)
| reg_check sl ps n key v :
    sliContains sl key = false -> reg_step (Registry sl ps n) (Registry sl (ps ++ [VerifyChecked key v]) n)
| reg_approve sl ps1 ps2 n key v :
    reg_step (Registry sl (ps1 ++ VerifyChecked key v :: ps2) n)
      (Registry (sliCount sl 1) (ps1 ++ AddCounted key v :: ps2) n).

(** What a call still owes to the counter. *)
Definition owed (p : regPause K V) : Z :=
  match p with AddCounted _ _ => 1 | RemoveDeleted => 1 | _ => 0 end.

Definition owedAll (ps : list (regPause K V)) : Z := foldr (fun p n => owed p + n) 0 ps.

Definition counted (c : registry) : Prop :=
  sli_size (rg_list c) = i32 (Z.of_nat (size (sli_items (rg_list c))) + rg_drift c + owedAll (rg_paused c)).

Lemma owedAll_app ps1 ps2 : owedAll (ps1 ++ ps2) = owedAll ps1 + owedAll ps2.
Proof. induction ps1 as [|p ps1 IH]; [done|]. cbn [app owedAll foldr] in *. fold (owedAll (ps1 ++ ps2)) (owedAll ps1) in *. lia. Qed.

Lemma owedAll_cons p ps : owedAll (p :: ps) = owed p + owedAll ps.
Proof. done. Qed.

Lemma size_store sl key (v : V) :
  Z.of_nat (size (<[key := v]> (sli_items sl))) =
  Z.of_nat (size (sli_items sl)) + (if sliContains sl key then 0 else 1).
Proof.
  unfold sliContains. destruct (sli_items sl !! key) eqn:E.
  - rewrite bool_decide_true by eauto. rewrite map_size_insert_Some by eauto. lia.
  - rewrite bool_decide_false by (by intros [? ?]). rewrite map_size_insert_None by done. lia.
Qed.

Lemma size_erase sl key :
  Z.of_nat (size (delete key (sli_items sl))) =
  Z.of_nat (size (sli_items sl)) - (if sliContains sl key then 1 else 0).
Proof.
  unfold sliContains. rewrite map_size_delete. destruct (sli_items sl !! key) eqn:E.
  - rewrite bool_decide_true by eauto.
    assert (size (sli_items sl) <> 0)%nat by (apply map_size_ne_0_lookup; eauto). cbn. lia.
  - rewrite bool_decide_false by (by intros [? ?]). cbn. lia.
Qed.

Lemma reg_step_counted c c' : reg_step c c' -> counted c -> counted c'.
Proof.
  unfold counted. intros Hs. destruct Hs; cbn [rg_list rg_paused rg_drift sli_items sli_size sliCount sliStore sliErase];
    rewrite ?owedAll_app, ?owedAll_cons; cbn [owed owedAll foldr]; intros Hc; try exact Hc; rewrite ?Hc, ?i32_plus;
    rewrite ?size_store, ?size_erase; try (destruct (sliContains sl key)); f_equal; lia.
Qed.

Lemma reg_run_counted c c' : rtc reg_step c c' -> counted c -> counted c'.
Proof. induction 1 as [c|c1 c2 c3 Hs _ IH]; [done|]. intros Hc. by apply IH, (reg_step_counted c1). Qed.

(** C35. What the size counter says.  Whatever additions, removals and verifications overlap on the list, when
    none is under way the counter is the number of keys, plus the stores that found their key stored, minus the deletions that
    found it deleted; [Values] panics exactly when that is negative. *)
Theorem registry_counter (c : registry) :
  rtc reg_step (Registry NewSliceList [] 0) c -> rg_paused c = [] ->
  - 2 ^ 31 <= Z.of_nat (size (sli_items (rg_list c))) + rg_drift c < 2 ^ 31 ->
  sliSize (rg_list c) = Z.of_nat (size (sliKeys (rg_list c))) + rg_drift c /\
  (sliValues (rg_list c) = Panic <-> Z.of_nat (size (sliKeys (rg_list c))) + rg_drift c < 0).
Proof.
  intros Hr Hp Hb. assert (counted c) as Hc.
  { apply (reg_run_counted _ _ Hr). unfold counted. cbn. by rewrite map_size_empty. }
  unfold counted in Hc. rewrite Hp in Hc. cbn [owedAll foldr] in Hc. unfold sliSize, sliKeys, sliValues in *.
  assert (sli_size (rg_list c) = Z.of_nat (size (sli_items (rg_list c))) + rg_drift c) as ->.
  { rewrite Hc. unfold i32. rewrite Z.mod_small; lia. }
  split; [done|]. destruct (Z.ltb_spec (Z.of_nat (size (sli_items (rg_list c))) + rg_drift c) 0); split; (done || lia).
Qed.

(** [n] calls find a key, delete it and count it down, each step of all of them before the next. *)
Lemma removes_load sl ps (d : Z) (key : K) (n : nat) :
  sliContains sl key = true -> rtc reg_step (Registry sl ps d) (Registry sl (ps ++ replicate n (RemoveLoaded key)) d).
Proof.
  intros Hin. revert ps. induction n as [|n IH]; intros ps; [by rewrite app_nil_r|]. eapply rtc_l; [by apply reg_load|].
  specialize (IH (ps ++ [RemoveLoaded key])). by rewrite <- app_assoc in IH.
Qed.

Lemma removes_delete sl (d : Z) (key : K) (k n : nat) :
  sliContains sl key = false ->
  rtc reg_step (Registry sl (replicate k RemoveDeleted ++ replicate n (RemoveLoaded key)) d)
    (Registry sl (replicate (k + n) RemoveDeleted) (d - Z.of_nat n)).
Proof.
  intros Hout. revert k d. induction n as [|n IH]; intros k d.
  { rewrite app_nil_r, Nat.add_0_r, Z.sub_0_r. done. }
  assert (sliErase sl key = sl) as He.
  { unfold sliContains in Hout. apply bool_decide_eq_false in Hout. destruct sl as [it sz]. unfold sliErase. cbn in *. f_equal.
    apply delete_id. by apply eq_None_not_Some. }
  pose proof (reg_delete sl (replicate k RemoveDeleted) (replicate n (RemoveLoaded key)) d key) as Hs. rewrite Hout, He in Hs.
  eapply rtc_l; [exact Hs|]. specialize (IH (S k) (d - 1)). rewrite replicate_S_end, <- app_assoc in IH.
  replace (k + S n)%nat with (S k + n)%nat by lia. replace (d - Z.of_nat (S n)) with (d - 1 - Z.of_nat n) by lia. exact IH.
Qed.

Lemma removes_uncount sl (d : Z) (n : nat) :
  - 2 ^ 31 <= sli_size sl - Z.of_nat n -> sli_size sl < 2 ^ 31 ->
  rtc reg_step (Registry sl (replicate n RemoveDeleted) d) (Registry (MkSliceList (sli_items sl) (sli_size sl - Z.of_nat n)) [] d).
Proof.
  revert sl. induction n as [|n IH]; intros sl Hlo Hhi.
  { rewrite Z.sub_0_r. by destruct sl. }
  eapply rtc_l; [apply (reg_uncount sl [] (replicate n RemoveDeleted))|].
  assert (sli_size (sliCount sl (-1)) = sli_size sl - 1) as Hs.
  { cbn [sli_size sliCount]. unfold i32. rewrite Z.mod_small by lia. lia. }
  replace (MkSliceList (sli_items sl) (sli_size sl - Z.of_nat (S n)))
    with (MkSliceList (sli_items (sliCount sl (-1))) (sli_size (sliCount sl (-1)) - Z.of_nat n)); [apply IH; lia|].
  cbn [sli_items sliCount]. f_equal. rewrite Hs. lia.
Qed.

(** C40. Removing at the same time breaks the list.  If some calls that remove a key of a list with the right counter all find it
    before one deletes it, each of them can count it down: the key is gone and the counter is short by one for each call but the first.
    [Values] then panics exactly when the calls are more than the keys were; so two calls are enough when it was the only key. *)
Theorem overlapping_removes_break_values sl (d : Z) (key : K) (n : nat) :
  sliContains sl key = true -> sliSize sl = Z.of_nat (size (sliKeys sl)) -> sliSize sl < 2 ^ 31 -> 0 < Z.of_nat n <= 2 ^ 31 ->
  exists sl', rtc reg_step (Registry sl [] d) (Registry sl' [] (d - (Z.of_nat n - 1))) /\
    sli_items sl' = delete key (sli_items sl) /\ sliSize sl' = sliSize sl - Z.of_nat n /\
    (sliValues sl' = Panic <-> (size (sliKeys sl) < n)%nat).
Proof.
  intros Hin Hsz Hmax Hn. destruct n as [|n]; [lia|].
  assert (sliContains (sliErase sl key) key = false) as Hout
    by (apply bool_decide_false; cbn; rewrite lookup_delete_eq; by intros [? ?]).
  exists (MkSliceList (delete key (sli_items sl)) (sli_size sl - Z.of_nat (S n))). split_and!; [|done|done|].
  - etransitivity; [apply (removes_load sl [] d key (S n) Hin)|]. cbn [app replicate].
    eapply rtc_l; [apply (reg_delete sl [] (replicate n (RemoveLoaded key)) d key)|]. rewrite Hin.
    etransitivity; [apply (removes_delete (sliErase sl key) d key 1 n Hout)|].
    replace (d - (Z.of_nat (S n) - 1)) with (d - Z.of_nat n) by lia.
    apply (removes_uncount (sliErase sl key)); unfold sliSize in *; cbn [sli_size sliErase]; lia.
  - unfold sliValues, sliSize in *. cbn [sli_size]. destruct (Z.ltb_spec (sli_size sl - Z.of_nat (S n)) 0); split; (done || lia).
Qed.

(** Two connections of a peer are both accepted: neither finds the key, both add it, and the list keeps the second
    and counts both. *)
Theorem overlapping_verifications_both_pass (sl : SliceList K V) (n : Z) (key : K) (v1 v2 : V) :
  sliContains sl key = false ->
  exists sl', rtc reg_step (Registry sl [] n) (Registry sl' [] (n + 1)) /\
    sli_items sl' = <[key := v2]> (sli_items sl) /\ sliSize sl' = i32 (sliSize sl + 2).
Proof.
  intros Hout.
  set (sl1 := sliStore (sliCount sl 1) key v1). set (sl2 := sliStore (sliCount sl1 1) key v2).
  assert (sliContains (sliCount sl 1) key = false) as Hout1 by exact Hout.
  assert (sliContains (sliCount sl1 1) key = true) as Hin by (apply bool_decide_true; cbn; rewrite lookup_insert_eq; eauto).
  exists sl2. split; [|split].
  - eapply rtc_l; [apply (reg_check sl [] n key v1 Hout)|]. eapply rtc_l; [apply (reg_check sl [VerifyChecked key v1] n key v2 Hout)|].
    eapply rtc_l; [apply (reg_approve sl [] [VerifyChecked key v2] n key v1)|].
    eapply rtc_l; [apply (reg_store _ [] [VerifyChecked key v2] n key v1)|]. rewrite Hout1.
    eapply rtc_l; [apply (reg_approve sl1 [] [] n key v2)|].
    eapply rtc_l; [apply (reg_store _ [] [] n key v2)|]. rewrite Hin. apply rtc_refl.
  - cbn. apply insert_insert_eq.
  - cbn. unfold sliSize. rewrite i32_plus. f_equal. lia.
Qed.
End Pieces.

Arguments registry K V {_ _}.

(** ** The node *)

Section NodeRegistry.
Context {C : Type} `{!LocalCache C} {platform : Platform}.
Implicit Types w : ClusteredBigCache C.

(** [eventVerifyRemoteNode] is a check and, when it passes, an addition. *)
Lemma eventVerify_pieces w (l : loc) (r : remoteNode) :
  eventVerifyRemoteNode w l r =
  let id := rc_Id (rn_config r) in
  if sliContains (nd_remoteNodes w) id then (w, false)
  else (set_nd_pendingConn (set_nd_remoteNodes w (sliStore (sliCount (nd_remoteNodes w) 1) id l))
          (delete id (nd_pendingConn w)), true).
Proof. done. Qed.

(** With a negative counter no request of a client is answered any more. *)
Lemma negative_size_panics w (key randStr : gostring) :
  nd_state w = clusterStateStarted -> nd_mode w = clusterModePASSIVE -> sliSize (nd_remoteNodes w) < 0 ->
  (forall data d ev, Put w key data d ev = Panic) /\ (forall ev, DeleteKey w key ev = Panic) /\ GetKey w key randStr = Panic.
Proof.
  intros Hst Hm Hn. assert (sliValues (nd_remoteNodes w) = Panic) as Hv.
  { unfold sliValues. unfold sliSize in Hn. by rewrite (proj2 (Z.ltb_lt _ _) Hn). }
  split_and!.
  - intros data d ev. unfold Put. rewrite Hst, Hm. cbn [negb Z.eqb clusterStateStarted Pos.eqb clusterModePASSIVE clusterModeACTIVE obind].
    by rewrite Hv.
  - intros ev. unfold DeleteKey. rewrite Hst, Hm. cbn [negb Z.eqb clusterStateStarted Pos.eqb clusterModePASSIVE clusterModeACTIVE obind].
    by rewrite Hv.
  - unfold GetKey, getRemote, getRemoteNodes. rewrite Hst, Hm. cbn [negb Z.eqb clusterStateStarted Pos.eqb clusterModePASSIVE clusterModeACTIVE].
    by rewrite Hv.
Qed.
End NodeRegistry.

(** ** Witnesses *)

(** One key, added twice. *)
Lemma registry_counter_witness :
  exists c : registry Z Z, rg_paused c = [] /\ sliSize (rg_list c) = Z.of_nat (size (sliKeys (rg_list c))) + rg_drift c /\
    rg_drift c = 1 /\ (sliValues (rg_list c) = Panic <-> Z.of_nat (size (sliKeys (rg_list c))) + rg_drift c < 0).
Proof.
  set (c := Registry (sliStore (sliCount (sliStore (sliCount NewSliceList 1) 7 10) 1) 7 20) [] 1 : registry Z Z).
  destruct (registry_counter c) as [H1 H2].
  - eapply rtc_l; [apply (reg_add NewSliceList [] 0 7 10)|]. eapply rtc_l; [apply (reg_store _ [] [] 0 7 10)|].
    eapply rtc_l; [apply (reg_add _ [] 0 7 20)|]. eapply rtc_l; [apply (reg_store _ [] [] 0 7 20)|]. apply rtc_refl.
  - reflexivity.
  - vm_compute. split; [discriminate|reflexivity].
  - exists c. split; [reflexivity|]. split; [exact H1|]. split; [reflexivity|exact H2].
Defined.

(** Two calls that remove the only key. *)
Lemma overlapping_removes_break_values_witness :
  exists sl' : SliceList Z Z, rtc reg_step (Registry (sliAdd NewSliceList 7 (Some 10)) [] 0) (Registry sl' [] (-1)) /\
    sli_items sl' = ∅ /\ sliSize sl' = -1 /\ sliValues sl' = Panic.
Proof.
  destruct (overlapping_removes_break_values (sliAdd NewSliceList 7 (Some 10) : SliceList Z Z) 0 7 2) as (sl' & Hr & Hi & Hs & Hv).
  - vm_compute. reflexivity.
  - vm_compute. reflexivity.
  - vm_compute. reflexivity.
  - vm_compute. split; [reflexivity|discriminate].
  - exists sl'. split; [exact Hr|]. split; [rewrite Hi; vm_compute; reflexivity|]. split; [rewrite Hs; vm_compute; reflexivity|].
    apply Hv. vm_compute. reflexivity.
Defined.
