(* ===== verification/Sync.v ===== *)
(** * Proposing peers

    A node that joins asks for the peers of the node it joined; the answer lists them with the address they
    are known by and the port they listen on, and the joining node connects to those it does not
    know. *)

From Stdlib Require Import Strings.String.
From stdpp Require Import base decidable countable list gmap.
From Stdlib Require Import ZArith Lia Strings.Byte.
From S2P Require Import Prelude.
From S2P Require Import FreeList.
From S2P Require Import Hash.
From S2P Require Import GoTime.
From S2P Require Import Shard.
From S2P Require Import BigCache.
From S2P Require Import Message.
From S2P Require Import JsonMessage.
From S2P Require Import SliceList.
From S2P Require Import Chan.
From S2P Require Import Connection.
From S2P Require Import Node.
From S2P Require Import MapCache.
From S2P Require Import RemoteNode.
From S2P Require Import Cluster.
From S2P Require Import ClusterRun.
From S2P Require Import Replication.
From S2P Require Import RemoteGet.

(** ** Host and port *)

Lemma indexByte_app_r (a s : list byte) (b : byte) :
  hasByte a b = false -> indexByte (a ++ s) b = (fun i => length a + i)%nat <$> indexByte s b.
Proof.
  unfold hasByte. induction a as [|c a IH]; intros H; cbn [indexByte app length].
  - by destruct (indexByte s b).
  - cbn [indexByte] in H. destruct (Byte.eqb c b); [discriminate H|].
    rewrite IH by (by destruct (indexByte a b)). by destruct (indexByte s b).
Qed.

Lemma indexByte_here (s : list byte) (b : byte) : indexByte (b :: s) b = Some 0%nat.
Proof. cbn. by rewrite Byte.byte_dec_lb. Qed.

Lemma hasByte_app (a s : list byte) (b : byte) : hasByte (a ++ s) b = hasByte a b || hasByte s b.
Proof.
  unfold hasByte. induction a as [|c a IH]; cbn [indexByte app]; [done|].
  destruct (Byte.eqb c b); [done|]. destruct (indexByte (a ++ s) b), (indexByte a b), (indexByte s b); cbn in *; done.
Qed.

Lemma hasByte_cons (c : byte) (s : list byte) (b : byte) : hasByte (c :: s) b = Byte.eqb c b || hasByte s b.
Proof. unfold hasByte. cbn [indexByte]. destruct (Byte.eqb c b); [done|]. by destruct (indexByte s b). Qed.

Lemma hasByte_rev (s : list byte) (b : byte) : hasByte (rev s) b = hasByte s b.
Proof. induction s as [|c s IH]; [done|]. cbn [rev]. rewrite hasByte_app, IH, !hasByte_cons. cbn. by rewrite orb_false_r, orb_comm. Qed.

Lemma lastByte_app (a p : list byte) (b : byte) : hasByte p b = false -> lastByte (a ++ b :: p) b = Some (length a).
Proof.
  intros H. unfold lastByte. rewrite rev_app_distr. cbn [rev]. rewrite <- app_assoc.
  rewrite indexByte_app_r by (by rewrite hasByte_rev). cbn [app]. rewrite indexByte_here. cbn. f_equal.
  rewrite length_app, length_rev. cbn. lia.
Qed.

Definition plainHost (s : list byte) : Prop := hasByte s "[" = false /\ hasByte s "]" = false.

Definition plainPort (s : list byte) : Prop := plainHost s /\ hasByte s ":" = false.

(** Host names and addresses of both families survive. *)
Lemma SplitHostPort_Join (host port : list byte) :
  plainHost host -> plainPort port -> SplitHostPort (JoinHostPort host port) = Some (host, port).
Proof.
  intros [Ho Hc] [[Po Pc] Pp]. unfold JoinHostPort. destruct (hasByte host ":") eqn:E.
  - change ("["%byte :: host ++ "]"%byte :: ":"%byte :: port) with (("["%byte :: host) ++ ["]"%byte] ++ ":"%byte :: port).
    rewrite app_assoc. unfold SplitHostPort. rewrite lastByte_app by done. rewrite <- app_assoc. cbn [mbind option_bind].
    rewrite indexByte_app_r by (rewrite hasByte_cons, Hc; done). cbn [app]. rewrite indexByte_here. cbn [fmap option_fmap option_map mbind option_bind].
    cbn [Byte.eqb length]. change (Byte.eqb "[" "[") with true. rewrite length_app. cbn [length].
    replace (Nat.eqb _ _) with true by (symmetry; apply Nat.eqb_eq; lia). cbn [negb drop].
    rewrite drop_0, hasByte_app, !hasByte_cons, Ho, Po.
    replace (S (length host) + 0)%nat with (length host + 1)%nat by lia.
    rewrite drop_app_add. cbn [drop]. rewrite hasByte_cons, Pc. cbn [orb Byte.eqb].
    replace (length host + 1 - 1)%nat with (length host) by lia. rewrite take_app_length.
    replace (S (length host + 1)) with (length host + 2)%nat by lia. by rewrite drop_app_add.
  - unfold SplitHostPort. rewrite lastByte_app by done. cbn [mbind option_bind].
    replace (match host ++ ":"%byte :: port with [] => false | b :: _ => Byte.eqb b "[" end) with false.
    2:{ destruct host as [|b h]; [done|]. cbn [app]. rewrite hasByte_cons in Ho. by destruct (Byte.eqb b "["). }
    rewrite take_app_length, E, !hasByte_app, !hasByte_cons, Ho, Hc, Po, Pc. cbn.
    replace (S (length host)) with (length host + 1)%nat by lia. by rewrite drop_app_add.
Qed.

(** ** The list *)

Section Sync.
Context {C : Type} `{!LocalCache C} {platform : Platform}.
Implicit Types w : ClusteredBigCache C.

(** A remote node whose address is that of a host. *)
Definition hostOf (n : remoteNode) (host : gostring) : Prop :=
  exists port, rc_IpAddress (rn_config n) = JoinHostPort host port /\ plainHost host /\ plainPort port.

(** Whom a node proposes to the peer [r] of the mode: not itself, and no passive node to a passive one. *)
Definition proposes (r n : remoteNode) (mode : Z) : Prop :=
  rc_Id (rn_config n) <> rc_Id (rn_config r) /\ ~ (rn_mode n = clusterModePASSIVE /\ mode = clusterModePASSIVE).

Lemma proposedPeers_spec w (r : remoteNode) (mode : Z) (values : list loc) :
  Forall (fun v => exists n host, nd_nodes w !! v = Some n /\ hostOf n host) values ->
  exists ps, proposedPeers w r mode values = Ret ps /\
    forall p, p ∈ ps <-> exists v n host, v ∈ values /\ nd_nodes w !! v = Some n /\ hostOf n host /\ proposes r n mode /\
      p = MkPeer (rc_Id (rn_config n)) (JoinHostPort host (rc_ServicePort (rn_config n))).
Proof.
  induction values as [|v values IH]; intros Hf; cbn [proposedPeers].
  { exists []. split; [done|]. intros p. split; [by intros ?%not_elem_of_nil|]. by intros (v & n & h & ?%not_elem_of_nil & _). }
  inversion Hf as [|? ? (n & host & Hv & Hh) Hf']; subst. destruct (IH Hf') as (ps & Hps & Hin). clear IH.
  rewrite (getNode_Ret w v n Hv). cbn [obind]. rewrite Hps. cbn [obind].
  assert (forall p, (exists v' n' h', v' ∈ v :: values /\ nd_nodes w !! v' = Some n' /\ hostOf n' h' /\ proposes r n' mode /\
      p = MkPeer (rc_Id (rn_config n')) (JoinHostPort h' (rc_ServicePort (rn_config n')))) <->
    (proposes r n mode /\ p = MkPeer (rc_Id (rn_config n)) (JoinHostPort host (rc_ServicePort (rn_config n)))) \/ p ∈ ps) as Hstep.
  { intros p. rewrite Hin. split.
    - intros (v' & n' & h' & [->|Hv']%elem_of_cons & Hn' & Hh' & Hp & ->); [left|right; by exists v', n', h'].
      rewrite Hv in Hn'. injection Hn' as <-. split; [done|]. destruct Hh as (port & Ha & Hp1 & Hp2), Hh' as (port' & Ha' & Hp1' & Hp2').
      rewrite Ha in Ha'. pose proof (SplitHostPort_Join host port Hp1 Hp2) as H1. rewrite Ha', SplitHostPort_Join in H1 by done. by injection H1 as -> _.
    - intros [[Hp ->]|(v' & n' & h' & Hv' & Hrest)].
      + exists v, n, host. split_and!; try done. by apply elem_of_cons; left.
      + exists v', n', h'. split; [by apply elem_of_cons; right|done]. }
  case_bool_decide as Hid.
  { exists ps. split; [done|]. intros p. rewrite Hstep. split; [by right|]. intros [[[Hne _] _]|?]; [done|done]. }
  destruct ((rn_mode n =? clusterModePASSIVE) && (mode =? clusterModePASSIVE)) eqn:Em.
  { exists ps. split; [done|]. intros p. rewrite Hstep. split; [by right|]. intros [[[_ Hne] _]|?]; [|done].
    exfalso. apply Hne. zbool. lia. }
  destruct Hh as (port & Ha & Hp1 & Hp2). rewrite Ha, SplitHostPort_Join by done. cbn [fst].
  eexists. split; [done|]. intros p. rewrite Hstep, elem_of_cons. split; [|by intros [[_ ->]|?]; auto].
  intros [->|?]; [left|by right]. split; [|done]. split; [done|]. intros [H1 H2]. rewrite H1, H2 in Em. discriminate Em.
Qed.
End Sync.

(** ** Claims *)

(** C24. A joining node learns of all other peers.  The answer to a sync request proposes exactly the
    registered peers, except the one that asks and passive ones to a passive one, each with the
    host of its connection, of either address family, and the port it listens on; without any, nothing is sent. *)
Theorem sync_proposes_other_peers {C : Type} `{!LocalCache C} {platform : Platform} (w : ClusteredBigCache C) (l : loc)
    (r : remoteNode) (msg : SyncReqMessage) (ev : env) :
  reachable w -> nd_nodes w !! l = Some r -> sending r -> Z.of_nat (size (sli_items (nd_remoteNodes w))) < 2 ^ 31 ->
  (forall v n, registered w v -> nd_nodes w !! v = Some n -> exists host, hostOf n host) ->
  exists ps, sendSyncResponse w l msg ev =
      Ret (match ps with
           | [] => w
           | _ => putNode w l (queued r (NSyncRsp (MkSyncRsp 0 (cc_ReplicationFactor (nd_config w)) (Some ps) [])))
           end) /\
    forall p, p ∈ ps <-> exists v n host, registered w v /\ nd_nodes w !! v = Some n /\ hostOf n host /\
      proposes r n (sq_Mode msg) /\ p = MkPeer (rc_Id (rn_config n)) (JoinHostPort host (rc_ServicePort (rn_config n))).
Proof.
  intros Hre Hl Hs Hsz Hh. pose proof (reachable_inv w Hre) as H.
  set (values := (map_to_list (sli_items (nd_remoteNodes w))).*2).
  assert (forall v, v ∈ values <-> registered w v) as Hval.
  { intros v. unfold values. rewrite list_elem_of_fmap. split.
    - intros ([id v'] & -> & Hin). apply elem_of_map_to_list in Hin. by exists id.
    - intros [id Hid]. exists (id, v). split; [done|]. by apply elem_of_map_to_list. }
  assert (sliValues (nd_remoteNodes w) = Ret values) as Hv.
  { unfold sliValues. rewrite (iv_size _ H). unfold i32. rewrite Z.mod_small by lia.
    destruct (Z.ltb_spec (Z.of_nat (size (sli_items (nd_remoteNodes w))) + 2 ^ 31 - 2 ^ 31) 0); [lia|done]. }
  destruct (proposedPeers_spec w r (sq_Mode msg) values) as (ps & Hps & Hin).
  { apply Forall_forall. intros v Hin%Hval. destruct (iv_registered _ H v Hin) as [_ (n & Hn & _)].
    destruct (Hh v n Hin Hn) as [host Hhost]. by exists n, host. }
  exists ps. split.
  - unfold sendSyncResponse, getRemoteNodes. rewrite Hv. cbn [obind]. rewrite (getNode_Ret w l r Hl). cbn [obind]. rewrite Hps. cbn [obind].
    destruct ps; [done|]. by apply sendTo_sending.
  - intros p. rewrite Hin. by setoid_rewrite Hval.
Qed.

(** ** Witnesses *)

(** [A] with two peers: [B], and [C] on IPv6. *)
Definition locC : loc := 3%positive.

Definition crowdA : ClusteredBigCache (gmap Z item) :=
  handle (consume (accept quietA "[::1]:4713" [greeting "C" clusterModeACTIVE]) locC) locC.

Lemma crowdA_reachable : reachable crowdA.
Proof. apply reach_handle, reach_consume, reach_accept, quietA_reachable. Qed.

Definition peerIn (w : ClusteredBigCache (gmap Z item)) (l : loc) : remoteNode :=
  match nd_nodes w !! l with Some r => r | None => newRemoteNode (MkNodeConfig [] [] 0 0 0 0 [] false false) end.

Lemma all_at (xs : list (gostring * loc)) (a b : loc) :
  forallb (fun p => Pos.eqb (snd p) a || Pos.eqb (snd p) b) xs = true -> forall id v, (id, v) ∈ xs -> v = a \/ v = b.
Proof.
  rewrite forallb_forall. intros H id v Hin. specialize (H _ (proj1 (list_elem_of_In _ _) Hin)). cbn [snd] in H.
  apply orb_true_iff in H as [H|H]; apply Pos.eqb_eq in H; auto.
Qed.

Lemma crowdA_hosts v n : registered crowdA v -> nd_nodes crowdA !! v = Some n -> exists host, hostOf n host.
Proof.
  intros [id Hid] Hn. assert (v = locB \/ v = locC) as Hv.
  { refine (all_at (map_to_list (sli_items (nd_remoteNodes crowdA))) locB locC _ id v (proj2 (elem_of_map_to_list _ _ _) Hid)).
    vm_compute. reflexivity. }
  assert (n = peerIn crowdA v) as -> by (unfold peerIn; by rewrite Hn). clear Hid Hn.
  destruct Hv as [-> | ->].
  - exists (word "10.0.0.2"), (word "4711"). split; [vm_compute; reflexivity|by vm_compute].
  - exists (word "::1"), (word "4713"). split; [vm_compute; reflexivity|by vm_compute].
Qed.

Lemma sync_proposes_other_peers_witness :
  exists ps, sendSyncResponse crowdA locB (MkSyncReq 0 clusterModeACTIVE) at100 =
      Ret (match ps with
           | [] => crowdA
           | _ => putNode crowdA locB (queued (peerIn crowdA locB)
                    (NSyncRsp (MkSyncRsp 0 (cc_ReplicationFactor (nd_config crowdA)) (Some ps) [])))
           end) /\
    forall p, p ∈ ps <-> exists v n host, registered crowdA v /\ nd_nodes crowdA !! v = Some n /\ hostOf n host /\
      proposes (peerIn crowdA locB) n clusterModeACTIVE /\
      p = MkPeer (rc_Id (rn_config n)) (JoinHostPort host (rc_ServicePort (rn_config n))).
Proof.
  refine (sync_proposes_other_peers crowdA locB (peerIn crowdA locB) (MkSyncReq 0 clusterModeACTIVE) at100
    crowdA_reachable _ _ _ crowdA_hosts).
  - vm_compute. reflexivity.
  - split; vm_compute; try reflexivity. discriminate.
  - vm_compute. reflexivity.
Defined.

(** [B] is told of [C]. *)
Example crowdA_proposes :
  proposedPeers crowdA (peerIn crowdA locB) clusterModeACTIVE [locB; locC] = Ret [MkPeer (word "C") (word "[::1]:9911")].
Proof. vm_compute. reflexivity. Qed.
