(* ===== verification/TestServer.v ===== *)
(** * The peer of the tests ([utils/testUtils.go])

    The server that the repository's tests run remote nodes against: it accepts one connection, answers
    the messages of the protocol by their code and pings once a second.  It reads the
    socket directly, without a buffer and without waiting for all the bytes it asked for. *)

From Stdlib Require Import Strings.String.
From stdpp Require Import base decidable countable list gmap.
From Stdlib Require Import ZArith Lia Strings.Byte.
From S2P Require Import Prelude.
From S2P Require Import Message.
From S2P Require Import JsonMessage.
From S2P Require Import Chan.
From S2P Require Import Connection.

Record TestClient : Type := MkTestClient {
  tcl_conn : option tcpConn;
  tcl_respondToPings : bool
}.

Record TestServer : Type := MkTestServer {
  ts_client : TestClient;
  ts_port : Z;
  ts_started : chan unit
}.

Definition NewTestClient : TestClient := MkTestClient None false.

Definition NewTestServer (port : Z) (respondToPings : bool) : TestServer :=
  MkTestServer (MkTestClient None respondToPings) port (makeChan 0).

(** [Start]: the error it returns, and whether its goroutine was started; [listening] is the error of [net.Listen]. *)
Definition serverStart (listening : option ioError) : option ioError * bool :=
  match listening with
  | Some err => (Some err, false)
  | None => (None, true)
  end.

(** The goroutine of [Start]; [accepted] is what [Accept] returns, nothing when it fails. *)
Definition serverAccept (s : TestServer) (accepted : option tcpConn) : outcome TestServer :=
  match accepted with
  | None => Panic
  | Some conn =>
      let! started := chanClose (ts_started s) in
      Ret (MkTestServer (MkTestClient (Some conn) (tcl_respondToPings (ts_client s))) (ts_port s) started)
  end.

Definition clientClose (c : TestClient) : TestClient :=
  match tcl_conn c with
  | None => c
  | Some conn => MkTestClient (Some (tcpClose conn)) (tcl_respondToPings c)
  end.

(** A message in its frame is written to the socket; [taken] is how many of the bytes it takes, all of them
    unless [Write] fails, which the server does not look at. *)
Definition writeMessage (c : TestClient) (m : message) (taken : option nat) : outcome TestClient :=
  let! wireMsg := serializeMessage m in
  let! data := frame wireMsg in
  match tcl_conn c with
  | None => Panic
  | Some conn => Ret (MkTestClient (Some (tcpSent conn (take (default (length data) taken) data))) (tcl_respondToPings c))
  end.

(** [SendVerifyMessage], once the server has started. *)
Definition SendVerifyMessage (s : TestServer) (id : gostring) (taken : option nat) : outcome TestServer :=
  let! _ := (if ch_closed (ts_started s) then Ret tt else Stuck) in
  let! c := writeMessage (ts_client s) (NVerify (MkVerify id [] (word "1111") 0)) taken in
  Ret (MkTestServer c (ts_port s) (ts_started s)).

(** A tick of the goroutine of [readNetwork]. *)
Definition serverPing (c : TestClient) (taken : option nat) : outcome TestClient := writeMessage c (NPing (MkPing 0)) taken.

(** [conn.Read(buf)]: the bytes that came are stored at the front of the buffer. *)
Definition readInto (t : tcpConn) (buf : list byte) : tcpConn * list byte * option ioError :=
  let '(t, (bs, err)) := tcpRead t (zlen buf) in
  (t, bs ++ drop (length bs) buf, err).

(** The peers the server proposes. *)
Definition proposals : list ProposedPeer :=
  [MkPeer (word "remote_1") (word "192.168.56.21:9990");
   MkPeer (word "remote_2") (word "172.16.111.89:9991");
   MkPeer (word "remote_3") (word "10.10.0.1:9090")].

(** What a code is answered with. *)
Definition serverAnswer (respondToPings : bool) (code : Z) : option message :=
  if code =? MsgVERIFY then Some (NVerifyOK MkVerifyOK)
  else if code =? MsgPING then if respondToPings then Some (NPong (MkPong 0)) else None
  else if code =? MsgVERIFYOK then Some (NSyncReq (MkSyncReq 0 0))
  else if code =? MsgPONG then None
  else if code =? MsgSyncReq then Some (NSyncRsp (MkSyncRsp 0 0 (Some proposals) []))
  else None.

(** A round of [readNetwork]; [header] is the buffer that all rounds share.  [false] ends the loop. *)
Definition readNetwork (c : TestClient) (header : list byte) (taken : option nat) : outcome (TestClient * list byte * bool) :=
  match tcl_conn c with
  | None => Panic
  | Some conn =>
      let set t := MkTestClient (Some t) (tcl_respondToPings c) in
      let '(t, header, err) := readInto conn header in
      match err with
      | Some _ => Ret (set t, header, false)
      | None =>
          let! length := sl_getUint 4 header (sl_all header) in
          let! s := sl_from header (sl_all header) 4 in
          let! code := sl_getUint 2 header s in
          let '(t, err) :=
            if u32 (length - 2) >? 0 then
              let '(t, _, err) := readInto t (zeros (u32 (length - 2))) in (t, err)
            else (t, None) in
          match err with
          | Some _ => Ret (set t, header, false)
          | None =>
              match serverAnswer (tcl_respondToPings c) code with
              | None => Ret (set t, header, true)
              | Some m => let! c := writeMessage (set t) m taken in Ret (c, header, true)
              end
          end
      end
  end.

(** Rounds until the loop ends; the socket takes all it is given. *)
Fixpoint serve (c : TestClient) (header : list byte) (fuel : nat) : outcome TestClient :=
  match fuel with
  | O => Stuck
  | S fuel' =>
      let! r := readNetwork c header None in
      if snd r then serve (fst (fst r)) (snd (fst r)) fuel' else Ret (fst (fst r))
  end.

(** ** Claims *)

Lemma tcpRead_all (t : tcpConn) (size : Z) (bs rest : list byte) (arr : list arrival) :
  tc_open t = true -> tc_arrivals t = Segment (bs ++ rest) :: arr -> zlen bs = size ->
  tcpRead t size =
  (TcpConn (tc_local t) (tc_remote t) (match rest with [] => arr | _ => Segment rest :: arr end) (tc_sent t) true (tc_deadline t),
   (bs, None)).
Proof.
  intros Ho Ha Hs. unfold tcpRead. rewrite Ho, Ha. destruct rest as [|b rest].
  - by rewrite app_nil_r, (proj2 (Z.leb_le _ _)) by lia.
  - rewrite (proj2 (Z.leb_gt _ _)) by (rewrite zlen_app, zlen_cons; pose proof (zlen_nonneg rest); lia).
    by destruct (take_zlen_app bs (b :: rest) size) as [-> ->].
Qed.

(** The bytes of an answer. *)
Definition answerBytes (respondToPings : bool) (msg : NodeWireMessage) : list byte :=
  match serverAnswer respondToPings (wm_Code msg) with
  | None => []
  | Some m => match serializeMessage m with Ret w => frameLayout w | _ => [] end
  end.

Lemma serverAnswer_serializes (pings : bool) (code : Z) (m : message) :
  serverAnswer pings code = Some m -> exists w, serializeMessage m = Ret w.
Proof.
  unfold serverAnswer. repeat case_match; intros [= <-]; eexists; reflexivity.
Qed.

(** A round reads the message of one segment, whatever the buffer held, and answers it. *)
Lemma readNetwork_whole (pings : bool) (t : tcpConn) (header : list byte) (msg : NodeWireMessage) (arr : list arrival) :
  tc_open t = true -> tc_arrivals t = Segment (frameLayout msg) :: arr -> wire_ok msg -> zlen header = 6 ->
  exists header', zlen header' = 6 /\
    readNetwork (MkTestClient (Some t) pings) header None =
    Ret (MkTestClient (Some (TcpConn (tc_local t) (tc_remote t) arr (tc_sent t ++ answerBytes pings msg) true (tc_deadline t))) pings,
         header', true).
Proof.
  intros Ho Ha [Hcode Hlen] Hh. destruct msg as [code d]. cbn [wm_Code wm_Data] in *. pose proof (zlen_nonneg d) as Hd.
  set (h := le_bytes 4 (zlen d + 2) ++ le_bytes 2 code).
  assert (frameLayout (WireMessage code d) = h ++ d) as Hf.
  { unfold frameLayout, h. cbn [wm_Code wm_Data]. unfold u32. rewrite Z.mod_small by lia. by rewrite <- app_assoc. }
  assert (zlen h = 6) as Hzh by (unfold h; by rewrite zlen_app, !zlen_le_bytes). rewrite Hf in Ha.
  assert (h ++ drop (length h) header = h) as Hbuf.
  { rewrite drop_ge by (unfold zlen in *; lia). apply app_nil_r. }
  exists h. split; [done|]. unfold readNetwork, readInto. cbn [tcl_conn tcl_respondToPings].
  rewrite (tcpRead_all t (zlen header) h d arr Ho Ha) by lia. rewrite Hbuf.
  destruct (header_fields (zlen d + 2) code) as [Hl Hc]; [lia|done|]. fold h in Hl, Hc. rewrite Hl. cbn [obind].
  destruct (sl_from h (sl_all h) 4) as [s| |]; try discriminate Hc. cbn [obind] in *. rewrite Hc. cbn [obind].
  replace (u32 (zlen d + 2 - 2)) with (zlen d) by (unfold u32; rewrite Z.mod_small; lia).
  assert (forall t1, match serverAnswer pings code with
      | None => Ret (MkTestClient (Some t1) pings, h, true)
      | Some m => let! c := writeMessage (MkTestClient (Some t1) pings) m None in Ret (c, h, true)
      end = Ret (MkTestClient (Some (tcpSent t1 (answerBytes pings (WireMessage code d)))) pings, h, true)) as Hans.
  { intros t1. unfold answerBytes. cbn [wm_Code]. destruct (serverAnswer pings code) as [m|] eqn:Em.
    - destruct (serverAnswer_serializes pings code m Em) as [w Hw]. unfold writeMessage. rewrite Hw. cbn [obind].
      rewrite frame_Ret. cbn [obind tcl_conn default tcl_respondToPings]. by rewrite take_ge by lia.
    - destruct t1. unfold tcpSent. cbn. by rewrite app_nil_r. }
  destruct d as [|b d]; [exact (Hans _)|].
  replace (zlen (b :: d) >? 0) with true by (symmetry; rewrite zlen_cons; apply Z.gtb_lt; pose proof (zlen_nonneg d); lia).
  rewrite (tcpRead_all _ (zlen (zeros (zlen (b :: d)))) (b :: d) [] arr); [by rewrite Hans|done| |].
  - cbn [tc_arrivals]. by rewrite app_nil_r.
  - by rewrite zlen_zeros by done.
Qed.

(** The test server follows the protocol.  When every message reaches it in a piece of its own, the server reads them
    all to the end of the connection and writes, in their order, the answer to each: a verification is answered with an
    approval, an approval with a request for peers, that request with three peers, and a ping with a pong
    if it is told to. *)
Theorem test_server_answers (pings : bool) (t : tcpConn) (header : list byte) (msgs : list NodeWireMessage) :
  tc_open t = true -> tc_arrivals t = map (fun m => Segment (frameLayout m)) msgs -> Forall wire_ok msgs -> zlen header = 6 ->
  exists t', serve (MkTestClient (Some t) pings) header (S (length msgs)) = Ret (MkTestClient (Some t') pings) /\
    tc_sent t' = tc_sent t ++ concat (map (answerBytes pings) msgs).
Proof.
  revert t header. induction msgs as [|msg msgs IH]; intros t header Ho Ha Hw Hh.
  - exists t. cbn [length serve map concat]. rewrite app_nil_r. split; [|done].
    unfold readNetwork, readInto, tcpRead. cbn [tcl_conn]. rewrite Ho, Ha. reflexivity.
  - apply Forall_cons in Hw as [Hm Hw]. cbn [map] in Ha.
    destruct (readNetwork_whole pings t header msg _ Ho Ha Hm Hh) as (header' & Hh' & Hr).
    set (t1 := TcpConn _ _ _ _ _ _) in Hr.
    assert (serve (MkTestClient (Some t) pings) header (S (length (msg :: msgs))) =
      serve (MkTestClient (Some t1) pings) header' (S (length msgs))) as ->.
    { change (length (msg :: msgs)) with (S (length msgs)). cbn [serve]. rewrite Hr. reflexivity. }
    destruct (IH t1 header' eq_refl eq_refl Hw Hh') as (t' & Hs & Ht). exists t'. split; [exact Hs|].
    rewrite Ht. cbn [tc_sent map concat]. by rewrite app_assoc.
Qed.

(** A header that comes in two pieces is not put together: the first round takes the missing bytes from the round before, and
    the message is not answered when the code is among them. *)
Theorem test_server_short_header (pings : bool) (t : tcpConn) (a b : list byte) (arr : list arrival) :
  tc_open t = true -> tc_arrivals t = Segment a :: Segment b :: arr -> zlen a <= 4 ->
  exists t' header' go, readNetwork (MkTestClient (Some t) pings) (zeros 6) None = Ret (MkTestClient (Some t') pings, header', go) /\
    tc_sent t' = tc_sent t.
Proof.
  intros Ho Ha Hl. unfold readNetwork, readInto. cbn [tcl_conn tcl_respondToPings].
  assert (tcpRead t (zlen (zeros 6)) =
    (TcpConn (tc_local t) (tc_remote t) (Segment b :: arr) (tc_sent t) (tc_open t) (tc_deadline t), (a, None))) as ->.
  { unfold tcpRead. rewrite Ho, Ha. by rewrite (proj2 (Z.leb_le _ _)) by (rewrite zlen_zeros; lia). }
  set (h := a ++ drop (length a) (zeros 6)).
  assert (exists n, h = a ++ replicate n x00 /\ (length a + n = 6)%nat) as (n & Hh & Hn).
  { exists (6 - length a)%nat. unfold zlen in Hl. split; [|lia]. unfold h, zeros. by rewrite drop_replicate. }
  assert (zlen h = 6) as Hz by (rewrite Hh; unfold zlen; rewrite length_app, length_replicate; lia).
  rewrite sl_getUint_Ret by (cbn [sl_len sl_all]; lia). cbn [obind]. rewrite sl_from_Ret by (cbn [sl_len sl_all]; lia). cbn [obind sl_off sl_len sl_all].
  rewrite sl_getUint_Ret by (cbn [sl_len]; lia). cbn [obind sl_off].
  assert (le_Z (region h (0 + 4) 2) = 0) as ->.
  { unfold region. rewrite Hh, drop_app_ge by (unfold zlen in Hl; lia). rewrite drop_replicate, take_replicate.
    generalize (Z.to_nat 2 `min` (n - (Z.to_nat (0 + 4) - length a)))%nat. intros k. induction k as [|k IH]; [done|]. cbn. by rewrite IH. }
  destruct (u32 (le_Z (region h 0 4) - 2) >? 0).
  - match goal with |- context [tcpRead ?x ?y] => destruct (tcpRead x y) as [t2 [bs err]] eqn:E end.
    assert (tc_sent t2 = tc_sent t) as Hs.
    { unfold tcpRead in E. cbn [tc_open tc_arrivals] in E. rewrite Ho in E. destruct (zlen b <=? _); by injection E as <- _ _. }
    destruct err; eexists _, _, _; (split; [reflexivity|exact Hs]).
  - eexists _, _, _. split; reflexivity.
Qed.

(** ** Witnesses *)

Definition framesOf (ms : list message) : list NodeWireMessage :=
  map (fun m => match serializeMessage m with Ret w => w | _ => WireMessage 0 [] end) ms.

(** A greeting, a ping and a request for peers. *)
Definition toServer : list message := [NVerify (MkVerify (word "A") [] (word "9911") 0); NPing (MkPing 0); NSyncReq (MkSyncReq 0 0)].

Definition serverSocket : tcpConn :=
  TcpConn (word "10.0.0.9:9093") (word "10.0.0.1:4711") (map (fun m => Segment (frameLayout m)) (framesOf toServer)) [] true None.

Lemma test_server_answers_witness :
  exists t', serve (MkTestClient (Some serverSocket) true) (zeros 6) 4 = Ret (MkTestClient (Some t') true) /\
    tc_sent t' = tc_sent serverSocket ++ concat (map (answerBytes true) (framesOf toServer)).
Proof.
  apply (test_server_answers true serverSocket (zeros 6) (framesOf toServer)).
  - reflexivity.
  - reflexivity.
  - repeat constructor; vm_compute; reflexivity || discriminate.
  - reflexivity.
Defined.
