(* ===== verification/Logging.v ===== *)
(** * Logging ([bigcache/logger.go], [utils/loggerWrapper.go], [utils/defs.go])

    The loggers are supplied by the application, as interfaces.  What the program does with them: it never
    calls a logger that is not there, and a cache without one logs through package [log]. *)

From stdpp Require Import base list.
From S2P Require Import Prelude.

(** [AppLogger]: the methods of a logger, by what they do to it. *)
Class AppLogger (L : Type) : Type := {
  al_Info : L -> gostring -> L;
  al_Warn : L -> gostring -> L;
  al_Critical : L -> gostring -> L;
  al_Error : L -> gostring -> L
}.

Section Wrapper.
Context {L : Type} `{!AppLogger L}.

(** [None] is the nil interface. *)
Definition Info (logger : option L) (msg : gostring) : option L :=
  match logger with Some l => Some (al_Info l msg) | None => None end.

Definition Error (logger : option L) (msg : gostring) : option L :=
  match logger with Some l => Some (al_Error l msg) | None => None end.

Definition Warn (logger : option L) (msg : gostring) : option L :=
  match logger with Some l => Some (al_Warn l msg) | None => None end.

Definition Critical (logger : option L) (msg : gostring) : option L :=
  match logger with Some l => Some (al_Critical l msg) | None => None end.
End Wrapper.

(** [Logger] of package [bigcache]: a format and its arguments. *)
Class Logger (L A : Type) : Type := { lg_Printf : L -> gostring -> list A -> L }.

(** The [log.Logger] that [DefaultLogger] sets up: where it writes, its prefix and its flags. *)
Record stdLogger : Type := StdLogger { sl_stdout : bool; sl_prefix : gostring; sl_flags : Z; sl_lines : list gostring }.

(** [log.LstdFlags]: date and time. *)
Definition LstdFlags : Z := 3.

Definition DefaultLogger : stdLogger := StdLogger true [] LstdFlags [].

Definition newLogger {L : Type} (custom : option L) : L + stdLogger :=
  match custom with Some l => inl l | None => inr DefaultLogger end.
